(** * Delicious: the exe-to-sb3 converter of [main.py]

    A shallow embedding of [custom_relpath], [convert_exe_to_sb3],
    [_update_progress] and [_cleanup_temp_dir], together with the parts of
    [os.path], [os] and [zipfile] they call, and of the handler of the
    conversion button of [MainWindow] with the validation it runs first;
    then the properties of the conversion pipeline.

    Python [str] values are lists of bytes, those of their UTF-8 encoding.
    The host (POSIX or Windows flavour of [os.path], the current directory
    and the standard output) is an explicit parameter, because the source
    hard-codes the backslash in two places while taking every other
    separator from [os.path], and because [print] can fail. *)

From Stdlib Require Import Ascii String List Bool Arith ZArith Lia.
Import ListNotations.

Set Implicit Arguments.
Set Warnings "-register-all".

Local Open Scope list_scope.

(** ** Python strings *)

Module PyStr.

Definition pystr := list ascii.

Definition str (s : string) : pystr := list_ascii_of_string s.

Definition chr_eqb (a b : ascii) : bool := Ascii.eqb a b.

Fixpoint str_eqb (a b : pystr) : bool :=
  match a, b with
  | [], [] => true
  | x :: a', y :: b' => chr_eqb x y && str_eqb a' b'
  | _, _ => false
  end.

(** [s.startswith(p)] *)
Fixpoint startswith (p s : pystr) : bool :=
  match p, s with
  | [], _ => true
  | x :: p', y :: s' => chr_eqb x y && startswith p' s'
  | _ :: _, [] => false
  end.

(** [sub in s] on strings: [sub] occurs somewhere in [s] as a run of
    consecutive characters. *)
Fixpoint contains (sub s : pystr) : bool :=
  startswith sub s ||
  match s with
  | [] => false
  | _ :: s' => contains sub s'
  end.

(** [s.lstrip(c)] for a one-character [c]. *)
Fixpoint lstrip (c : ascii) (s : pystr) : pystr :=
  match s with
  | x :: s' => if chr_eqb x c then lstrip c s' else s
  | [] => []
  end.

(** [s.lstrip(chars)] for a set of characters given as a predicate. *)
Fixpoint lstrip_if (f : ascii -> bool) (s : pystr) : pystr :=
  match s with
  | x :: s' => if f x then lstrip_if f s' else s
  | [] => []
  end.

(** A character outside ASCII takes several bytes in UTF-8: a lead byte
    ([11xxxxxx]) and continuation bytes ([10xxxxxx]).  The characters the
    source looks for (separators, the dot, the colon) are ASCII, and no
    byte of a longer character equals an ASCII byte, so that comparing,
    splitting, stripping and searching act on the bytes as they act on the
    characters.  [commonprefix] is the one operation that can stop between
    two characters that share their first bytes. *)
Definition is_continuation (c : ascii) : bool :=
  match c with
  | Ascii _ _ _ _ _ _ false true => true
  | _ => false
  end.

Definition is_lead (c : ascii) : bool :=
  match c with
  | Ascii _ _ _ _ _ _ true true => true
  | _ => false
  end.

(** The longest common leading run of bytes. *)
Fixpoint common_bytes (a b : pystr) : pystr :=
  match a, b with
  | x :: a', y :: b' => if chr_eqb x y then x :: common_bytes a' b' else []
  | _, _ => []
  end.

(** [s] begins inside a character. *)
Definition starts_inside (s : pystr) : bool :=
  match s with
  | c :: _ => is_continuation c
  | [] => false
  end.

(** [s] without the bytes of a character that its end begins. *)
Definition whole_characters (s : pystr) : pystr :=
  match lstrip_if is_continuation (rev s) with
  | c :: r => if is_lead c then rev r else s
  | [] => s
  end.

(** [os.path.commonprefix([a, b])]: the longest common leading run of
    characters (character by character, not segment by segment).  On the
    bytes: the common bytes, without the first bytes of a character in
    which the two strings differ. *)
Definition commonprefix (a b : pystr) : pystr :=
  let common := common_bytes a b in
  if starts_inside (skipn (length common) a)
     || starts_inside (skipn (length common) b)
  then whole_characters common
  else common.

(** [s.split(c)]: never empty, [''.split(c) = ['']]. *)
Fixpoint split (c : ascii) (s : pystr) : list pystr :=
  match s with
  | [] => [[]]
  | x :: s' =>
      if chr_eqb x c then [] :: split c s'
      else match split c s' with
           | h :: t => (x :: h) :: t
           | [] => [[x]]
           end
  end.

(** [c.join(parts)] *)
Fixpoint join_with (c : ascii) (parts : list pystr) : pystr :=
  match parts with
  | [] => []
  | [p] => p
  | p :: rest => p ++ c :: join_with c rest
  end.

(** [s.replace(a, b)] for one-character [a] and [b]. *)
Definition replace_chr (a b : ascii) (s : pystr) : pystr :=
  map (fun x => if chr_eqb x a then b else x) s.

(** The part of [s] after the last character satisfying [f]
    ([s[s.rfind(...)+1:]]), and the part up to and including it. *)
Fixpoint after_last (f : ascii -> bool) (s : pystr) : pystr :=
  match s with
  | [] => []
  | x :: s' => if existsb f s' then after_last f s'
               else if f x then s' else s
  end.

Fixpoint upto_last (f : ascii -> bool) (s : pystr) : pystr :=
  match s with
  | [] => []
  | x :: s' => if existsb f s' then x :: upto_last f s'
               else if f x then [x] else []
  end.

Definition endswith_if (f : ascii -> bool) (s : pystr) : bool :=
  match rev s with
  | x :: _ => f x
  | [] => false
  end.

End PyStr.
Import PyStr.

Definition slash : ascii := "/"%char.
Definition backslash : ascii := "\"%char.
Definition dot : ascii := "."%char.
Definition colon : ascii := ":"%char.

(** ** Exceptions *)

(** The classes of exceptions that the handlers of the source tell apart:
    [except BadZipFile], [except RuntimeError] and [except Exception].
    [OtherException] stands for every other class that derives from
    [Exception] ([OSError], [ValueError], [UnicodeEncodeError], ...).

    Only exceptions that derive from [Exception] have a counterpart here.
    [KeyboardInterrupt], [SystemExit] and [GeneratorExit] derive from
    [BaseException] alone, no handler of the source catches them (lines
    109, 120, 130 and 143 name [Exception] or a subclass), and a call that
    one of them leaves is not among the runs described below: every
    statement about what the converter catches is about exceptions that
    derive from [Exception]. *)
Inductive exc_class : Type :=
| BadZipFile | RuntimeError | OtherException.

(** An exception object: its class and [str(e)]. *)
Record exn : Type := Exn { exn_class : exc_class; exn_str : pystr }.

Definition isinstance_BadZipFile (e : exn) : bool :=
  match exn_class e with BadZipFile => true | _ => false end.
Definition isinstance_RuntimeError (e : exn) : bool :=
  match exn_class e with RuntimeError => true | _ => false end.

(** [isinstance(e, Exception)]: it holds of each of the three classes,
    since none of them stands for an exception outside [Exception]. *)
Definition isinstance_Exception (e : exn) : bool :=
  match exn_class e with
  | BadZipFile | RuntimeError | OtherException => true
  end.

(** ** The host: which [os.path] is loaded, the current directory, and the
    standard output *)

Inductive platform : Type := Posix | Windows.

(** [sys_stdout] is [sys.stdout]: [None] when the interpreter has no
    standard output (a windowed executable), otherwise the stream, given by
    what writing a line to it raises, if anything: [UnicodeEncodeError]
    when its encoding has no code for a character of the line, [OSError] or
    [ValueError] when it is closed. *)
Record host : Type := Host {
  plat : platform;
  getcwd : pystr;
  sys_stdout : option (pystr -> option exn)
}.

(** [os.sep] *)
Definition os_sep (p : platform) : ascii :=
  match p with Posix => slash | Windows => backslash end.

(** Membership in [os.sep + (os.altsep or '')]. *)
Definition is_sep (p : platform) (c : ascii) : bool :=
  match p with
  | Posix => chr_eqb c slash
  | Windows => chr_eqb c backslash || chr_eqb c slash
  end.

Definition curdir : pystr := str ".".
Definition pardir : pystr := str "..".

(** The component loop shared by [posixpath.normpath] and
    [ntpath.normpath]: empty and [.] components are dropped; a [..] pops the
    previous component unless that one is itself [..]; at the start of the
    list a [..] is dropped when the path is rooted and kept otherwise.  The
    kept components are accumulated in reverse. *)
Fixpoint collapse_dots (rooted : bool) (kept : list pystr) (comps : list pystr)
  : list pystr :=
  match comps with
  | [] => kept
  | c :: rest =>
      if str_eqb c [] || str_eqb c curdir then collapse_dots rooted kept rest
      else if str_eqb c pardir then
        match kept with
        | top :: kept' =>
            if str_eqb top pardir then collapse_dots rooted (c :: kept) rest
            else collapse_dots rooted kept' rest
        | [] =>
            if rooted then collapse_dots rooted kept rest
            else collapse_dots rooted (c :: kept) rest
        end
      else collapse_dots rooted (c :: kept) rest
  end.

Module posixpath.

Definition isabs (s : pystr) : bool := startswith [slash] s.

Definition join2 (path b : pystr) : pystr :=
  if startswith [slash] b then b
  else match path with
       | [] => path ++ b
       | _ => if endswith_if (chr_eqb slash) path then path ++ b
              else path ++ slash :: b
       end.

Definition join (a : pystr) (p : list pystr) : pystr := fold_left join2 p a.

Definition initial_slashes (path : pystr) : nat :=
  if startswith [slash] path then
    if startswith [slash; slash] path && negb (startswith [slash; slash; slash] path)
    then 2 else 1
  else 0.

Definition normpath (path : pystr) : pystr :=
  match path with
  | [] => curdir
  | _ =>
      let n := initial_slashes path in
      let comps := rev (collapse_dots (negb (Nat.eqb n 0)) [] (split slash path)) in
      match repeat slash n ++ join_with slash comps with
      | [] => curdir
      | r => r
      end
  end.

Definition abspath (cwd path : pystr) : pystr :=
  normpath (if isabs path then path else join cwd [path]).

Definition basename (p : pystr) : pystr := after_last (chr_eqb slash) p.

End posixpath.

Module ntpath.

(** Drive-letter drives only ([X:]); UNC shares and device paths are not
    modelled, so the adjustment [join] makes for a UNC drive at its end
    never applies. *)
Definition splitdrive (p : pystr) : pystr * pystr :=
  match p with
  | c :: d :: rest => if chr_eqb d colon then ([c; d], rest) else ([], p)
  | _ => ([], p)
  end.

Definition lower_chr (c : ascii) : ascii :=
  let n := nat_of_ascii c in
  if (65 <=? n) && (n <=? 90) then ascii_of_nat (n + 32) else c.

Definition lower (s : pystr) : pystr := map lower_chr s.

Definition both_seps (c : ascii) : bool := is_sep Windows c.

Definition head_is_sep (s : pystr) : bool :=
  match s with c :: _ => both_seps c | [] => false end.

Definition isabs (s : pystr) : bool := head_is_sep (snd (splitdrive s)).

(** One round of the loop of [ntpath.join] over the state
    [(result_drive, result_path)]. *)
Definition join_step (st : pystr * pystr) (p : pystr) : pystr * pystr :=
  let (result_drive, result_path) := st in
  let (p_drive, p_path) := splitdrive p in
  let relative (drive : pystr) :=
    (drive,
     match result_path with
     | [] => p_path
     | _ => if endswith_if both_seps result_path then result_path ++ p_path
            else result_path ++ backslash :: p_path
     end) in
  if head_is_sep p_path then
    ((match p_drive, result_drive with
      | _ :: _, _ => p_drive
      | [], [] => p_drive
      | [], _ :: _ => result_drive
      end), p_path)
  else
    match p_drive with
    | _ :: _ =>
        if negb (str_eqb p_drive result_drive) then
          if negb (str_eqb (lower p_drive) (lower result_drive))
          then (p_drive, p_path)
          else relative p_drive
        else relative result_drive
    | [] => relative result_drive
    end.

Definition join (path : pystr) (paths : list pystr) : pystr :=
  let (result_drive, result_path) := fold_left join_step paths (splitdrive path) in
  result_drive ++ result_path.

Definition special_prefix (path : pystr) : bool :=
  startswith (str "\\.\") path || startswith (str "\\?\") path.

Definition normpath (path : pystr) : pystr :=
  if special_prefix path then path
  else
    let path := replace_chr slash backslash path in
    let (prefix, path) := splitdrive path in
    let (prefix, path) :=
      if startswith [backslash] path
      then (prefix ++ [backslash], lstrip backslash path)
      else (prefix, path) in
    let comps :=
      rev (collapse_dots (endswith_if (chr_eqb backslash) prefix) []
             (split backslash path)) in
    let comps :=
      match prefix, comps with
      | [], [] => [curdir]
      | _, _ => comps
      end in
    prefix ++ join_with backslash comps.

(** The library's pure fallback for [abspath] (the Win32 call
    [GetFullPathNameW] agrees with it on drive-absolute paths). *)
Definition abspath (cwd path : pystr) : pystr :=
  normpath (if isabs path then path else join cwd [path]).

Definition basename (p : pystr) : pystr :=
  after_last both_seps (snd (splitdrive p)).

End ntpath.

(** [os.path], dispatched on the host. *)
Module os_path.

Definition join (h : host) (a : pystr) (p : list pystr) : pystr :=
  match plat h with
  | Posix => posixpath.join a p
  | Windows => ntpath.join a p
  end.

Definition normpath (h : host) (path : pystr) : pystr :=
  match plat h with
  | Posix => posixpath.normpath path
  | Windows => ntpath.normpath path
  end.

Definition abspath (h : host) (path : pystr) : pystr :=
  match plat h with
  | Posix => posixpath.abspath (getcwd h) path
  | Windows => ntpath.abspath (getcwd h) path
  end.

Definition basename (h : host) (p : pystr) : pystr :=
  match plat h with
  | Posix => posixpath.basename p
  | Windows => ntpath.basename p
  end.

(** [genericpath._splitext]: the extension starts at the last dot of the
    last segment, provided some character other than a dot precedes it in
    that segment. *)
Definition splitext (h : host) (p : pystr) : pystr * pystr :=
  let name := after_last (is_sep (plat h)) p in
  let dir_len := length p - length name in
  if existsb (chr_eqb dot) name then
    let stem := removelast (upto_last (chr_eqb dot) name) in
    if existsb (fun c => negb (chr_eqb c dot)) stem
    then (firstn (dir_len + length stem) p, skipn (dir_len + length stem) p)
    else (p, [])
  else (p, []).

End os_path.

(** ** [custom_relpath] *)

(** The loop over [parts] (lines 40-46): [rel] is a Python list used as a
    stack, here with its last element first. *)
Fixpoint relpath_loop (rel : list pystr) (parts : list pystr) : list pystr :=
  match parts with
  | [] => rel
  | part :: rest =>
      if str_eqb part pardir then
        match rel with
        | _ :: rel' => relpath_loop rel' rest
        | [] => relpath_loop rel rest
        end
      else if negb (str_eqb part curdir) then relpath_loop (part :: rel) rest
      else relpath_loop rel rest
  end.

Definition custom_relpath (h : host) (path start : pystr) : pystr :=
  let path := os_path.abspath h (os_path.normpath h path) in
  let start := os_path.abspath h (os_path.normpath h start) in
  if negb (contains start path) then path
  else
    let common := commonprefix path start in
    let rel_path := lstrip (os_sep (plat h)) (skipn (length common) path) in
    let parts := split (os_sep (plat h)) rel_path in
    let rel := rev (relpath_loop [] parts) in
    join_with (os_sep (plat h)) rel.

(** ** Progress events and the effect monad *)

(** One invocation of the progress callback: [(value, message)]. *)
Definition progress_event : Type := (Z * pystr)%type.

(** A progress callback, as far as the converter can observe it: given the
    invocations made so far and the current one, it returns ([None]) or
    raises. *)
Definition callback : Type := list progress_event -> Z -> pystr -> option exn.

Inductive outcome (A : Type) : Type :=
| Return (a : A)
| Raise (e : exn).
Arguments Return {A} a.
Arguments Raise {A} e.

Section Converter.

(** [S] is the state of the file system. *)
Variable S : Type.

Record world : Type := World {
  fs : S;
  events : list progress_event;   (* callback invocations, oldest first *)
  stdout : list pystr             (* lines written to [sys.stdout] *)
}.

Definition M (A : Type) : Type := world -> outcome A * world.

Definition ret {A} (a : A) : M A := fun w => (Return a, w).

Definition bind {A B} (m : M A) (k : A -> M B) : M B :=
  fun w => match m w with
           | (Return a, w') => k a w'
           | (Raise e, w') => (Raise e, w')
           end.

Notation "x <- m ;; k" := (bind m (fun x => k))
  (at level 61, m at next level, right associativity).
Notation "m ;;; k" := (bind m (fun _ => k))
  (at level 61, right associativity).

(** [try: body / except <class> as e: handler e].  Effects of [body] up to
    the raise are kept. *)
Definition try_except {A} (catches : exn -> bool) (body : M A)
    (handler : exn -> M A) : M A :=
  fun w => match body w with
           | (Raise e, w') => if catches e then handler e w' else (Raise e, w')
           | r => r
           end.

Fixpoint for_each {A} (l : list A) (body : A -> M unit) : M unit :=
  match l with
  | [] => ret tt
  | x :: rest => body x ;;; for_each rest body
  end.

(** The operations of [os], [os.path] and [zipfile] that touch the file
    system.  [walk] gives the triples [(root, dirs, files)] in the order the
    generator yields them. *)
Record OS : Type := {
  os_makedirs_exist_ok : pystr -> S -> outcome unit * S;
  os_path_exists : pystr -> S -> bool;
  os_walk : bool -> pystr -> S -> list (pystr * list pystr * list pystr);
  os_remove : pystr -> S -> outcome unit * S;
  os_rmdir : pystr -> S -> outcome unit * S;
  (* with ZipFile(src, 'r') as z: z.extractall(dest) *)
  zip_extractall : pystr -> pystr -> S -> outcome unit * S;
  (* ZipFile(target, 'w'), .write(src, arcname=...), .close() *)
  zip_open_w : pystr -> S -> outcome unit * S;
  zip_write : pystr -> pystr -> pystr -> S -> outcome unit * S;
  zip_close : pystr -> S -> outcome unit * S
}.

Variable h : host.
Variable os : OS.

Definition lift {A} (op : S -> outcome A * S) : M A :=
  fun w => let (r, s') := op (fs w) in (r, World s' (events w) (stdout w)).

Definition query {A} (q : S -> A) : M A := fun w => (Return (q (fs w)), w).

(** [print(line)]: without a standard output nothing happens; a line that
    the stream refuses is not written, and the exception is raised. *)
Definition print (line : pystr) : M unit :=
  fun w =>
    match sys_stdout h with
    | None => (Return tt, w)
    | Some write =>
        match write line with
        | None => (Return tt, World (fs w) (events w) (stdout w ++ [line]))
        | Some e => (Raise e, w)
        end
    end.

(** [with ZipFile(target, 'w') as new_zip: body]: the archive is closed
    when the block is left, also by an exception. *)
Definition with_ZipFile_w (target : pystr) (body : M unit) : M unit :=
  lift (zip_open_w os target) ;;;
  fun w => match body w with
           | (Return tt, w1) => lift (zip_close os target) w1
           | (Raise e, w1) =>
               match lift (zip_close os target) w1 with
               | (Return _, w2) => (Raise e, w2)
               | (Raise e2, w2) => (Raise e2, w2)
               end
           end.

(** *** [_update_progress] *)

Definition invoke (cb : callback) (value : Z) (message : pystr) : M unit :=
  fun w =>
    let w' := World (fs w) (events w ++ [(value, message)]) (stdout w) in
    match cb (events w) value message with
    | None => (Return tt, w')
    | Some e => (Raise e, w')
    end.

Definition _update_progress (callback : option callback) (value : Z)
    (message : pystr) : M unit :=
  match callback with
  | Some cb =>
      try_except isinstance_RuntimeError (invoke cb value message)
        (fun _ => ret tt)
  | None => ret tt
  end.

(** *** [_cleanup_temp_dir] *)

Definition _cleanup_temp_dir (temp_dir : pystr) : M unit :=
  try_except isinstance_Exception
    (triples <- query (os_walk os false temp_dir) ;;
     for_each triples (fun '(root, dirs, files) =>
       for_each files (fun name =>
         lift (os_remove os (os_path.join h root [name]))) ;;;
       for_each dirs (fun name =>
         lift (os_rmdir os (os_path.join h root [name])))) ;;;
     lift (os_rmdir os temp_dir))
    (fun e => print (str "清理临时目录失败：" ++ exn_str e)).

(** *** [convert_exe_to_sb3] *)

(** Lines 80-85: the characters equal to [/] are overwritten with a
    backslash, in place, at the index the loop counts in [sum]. *)
Fixpoint overwrite_slashes (temp_dir : list ascii) : list ascii :=
  match temp_dir with
  | [] => []
  | i :: rest =>
      (if chr_eqb i slash then backslash else i) :: overwrite_slashes rest
  end.

(** Lines 86-91: the list of characters is concatenated back to a string. *)
Definition rebuild (temp : list ascii) : pystr :=
  fold_left (fun temp_dir c => temp_dir ++ [c]) temp [].

Definition normalize_separators (temp_dir : pystr) : pystr :=
  rebuild (overwrite_slashes temp_dir).

Definition target_zip_name_of (zip_file_name output_dir : pystr) : pystr :=
  let file_name := os_path.basename h zip_file_name in
  os_path.join h output_dir [fst (os_path.splitext h file_name) ++ str ".sb3"].

Definition app_dir_of (output_dir : pystr) : pystr :=
  let temp_dir := os_path.join h output_dir [str "temp_extract"] in
  let temp_dir := normalize_separators temp_dir in
  os_path.join h temp_dir [str "packaged-project"; str "resources"; str "app"]
    ++ [backslash].

Definition msg_extracting : pystr := str "正在解压文件...".
Definition msg_invalid_zip : pystr := str "错误：无效的ZIP文件格式".
Definition msg_missing_dir (app_dir : pystr) : pystr :=
  str "错误：缺少资源目录 " ++ app_dir.
Definition msg_packing : pystr := str "正在打包SB3文件...".
Definition msg_write_error (e : exn) : pystr := str "写入错误：" ++ exn_str e.
Definition msg_cleaning : pystr := str "正在清理临时文件...".
Definition msg_done : pystr := str "转换完成！".
Definition msg_unexpected (e : exn) : pystr := str "未预期错误：" ++ exn_str e.

(** Stage 3, the body of the inner [try] (lines 102-108). *)
Definition repack (target_zip_name app_dir : pystr) : M unit :=
  with_ZipFile_w target_zip_name
    (triples <- query (os_walk os true app_dir) ;;
     for_each triples (fun '(root, dirs, files) =>
       for_each files (fun file =>
         let src_path := os_path.join h root [file] in
         let rel_path := os_path.join h (custom_relpath h root app_dir) [file] in
         lift (zip_write os target_zip_name src_path rel_path)))).

(** A [return] inside a [try] block leaves the function with its value; the
    stages below either return early ([Some b]) or fall through ([None]). *)
Definition convert_exe_to_sb3 (zip_file_name output_dir : pystr)
    (progress_callback : option callback) : M bool :=
  try_except isinstance_Exception
    (let target_zip_name := target_zip_name_of zip_file_name output_dir in
     let temp_dir := os_path.join h output_dir [str "temp_extract"] in
     lift (os_makedirs_exist_ok os temp_dir) ;;;
     _update_progress progress_callback 10 msg_extracting ;;;
     stage1 <- try_except isinstance_BadZipFile
                 (lift (zip_extractall os zip_file_name temp_dir) ;;; ret None)
                 (fun _ =>
                    _update_progress progress_callback 0 msg_invalid_zip ;;;
                    ret (Some false)) ;;
     match stage1 with
     | Some b => ret b
     | None =>
         let temp_dir := normalize_separators temp_dir in
         let app_dir := app_dir_of output_dir in
         present <- query (os_path_exists os app_dir) ;;
         if negb present then
           _update_progress progress_callback 0 (msg_missing_dir app_dir) ;;;
           ret false
         else
           _update_progress progress_callback 50 msg_packing ;;;
           stage3 <- try_except isinstance_Exception
                       (repack target_zip_name app_dir ;;; ret None)
                       (fun e =>
                          _update_progress progress_callback 0 (msg_write_error e) ;;;
                          ret (Some false)) ;;
           match stage3 with
           | Some b => ret b
           | None =>
               _update_progress progress_callback 80 msg_cleaning ;;;
               _cleanup_temp_dir temp_dir ;;;
               _update_progress progress_callback 100 msg_done ;;;
               ret true
           end
     end)
    (fun e =>
       _update_progress progress_callback 0 (msg_unexpected e) ;;;
       ret false).

End Converter.

Arguments World {S} fs events stdout.
Arguments fs {S} w.
Arguments events {S} w.
Arguments stdout {S} w.

(** ** A file system of files and directories *)

(** What a regular file holds.

    [Bytes]: data in which [zipfile] finds no archive; opening it raises
    [BadZipFile] before anything is read or written.

    [Archive]: a zip archive with its members in order.  A member whose name
    ends in [/] is a directory entry.

    [Damaged]: an archive that opens, whose first members [members] are
    sound and whose next member, the file entry [name], is not: reading it
    raises [error] ([BadZipFile] for a local header that does not match or
    a wrong CRC-32, another exception for a corrupt compressed stream, an
    unknown compression method or a missing password).  [written] is what
    an extraction has put into the file of the member when the exception
    is raised: [None] when the header is rejected before the file is
    opened, the data read before the error otherwise.  What follows the
    member is never read and is not represented.

    Of a member only the name and the data are represented.  Its time
    stamp, its permission bits and the way it is compressed are not: two
    archives with the same members in the same order are the same value
    here, though [ZipFile.write] stores the modification time of the file
    it packs, so that the bytes of two such archives can differ. *)
Inductive content : Type :=
| Bytes (data : pystr)
| Archive (members : list (pystr * content))
| Damaged (members : list (pystr * content)) (name : pystr)
          (written : option content) (error : exn).

(** A directory lists its entries in the order [os.scandir] reports them.
    Names are compared as written (no case folding). *)
Inductive node : Type :=
| File (c : content)
| Dir (entries : list (pystr * node)).

Module FS.

Section Assoc.
Variable A : Type.

Fixpoint get (name : pystr) (l : list (pystr * A)) : option A :=
  match l with
  | [] => None
  | (n, v) :: rest => if str_eqb n name then Some v else get name rest
  end.

(** Replace the entry [name] where it stands, or add it at the end. *)
Fixpoint set (name : pystr) (v : A) (l : list (pystr * A)) : list (pystr * A) :=
  match l with
  | [] => [(name, v)]
  | (n, x) :: rest =>
      if str_eqb n name then (n, v) :: rest else (n, x) :: set name v rest
  end.

Fixpoint del (name : pystr) (l : list (pystr * A)) : list (pystr * A) :=
  match l with
  | [] => []
  | (n, x) :: rest =>
      if str_eqb n name then rest else (n, x) :: del name rest
  end.
End Assoc.

(** The node at a location (a list of names from the root). *)
Fixpoint lookup_opt (o : option node) (loc : list pystr) : option node :=
  match loc with
  | [] => o
  | n :: loc' =>
      match o with
      | Some (Dir es) => lookup_opt (get n es) loc'
      | _ => None
      end
  end.

Definition lookup (root : node) (loc : list pystr) : option node :=
  lookup_opt (Some root) loc.

(** Put [v] at a location whose parent is an existing directory. *)
Fixpoint put_opt (o : option node) (loc : list pystr) (v : node) : option node :=
  match loc with
  | [] => Some v
  | n :: loc' =>
      match o with
      | Some (Dir es) =>
          match put_opt (get n es) loc' v with
          | Some c => Some (Dir (set n c es))
          | None => None
          end
      | _ => None
      end
  end.

(** Remove the entry at a location. *)
Fixpoint del_at (t : node) (loc : list pystr) : option node :=
  match loc with
  | [] => None
  | [n] =>
      match t with
      | Dir es => Some (Dir (del n es))
      | File _ => None
      end
  | n :: loc' =>
      match t with
      | Dir es =>
          match get n es with
          | Some c =>
              match del_at c loc' with
              | Some c' => Some (Dir (set n c' es))
              | None => None
              end
          | None => None
          end
      | File _ => None
      end
  end.

(** Create the directory at a location and every missing ancestor; [None]
    when a regular file is in the way. *)
Fixpoint mkdirs_opt (o : option node) (loc : list pystr) {struct loc}
  : option node :=
  match o with
  | Some (File _) => None
  | _ =>
      let es := match o with Some (Dir es) => es | _ => [] end in
      match loc with
      | [] => Some (Dir es)
      | n :: loc' =>
          match mkdirs_opt (get n es) loc' with
          | Some c => Some (Dir (set n c es))
          | None => None
          end
      end
  end.

Definition is_dir (o : option node) : bool :=
  match o with Some (Dir _) => true | _ => false end.

Definition is_file (o : option node) : bool :=
  match o with Some (File _) => true | _ => false end.

Definition dir_names (es : list (pystr * node)) : list pystr :=
  map fst (filter (fun e => is_dir (Some (snd e))) es).

Definition file_names (es : list (pystr * node)) : list pystr :=
  map fst (filter (fun e => is_file (Some (snd e))) es).

End FS.

Section TreeOS.

Variable h : host.

Definition nonempty (s : pystr) : bool :=
  match s with [] => false | _ => true end.

(** The location a path string denotes on the host: the components of its
    absolute, normalised form ([..] is resolved lexically; there are no
    symbolic links).  On Windows the drive is the first component. *)
Definition locate (p : pystr) : list pystr :=
  filter nonempty (split (os_sep (plat h)) (os_path.abspath h p)).

Definition oserror (what : string) : exn := Exn OtherException (str what).

(** [os.makedirs(p, exist_ok=True)] *)
Definition makedirs_exist_ok (p : pystr) (root : node) : outcome unit * node :=
  match FS.mkdirs_opt (Some root) (locate p) with
  | Some root' => (Return tt, root')
  | None => (Raise (oserror "FileExistsError"), root)
  end.

(** [os.path.exists(p)]: a path ending in a separator denotes a directory. *)
Definition path_exists (p : pystr) (root : node) : bool :=
  match FS.lookup root (locate p) with
  | Some (Dir _) => true
  | Some (File _) => negb (endswith_if (is_sep (plat h)) p)
  | None => false
  end.

(** [os.walk(top, topdown)]: entries that cannot be listed are skipped. *)
Fixpoint walk_node (topdown : bool) (top : pystr) (t : node)
  : list (pystr * list pystr * list pystr) :=
  match t with
  | File _ => []
  | Dir es =>
      let here := (top, FS.dir_names es, FS.file_names es) in
      let below :=
        (fix descend (l : list (pystr * node)) :=
           match l with
           | [] => []
           | (n, c) :: rest =>
               walk_node topdown (os_path.join h top [n]) c ++ descend rest
           end) es in
      if topdown then here :: below else below ++ [here]
  end.

Definition walk (topdown : bool) (top : pystr) (root : node)
  : list (pystr * list pystr * list pystr) :=
  match FS.lookup root (locate top) with
  | Some t => walk_node topdown top t
  | None => []
  end.

(** [os.remove(p)] *)
Definition remove (p : pystr) (root : node) : outcome unit * node :=
  match FS.lookup root (locate p) with
  | Some (File _) =>
      match FS.del_at root (locate p) with
      | Some root' => (Return tt, root')
      | None => (Raise (oserror "PermissionError"), root)
      end
  | Some (Dir _) => (Raise (oserror "IsADirectoryError"), root)
  | None => (Raise (oserror "FileNotFoundError"), root)
  end.

(** [os.rmdir(p)] *)
Definition rmdir (p : pystr) (root : node) : outcome unit * node :=
  match FS.lookup root (locate p) with
  | Some (Dir []) =>
      match FS.del_at root (locate p) with
      | Some root' => (Return tt, root')
      | None => (Raise (oserror "PermissionError"), root)
      end
  | Some (Dir (_ :: _)) => (Raise (oserror "OSError: directory not empty"), root)
  | Some (File _) => (Raise (oserror "NotADirectoryError"), root)
  | None => (Raise (oserror "FileNotFoundError"), root)
  end.

(** *** [zipfile] *)

Definition windows_illegal (c : ascii) : bool :=
  existsb (chr_eqb c) (ascii_of_nat 34 :: str ":<>|?*").

Definition rstrip (c : ascii) (s : pystr) : pystr := rev (lstrip c (rev s)).

(** The components under which [extractall] stores a member
    ([ZipFile._extract_member]): separators unified, drive dropped, empty,
    [.] and [..] components removed, and on Windows the characters a file
    name cannot hold replaced and trailing dots removed. *)
Definition member_parts (name : pystr) : list pystr :=
  let keep x := nonempty x && negb (str_eqb x curdir) && negb (str_eqb x pardir) in
  match plat h with
  | Posix => filter keep (split slash name)
  | Windows =>
      let arcname := replace_chr slash backslash name in
      let arcname := snd (ntpath.splitdrive arcname) in
      let parts := filter keep (split backslash arcname) in
      let parts :=
        map (fun x => rstrip dot
               (map (fun c => if windows_illegal c then "_"%char else c) x))
            parts in
      filter nonempty parts
  end.

Definition member_is_dir (name : pystr) : bool := endswith_if (chr_eqb slash) name.

Definition extract_member (dest : list pystr) (m : pystr * content)
    (root : node) : outcome unit * node :=
  let target := dest ++ member_parts (fst m) in
  if member_is_dir (fst m) then
    match FS.mkdirs_opt (Some root) target with
    | Some root' => (Return tt, root')
    | None => (Raise (oserror "FileExistsError"), root)
    end
  else
    match FS.mkdirs_opt (Some root) (removelast target) with
    | Some root1 =>
        if FS.is_dir (FS.lookup root1 target)
        then (Raise (oserror "IsADirectoryError"), root1)
        else match FS.put_opt (Some root1) target (File (snd m)) with
             | Some root2 => (Return tt, root2)
             | None => (Raise (oserror "OSError"), root1)
             end
    | None => (Raise (oserror "FileExistsError"), root)
    end.

Fixpoint extract_members (dest : list pystr) (ms : list (pystr * content))
    (root : node) : outcome unit * node :=
  match ms with
  | [] => (Return tt, root)
  | m :: rest =>
      match extract_member dest m root with
      | (Return _, root') => extract_members dest rest root'
      | (Raise e, root') => (Raise e, root')
      end
  end.

(** The member of a damaged archive that cannot be read
    ([ZipFile._extract_member]): the directories above its file are made,
    the member is opened, which raises when its header is rejected, then
    the file is created and receives the data that can be read, and the
    error is raised. *)
Definition extract_damaged (dest : list pystr) (name : pystr)
    (written : option content) (error : exn) (root : node)
    : outcome unit * node :=
  let target := dest ++ member_parts name in
  match FS.mkdirs_opt (Some root) (removelast target) with
  | Some root1 =>
      match written with
      | None => (Raise error, root1)
      | Some c =>
          if FS.is_dir (FS.lookup root1 target)
          then (Raise (oserror "IsADirectoryError"), root1)
          else match FS.put_opt (Some root1) target (File c) with
               | Some root2 => (Raise error, root2)
               | None => (Raise (oserror "OSError"), root1)
               end
      end
  | None => (Raise (oserror "FileExistsError"), root)
  end.

(** [with ZipFile(src, 'r') as z: z.extractall(dest)].  The members are
    extracted in order, and what has been extracted stays when a member
    fails.  A directory entry is made without a look at its data, so that
    the damage of an entry whose name ends in [/] goes unnoticed. *)
Definition extractall (src dest : pystr) (root : node) : outcome unit * node :=
  match FS.lookup root (locate src) with
  | Some (File (Archive ms)) => extract_members (locate dest) ms root
  | Some (File (Damaged ms name written error)) =>
      if member_is_dir name
      then extract_members (locate dest) (ms ++ [(name, Bytes [])]) root
      else match extract_members (locate dest) ms root with
           | (Return _, root1) =>
               extract_damaged (locate dest) name written error root1
           | (Raise e, root1) => (Raise e, root1)
           end
  | Some (File (Bytes _)) =>
      (Raise (Exn BadZipFile (str "File is not a zip file")), root)
  | Some (Dir _) => (Raise (oserror "PermissionError"), root)
  | None => (Raise (oserror "FileNotFoundError"), root)
  end.

(** [ZipFile(target, 'w')]: the file is created or truncated. *)
Definition open_w (target : pystr) (root : node) : outcome unit * node :=
  match locate target with
  | [] => (Raise (oserror "PermissionError"), root)
  | loc =>
      if FS.is_dir (FS.lookup root loc)
      then (Raise (oserror "PermissionError"), root)
      else match FS.put_opt (Some root) loc (File (Archive [])) with
           | Some root' => (Return tt, root')
           | None => (Raise (oserror "FileNotFoundError"), root)
           end
  end.

(** The member name [ZipInfo.from_file] derives from [arcname]. *)
Definition zip_arcname (arcname : pystr) : pystr :=
  let a := match plat h with
           | Posix => arcname
           | Windows => snd (ntpath.splitdrive arcname)
           end in
  let a := lstrip_if (is_sep (plat h)) (os_path.normpath h a) in
  replace_chr (os_sep (plat h)) slash a.

(** [new_zip.write(src, arcname=...)] on the archive being built at
    [target]. *)
Definition write (target src arcname : pystr) (root : node)
    : outcome unit * node :=
  match FS.lookup root (locate target) with
  | Some (File (Archive ms)) =>
      match FS.lookup root (locate src) with
      | Some (File c) =>
          match FS.put_opt (Some root) (locate target)
                  (File (Archive (ms ++ [(zip_arcname arcname, c)]))) with
          | Some root' => (Return tt, root')
          | None => (Raise (oserror "OSError"), root)
          end
      | Some (Dir _) =>
          match FS.put_opt (Some root) (locate target)
                  (File (Archive (ms ++ [(zip_arcname arcname ++ [slash], Bytes [])]))) with
          | Some root' => (Return tt, root')
          | None => (Raise (oserror "OSError"), root)
          end
      | None => (Raise (oserror "FileNotFoundError"), root)
      end
  | _ => (Raise (oserror "ValueError"), root)
  end.

Definition close (target : pystr) (root : node) : outcome unit * node :=
  (Return tt, root).

Definition tree_os : OS node :=
  {| os_makedirs_exist_ok := makedirs_exist_ok;
     os_path_exists := path_exists;
     os_walk := walk;
     os_remove := remove;
     os_rmdir := rmdir;
     zip_extractall := extractall;
     zip_open_w := open_w;
     zip_write := write;
     zip_close := close |}.

(** The converter on this file system. *)
Definition convert (zip_file_name output_dir : pystr)
    (progress_callback : option callback) (root : node)
    : outcome bool * world node :=
  convert_exe_to_sb3 h tree_os zip_file_name output_dir progress_callback
    (World root [] []).

End TreeOS.

(** ** The main window: the conversion button and the handlers that
    take a path *)

(** [s.lower()] on the characters of ASCII.  The test of
    [_validate_zip], [path.lower().endswith(".zip")], depends on no other
    character: a character outside ASCII has no ASCII byte in its UTF-8
    encoding, and none lowers to a string that ends in [.], [z], [i] or [p]. *)
Definition lower (s : pystr) : pystr := map ntpath.lower_chr s.

(** [s.endswith(suffix)] *)
Definition endswith (suffix s : pystr) : bool := startswith (rev suffix) (rev s).

(** [s.rstrip(chars)] for a set of characters given as a predicate. *)
Definition rstrip_if (f : ascii -> bool) (s : pystr) : pystr :=
  rev (lstrip_if f (rev s)).

(** [posixpath.dirname]: the part up to the last slash, without the slashes
    at its end unless it is made of slashes only. *)
Definition posix_dirname (p : pystr) : pystr :=
  let head := upto_last (chr_eqb slash) p in
  if nonempty head && negb (forallb (chr_eqb slash) head)
  then rstrip slash head
  else head.

(** [ntpath.dirname(p)], that is [ntpath.split(p)[0]], on the drives of
    [ntpath.splitdrive] above and as the library has it up to Python 3.11
    ([head.rstrip(seps) or head]; the version of 3.12 gives another result
    only when nothing but several separators stands between the drive and
    the last name). *)
Definition nt_dirname (p : pystr) : pystr :=
  let (d, p) := ntpath.splitdrive p in
  let head := upto_last ntpath.both_seps p in
  d ++ match rstrip_if ntpath.both_seps head with
       | [] => head
       | stripped => stripped
       end.

Definition dirname (h : host) (p : pystr) : pystr :=
  match plat h with
  | Posix => posix_dirname p
  | Windows => nt_dirname p
  end.

Inductive box_kind : Type := Information | Warning | Critical.

(** A modal [QMessageBox]: its kind, title and text. *)
Record message_box : Type := Box {
  box_kind_of : box_kind;
  box_title : pystr;
  box_text : pystr
}.

Inductive access_mode : Type := R_OK | W_OK.

(** The keys of [QSettings("Bilibili", "EXE2SB3")] that the window writes;
    [None] is a key without a value. *)
Record qsettings : Type := Settings {
  last_input_dir : option pystr;
  last_output_dir : option pystr;
  history : option pystr
}.

(** The attributes of [MainWindow] that its handlers read or write.
    [__init__] assigns neither of the two paths: a handler does
    ([_select_input_file], [_select_output_dir], [dropEvent]), or
    [_load_history] for a path of the stored history that still exists.
    [None] is an attribute that has not been assigned yet.  The two labels
    hold the text they show, [boxes] lists the message boxes shown so far,
    oldest first. *)
Record window : Type := Window {
  input_file_path : option pystr;
  output_dir_path : option pystr;
  input_file_label : pystr;
  output_dir_label : pystr;
  settings : qsettings;
  progress_bar : Z;
  status_bar : pystr;
  boxes : list message_box
}.

Definition show (b : message_box) (g : window) : window :=
  Window (input_file_path g) (output_dir_path g) (input_file_label g)
    (output_dir_label g) (settings g) (progress_bar g) (status_bar g)
    (boxes g ++ [b]).

(** [self.progress_bar.setValue(value); self.status_bar.showMessage(message)] *)
Definition display (g : window) (e : progress_event) : window :=
  Window (input_file_path g) (output_dir_path g) (input_file_label g)
    (output_dir_label g) (settings g) (fst e) (snd e) (boxes g).

(** [self.input_file_path = path; self.input_file_label.setText(label)] *)
Definition set_input_file (path label : pystr) (g : window) : window :=
  Window (Some path) (output_dir_path g) label (output_dir_label g)
    (settings g) (progress_bar g) (status_bar g) (boxes g).

(** [self.output_dir_path = path; self.output_dir_label.setText(path)] *)
Definition set_output_dir (path : pystr) (g : window) : window :=
  Window (input_file_path g) (Some path) (input_file_label g) path
    (settings g) (progress_bar g) (status_bar g) (boxes g).

(** [self.settings.setValue(key, value)] for each of the three keys. *)
Definition set_settings (s : qsettings) (g : window) : window :=
  Window (input_file_path g) (output_dir_path g) (input_file_label g)
    (output_dir_label g) s (progress_bar g) (status_bar g) (boxes g).

Definition setValue_last_input_dir (v : pystr) (g : window) : window :=
  set_settings (Settings (Some v) (last_output_dir (settings g))
                  (history (settings g))) g.

Definition setValue_last_output_dir (v : pystr) (g : window) : window :=
  set_settings (Settings (last_input_dir (settings g)) (Some v)
                  (history (settings g))) g.

Definition setValue_history (v : pystr) (g : window) : window :=
  set_settings (Settings (last_input_dir (settings g))
                  (last_output_dir (settings g)) (Some v)) g.

Definition newline : ascii := ascii_of_nat 10.

Definition box_not_zip : message_box :=
  Box Warning (str "警告") (str "请选择ZIP格式文件").
Definition box_unreadable : message_box :=
  Box Critical (str "错误") (str "文件不可读").
Definition box_select_first : message_box :=
  Box Warning (str "警告") (str "请先选择文件和输出目录！").
Definition box_not_writable : message_box :=
  Box Critical (str "错误") (str "输出目录没有写入权限").
Definition box_done : message_box :=
  Box Information (str "完成") (str "文件转换成功！").
Definition box_failed : message_box :=
  Box Critical (str "错误")
    (str "转换失败，请检查：" ++ newline :: str "1. 文件是否为合法Scratch项目"
     ++ newline :: str "2. 输出目录写入权限").

Definition msg_converting : pystr := str "正在转换...".

(** Reading an attribute that has not been assigned. *)
Definition AttributeError (name : string) : exn :=
  Exn OtherException
    (str "'MainWindow' object has no attribute '" ++ str name ++ str "'").

Section MainWindow.

Variable S : Type.
Variable h : host.
Variable os : OS S.

(** [os.access(path, mode)] *)
Variable os_access : pystr -> access_mode -> S -> bool.

(** [json.dumps({"input": input, "output": output})] *)
Variable json_dumps : pystr -> pystr -> pystr.

Definition _validate_zip (path : pystr) (s : S) (g : window) : bool * window :=
  if negb (endswith (str ".zip") (lower path)) then
    (false, show box_not_zip g)
  else if negb (os_access path R_OK s) then
    (false, show box_unreadable g)
  else (true, g).

Definition _validate_inputs (s : S) (g : window) : outcome bool * window :=
  match input_file_path g with
  | None => (Raise (AttributeError "input_file_path"), g)
  | Some input =>
      match output_dir_path g with
      | None => (Raise (AttributeError "output_dir_path"), g)
      | Some output =>
          if negb (nonempty input && nonempty output) then
            (Return false, show box_select_first g)
          else
            let (ok, g1) := _validate_zip input s g in
            if negb ok then (Return false, g1)
            else if negb (os_access output W_OK s) then
              (Return false, show box_not_writable g1)
            else (Return true, g1)
      end
  end.

(** The callback [_perform_conversion] passes to the converter assigns to
    the progress bar and the status bar, which the converter never reads,
    and raises nothing while the window exists: the converter sees a
    callback that returns, and the window after the call is the one in
    which the invocations it made have been displayed in order. *)
Definition progress_callback : callback := fun _ _ _ => None.

Definition _perform_conversion (g : window) (w : world S)
  : outcome unit * (window * world S) :=
  match _validate_inputs (fs w) g with
  | (Raise e, g1) => (Raise e, (g1, w))
  | (Return false, g1) => (Return tt, (g1, w))
  | (Return true, g1) =>
      let g2 := display g1 (0%Z, msg_converting) in
      match input_file_path g2, output_dir_path g2 with
      | Some input, Some output =>
          let (r, w') :=
            convert_exe_to_sb3 h os input output (Some progress_callback) w in
          let g3 := fold_left display (skipn (length (events w)) (events w')) g2 in
          match r with
          | Return success =>
              (Return tt, (show (if success then box_done else box_failed) g3, w'))
          | Raise e => (Raise e, (g3, w'))
          end
      | None, _ => (Raise (AttributeError "input_file_path"), (g2, w))
      | _, None => (Raise (AttributeError "output_dir_path"), (g2, w))
      end
  end.

(** The dictionary of line 350 reads both attributes before anything is
    stored. *)
Definition _save_history (g : window) : outcome unit * window :=
  match input_file_path g with
  | None => (Raise (AttributeError "input_file_path"), g)
  | Some input =>
      match output_dir_path g with
      | None => (Raise (AttributeError "output_dir_path"), g)
      | Some output => (Return tt, setValue_history (json_dumps input output) g)
      end
  end.

(** [urls] holds [url.toLocalFile()] for the URLs of the event, in order
    (the empty string for a URL that names no local file). *)
Fixpoint dropEvent (urls : list pystr) (g : window) : outcome unit * window :=
  match urls with
  | [] => (Return tt, g)
  | file_path :: rest =>
      if endswith (str ".zip") (lower file_path) then
        _save_history
          (set_input_file file_path (os_path.basename h file_path) g)
      else dropEvent rest g
  end.

(** [path] is what the file dialog returns: the file the user chose, or
    the empty string when the dialog was cancelled.  (The directory the
    dialog opens in, read from the settings, has no other effect.) *)
Definition _select_input_file (path : pystr) (s : S) (g : window)
  : outcome unit * window :=
  if nonempty path then
    let (ok, g1) := _validate_zip path s g in
    if ok then
      _save_history
        (setValue_last_input_dir (dirname h path)
           (set_input_file path (os_path.basename h path) g1))
    else (Return tt, g1)
  else (Return tt, g).

Definition _select_output_dir (path : pystr) (g : window)
  : outcome unit * window :=
  if nonempty path then
    _save_history (setValue_last_output_dir path (set_output_dir path g))
  else (Return tt, g).

(** What [_validate_inputs] checks, on paths that are assigned. *)
Definition inputs_valid (input output : pystr) (s : S) : bool :=
  nonempty input && nonempty output &&
  endswith (str ".zip") (lower input) &&
  os_access input R_OK s && os_access output W_OK s.

End MainWindow.

(** A standard output that takes every line. *)
Definition console : pystr -> option exn := fun _ => None.

Definition posix_host : host := Host Posix (str "/home/user") (Some console).
Definition windows_host : host :=
  Host Windows (str "C:\Users\user") (Some console).

(** A standard output with the ASCII encoding, as a redirected stream has
    it under the C locale: a line with a byte outside ASCII raises
    [UnicodeEncodeError]. *)
Definition is_ascii (c : ascii) : bool :=
  match c with
  | Ascii _ _ _ _ _ _ _ false => true
  | _ => false
  end.

Definition ascii_stream : pystr -> option exn :=
  fun line =>
    if forallb is_ascii line then None
    else Some (Exn OtherException (str "UnicodeEncodeError")).

Definition redirected_host : host :=
  Host Windows (str "C:\Users\user") (Some ascii_stream).

(** The tree file system while another program holds the files of the
    workspace open: Windows does not delete an open file, and [os.remove]
    raises [PermissionError]. *)
Definition busy_os (h : host) : OS node :=
  {| os_makedirs_exist_ok := makedirs_exist_ok h;
     os_path_exists := path_exists h;
     os_walk := walk h;
     os_remove := fun _ root => (Raise (oserror "PermissionError"), root);
     os_rmdir := rmdir h;
     zip_extractall := extractall h;
     zip_open_w := open_w h;
     zip_write := write h;
     zip_close := close |}.

Definition quiet : callback := fun _ _ _ => None.

Definition sample_zip : content :=
  Archive [ (str "packaged-project/resources/app/project.json", Bytes (str "{}"));
            (str "packaged-project/resources/app/assets/a.png", Bytes (str "PNG"));
            (str "packaged-project/readme.txt", Bytes (str "hi")) ].

Definition win_root : node :=
  Dir [ (str "C:", Dir [ (str "dl", Dir [ (str "game.zip", File sample_zip);
                                          (str "notes.zip", File (Bytes (str "plain text"))) ]);
                         (str "out", Dir []) ]) ].

Definition posix_root : node :=
  Dir [ (str "dl", Dir [ (str "game.zip", File sample_zip);
                         (str "notes.zip", File (Bytes (str "plain text"))) ]);
        (str "out", Dir []) ].

(** * Vocabulary of the statements *)

Unset Implicit Arguments.

(** ** Paths *)

Definition dot_segment (s : pystr) : bool := str_eqb s curdir || str_eqb s pardir.

(** No segment of [p] (between occurrences of [os.sep]) is [.] or [..]. *)
Definition no_dot_segments (h : host) (p : pystr) : Prop :=
  forallb (fun seg => negb (dot_segment seg)) (split (os_sep (plat h)) p) = true.

(** [start] is an ancestor of [path], segment by segment. *)
Fixpoint segments_prefix (a b : list pystr) : bool :=
  match a, b with
  | [], _ => true
  | x :: a', y :: b' => str_eqb x y && segments_prefix a' b'
  | _ :: _, [] => false
  end.

Definition is_ancestor (h : host) (start path : pystr) : bool :=
  segments_prefix (locate h start) (locate h path).

(** The segments that are left of [parts], in the words of the claim: the
    parts are read from left to right, a [.] is dropped, a [..] removes the
    segment kept last, or nothing when no segment is kept, and any other
    part is kept after those kept so far. *)
Fixpoint kept_segments (kept parts : list pystr) : list pystr :=
  match parts with
  | [] => kept
  | part :: rest =>
      if str_eqb part curdir then kept_segments kept rest
      else if str_eqb part pardir then kept_segments (removelast kept) rest
      else kept_segments (kept ++ [part]) rest
  end.

(** A path with a drive letter and a root, as the directory chooser
    returns it on Windows ([C:/Users/...] or [C:\Users\...]). *)
Definition drive_absolute (p : pystr) : bool :=
  match p with
  | c :: d :: s :: _ =>
      chr_eqb d colon && is_sep Windows s && negb (is_sep Windows c)
  | _ => false
  end.

(** A name a directory entry can have on the host. *)
Definition legal_name (p : platform) (n : pystr) : bool :=
  nonempty n && negb (existsb (is_sep p) n) && negb (dot_segment n) &&
  match p with
  | Windows => negb (existsb (chr_eqb colon) n)
  | Posix => true
  end.

(** The normalised components of a drive-absolute path, after the drive. *)
Definition nt_comps (a : pystr) : list pystr :=
  rev (collapse_dots true []
         (split backslash (replace_chr slash backslash (skipn 2 a)))).

Record legal_windows (n : pystr) : Prop := {
  lw_nonempty : n <> [];
  lw_no_backslash : ~ In backslash n;
  lw_no_slash : ~ In slash n;
  lw_no_colon : ~ In colon n;
  lw_not_dot : dot_segment n = false
}.

(** The file name of the output archive. *)
Definition sb3_name (h : host) (zip_file_name : pystr) : pystr :=
  fst (os_path.splitext h (os_path.basename h zip_file_name)) ++ str ".sb3".

Definition workspace_name : pystr := str "temp_extract".
Definition resources_path : list pystr :=
  [str "packaged-project"; str "resources"; str "app"].

(** ** Locations and directory trees *)

(** Two locations that part ways: neither lies under the other. *)
Inductive diverge : list pystr -> list pystr -> Prop :=
| diverge_here x y a b : x <> y -> diverge (x :: a) (y :: b)
| diverge_later x a b : diverge a b -> diverge (x :: a) (x :: b).

Fixpoint names_distinct (l : list pystr) : bool :=
  match l with
  | [] => true
  | x :: rest => negb (existsb (str_eqb x) rest) && names_distinct rest
  end.

(** Every directory of the tree has distinct entries with legal names. *)
Fixpoint legal_tree (p : platform) (t : node) : bool :=
  match t with
  | File _ => true
  | Dir es =>
      names_distinct (map fst es) &&
      (fix all (l : list (pystr * node)) : bool :=
         match l with
         | [] => true
         | (n, c) :: rest => legal_name p n && legal_tree p c && all rest
         end) es
  end.

(** The regular files below a directory, each with its path relative to
    the directory, in the order of a top-down walk. *)
Definition files_here (es : list (pystr * node)) : list (list pystr * content) :=
  flat_map (fun e => match snd e with
                     | File c => [([fst e], c)]
                     | Dir _ => []
                     end) es.

Definition under (n : pystr) (f : list pystr * content) : list pystr * content :=
  (n :: fst f, snd f).

Fixpoint files_under (t : node) : list (list pystr * content) :=
  match t with
  | File _ => []
  | Dir es =>
      files_here es ++
      (fix below (l : list (pystr * node)) :=
         match l with
         | [] => []
         | (n, c) :: rest => map (under n) (files_under c) ++ below rest
         end) es
  end.

Definition file_entries (es : list (pystr * node)) : list (pystr * content) :=
  flat_map (fun e => match snd e with
                     | File c => [(fst e, c)]
                     | Dir _ => []
                     end) es.

(** The computation does not change what is found at location [T]. *)
Definition keeps {A} (T : list pystr) (m : M node A) : Prop :=
  forall w, FS.lookup (fs (snd (m w))) T = FS.lookup (fs w) T.

(** ** Progress events and callbacks *)

Section ProgressVocabulary.

Variable S : Type.
Variable h : host.
Variable os : OS S.

#[local] Abbreviation world := (world S).
#[local] Abbreviation M := (M S).

Definition with_events (ev : list progress_event) (w : world) : world :=
  World (fs w) ev (stdout w).

Definition log (e : progress_event) (w : world) : world :=
  with_events (events w ++ [e]) w.

(** The world after an invocation of the callback, if there is one. *)
Definition logged (cbo : option callback) (e : progress_event) (w : world) : world :=
  match cbo with Some _ => log e w | None => w end.

(** A computation that neither reads nor writes the progress events. *)
Definition oblivious {A} (m : M A) : Prop :=
  forall w ev, m (with_events ev w) = (fst (m w), with_events ev (snd (m w))).

(** A callback that, when it raises, raises [RuntimeError] (the error of a
    PySide object whose window is gone). *)
Definition raises_only_RuntimeError (cbo : option callback) : Prop :=
  forall cb, cbo = Some cb ->
  forall hist value message e,
    cb hist value message = Some e -> isinstance_RuntimeError e = true.

(** With a callback that raises nothing but [RuntimeError], the converter is
    this decision tree over its four stages. *)
Definition stages (zip_file_name output_dir : pystr) (cbo : option callback)
    (w : world) : outcome bool * world :=
  let target_zip_name := target_zip_name_of h zip_file_name output_dir in
  let temp_dir := os_path.join h output_dir [str "temp_extract"] in
  let app_dir := app_dir_of h output_dir in
  match lift (os_makedirs_exist_ok os temp_dir) w with
  | (Raise e, w1) => (Return false, logged cbo (0%Z, msg_unexpected e) w1)
  | (Return _, w1) =>
      match lift (zip_extractall os zip_file_name temp_dir)
              (logged cbo (10%Z, msg_extracting) w1) with
      | (Raise e, w2) =>
          (Return false,
           logged cbo (0%Z, if isinstance_BadZipFile e then msg_invalid_zip
                            else msg_unexpected e) w2)
      | (Return _, w2) =>
          if negb (os_path_exists os app_dir (fs w2)) then
            (Return false, logged cbo (0%Z, msg_missing_dir app_dir) w2)
          else
            match repack h os target_zip_name app_dir
                    (logged cbo (50%Z, msg_packing) w2) with
            | (Raise e, w3) =>
                (Return false, logged cbo (0%Z, msg_write_error e) w3)
            | (Return _, w3) =>
                match _cleanup_temp_dir h os (normalize_separators temp_dir)
                        (logged cbo (80%Z, msg_cleaning) w3) with
                | (Raise e, w4) =>
                    (Return false, logged cbo (0%Z, msg_unexpected e) w4)
                | (Return _, w4) =>
                    (Return true, logged cbo (100%Z, msg_done) w4)
                end
            end
      end
  end.

Definition same_state (w w' : world) : Prop :=
  fs w = fs w' /\ stdout w = stdout w'.

(** The messages that go with a 0% event. *)
Definition failure_message (output_dir message : pystr) : Prop :=
  message = msg_invalid_zip \/
  message = msg_missing_dir (app_dir_of h output_dir) \/
  (exists e, message = msg_write_error e) \/
  (exists e, message = msg_unexpected e).

(** A callback that, on a 0% event, raises nothing but [RuntimeError].  At
    the other milestones it may raise anything. *)
Definition quiet_on_failure (cbo : option callback) : Prop :=
  forall cb, cbo = Some cb ->
  forall hist message e,
    cb hist 0%Z message = Some e -> isinstance_RuntimeError e = true.

Definition ends_with_failure_event (output_dir : pystr) (w : world) : Prop :=
  exists earlier message,
    events w = earlier ++ [(0%Z, message)] /\
    failure_message output_dir message.

(** The run from [w] to [w'] in which nothing goes wrong: each of the four
    stages returns, the layout check finds the resources directory, and
    each of the four invocations of the callback returns or raises
    [RuntimeError]. *)
Definition all_stages_return (zip_file_name output_dir : pystr)
    (cbo : option callback) (w w' : world) : Prop :=
  let target_zip_name := target_zip_name_of h zip_file_name output_dir in
  let temp_dir := os_path.join h output_dir [str "temp_extract"] in
  let app_dir := app_dir_of h output_dir in
  exists w1 w2 w3 w4 : world,
    lift (os_makedirs_exist_ok os temp_dir) w = (Return tt, w1) /\
    _update_progress cbo 10 msg_extracting w1
    = (Return tt, logged cbo (10%Z, msg_extracting) w1) /\
    lift (zip_extractall os zip_file_name temp_dir)
      (logged cbo (10%Z, msg_extracting) w1) = (Return tt, w2) /\
    os_path_exists os app_dir (fs w2) = true /\
    _update_progress cbo 50 msg_packing w2
    = (Return tt, logged cbo (50%Z, msg_packing) w2) /\
    repack h os target_zip_name app_dir (logged cbo (50%Z, msg_packing) w2)
    = (Return tt, w3) /\
    _update_progress cbo 80 msg_cleaning w3
    = (Return tt, logged cbo (80%Z, msg_cleaning) w3) /\
    _cleanup_temp_dir h os (normalize_separators temp_dir)
      (logged cbo (80%Z, msg_cleaning) w3) = (Return tt, w4) /\
    _update_progress cbo 100 msg_done w4
    = (Return tt, logged cbo (100%Z, msg_done) w4) /\
    w' = logged cbo (100%Z, msg_done) w4.

End ProgressVocabulary.

Arguments with_events {S} ev w.
Arguments log {S} e w.
Arguments logged {S} cbo e w.
Arguments oblivious {S A} m.
Arguments same_state {S} w w'.
Arguments ends_with_failure_event {S} h output_dir w.

Definition events_if (cbo : option callback) (l : list progress_event)
  : list progress_event :=
  match cbo with Some _ => l | None => [] end.

(** A callback whose window is gone: every invocation raises
    [RuntimeError]. *)
Definition closed_window : callback :=
  fun _ _ _ => Some (Exn RuntimeError (str "Internal C++ object already deleted")).

(** A callback that raises [ValueError] on every invocation. *)
Definition failing_callback : callback :=
  fun _ _ _ => Some (Exn OtherException (str "ValueError")).

Fixpoint nondecreasing (l : list Z) : bool :=
  match l with
  | x :: ((y :: _) as rest) => (x <=? y)%Z && nondecreasing rest
  | _ => true
  end.

Definition percents (run : outcome bool * world node) : list Z :=
  map fst (events (snd run)).

(** ** The archive under construction *)

Section RepackVocabulary.

Variable h : host.

(** The archive being written, the resources directory it is filled from,
    and the file system when the archive was opened. *)
Variable target : pystr.
Variable a : pystr.
Variable X0 : node.

(** The archive holds [ms] and nothing else has changed. *)
Definition archive_holds (ms : list (pystr * content)) (X : node) : Prop :=
  FS.lookup X (locate h target) = Some (File (Archive ms)) /\
  forall l, diverge (locate h target) l -> FS.lookup X l = FS.lookup X0 l.

Definition member (ds : list pystr) (f : list pystr * content) : pystr * content :=
  (join_with slash (ds ++ fst f), snd f).

(** The body of the loop of lines 104-108 for the files of one directory. *)
Definition write_files (root : pystr) (files : list pystr) : M node unit :=
  for_each files (fun file =>
    let src_path := os_path.join h root [file] in
    let rel_path := os_path.join h (custom_relpath h root a) [file] in
    lift (zip_write (tree_os h) target src_path rel_path)).

(** The whole loop of lines 103-108 over the walk of a directory: the
    archive receives the regular files below it, under their relative
    paths. *)
Definition repack_loop (triples : list (pystr * list pystr * list pystr))
  : M node unit :=
  for_each triples (fun '(root, dirs, files) => write_files root files).

End RepackVocabulary.

(** ** Sample file systems *)

Definition sample_resources : list (pystr * node) :=
  [ (str "project.json", File (Bytes (str "{}")));
    (str "assets", Dir [ (str "a.png", File (Bytes (str "PNG"))) ]) ].

Definition win_root_made : node :=
  snd (makedirs_exist_ok windows_host
         (os_path.join windows_host (str "C:/out") [workspace_name]) win_root).

Definition win_root_extracted : node :=
  snd (extractall windows_host (str "C:/dl/game.zip")
         (os_path.join windows_host (str "C:/out") [workspace_name]) win_root_made).

Definition bare_zip : content := Archive [ (str "readme.txt", Bytes (str "hi")) ].

Definition bare_root : node :=
  Dir [ (str "C:", Dir [ (str "dl", Dir [ (str "other.zip", File bare_zip) ]);
                         (str "out", Dir []) ]) ].

Definition bare_root_made : node :=
  snd (makedirs_exist_ok windows_host
         (os_path.join windows_host (str "C:/out") [workspace_name]) bare_root).

Definition bare_root_extracted : node :=
  snd (extractall windows_host (str "C:/dl/other.zip")
         (os_path.join windows_host (str "C:/out") [workspace_name]) bare_root_made).

(** A file system with both archives, in which a directory has the name of
    the output archive of the first one. *)
Definition shared_root : node :=
  Dir [ (str "C:", Dir [ (str "dl", Dir [ (str "game.zip", File sample_zip);
                                          (str "other.zip", File bare_zip) ]);
                         (str "out", Dir [ (str "game.sb3", Dir []) ]) ]) ].

(** An archive whose second member has a wrong CRC-32: the extraction
    creates its file, reads the data to the end and raises before it has
    written them. *)
Definition damaged_zip : content :=
  Damaged [ (str "packaged-project/readme.txt", Bytes (str "hi")) ]
    (str "packaged-project/resources/app/project.json") (Some (Bytes []))
    (Exn BadZipFile (str "Bad CRC-32 for file")).

Definition damaged_root : node :=
  Dir [ (str "C:", Dir [ (str "dl", Dir [ (str "game.zip", File damaged_zip) ]);
                         (str "out", Dir []) ]) ].



(** ** File names and absolute paths *)

(** The characters of [n] can stand in one segment of a path: no separator
    and, on Windows, no colon. *)
Definition segment_chars (p : platform) (n : pystr) : bool :=
  negb (existsb (is_sep p) n) &&
  match p with
  | Windows => negb (existsb (chr_eqb colon) n)
  | Posix => true
  end.

(** Some character of [n] is not a dot. *)
Definition has_non_dot (n : pystr) : bool :=
  existsb (fun c => negb (chr_eqb c dot)) n.

(** A directory prefix: empty, or ending in a separator. *)
Definition dir_prefix (p : platform) (d : pystr) : bool :=
  match d with [] => true | _ => endswith_if (is_sep p) d end.

(** An absolute path: with a drive letter and a root on Windows, with one
    leading slash on POSIX (two leading slashes are kept apart by
    [posixpath.normpath]). *)
Definition absolute_path (h : host) (p : pystr) : bool :=
  match plat h with
  | Windows => drive_absolute p
  | Posix => startswith [slash] p && negb (startswith [slash; slash] p)
  end.

(** The normalised components of such a POSIX path. *)
Definition posix_comps (p : pystr) : list pystr :=
  rev (collapse_dots true [] (split slash p)).

(** A name that [posixpath.normpath] keeps as one segment. *)
Record legal_posix (n : pystr) : Prop := {
  lp_nonempty : n <> [];
  lp_no_slash : ~ In slash n;
  lp_not_dot : dot_segment n = false
}.

(** What lines 92 and 93 append to the workspace path on a POSIX host. *)
Definition app_suffix : pystr := str "/packaged-project/resources/app\".

(** ** Callbacks that raise, and what a computation prints *)

(** The line that [_cleanup_temp_dir] prints (line 144). *)
Definition msg_cleanup_failed (e : exn) : pystr := str "清理临时目录失败：" ++ exn_str e.

(** A callback that raises [e] when invoked with the percentage [v], and
    returns at every other invocation. *)
Definition raising_at (v : Z) (e : exn) : callback :=
  fun _ value _ => if (value =? v)%Z then Some e else None.

(** The events up to and including the first one with percentage [v]. *)
Fixpoint through (v : Z) (l : list progress_event) : list progress_event :=
  match l with
  | [] => []
  | e :: rest => if (fst e =? v)%Z then [e] else e :: through v rest
  end.

(** A computation that prints nothing. *)
Definition silent {S A} (m : M S A) : Prop :=
  forall w, stdout (snd (m w)) = stdout w.

(** ** Directory trees and their removal *)

(** No entry of the tree has a backslash in its name. *)
Fixpoint backslash_free (t : node) : bool :=
  match t with
  | File _ => true
  | Dir es =>
      (fix all (l : list (pystr * node)) : bool :=
         match l with
         | [] => true
         | (n, c) :: rest =>
             negb (existsb (chr_eqb backslash) n) && backslash_free c && all rest
         end) es
  end.

(** No directory of the tree lists a name twice. *)
Fixpoint distinct_tree (t : node) : bool :=
  match t with
  | File _ => true
  | Dir es =>
      names_distinct (map fst es) &&
      (fix all (l : list (pystr * node)) : bool :=
         match l with
         | [] => true
         | (n, c) :: rest => distinct_tree c && all rest
         end) es
  end.

(** A directory with its subdirectories emptied (their entries removed),
    as the bottom-up walk leaves it before its own entries are removed. *)
Definition emptied_node (t : node) : node :=
  match t with
  | File c => File c
  | Dir _ => Dir []
  end.

(** The entries of a directory, each subdirectory emptied. *)
Definition emptied (es : list (pystr * node)) : list (pystr * node) :=
  map (fun e => (fst e, emptied_node (snd e))) es.

(** The entries that are left when the names [ns] are deleted one by one. *)
Definition del_all (ns : list pystr) (es : list (pystr * node))
  : list (pystr * node) :=
  fold_left (fun l n => FS.del n l) ns es.

(** The body of the loop of lines 137-141 for one directory, and the loop. *)
Definition remove_entries (h : host) (root : pystr) (dirs files : list pystr)
  : M node unit :=
  bind (for_each files (fun name =>
          lift (os_remove (tree_os h) (os_path.join h root [name]))))
       (fun _ => for_each dirs (fun name =>
          lift (os_rmdir (tree_os h) (os_path.join h root [name])))).

Definition cleanup_loop (h : host) (triples : list (pystr * list pystr * list pystr))
  : M node unit :=
  for_each triples (fun '(root, dirs, files) => remove_entries h root dirs files).

(** What [os.remove] and [os.rmdir] accept. *)
Definition is_file_node (v : node) : bool :=
  match v with File _ => true | Dir _ => false end.

Definition is_empty_dir (v : node) : bool :=
  match v with Dir [] => true | _ => false end.

(** The computation keeps a property of the file system. *)
Definition preserves (P : node -> Prop) {A} (m : M node A) : Prop :=
  forall w, P (fs w) -> P (fs (snd (m w))).

(** What stands at a location, if anything, is a tree of legal names. *)
Definition legal_below (L : list pystr) (X : node) : Prop :=
  forall t, FS.lookup X L = Some t -> legal_tree Windows t = true.

(** The same as a check. *)
Definition legal_at (L : list pystr) (X : node) : bool :=
  match FS.lookup X L with
  | Some t => legal_tree Windows t
  | None => true
  end.

(** The same of what a lookup returns. *)
Definition legal_opt (o : option node) : Prop :=
  match o with Some t => legal_tree Windows t = true | None => True end.

(** Two file systems show the same at a location: a regular file with the
    same [content] (for an archive: the same members in the same order
    with the same data), a directory in both, or nothing in both. *)
Definition same_entry (a b : option node) : Prop :=
  match a, b with
  | Some (File c), Some (File c') => c = c'
  | Some (Dir _), Some (Dir _) => True
  | None, None => True
  | _, _ => False
  end.

(** ** More sample file systems *)

(** A file system in which an earlier, failed conversion has left its
    workspace behind. *)
Definition stale_root : node :=
  Dir [ (str "C:",
         Dir [ (str "dl", Dir [ (str "game.zip", File sample_zip) ]);
               (str "out",
                Dir [ (str "temp_extract",
                       Dir [ (str "packaged-project",
                              Dir [ (str "resources",
                                     Dir [ (str "app",
                                            Dir [ (str "old.txt",
                                                   File (Bytes (str "old"))) ]) ]) ]) ]) ]) ]) ].

Definition stale_root_made : node :=
  snd (makedirs_exist_ok windows_host
         (os_path.join windows_host (str "C:/out") [workspace_name]) stale_root).

Definition stale_root_extracted : node :=
  snd (extractall windows_host (str "C:/dl/game.zip")
         (os_path.join windows_host (str "C:/out") [workspace_name]) stale_root_made).

(** The workspace of a file system, and the entries of its resources
    directory. *)
Definition workspace_of (root : node) : node :=
  match FS.lookup root [str "C:"; str "out"; str "temp_extract"] with
  | Some t => t
  | None => Dir []
  end.

Definition resources_of (root : node) : list (pystr * node) :=
  match FS.lookup (workspace_of root) resources_path with
  | Some (Dir es) => es
  | _ => []
  end.

(** A file system in which a directory has the name of the output
    archive. *)
Definition blocked_root : node :=
  Dir [ (str "C:", Dir [ (str "dl", Dir [ (str "game.zip", File sample_zip) ]);
                         (str "out", Dir [ (str "game.sb3", Dir []) ]) ]) ].

(** A file system without permission bits: what exists can be read and
    written. *)
Definition exists_access (h : host) : pystr -> access_mode -> node -> bool :=
  fun p _ root => path_exists h p root.

(** The window as [__init__] leaves it when the settings hold no history:
    no path assigned, the labels with their first text, the progress bar
    at the value of a new [QProgressBar]. *)
Definition new_window : window :=
  Window None None (str "未选择文件") (str "未选择目录") (Settings None None None)
    (-1) [] [].

(** [json.dumps] of the history, for two paths that need no escape. *)
Definition quoted (s : pystr) : pystr := ascii_of_nat 34 :: s ++ [ascii_of_nat 34].

Definition plain_dumps (input output : pystr) : pystr :=
  str "{" ++ quoted (str "input") ++ str ": " ++ quoted input ++ str ", "
  ++ quoted (str "output") ++ str ": " ++ quoted output ++ str "}".

(** ** What the user does with the window *)

(** The ways in which the user gives the window a path: files dropped on
    it, and the answers to its two dialogs. *)
Inductive user_action : Type :=
| Drop (urls : list pystr)
| SelectInput (chosen : pystr)
| SelectOutput (chosen : pystr).

Definition is_zip_name (p : pystr) : bool := endswith (str ".zip") (lower p).

Section UserActions.

Variable S : Type.
Variable h : host.
Variable os_access : pystr -> access_mode -> S -> bool.
Variable json_dumps : pystr -> pystr -> pystr.

(** The handler Qt runs on an action. *)
Definition handle (a : user_action) (s : S) (g : window) : outcome unit * window :=
  match a with
  | Drop urls => dropEvent h json_dumps urls g
  | SelectInput chosen => _select_input_file h os_access json_dumps chosen s g
  | SelectOutput chosen => _select_output_dir json_dumps chosen g
  end.

(** The path an action makes its handler take, if any. *)
Definition taken (a : user_action) (s : S) : option pystr :=
  match a with
  | Drop urls => find is_zip_name urls
  | SelectInput chosen =>
      if nonempty chosen && is_zip_name chosen && os_access chosen R_OK s
      then Some chosen else None
  | SelectOutput chosen => if nonempty chosen then Some chosen else None
  end.

(** The two paths after an action that made its handler take [p]. *)
Definition input_after (a : user_action) (p : pystr) (g : window) : option pystr :=
  match a with SelectOutput _ => input_file_path g | _ => Some p end.

Definition output_after (a : user_action) (p : pystr) (g : window) : option pystr :=
  match a with SelectOutput _ => Some p | _ => output_dir_path g end.

End UserActions.

(** * Properties *)

(** ** Characters and strings *)

Lemma chr_eqb_eq (a b : ascii) : chr_eqb a b = true <-> a = b.
Proof. unfold chr_eqb. apply Ascii.eqb_eq. Qed.

Lemma chr_eqb_refl (a : ascii) : chr_eqb a a = true.
Proof. apply chr_eqb_eq. reflexivity. Qed.

Lemma chr_eqb_neq (a b : ascii) : chr_eqb a b = false <-> a <> b.
Proof. unfold chr_eqb. apply Ascii.eqb_neq. Qed.

Lemma chr_eqb_sym (a b : ascii) : chr_eqb a b = chr_eqb b a.
Proof. unfold chr_eqb. apply Ascii.eqb_sym. Qed.

Lemma str_eqb_eq (a b : pystr) : str_eqb a b = true <-> a = b.
Proof.
  revert b. induction a as [|x a IH]; intros [|y b]; simpl; split; intro H;
    try reflexivity; try discriminate.
  - apply andb_true_iff in H. destruct H as [H1 H2].
    apply chr_eqb_eq in H1. apply IH in H2. congruence.
  - injection H as -> ->. rewrite chr_eqb_refl. apply IH. reflexivity.
Qed.

Lemma str_eqb_refl (a : pystr) : str_eqb a a = true.
Proof. apply str_eqb_eq. reflexivity. Qed.

Lemma str_eqb_neq (a b : pystr) : str_eqb a b = false <-> a <> b.
Proof.
  split.
  - intros H E. apply str_eqb_eq in E. congruence.
  - intro H. destruct (str_eqb a b) eqn:E; [|reflexivity].
    apply str_eqb_eq in E. contradiction.
Qed.

Lemma overwrite_slashes_replace (s : pystr) :
  overwrite_slashes s = replace_chr slash backslash s.
Proof. induction s as [|x s IH]; simpl; [reflexivity|]. now rewrite IH. Qed.

Lemma rebuild_from (acc s : pystr) :
  fold_left (fun temp_dir c => temp_dir ++ [c]) s acc = acc ++ s.
Proof.
  revert acc. induction s as [|x s IH]; intro acc; simpl.
  - now rewrite app_nil_r.
  - rewrite IH, <- app_assoc. reflexivity.
Qed.

Lemma rebuild_id (s : pystr) : rebuild s = s.
Proof. unfold rebuild. apply rebuild_from. Qed.

Lemma normalize_separators_replace (s : pystr) :
  normalize_separators s = replace_chr slash backslash s.
Proof.
  unfold normalize_separators. now rewrite rebuild_id, overwrite_slashes_replace.
Qed.

Lemma replace_chr_idem (s : pystr) :
  replace_chr slash backslash (replace_chr slash backslash s)
  = replace_chr slash backslash s.
Proof.
  unfold replace_chr. rewrite map_map. apply map_ext. intro c.
  destruct (chr_eqb c slash) eqn:E; [reflexivity|]. now rewrite E.
Qed.

Lemma replace_chr_app a b (s t : pystr) :
  replace_chr a b (s ++ t) = replace_chr a b s ++ replace_chr a b t.
Proof. unfold replace_chr. apply map_app. Qed.

(** *** [split] and [join_with] *)

Lemma split_not_nil c s : split c s <> [].
Proof.
  destruct s as [|x s]; simpl; [discriminate|].
  destruct (chr_eqb x c); [discriminate|].
  destruct (split c s); discriminate.
Qed.

Lemma split_cons_other c x s :
  chr_eqb x c = false ->
  exists hd tl, split c s = hd :: tl /\ split c (x :: s) = (x :: hd) :: tl.
Proof.
  intro E. simpl. rewrite E. destruct (split c s) as [|hd tl] eqn:S.
  - exfalso. eapply split_not_nil; eauto.
  - eauto.
Qed.

Lemma split_no_sep c s : forall seg, In seg (split c s) -> ~ In c seg.
Proof.
  induction s as [|x s IH]; simpl; intros seg H.
  - destruct H as [<-|[]]. intros [].
  - destruct (chr_eqb x c) eqn:E.
    + destruct H as [<-|H]; [intros []|now apply IH].
    + destruct (split c s) as [|hd tl] eqn:S.
      * destruct H as [<-|[]]. intros [F|[]]. apply chr_eqb_neq in E. congruence.
      * destruct H as [<-|H].
        -- intros [F|F]; [apply chr_eqb_neq in E; congruence|].
           apply (IH hd); [now left|assumption].
        -- apply IH. now right.
Qed.

Lemma join_with_cons c p rest :
  rest <> [] -> join_with c (p :: rest) = p ++ c :: join_with c rest.
Proof. destruct rest; [congruence|reflexivity]. Qed.

Lemma join_split c s : join_with c (split c s) = s.
Proof.
  induction s as [|x s IH]; [reflexivity|].
  destruct (chr_eqb x c) eqn:E.
  - simpl split. rewrite E. rewrite join_with_cons by apply split_not_nil.
    apply chr_eqb_eq in E. subst. simpl. now rewrite IH.
  - destruct (split_cons_other c x s E) as (hd & tl & S1 & S2).
    rewrite S2. rewrite S1 in IH. destruct tl as [|t tl].
    + simpl in *. now subst.
    + rewrite join_with_cons by discriminate.
      rewrite join_with_cons in IH by discriminate.
      rewrite <- IH. reflexivity.
Qed.

Lemma split_no_sep_id c s : ~ In c s -> split c s = [s].
Proof.
  induction s as [|x s IH]; intro H; [reflexivity|].
  simpl. destruct (chr_eqb x c) eqn:E.
  - apply chr_eqb_eq in E. subst. exfalso. apply H. now left.
  - rewrite IH; [reflexivity|]. intro F. apply H. now right.
Qed.

Lemma split_app c a b :
  ~ In c a -> split c (a ++ c :: b) = a :: split c b.
Proof.
  induction a as [|x a IH]; intro H; simpl.
  - now rewrite chr_eqb_refl.
  - destruct (chr_eqb x c) eqn:E.
    + apply chr_eqb_eq in E. subst. exfalso. apply H. now left.
    + rewrite IH; [reflexivity|]. intro F. apply H. now right.
Qed.

Lemma split_join c (l : list pystr) :
  l <> [] -> (forall seg, In seg l -> ~ In c seg) ->
  split c (join_with c l) = l.
Proof.
  induction l as [|p l IH]; intros NE H; [congruence|].
  destruct l as [|q l].
  - simpl. apply split_no_sep_id. apply H. now left.
  - rewrite join_with_cons by discriminate.
    rewrite split_app by (apply H; now left).
    rewrite IH; [reflexivity|discriminate|]. intros seg I. apply H. now right.
Qed.

(** Splitting a string that ends in a full segment. *)
Lemma split_snoc c a seg :
  ~ In c seg -> split c (a ++ c :: seg) = split c a ++ [seg].
Proof.
  intro H. induction a as [|x a IH]; simpl.
  - rewrite chr_eqb_refl. now rewrite split_no_sep_id.
  - destruct (chr_eqb x c) eqn:E.
    + now rewrite IH.
    + rewrite IH. destruct (split c a) as [|hd tl] eqn:S.
      * exfalso. eapply split_not_nil; eauto.
      * reflexivity.
Qed.

(** ** [custom_relpath] *)

Lemma relpath_loop_In parts : forall rel x,
  In x (relpath_loop rel parts) -> In x rel \/ (In x parts /\ dot_segment x = false).
Proof.
  induction parts as [|part parts IH]; intros rel x H; simpl in H.
  - now left.
  - destruct (str_eqb part pardir) eqn:E1.
    + destruct rel as [|top rel'].
      * apply IH in H. destruct H as [H|[H D]]; [now left|right; split; [now right|assumption]].
      * apply IH in H. destruct H as [H|[H D]]; [left; now right|right; split; [now right|assumption]].
    + destruct (str_eqb part curdir) eqn:E2; simpl in H.
      * apply IH in H. destruct H as [H|[H D]]; [now left|right; split; [now right|assumption]].
      * apply IH in H. destruct H as [[<-|H]|[H D]].
        -- right. split; [now left|]. unfold dot_segment. now rewrite E1, E2.
        -- now left.
        -- right. split; [now right|assumption].
Qed.

Lemma forallb_split_join c (f : pystr -> bool) (l : list pystr) :
  f [] = true ->
  (forall seg, In seg l -> ~ In c seg) ->
  (forall seg, In seg l -> f seg = true) ->
  forallb f (split c (join_with c l)) = true.
Proof.
  intros F0 NS FA. destruct l as [|p l].
  - simpl. now rewrite F0.
  - rewrite split_join; [|discriminate|assumption].
    apply forallb_forall. assumption.
Qed.

(** The result of the loop and the final [os.sep.join]: no segment is [.]
    or [..], whatever the text that was split. *)
Lemma relpath_join_no_dot_segments (h : host) (rel_path : pystr) :
  no_dot_segments h
    (join_with (os_sep (plat h))
       (rev (relpath_loop [] (split (os_sep (plat h)) rel_path)))).
Proof.
  unfold no_dot_segments. apply forallb_split_join.
  - reflexivity.
  - intros seg I. apply in_rev in I. apply relpath_loop_In in I.
    destruct I as [[]|[I _]]. eapply split_no_sep; eauto.
  - intros seg I. apply in_rev in I. apply relpath_loop_In in I.
    destruct I as [[]|[_ D]]. now rewrite D.
Qed.

(** The laws of the loop: a [.] part is dropped, a [..] part removes the
    part kept last, a [..] with nothing kept is dropped, any other part is
    kept. *)
Lemma relpath_loop_curdir rel parts :
  relpath_loop rel (curdir :: parts) = relpath_loop rel parts.
Proof. reflexivity. Qed.

Lemma relpath_loop_pardir_pop kept rel parts :
  relpath_loop (kept :: rel) (pardir :: parts) = relpath_loop rel parts.
Proof. reflexivity. Qed.

Lemma relpath_loop_pardir_escape parts :
  relpath_loop [] (pardir :: parts) = relpath_loop [] parts.
Proof. reflexivity. Qed.

Lemma relpath_loop_keep part rel parts :
  dot_segment part = false ->
  relpath_loop rel (part :: parts) = relpath_loop (part :: rel) parts.
Proof.
  unfold dot_segment. intro D. apply orb_false_iff in D. destruct D as [D1 D2].
  simpl. now rewrite D2, D1.
Qed.

(** *** [posixpath.abspath] yields no [.] or [..] segment *)

Lemma collapse_dots_rooted_clean comps : forall kept,
  (forall x, In x kept -> dot_segment x = false) ->
  forall x, In x (collapse_dots true kept comps) -> dot_segment x = false.
Proof.
  induction comps as [|c comps IH]; intros kept K x H; simpl in H.
  - now apply K.
  - destruct (str_eqb c [] || str_eqb c curdir) eqn:E0; [now apply (IH kept)|].
    destruct (str_eqb c pardir) eqn:E1.
    + destruct kept as [|top kept']; [now apply (IH [])|].
      destruct (str_eqb top pardir) eqn:E2.
      * exfalso. assert (D : dot_segment top = false) by (apply K; now left).
        unfold dot_segment in D. rewrite E2, orb_true_r in D. discriminate.
      * apply (IH kept'); [|assumption]. intros y I. apply K. now right.
    + apply (IH (c :: kept)); [|assumption]. intros y [<-|I]; [|now apply K].
      apply orb_false_iff in E0. unfold dot_segment. now rewrite (proj2 E0), E1.
Qed.

Lemma collapse_dots_no_sep c rooted comps : forall kept,
  (forall x, In x kept -> ~ In c x) ->
  (forall x, In x comps -> ~ In c x) ->
  forall x, In x (collapse_dots rooted kept comps) -> ~ In c x.
Proof.
  induction comps as [|p comps IH]; intros kept K C x H; simpl in H.
  - now apply K.
  - assert (C' : forall x, In x comps -> ~ In c x) by (intros y I; apply C; now right).
    assert (K' : forall x, In x (p :: kept) -> ~ In c x)
      by (intros y [<-|I]; [apply C; now left|now apply K]).
    destruct (str_eqb p [] || str_eqb p curdir); [now apply (IH kept)|].
    destruct (str_eqb p pardir).
    + destruct kept as [|top kept'].
      * destruct rooted; [now apply (IH [])|now apply (IH [p])].
      * destruct (str_eqb top pardir); [now apply (IH (p :: top :: kept'))|].
        apply (IH kept'); try assumption. intros y I. apply K. now right.
    + now apply (IH (p :: kept)).
Qed.

Lemma split_leading c n s :
  split c (repeat c n ++ s) = repeat [] n ++ split c s.
Proof.
  induction n as [|n IH]; simpl; [reflexivity|]. now rewrite chr_eqb_refl, IH.
Qed.

Lemma posix_join_absolute cwd p :
  posixpath.isabs cwd = true ->
  posixpath.isabs (if posixpath.isabs p then p else posixpath.join cwd [p]) = true.
Proof.
  intro A. destruct (posixpath.isabs p) eqn:E; [assumption|].
  cbv [posixpath.join fold_left posixpath.join2].
  unfold posixpath.isabs in E. rewrite E.
  destruct cwd as [|x cwd]; [discriminate|].
  destruct (endswith_if (chr_eqb slash) (x :: cwd)); exact A.
Qed.

Lemma posix_normpath_no_dot_segments (h : host) (q : pystr) :
  plat h = Posix -> posixpath.isabs q = true ->
  no_dot_segments h (posixpath.normpath q).
Proof.
  intros P A. unfold no_dot_segments, posixpath.normpath. rewrite P. simpl os_sep.
  destruct q as [|x q]; [discriminate|].
  assert (N : exists n, posixpath.initial_slashes (x :: q) = S n).
  { unfold posixpath.initial_slashes. unfold posixpath.isabs in A. rewrite A.
    destruct (_ && _); eauto. }
  destruct N as [n N]. rewrite N. simpl Nat.eqb. simpl negb.
  set (comps := rev (collapse_dots true [] (split slash (x :: q)))).
  change (match repeat slash (S n) ++ join_with slash comps with
          | [] => curdir
          | a :: l => a :: l
          end)
    with (repeat slash (S n) ++ join_with slash comps).
  rewrite split_leading, forallb_app. apply andb_true_iff. split.
  - apply forallb_forall. intros y I. apply repeat_spec in I. now subst.
  - apply forallb_split_join; [reflexivity| |].
    + intros seg I. apply in_rev in I.
      eapply collapse_dots_no_sep; [| |exact I].
      * intros y [].
      * apply split_no_sep.
    + intros seg I. apply in_rev in I.
      rewrite (collapse_dots_rooted_clean (split slash (x :: q)) [] ); trivial.
      intros y [].
Qed.

Lemma posix_abspath_no_dot_segments (h : host) (p : pystr) :
  plat h = Posix -> posixpath.isabs (getcwd h) = true ->
  no_dot_segments h (os_path.abspath h p).
Proof.
  intros P A. unfold os_path.abspath. rewrite P.
  apply posix_normpath_no_dot_segments; [assumption|].
  now apply posix_join_absolute.
Qed.

(** C8: the containment test of line 31 is on raw characters.  With the
    spec's own pair, [/app/resources] is not an ancestor of
    [/app/resources-backup] but occurs in it, and [custom_relpath] returns
    the meaningless [-backup]; for [/app/resources..] against the same
    start it returns the empty string.  The function is total: in neither case is
    an error raised. *)
Theorem custom_relpath_substring_not_ancestor :
  exists (h : host) (path start path' : pystr),
    is_ancestor h start path = false /\
    contains (os_path.abspath h (os_path.normpath h start))
             (os_path.abspath h (os_path.normpath h path)) = true /\
    custom_relpath h path start = str "-backup" /\
    is_ancestor h start path' = false /\
    contains (os_path.abspath h (os_path.normpath h start))
             (os_path.abspath h (os_path.normpath h path')) = true /\
    custom_relpath h path' start = [].
Proof.
  exists posix_host, (str "/app/resources-backup"), (str "/app/resources"),
    (str "/app/resources..").
  repeat split; vm_compute; reflexivity.
Qed.

(** The same pair of paths on a Windows host. *)
Example custom_relpath_substring_windows :
  is_ancestor windows_host (str "C:\app\resources") (str "C:\app\resources-backup") = false /\
  custom_relpath windows_host (str "C:\app\resources-backup") (str "C:\app\resources")
  = str "-backup".
Proof. split; vm_compute; reflexivity. Qed.

(** ** The separator normalisation of the validate-layout stage *)

Lemma normalize_separators_idempotent (p : pystr) :
  normalize_separators (normalize_separators p) = normalize_separators p.
Proof. rewrite !normalize_separators_replace. apply replace_chr_idem. Qed.

Lemma nt_normpath_replace (p : pystr) :
  ntpath.special_prefix p = false ->
  ntpath.special_prefix (replace_chr slash backslash p) = false ->
  ntpath.normpath (replace_chr slash backslash p) = ntpath.normpath p.
Proof.
  intros S1 S2. unfold ntpath.normpath. rewrite S1, S2, replace_chr_idem.
  reflexivity.
Qed.

Lemma drive_absolute_inv (p : pystr) :
  drive_absolute p = true ->
  exists c s rest, p = c :: colon :: s :: rest /\
                   is_sep Windows s = true /\ is_sep Windows c = false.
Proof.
  destruct p as [|c [|d [|s rest]]]; try discriminate. simpl.
  intro H. apply andb_true_iff in H. destruct H as [H H3].
  apply andb_true_iff in H. destruct H as [H1 H2].
  apply chr_eqb_eq in H1. subst d. apply negb_true_iff in H3.
  exists c, s, rest. auto.
Qed.

Lemma drive_absolute_not_special (p : pystr) :
  drive_absolute p = true -> ntpath.special_prefix p = false.
Proof.
  intro D. destruct (drive_absolute_inv p D) as (c & s & rest & -> & _ & Hc).
  simpl in Hc. apply orb_false_iff in Hc. destruct Hc as [Hc _].
  unfold ntpath.special_prefix. rewrite chr_eqb_sym in Hc.
  cbn [str list_ascii_of_string startswith].
  change "\"%char with backslash. now rewrite Hc.
Qed.

Lemma drive_absolute_replace (p : pystr) :
  drive_absolute p = true ->
  drive_absolute (replace_chr slash backslash p) = true.
Proof.
  intro D. destruct (drive_absolute_inv p D) as (c & s & rest & -> & Hs & Hc).
  simpl in *. apply orb_false_iff in Hc. destruct Hc as [Hc1 Hc2].
  rewrite Hc2, Hc1, Hc2. simpl.
  destruct (chr_eqb s slash); reflexivity || (simpl in Hs; rewrite orb_false_r in Hs; now rewrite Hs).
Qed.

Lemma drive_absolute_isabs (p : pystr) :
  drive_absolute p = true -> ntpath.isabs p = true.
Proof.
  intro D. destruct (drive_absolute_inv p D) as (c & s & rest & -> & Hs & _).
  unfold ntpath.isabs, ntpath.splitdrive. now rewrite chr_eqb_refl.
Qed.

Lemma nt_abspath_drive_absolute (cwd p : pystr) :
  drive_absolute p = true -> ntpath.abspath cwd p = ntpath.normpath p.
Proof. intro D. unfold ntpath.abspath. now rewrite drive_absolute_isabs. Qed.

Lemma nt_abspath_normalize (cwd p : pystr) :
  drive_absolute p = true ->
  ntpath.abspath cwd (normalize_separators p) = ntpath.abspath cwd p.
Proof.
  intro D. rewrite normalize_separators_replace.
  rewrite !nt_abspath_drive_absolute; auto using drive_absolute_replace.
  apply nt_normpath_replace; apply drive_absolute_not_special;
    auto using drive_absolute_replace.
Qed.

(** C7, as the code has it: the normalisation is idempotent on every host,
    and on a Windows host, where both [/] and [\] separate segments, the
    normalised workspace path denotes the location of the original one. *)
Theorem normalize_separators_windows (h : host) (p : pystr) :
  normalize_separators (normalize_separators p) = normalize_separators p /\
  (plat h = Windows -> drive_absolute p = true ->
   locate h (normalize_separators p) = locate h p).
Proof.
  split; [apply normalize_separators_idempotent|]. intros W D.
  unfold locate, os_path.abspath. rewrite W. now rewrite nt_abspath_normalize.
Qed.

Lemma normalize_separators_windows_witness :
  normalize_separators (normalize_separators (str "C:/out/temp_extract"))
  = normalize_separators (str "C:/out/temp_extract") /\
  locate windows_host (normalize_separators (str "C:/out/temp_extract"))
  = locate windows_host (str "C:/out/temp_extract").
Proof.
  destruct (normalize_separators_windows windows_host (str "C:/out/temp_extract"))
    as [I L].
  split; [exact I|]. apply L; reflexivity.
Defined.

(** On a POSIX host the backslash is an ordinary character of a file name:
    the normalised workspace path denotes another location. *)
Lemma normalize_separators_posix_moves :
  ~ (forall (h : host) (p : pystr),
       normalize_separators (normalize_separators p) = normalize_separators p /\
       locate h (normalize_separators p) = locate h p).
Proof.
  intro H. destruct (H posix_host (str "/out/temp_extract")) as [_ L].
  vm_compute in L. discriminate L.
Qed.

(** ** The control flow of the converter, on any file system *)

Section ControlFlow.

Variable S : Type.
Variable h : host.
Variable os : OS S.

#[local] Abbreviation world := (world S).
#[local] Abbreviation M := (M S).

Lemma with_events_id (w : world) : with_events (events w) w = w.
Proof. destruct w; reflexivity. Qed.

Lemma oblivious_events {A} (m : M A) (w : world) :
  oblivious m -> events (snd (m w)) = events w.
Proof.
  intro O. specialize (O w (events w)). rewrite with_events_id in O.
  destruct (m w) as [r w'] eqn:E. simpl in *. injection O as O.
  rewrite O at 1. reflexivity.
Qed.

Lemma oblivious_ret {A} (a : A) : oblivious (ret (S:=S) a).
Proof. intros w ev. reflexivity. Qed.

Lemma oblivious_lift {A} (op : S -> outcome A * S) : oblivious (lift op).
Proof. intros w ev. unfold lift. simpl. destruct (op (fs w)); reflexivity. Qed.

Lemma oblivious_query {A} (q : S -> A) : oblivious (query q).
Proof. intros w ev. reflexivity. Qed.

Lemma oblivious_print (line : pystr) : oblivious (print (S:=S) h line).
Proof.
  intros w ev. unfold print. destruct (sys_stdout h) as [write|]; [|reflexivity].
  destruct (write line); reflexivity.
Qed.

(** What [print] does with a line: nothing without a standard output, one
    more line on the stream, or the exception of the stream. *)
Lemma print_cases (line : pystr) (w : world) :
  (sys_stdout h = None /\ print h line w = (Return tt, w)) \/
  (exists write, sys_stdout h = Some write /\ write line = None /\
     print h line w
     = (Return tt, World (fs w) (events w) (stdout w ++ [line]))) \/
  (exists write e, sys_stdout h = Some write /\ write line = Some e /\
     print h line w = (Raise e, w)).
Proof.
  unfold print. destruct (sys_stdout h) as [write|]; [|now left].
  right. destruct (write line) as [e|] eqn:E.
  - right. now exists write, e.
  - left. now exists write.
Qed.

Lemma oblivious_bind {A B} (m : M A) (k : A -> M B) :
  oblivious m -> (forall a, oblivious (k a)) -> oblivious (bind m k).
Proof.
  intros Om Ok w ev. unfold bind. rewrite Om.
  destruct (m w) as [[a|e] w']; simpl; [apply Ok|reflexivity].
Qed.

Lemma oblivious_try_except {A} catches (body : M A) handler :
  oblivious body -> (forall e, oblivious (handler e)) ->
  oblivious (try_except catches body handler).
Proof.
  intros Ob Oh w ev. unfold try_except. rewrite Ob.
  destruct (body w) as [[a|e] w']; simpl; [reflexivity|].
  destruct (catches e); [apply Oh|reflexivity].
Qed.

Lemma oblivious_for_each {A} (l : list A) (body : A -> M unit) :
  (forall x, oblivious (body x)) -> oblivious (for_each l body).
Proof.
  intro Ob. induction l as [|x l IH]; simpl.
  - apply oblivious_ret.
  - apply oblivious_bind; auto.
Qed.

Lemma oblivious_with_ZipFile_w target (body : M unit) :
  oblivious body -> oblivious (with_ZipFile_w os target body).
Proof.
  intro Ob. unfold with_ZipFile_w. apply oblivious_bind; [apply oblivious_lift|].
  intros _ w ev. rewrite Ob.
  destruct (body w) as [[[]|e] w1]; simpl.
  - apply oblivious_lift.
  - rewrite (oblivious_lift (zip_close os target) w1 ev).
    destruct (lift (zip_close os target) w1) as [[a|e2] w2]; reflexivity.
Qed.

Lemma oblivious_repack target app_dir : oblivious (repack h os target app_dir).
Proof.
  unfold repack. apply oblivious_with_ZipFile_w.
  apply oblivious_bind; [apply oblivious_query|]. intro triples.
  apply oblivious_for_each. intros [[root dirs] files].
  apply oblivious_for_each. intro file. apply oblivious_lift.
Qed.

Lemma oblivious_cleanup temp_dir : oblivious (_cleanup_temp_dir h os temp_dir).
Proof.
  unfold _cleanup_temp_dir. apply oblivious_try_except.
  - apply oblivious_bind; [apply oblivious_query|]. intro triples.
    apply oblivious_bind; [|intros _; apply oblivious_lift].
    apply oblivious_for_each. intros [[root dirs] files].
    apply oblivious_bind; [|intros _]; apply oblivious_for_each; intro name;
      apply oblivious_lift.
  - intro e. apply oblivious_print.
Qed.

Lemma silent_ret {A} (a : A) : silent (ret (S:=S) a).
Proof. intro w. reflexivity. Qed.

Lemma silent_lift {A} (op : S -> outcome A * S) : silent (lift op).
Proof. intro w. unfold lift. destruct (op (fs w)); reflexivity. Qed.

Lemma silent_query {A} (q : S -> A) : silent (query q).
Proof. intro w. reflexivity. Qed.

Lemma silent_bind {A B} (m : M A) (k : A -> M B) :
  silent m -> (forall a, silent (k a)) -> silent (bind m k).
Proof.
  intros Sm Sk w. unfold bind. specialize (Sm w).
  destruct (m w) as [[a|e] w']; simpl in *; [|assumption].
  now rewrite Sk.
Qed.

Lemma silent_for_each {A} (l : list A) (body : A -> M unit) :
  (forall x, silent (body x)) -> silent (for_each l body).
Proof.
  intro Sb. induction l as [|x l IH]; simpl; [apply silent_ret|].
  apply silent_bind; auto.
Qed.

Lemma isinstance_Exception_true (e : exn) : isinstance_Exception e = true.
Proof. destruct e as [[] d]; reflexivity. Qed.

(** [_cleanup_temp_dir] either removes the directory and returns, or hands
    the text of the exception that stopped it to [print]. *)
Lemma cleanup_cases temp_dir (w : world) :
  (exists w1, _cleanup_temp_dir h os temp_dir w = (Return tt, w1) /\
              events w1 = events w /\ stdout w1 = stdout w) \/
  (exists e w1, events w1 = events w /\ stdout w1 = stdout w /\
                _cleanup_temp_dir h os temp_dir w
                = print h (msg_cleanup_failed e) w1).
Proof.
  unfold _cleanup_temp_dir, try_except.
  match goal with
  | |- context [match ?b w with _ => _ end] =>
      assert (Sb : silent b); [|assert (Ob : oblivious b)]
  end.
  - apply silent_bind; [apply silent_query|]. intro triples.
    apply silent_bind; [|intros _; apply silent_lift].
    apply silent_for_each. intros [[root dirs] files].
    apply silent_bind; [|intros _]; apply silent_for_each; intro name;
      apply silent_lift.
  - apply oblivious_bind; [apply oblivious_query|]. intro triples.
    apply oblivious_bind; [|intros _; apply oblivious_lift].
    apply oblivious_for_each. intros [[root dirs] files].
    apply oblivious_bind; [|intros _]; apply oblivious_for_each; intro name;
      apply oblivious_lift.
  - specialize (Sb w). pose proof (oblivious_events _ w Ob) as Ev.
    match goal with
    | |- context [match ?b w with _ => _ end] => destruct (b w) as [[[]|e] w1]
    end; cbn [snd] in Sb, Ev.
    + left. now exists w1.
    + right. exists e, w1. rewrite isinstance_Exception_true. auto.
Qed.

(** An exception that leaves [_cleanup_temp_dir] is one that [print] has
    raised on the line of line 144. *)
Lemma cleanup_raise temp_dir (w w' : world) e' :
  _cleanup_temp_dir h os temp_dir w = (Raise e', w') ->
  exists e write,
    sys_stdout h = Some write /\ write (msg_cleanup_failed e) = Some e' /\
    events w' = events w /\ stdout w' = stdout w.
Proof.
  intro R. destruct (cleanup_cases temp_dir w) as [(w1 & E & _)|(e & w1 & Ev & So & E)].
  - rewrite R in E. discriminate E.
  - rewrite R in E.
    destruct (print_cases (msg_cleanup_failed e) w1)
      as [[_ P]|[(write & _ & _ & P)|(write & e0 & Sw & Wr & P)]];
      rewrite P in E; try discriminate E.
    injection E as -> ->. now exists e, write.
Qed.

Lemma update_progress_logs cbo value message (w : world) :
  snd (_update_progress cbo value message w) = logged cbo (value, message) w.
Proof.
  destruct cbo as [cb|]; [|reflexivity].
  unfold _update_progress, try_except, invoke. simpl.
  destruct (cb (events w) value message) as [e|]; [|reflexivity].
  destruct (isinstance_RuntimeError e); reflexivity.
Qed.

Lemma update_progress_swallows cbo value message (w : world) :
  raises_only_RuntimeError cbo ->
  _update_progress cbo value message w
  = (Return tt, logged cbo (value, message) w).
Proof.
  intro R. destruct cbo as [cb|]; [|reflexivity].
  unfold _update_progress, try_except, invoke. simpl.
  destruct (cb (events w) value message) as [e|] eqn:E; [|reflexivity].
  now rewrite (R cb eq_refl _ _ _ _ E).
Qed.

Lemma update_progress_return cbo value message (w w' : world) :
  _update_progress cbo value message w = (Return tt, w') ->
  w' = logged cbo (value, message) w.
Proof.
  intro E. rewrite <- (update_progress_logs cbo value message w). now rewrite E.
Qed.

Lemma convert_stages zip_file_name output_dir cbo (w : world) :
  raises_only_RuntimeError cbo ->
  convert_exe_to_sb3 h os zip_file_name output_dir cbo w
  = stages S h os zip_file_name output_dir cbo w.
Proof.
  intro R. unfold convert_exe_to_sb3, stages, try_except, bind, ret.
  destruct (lift (os_makedirs_exist_ok os _) w) as [[[]|e] w1].
  2:{ rewrite isinstance_Exception_true, update_progress_swallows by assumption.
      reflexivity. }
  rewrite update_progress_swallows by assumption.
  destruct (lift (zip_extractall os _ _) _) as [[[]|e] w2].
  2:{ destruct (isinstance_BadZipFile e).
      - rewrite update_progress_swallows by assumption. reflexivity.
      - rewrite isinstance_Exception_true, update_progress_swallows by assumption.
        reflexivity. }
  unfold query. destruct (negb (os_path_exists os _ (fs w2))).
  { rewrite update_progress_swallows by assumption. reflexivity. }
  rewrite update_progress_swallows by assumption.
  destruct (repack h os _ _ _) as [[[]|e] w3].
  2:{ rewrite isinstance_Exception_true, update_progress_swallows by assumption.
      reflexivity. }
  rewrite update_progress_swallows by assumption.
  destruct (_cleanup_temp_dir h os _ _) as [[[]|e] w4].
  - rewrite update_progress_swallows by assumption. reflexivity.
  - rewrite isinstance_Exception_true, update_progress_swallows by assumption.
    reflexivity.
Qed.

(** *** The callback cannot change the outcome by raising [RuntimeError] *)

Lemma same_state_refl (w : world) : same_state w w.
Proof. split; reflexivity. Qed.

Lemma same_state_logged cbo cbo' e e' (w w' : world) :
  same_state w w' -> same_state (logged cbo e w) (logged cbo' e' w').
Proof. intros [F O]. destruct cbo, cbo'; split; assumption. Qed.

Lemma oblivious_same_state {A} (m : M A) (w w' : world) :
  oblivious m -> same_state w w' ->
  fst (m w) = fst (m w') /\ same_state (snd (m w)) (snd (m w')).
Proof.
  intros O [F T].
  assert (E : w' = with_events (events w') w).
  { destruct w, w'; simpl in *; subst; reflexivity. }
  rewrite E. rewrite O. simpl. split; [reflexivity|]. split; reflexivity.
Qed.

Lemma stages_same_state zip_file_name output_dir cbo cbo' (w : world) :
  fst (stages S h os zip_file_name output_dir cbo w)
  = fst (stages S h os zip_file_name output_dir cbo' w) /\
  same_state (snd (stages S h os zip_file_name output_dir cbo w))
             (snd (stages S h os zip_file_name output_dir cbo' w)).
Proof.
  unfold stages.
  destruct (lift (os_makedirs_exist_ok os _) w) as [[[]|e] w1].
  2:{ split; [reflexivity|]. apply same_state_logged, same_state_refl. }
  set (temp_dir := os_path.join h output_dir [str "temp_extract"]).
  destruct (oblivious_same_state
              (lift (zip_extractall os zip_file_name temp_dir))
              (logged cbo (10%Z, msg_extracting) w1)
              (logged cbo' (10%Z, msg_extracting) w1)
              (oblivious_lift _)
              (same_state_logged _ _ _ _ _ _ (same_state_refl w1))) as [E1 S1].
  destruct (lift (zip_extractall os zip_file_name temp_dir)
              (logged cbo (10%Z, msg_extracting) w1)) as [r2 w2].
  destruct (lift (zip_extractall os zip_file_name temp_dir)
              (logged cbo' (10%Z, msg_extracting) w1)) as [r2' w2'].
  simpl in E1, S1. subst r2'. destruct r2 as [[]|e].
  2:{ split; [reflexivity|]. now apply same_state_logged. }
  rewrite <- (proj1 S1).
  destruct (negb (os_path_exists os _ (fs w2))).
  { split; [reflexivity|]. now apply same_state_logged. }
  set (target := target_zip_name_of h zip_file_name output_dir).
  set (app_dir := app_dir_of h output_dir).
  destruct (oblivious_same_state
              (repack h os target app_dir)
              (logged cbo (50%Z, msg_packing) w2)
              (logged cbo' (50%Z, msg_packing) w2')
              (oblivious_repack _ _)
              (same_state_logged _ _ _ _ _ _ S1)) as [E3 S3].
  destruct (repack h os target app_dir (logged cbo (50%Z, msg_packing) w2))
    as [r3 w3].
  destruct (repack h os target app_dir (logged cbo' (50%Z, msg_packing) w2'))
    as [r3' w3'].
  simpl in E3, S3. subst r3'. destruct r3 as [[]|e].
  2:{ split; [reflexivity|]. now apply same_state_logged. }
  set (temp_dir' := normalize_separators temp_dir).
  destruct (oblivious_same_state
              (_cleanup_temp_dir h os temp_dir')
              (logged cbo (80%Z, msg_cleaning) w3)
              (logged cbo' (80%Z, msg_cleaning) w3')
              (oblivious_cleanup _)
              (same_state_logged _ _ _ _ _ _ S3)) as [E4 S4].
  destruct (_cleanup_temp_dir h os temp_dir' (logged cbo (80%Z, msg_cleaning) w3))
    as [r4 w4].
  destruct (_cleanup_temp_dir h os temp_dir' (logged cbo' (80%Z, msg_cleaning) w3'))
    as [r4' w4'].
  simpl in E4, S4. subst r4'.
  destruct r4 as [[]|e]; (split; [reflexivity|]); now apply same_state_logged.
Qed.

Lemma stages_returns zip_file_name output_dir cbo (w : world) :
  exists b, fst (stages S h os zip_file_name output_dir cbo w) = Return b.
Proof.
  unfold stages. cbv zeta.
  destruct (lift (os_makedirs_exist_ok os _) w) as [[[]|e] w1];
    [|simpl; eauto].
  destruct (lift (zip_extractall os _ _) _) as [[[]|e] w2]; [|simpl; eauto].
  destruct (negb (os_path_exists os _ (fs w2))); [simpl; eauto|].
  match goal with
  | |- context [repack h os ?t ?a ?x] =>
      destruct (repack h os t a x) as [[[]|e] w3]; [|simpl; eauto]
  end.
  destruct (_cleanup_temp_dir h os _ _) as [[[]|e] w4]; simpl; eauto.
Qed.

(** C9: a progress callback that raises [RuntimeError] (its window is
    gone) is swallowed.  The conversion returns a result, and that result,
    the file system and the printed lines are those of the conversion run
    with any other such callback, in particular with one that never raises
    or with no callback at all. *)
Theorem callback_RuntimeError_swallowed zip_file_name output_dir
    (cb : callback) (other : option callback) (w : world) :
  raises_only_RuntimeError (Some cb) ->
  raises_only_RuntimeError other ->
  let run := convert_exe_to_sb3 h os zip_file_name output_dir (Some cb) w in
  let ref := convert_exe_to_sb3 h os zip_file_name output_dir other w in
  (exists b, fst run = Return b) /\
  fst run = fst ref /\
  fs (snd run) = fs (snd ref) /\
  stdout (snd run) = stdout (snd ref).
Proof.
  intros R R' run ref. subst run ref. rewrite !convert_stages by assumption.
  split; [apply stages_returns|].
  destruct (stages_same_state zip_file_name output_dir (Some cb) other w)
    as [E [F T]].
  auto.
Qed.

(** *** The progress events of a conversion *)

Lemma events_logged cb e (w : world) :
  events (logged (Some cb) e w) = events w ++ [e].
Proof. reflexivity. Qed.

Lemma lift_events {A} (op : S -> outcome A * S) (w : world) r w' :
  lift op w = (r, w') -> events w' = events w.
Proof.
  intro E. pose proof (oblivious_events (lift op) w (oblivious_lift op)) as O.
  now rewrite E in O.
Qed.

Lemma repack_events target app_dir (w : world) r w' :
  repack h os target app_dir w = (r, w') -> events w' = events w.
Proof.
  intro E. pose proof (oblivious_events _ w (oblivious_repack target app_dir)) as O.
  now rewrite E in O.
Qed.

Lemma cleanup_events temp_dir (w : world) :
  events (snd (_cleanup_temp_dir h os temp_dir w)) = events w.
Proof. apply oblivious_events, oblivious_cleanup. Qed.

(** C2, as the code has it: the callback is invoked at the milestones 10,
    50, 80, 100 in this order; a successful conversion makes exactly these
    four invocations and a failed one makes those of the stages it
    completed and then a last one at 0 with the failure message.  The stages
    completed before a failure are none, the first, the first two, or the
    first three: the last case is a clean-up that fails and whose report
    [print] cannot write, so that the exception of [print] reaches the
    handler of line 120.  So the values increase up to the last invocation,
    which on failure drops to 0, and no conversion emits both the 100% and
    a 0% event. *)
Theorem progress_events_in_order zip_file_name output_dir (cb : callback)
    (w : world) :
  raises_only_RuntimeError (Some cb) ->
  events w = [] ->
  let run := convert_exe_to_sb3 h os zip_file_name output_dir (Some cb) w in
  (fst run = Return true /\
   events (snd run) = [(10%Z, msg_extracting); (50%Z, msg_packing);
                       (80%Z, msg_cleaning); (100%Z, msg_done)]) \/
  (fst run = Return false /\
   exists message,
     failure_message h output_dir message /\
     (events (snd run) = [(0%Z, message)] \/
      events (snd run) = [(10%Z, msg_extracting); (0%Z, message)] \/
      events (snd run) = [(10%Z, msg_extracting); (50%Z, msg_packing);
                          (0%Z, message)] \/
      (events (snd run) = [(10%Z, msg_extracting); (50%Z, msg_packing);
                           (80%Z, msg_cleaning); (0%Z, message)] /\
       exists e e' write,
         sys_stdout h = Some write /\
         write (msg_cleanup_failed e) = Some e' /\
         message = msg_unexpected e'))).
Proof.
  intros R E0 run. subst run. rewrite convert_stages by assumption.
  unfold stages. cbv zeta.
  destruct (lift (os_makedirs_exist_ok os _) w) as [[[]|e] w1] eqn:L1;
    apply lift_events in L1; rewrite E0 in L1.
  2:{ right. split; [reflexivity|]. exists (msg_unexpected e). split.
      - right; right; right. now exists e.
      - left. simpl. now rewrite L1. }
  destruct (lift (zip_extractall os _ _) _) as [[[]|e] w2] eqn:L2;
    apply lift_events in L2; rewrite events_logged, L1 in L2; simpl in L2.
  2:{ right. split; [reflexivity|]. eexists. split.
      2:{ right; left. simpl. rewrite L2. reflexivity. }
      destruct (isinstance_BadZipFile e); [now left|].
      right; right; right. now exists e. }
  destruct (negb (os_path_exists os _ (fs w2))).
  { right. split; [reflexivity|]. eexists. split.
    2:{ right; left. simpl. rewrite L2. reflexivity. }
    right; left. reflexivity. }
  match goal with
  | |- context [repack h os ?t ?a ?x] =>
      destruct (repack h os t a x) as [[[]|e] w3] eqn:L3
  end; apply repack_events in L3; rewrite events_logged, L2 in L3; simpl in L3.
  2:{ right. split; [reflexivity|]. eexists. split.
      2:{ right; right; left. simpl. rewrite L3. reflexivity. }
      right; right; left. now exists e. }
  destruct (_cleanup_temp_dir h os _ _) as [[[]|e'] w4] eqn:L4.
  - left. split; [reflexivity|]. simpl.
    pose proof (cleanup_events (normalize_separators
      (os_path.join h output_dir [str "temp_extract"]))
      (logged (Some cb) (80%Z, msg_cleaning) w3)) as Ev.
    rewrite L4 in Ev. cbn [snd] in Ev. rewrite Ev. simpl. rewrite L3. reflexivity.
  - right. split; [reflexivity|]. exists (msg_unexpected e'). split.
    { right; right; right. now exists e'. }
    right; right; right.
    apply cleanup_raise in L4. destruct L4 as (e & write & Sw & Wr & Ev & _).
    split.
    + simpl. rewrite Ev. simpl. rewrite L3. reflexivity.
    + now exists e, e', write.
Qed.

(** *** What escapes the converter *)

Lemma update_progress_zero cbo message (w : world) :
  quiet_on_failure cbo ->
  _update_progress cbo 0%Z message w = (Return tt, logged cbo (0%Z, message) w).
Proof.
  intro Q. destruct cbo as [cb|]; [|reflexivity].
  unfold _update_progress, try_except, invoke. simpl.
  destruct (cb (events w) 0%Z message) as [e|] eqn:E; [|reflexivity].
  now rewrite (Q cb eq_refl _ _ _ E).
Qed.

Lemma logged_failure cb output_dir message (w : world) :
  failure_message h output_dir message ->
  ends_with_failure_event h output_dir (logged (Some cb) (0%Z, message) w).
Proof. intro F. exists (events w), message. split; [reflexivity|assumption]. Qed.

Ltac run_update_progress B :=
  match type of B with
  | context [_update_progress ?cbo 0%Z ?m ?w] =>
      rewrite (update_progress_zero cbo m w) in B by assumption
  | context [_update_progress ?cbo ?v ?m ?w] =>
      let r := fresh "r" in
      let w' := fresh "w" in
      destruct (_update_progress cbo v m w) as [[[]|r] w']; [|discriminate B]
  end.

(** The body of the outer [try] returns [False] only after a 0% event. *)
Lemma convert_false_after_failure_event zip_file_name output_dir cb
    (w w' : world) :
  quiet_on_failure (Some cb) ->
  convert_exe_to_sb3 h os zip_file_name output_dir (Some cb) w
  = (Return false, w') ->
  ends_with_failure_event h output_dir w'.
Proof.
  intros Q B. unfold convert_exe_to_sb3 in B. unfold try_except at 1 in B.
  match type of B with
  | (match ?body w with _ => _ end) = _ =>
      destruct (body w) as [[b|e] w1] eqn:Body
  end.
  2:{ rewrite isinstance_Exception_true in B. unfold bind, ret in B.
      run_update_progress B. injection B as <-.
      apply (logged_failure cb). right; right; right. now exists e. }
  injection B as -> ->. rename Body into B.
  cbv beta iota zeta delta [bind try_except ret query] in B.
  destruct (lift (os_makedirs_exist_ok os _) w) as [[[]|e] ?];
    [|discriminate B].
  run_update_progress B.
  destruct (lift (zip_extractall os _ _) _) as [[[]|e] ?].
  2:{ destruct (isinstance_BadZipFile e); [|discriminate B].
      run_update_progress B. injection B as <-.
      apply (logged_failure cb). now left. }
  destruct (negb (os_path_exists os _ (fs _))).
  { run_update_progress B. injection B as <-.
    apply (logged_failure cb). right; left. reflexivity. }
  run_update_progress B.
  match type of B with
  | context [repack h os ?t ?a ?x] =>
      destruct (repack h os t a x) as [[[]|e] ?]
  end.
  2:{ rewrite isinstance_Exception_true in B.
      run_update_progress B. injection B as <-.
      apply (logged_failure cb). right; right; left. now exists e. }
  run_update_progress B.
  match type of B with
  | context [_cleanup_temp_dir h os ?t ?x] =>
      destruct (_cleanup_temp_dir h os t x) as [[[]|e] ?]; [|discriminate B]
  end.
  run_update_progress B. discriminate B.
Qed.

(** The converter returns [True] only at the end of the run in which
    nothing has gone wrong. *)
Lemma convert_true_after_all_stages zip_file_name output_dir cbo (w w' : world) :
  convert_exe_to_sb3 h os zip_file_name output_dir cbo w = (Return true, w') ->
  all_stages_return S h os zip_file_name output_dir cbo w w'.
Proof.
  intro B. unfold convert_exe_to_sb3 in B. unfold try_except at 1 in B.
  match type of B with
  | (match ?body w with _ => _ end) = _ =>
      destruct (body w) as [[b|e] w0] eqn:Body
  end.
  2:{ rewrite isinstance_Exception_true in B. unfold bind, ret in B.
      destruct (_update_progress cbo 0%Z _ w0) as [[[]|?] ?]; discriminate B. }
  injection B as -> ->. rename Body into B.
  cbv beta iota zeta delta [bind try_except ret query] in B.
  destruct (lift (os_makedirs_exist_ok os _) w) as [[[]|e] w1] eqn:L1;
    [|discriminate B].
  destruct (_update_progress cbo 10%Z msg_extracting w1) as [[[]|e] w1'] eqn:U1;
    [|discriminate B].
  pose proof (update_progress_return _ _ _ _ _ U1) as E1; subst.
  destruct (lift (zip_extractall os _ _) _) as [[[]|e] w2] eqn:L2.
  2:{ destruct (isinstance_BadZipFile e); [|discriminate B].
      destruct (_update_progress cbo 0%Z _ w2) as [[[]|?] ?]; discriminate B. }
  destruct (os_path_exists os _ (fs w2)) eqn:P; cbn [negb] in B.
  2:{ destruct (_update_progress cbo 0%Z _ w2) as [[[]|?] ?]; discriminate B. }
  destruct (_update_progress cbo 50%Z msg_packing w2) as [[[]|e] w2'] eqn:U2;
    [|discriminate B].
  pose proof (update_progress_return _ _ _ _ _ U2) as E2; subst.
  match type of B with
  | context [repack h os ?t ?a ?x] =>
      destruct (repack h os t a x) as [[[]|e] w3] eqn:L3
  end.
  2:{ rewrite isinstance_Exception_true in B.
      destruct (_update_progress cbo 0%Z _ w3) as [[[]|?] ?]; discriminate B. }
  destruct (_update_progress cbo 80%Z msg_cleaning w3) as [[[]|e] w3'] eqn:U3;
    [|discriminate B].
  pose proof (update_progress_return _ _ _ _ _ U3) as E3; subst.
  match type of B with
  | context [_cleanup_temp_dir h os ?t ?x] =>
      destruct (_cleanup_temp_dir h os t x) as [[[]|e] w4] eqn:L4;
        [|discriminate B]
  end.
  destruct (_update_progress cbo 100%Z msg_done w4) as [[[]|e] w4'] eqn:U4;
    [|discriminate B].
  pose proof (update_progress_return _ _ _ _ _ U4) as E4; subst.
  injection B as <-.
  exists w1, w2, w3, w4. repeat split; assumption.
Qed.

(** C3, as the code has it: every exception (deriving from [Exception])
    that a stage of the conversion raises, and every one that the callback
    raises at a milestone, is caught and turned into the result [False]
    after a 0% event with its message.  The call returns whenever the
    callback, invoked with such a 0% event, raises nothing or
    [RuntimeError]: the handler of line 121 calls it outside any [try].  The
    result is then [False] with a failure event as the last event, or
    [True] at the end of the one run in which no stage has raised, the
    layout was found and the callback has raised nothing but
    [RuntimeError].  A clean-up that fails is not an error of the
    conversion, unless [print] raises on its report. *)
Theorem convert_returns zip_file_name output_dir (cbo : option callback)
    (w : world) :
  quiet_on_failure cbo ->
  exists b w',
    convert_exe_to_sb3 h os zip_file_name output_dir cbo w = (Return b, w') /\
    (b = false -> forall cb, cbo = Some cb ->
     ends_with_failure_event h output_dir w') /\
    (b = true ->
     all_stages_return S h os zip_file_name output_dir cbo w w').
Proof.
  intro Q.
  destruct (convert_exe_to_sb3 h os zip_file_name output_dir cbo w)
    as [[b|e] w'] eqn:E.
  - exists b, w'. split; [reflexivity|]. split.
    + intros -> cb ->. eapply convert_false_after_failure_event; eauto.
    + intros ->. now apply convert_true_after_all_stages.
  - exfalso. unfold convert_exe_to_sb3 in E. unfold try_except at 1 in E.
    match type of E with
    | (match ?body w with _ => _ end) = _ =>
        destruct (body w) as [[b|e1] w1]
    end; [discriminate E|].
    rewrite isinstance_Exception_true in E. unfold bind, ret in E.
    rewrite update_progress_zero in E by assumption. discriminate E.
Qed.

End ControlFlow.

(** ** Runs on concrete file systems *)

Lemma quiet_raises_nothing : raises_only_RuntimeError (Some quiet).
Proof. intros cb E hist v m e H. injection E as <-. discriminate H. Qed.

Lemma closed_window_raises_RuntimeError :
  raises_only_RuntimeError (Some closed_window).
Proof.
  intros cb E hist v m e H. injection E as <-. injection H as <-. reflexivity.
Qed.

Lemma no_callback_raises_nothing : raises_only_RuntimeError None.
Proof. intros cb E. discriminate E. Qed.

Lemma raises_only_RuntimeError_quiet_on_failure cbo :
  raises_only_RuntimeError cbo -> quiet_on_failure cbo.
Proof. intros R cb E hist m e H. eapply R; eauto. Qed.

Lemma progress_events_in_order_witness :
  raises_only_RuntimeError (Some quiet) /\
  let run := convert windows_host (str "C:/dl/game.zip") (str "C:/out")
               (Some quiet) win_root in
  (fst run = Return true /\
   events (snd run) = [(10%Z, msg_extracting); (50%Z, msg_packing);
                       (80%Z, msg_cleaning); (100%Z, msg_done)]) \/
  (fst run = Return false /\
   exists message,
     failure_message windows_host (str "C:/out") message /\
     (events (snd run) = [(0%Z, message)] \/
      events (snd run) = [(10%Z, msg_extracting); (0%Z, message)] \/
      events (snd run) = [(10%Z, msg_extracting); (50%Z, msg_packing);
                          (0%Z, message)] \/
      (events (snd run) = [(10%Z, msg_extracting); (50%Z, msg_packing);
                           (80%Z, msg_cleaning); (0%Z, message)] /\
       exists e e' write,
         sys_stdout windows_host = Some write /\
         write (msg_cleanup_failed e) = Some e' /\
         message = msg_unexpected e'))).
Proof.
  split; [exact quiet_raises_nothing|].
  apply (progress_events_in_order node windows_host (tree_os windows_host)
           (str "C:/dl/game.zip") (str "C:/out") quiet (World win_root [] [])
           quiet_raises_nothing eq_refl).
Defined.

(** The fourth sequence of a failed conversion occurs: the files of the
    workspace cannot be removed, the standard output cannot encode the
    report of line 144, and the conversion that has written its archive
    ends with 10, 50, 80, 0 and [False]. *)
Example cleanup_report_not_printed :
  let run := convert_exe_to_sb3 redirected_host (busy_os redirected_host)
               (str "C:/dl/game.zip") (str "C:/out") (Some quiet)
               (World win_root [] []) in
  fst run = Return false /\
  events (snd run)
  = [(10%Z, msg_extracting); (50%Z, msg_packing); (80%Z, msg_cleaning);
     (0%Z, msg_unexpected (Exn OtherException (str "UnicodeEncodeError")))] /\
  stdout (snd run) = [] /\
  FS.lookup (fs (snd run)) [str "C:"; str "out"; str "game.sb3"]
  = Some (File (Archive [(str "project.json", Bytes (str "{}"));
                         (str "assets/a.png", Bytes (str "PNG"))])) /\
  path_exists redirected_host (str "C:/out/temp_extract") (fs (snd run)) = true.
Proof. vm_compute. repeat split; reflexivity. Qed.

(** The claim of C2 that the values never decrease fails on a file that is
    not a zip archive: the callback sees 10 and then 0. *)
Lemma progress_events_decrease_on_failure :
  let run := convert windows_host (str "C:/dl/notes.zip") (str "C:/out")
               (Some quiet) win_root in
  fst run = Return false /\
  percents run = [10%Z; 0%Z] /\
  nondecreasing (percents run) = false.
Proof. vm_compute. repeat split; reflexivity. Qed.

Lemma convert_returns_witness :
  quiet_on_failure (Some closed_window) /\
  exists b w',
    convert windows_host (str "C:/dl/notes.zip") (str "C:/out")
      (Some closed_window) win_root = (Return b, w') /\
    (b = false -> forall cb, Some closed_window = Some cb ->
     ends_with_failure_event windows_host (str "C:/out") w') /\
    (b = true ->
     all_stages_return node windows_host (tree_os windows_host)
       (str "C:/dl/notes.zip") (str "C:/out") (Some closed_window)
       (World win_root [] []) w').
Proof.
  assert (Q : quiet_on_failure (Some closed_window)).
  { apply raises_only_RuntimeError_quiet_on_failure.
    exact closed_window_raises_RuntimeError. }
  split; [exact Q|].
  apply (convert_returns node windows_host (tree_os windows_host)
           (str "C:/dl/notes.zip") (str "C:/out") (Some closed_window)
           (World win_root [] []) Q).
Defined.

(** The claim of C3 that nothing is raised past the converter fails with a
    callback that raises [ValueError]: the first invocation (10%) is caught
    by line 120, and the invocation made by that handler raises again, out
    of [convert_exe_to_sb3]. *)
Lemma convert_propagates_callback_error :
  let run := convert windows_host (str "C:/dl/game.zip") (str "C:/out")
               (Some failing_callback) win_root in
  fst run = Raise (Exn OtherException (str "ValueError")) /\
  percents run = [10%Z; 0%Z].
Proof. vm_compute. split; reflexivity. Qed.

Lemma callback_RuntimeError_swallowed_witness :
  raises_only_RuntimeError (Some closed_window) /\
  raises_only_RuntimeError None /\
  let run := convert windows_host (str "C:/dl/game.zip") (str "C:/out")
               (Some closed_window) win_root in
  let ref := convert windows_host (str "C:/dl/game.zip") (str "C:/out")
               None win_root in
  (exists b, fst run = Return b) /\
  fst run = fst ref /\
  fs (snd run) = fs (snd ref) /\
  stdout (snd run) = stdout (snd ref).
Proof.
  split; [exact closed_window_raises_RuntimeError|].
  split; [exact no_callback_raises_nothing|].
  apply (callback_RuntimeError_swallowed node windows_host (tree_os windows_host)
           (str "C:/dl/game.zip") (str "C:/out") closed_window None
           (World win_root [] [])
           closed_window_raises_RuntimeError no_callback_raises_nothing).
Defined.

(** C1: the workspace is removed only by stage 4.  Every [return False]
    leaves the function before it, and [<outputDirectory>/temp_extract]
    stays behind: here for a file that is not a zip archive, and for an
    archive without the expected layout (with what was extracted). *)
Theorem workspace_left_behind_on_failure :
  let not_a_zip := convert windows_host (str "C:/dl/notes.zip") (str "C:/out")
                     (Some quiet) win_root in
  let no_layout := convert windows_host (str "C:/dl/other.zip") (str "C:/out")
                     (Some quiet) bare_root in
  fst not_a_zip = Return false /\
  path_exists windows_host (str "C:/out/temp_extract") (fs (snd not_a_zip)) = true /\
  fst no_layout = Return false /\
  path_exists windows_host (str "C:/out/temp_extract/readme.txt")
    (fs (snd no_layout)) = true.
Proof. vm_compute. repeat split; reflexivity. Qed.

(** On success the workspace is gone. *)
Example workspace_removed_on_success :
  let run := convert windows_host (str "C:/dl/game.zip") (str "C:/out")
               (Some quiet) win_root in
  fst run = Return true /\
  path_exists windows_host (str "C:/out/temp_extract") (fs (snd run)) = false /\
  FS.lookup (fs (snd run)) [str "C:"; str "out"; str "game.sb3"]
  = Some (File (Archive [(str "project.json", Bytes (str "{}"));
                         (str "assets/a.png", Bytes (str "PNG"))])).
Proof. vm_compute. repeat split; reflexivity. Qed.

(** On a POSIX host the same conversion stops at the layout check: the
    workspace path with its separators overwritten names no directory. *)
Example posix_conversion_fails :
  let run := convert posix_host (str "/dl/game.zip") (str "/out")
               (Some quiet) posix_root in
  fst run = Return false /\
  events (snd run)
  = [(10%Z, msg_extracting);
     (0%Z, msg_missing_dir (str "\out\temp_extract/packaged-project/resources/app\"))] /\
  path_exists posix_host (str "/out/temp_extract/packaged-project/resources/app")
    (fs (snd run)) = true.
Proof. vm_compute. repeat split; reflexivity. Qed.

(** ** The tree file system *)

Lemma get_set_same {A} (n : pystr) (v : A) l : FS.get n (FS.set n v l) = Some v.
Proof.
  induction l as [|[m x] l IH]; simpl.
  - now rewrite str_eqb_refl.
  - destruct (str_eqb m n) eqn:E; simpl; now rewrite E.
Qed.

Lemma get_set_other {A} (n m : pystr) (v : A) l :
  n <> m -> FS.get m (FS.set n v l) = FS.get m l.
Proof.
  intro NE. induction l as [|[k x] l IH]; simpl.
  - apply str_eqb_neq in NE. now rewrite NE.
  - destruct (str_eqb k n) eqn:E; simpl.
    + apply str_eqb_eq in E. subst k. apply str_eqb_neq in NE. now rewrite NE.
    + now rewrite IH.
Qed.

Lemma get_del_other {A} (n m : pystr) (l : list (pystr * A)) :
  n <> m -> FS.get m (FS.del n l) = FS.get m l.
Proof.
  intro NE. induction l as [|[k x] l IH]; simpl; [reflexivity|].
  destruct (str_eqb k n) eqn:E; simpl.
  - apply str_eqb_eq in E. subst k. apply str_eqb_neq in NE. now rewrite NE.
  - now rewrite IH.
Qed.

Lemma lookup_opt_None loc : FS.lookup_opt None loc = None.
Proof. destruct loc; reflexivity. Qed.

Lemma lookup_opt_File c loc : loc <> [] -> FS.lookup_opt (Some (File c)) loc = None.
Proof. destruct loc; [congruence|reflexivity]. Qed.

Lemma lookup_opt_app o a b :
  FS.lookup_opt o (a ++ b) = FS.lookup_opt (FS.lookup_opt o a) b.
Proof.
  revert o. induction a as [|n a IH]; intro o; simpl; [reflexivity|].
  destruct o as [[c|es]|]; try (now rewrite lookup_opt_None).
  apply IH.
Qed.

Lemma diverge_sym a b : diverge a b -> diverge b a.
Proof.
  induction 1; [apply diverge_here; congruence|now apply diverge_later].
Qed.

Lemma diverge_app_l p a b : diverge a b -> diverge (p ++ a) (p ++ b).
Proof. intro D. induction p; simpl; [assumption|now constructor]. Qed.

Lemma diverge_app_r a b x y : diverge a b -> diverge (a ++ x) (b ++ y).
Proof.
  induction 1; simpl; [now apply diverge_here|now apply diverge_later].
Qed.

Lemma diverge_last p x y : x <> y -> diverge (p ++ [x]) (p ++ [y]).
Proof. intro NE. apply diverge_app_l. now constructor. Qed.

Lemma diverge_not_prefix a l r : diverge a l -> a <> l ++ r.
Proof.
  intros D. revert r. induction D; intros r E; simpl in E.
  - injection E as E _. contradiction.
  - injection E as E. eapply IHD; eauto.
Qed.

Lemma diverge_app_not_prefix a l x r : diverge a l -> a ++ x <> l ++ r.
Proof.
  intros D. apply (diverge_not_prefix (a ++ x) l r).
  rewrite <- (app_nil_r l). now apply diverge_app_r.
Qed.

Lemma removelast_prefix {A} (l : list A) : exists r, l = removelast l ++ r.
Proof.
  destruct l as [|x l]; [exists []; reflexivity|].
  exists [last (x :: l) x]. apply app_removelast_last. discriminate.
Qed.

(** [mkdirs_opt] leaves alone whatever is not on the way to the new
    directory. *)
Lemma lookup_mkdirs_frame loc : forall o t' l,
  FS.mkdirs_opt o loc = Some t' ->
  (forall r, loc <> l ++ r) ->
  FS.lookup_opt (Some t') l = FS.lookup_opt o l.
Proof.
  induction loc as [|n loc IH]; intros o t' l M NP.
  - destruct l as [|y b]; [exfalso; now apply (NP [])|].
    simpl in M. destruct o as [[c|es]|]; try discriminate; injection M as <-;
      simpl; [reflexivity|now rewrite lookup_opt_None].
  - destruct l as [|y b]; [exfalso; now apply (NP (n :: loc))|].
    simpl in M.
    assert (exists es, (o = Some (Dir es) \/ (o = None /\ es = [])) /\
              exists c, FS.mkdirs_opt (FS.get n es) loc = Some c /\
                        t' = Dir (FS.set n c es)) as (es & Ho & c & Mc & ->).
    { destruct o as [[c|es]|]; try discriminate.
      - exists es. split; [now left|].
        destruct (FS.mkdirs_opt (FS.get n es) loc) as [c|]; [|discriminate].
        injection M as <-. eauto.
      - exists []. split; [now right|].
        destruct (FS.mkdirs_opt (FS.get n []) loc) as [c|]; [|discriminate].
        injection M as <-. eauto. }
    assert (Lo : FS.lookup_opt o (y :: b) = FS.lookup_opt (FS.get y es) b).
    { destruct Ho as [->|[-> ->]]; simpl; [reflexivity|now rewrite lookup_opt_None]. }
    rewrite Lo. simpl.
    destruct (str_eqb n y) eqn:E.
    + apply str_eqb_eq in E. subst y. rewrite get_set_same.
      apply (IH _ _ _ Mc). intros r F. apply (NP r). simpl. now rewrite F.
    + apply str_eqb_neq in E. now rewrite get_set_other.
Qed.

(** [mkdirs_opt] creates directories only: the regular files are those
    that were there. *)
Lemma lookup_mkdirs_files loc : forall o t' l c,
  FS.mkdirs_opt o loc = Some t' ->
  (FS.lookup_opt (Some t') l = Some (File c) <-> FS.lookup_opt o l = Some (File c)).
Proof.
  induction loc as [|n loc IH]; intros o t' l c M.
  - simpl in M. destruct o as [[c0|es]|]; try discriminate; injection M as <-.
    + reflexivity.
    + destruct l; simpl; [split; discriminate|]. rewrite !lookup_opt_None.
      reflexivity.
  - simpl in M.
    assert (exists es, (o = Some (Dir es) \/ (o = None /\ es = [])) /\
              exists c, FS.mkdirs_opt (FS.get n es) loc = Some c /\
                        t' = Dir (FS.set n c es)) as (es & Ho & c' & Mc & ->).
    { destruct o as [[c0|es]|]; try discriminate.
      - exists es. split; [now left|].
        destruct (FS.mkdirs_opt (FS.get n es) loc) as [c'|]; [|discriminate].
        injection M as <-. eauto.
      - exists []. split; [now right|].
        destruct (FS.mkdirs_opt (FS.get n []) loc) as [c'|]; [|discriminate].
        injection M as <-. eauto. }
    destruct l as [|y b].
    + simpl. destruct Ho as [->|[-> ->]]; split; discriminate.
    + assert (Lo : FS.lookup_opt o (y :: b) = FS.lookup_opt (FS.get y es) b).
      { destruct Ho as [->|[-> ->]]; simpl; [reflexivity|now rewrite lookup_opt_None]. }
      rewrite Lo. simpl. destruct (str_eqb n y) eqn:E.
      * apply str_eqb_eq in E. subst y. rewrite get_set_same. now apply IH.
      * apply str_eqb_neq in E. rewrite get_set_other by assumption. reflexivity.
Qed.

Lemma lookup_put_same loc : forall o t' v,
  FS.put_opt o loc v = Some t' -> FS.lookup_opt (Some t') loc = Some v.
Proof.
  induction loc as [|n loc IH]; intros o t' v P; simpl in P.
  - now injection P as <-.
  - destruct o as [[c|es]|]; try discriminate.
    destruct (FS.put_opt (FS.get n es) loc v) as [c|] eqn:Pc; [|discriminate].
    injection P as <-. simpl. rewrite get_set_same. eauto.
Qed.

Lemma lookup_put_frame loc : forall o t' v l,
  FS.put_opt o loc v = Some t' -> diverge loc l ->
  FS.lookup_opt (Some t') l = FS.lookup_opt o l.
Proof.
  induction loc as [|n loc IH]; intros o t' v l P D; [inversion D|].
  simpl in P. destruct o as [[c|es]|]; try discriminate.
  destruct (FS.put_opt (FS.get n es) loc v) as [c|] eqn:Pc; [|discriminate].
  injection P as <-. inversion D as [x y a b NE|x a b D']; subst; simpl.
  - now rewrite get_set_other.
  - rewrite get_set_same. eauto.
Qed.

(** Writing where something already is succeeds. *)
Lemma put_opt_over loc : forall o v x,
  loc <> [] -> FS.lookup_opt o (removelast loc) = Some (Dir x) ->
  exists t', FS.put_opt o loc v = Some t'.
Proof.
  induction loc as [|n loc IH]; intros o v x NE L; [congruence|].
  destruct loc as [|m loc].
  - simpl in L. subst o. simpl. eauto.
  - change (removelast (n :: m :: loc)) with (n :: removelast (m :: loc)) in L.
    simpl in L. destruct o as [[c|es]|]; try discriminate.
    change (FS.put_opt (Some (Dir es)) (n :: m :: loc) v)
      with (match FS.put_opt (FS.get n es) (m :: loc) v with
            | Some c => Some (Dir (FS.set n c es))
            | None => None
            end).
    destruct (IH (FS.get n es) v x) as [c Pc]; [discriminate|assumption|].
    rewrite Pc. eauto.
Qed.

Lemma lookup_del_frame loc : forall t t' l,
  FS.del_at t loc = Some t' -> diverge loc l ->
  FS.lookup t' l = FS.lookup t l.
Proof.
  unfold FS.lookup.
  induction loc as [|n loc IH]; intros t t' l P D; [inversion D|].
  destruct loc as [|m loc].
  - simpl in P. destruct t as [c|es]; [discriminate|]. injection P as <-.
    inversion D as [x y a b NE|x a b D']; subst; [|inversion D'].
    simpl. now rewrite get_del_other.
  - change (FS.del_at t (n :: m :: loc))
      with (match t with
            | Dir es =>
                match FS.get n es with
                | Some c =>
                    match FS.del_at c (m :: loc) with
                    | Some c' => Some (Dir (FS.set n c' es))
                    | None => None
                    end
                | None => None
                end
            | File _ => None
            end) in P.
    destruct t as [c|es]; [discriminate|].
    destruct (FS.get n es) as [c|] eqn:G; [|discriminate].
    destruct (FS.del_at c (m :: loc)) as [c'|] eqn:Dc; [|discriminate].
    injection P as <-. inversion D as [x y a b NE|x a b D']; subst; simpl.
    + now rewrite get_set_other.
    + rewrite get_set_same, G. eauto.
Qed.

(** ** Paths on a Windows host *)

Lemma existsb_chr_false c n : existsb (chr_eqb c) n = false -> ~ In c n.
Proof.
  intros E I. assert (T : existsb (chr_eqb c) n = true).
  { apply existsb_exists. exists c. split; [assumption|apply chr_eqb_refl]. }
  congruence.
Qed.

Lemma existsb_sep_false n :
  existsb (is_sep Windows) n = false -> ~ In backslash n /\ ~ In slash n.
Proof.
  intro E. split; intro I.
  - assert (T : existsb (is_sep Windows) n = true).
    { apply existsb_exists. exists backslash. split; [assumption|reflexivity]. }
    congruence.
  - assert (T : existsb (is_sep Windows) n = true).
    { apply existsb_exists. exists slash. split; [assumption|reflexivity]. }
    congruence.
Qed.

Lemma legal_name_windows n : legal_name Windows n = true -> legal_windows n.
Proof.
  unfold legal_name. intro L.
  apply andb_true_iff in L. destruct L as [L Lc].
  apply andb_true_iff in L. destruct L as [L Ld].
  apply andb_true_iff in L. destruct L as [Ln Ls].
  apply negb_true_iff in Lc, Ld, Ls.
  destruct (existsb_sep_false n Ls). constructor; auto.
  - destruct n; [discriminate|discriminate].
  - now apply existsb_chr_false.
Qed.

Lemma replace_chr_absent a b s : ~ In a s -> replace_chr a b s = s.
Proof.
  induction s as [|x s IH]; intro N; [reflexivity|]. simpl.
  destruct (chr_eqb x a) eqn:E.
  - apply chr_eqb_eq in E. subst. exfalso. apply N. now left.
  - rewrite IH; [reflexivity|]. intro I. apply N. now right.
Qed.

Lemma replace_chr_removes a b s : a <> b -> ~ In a (replace_chr a b s).
Proof.
  intros NE I. unfold replace_chr in I. apply in_map_iff in I.
  destruct I as (x & E & _). destruct (chr_eqb x a) eqn:X.
  - congruence.
  - subst x. now rewrite chr_eqb_refl in X.
Qed.

Lemma collapse_dots_app rooted xs : forall kept ys,
  collapse_dots rooted kept (xs ++ ys)
  = collapse_dots rooted (collapse_dots rooted kept xs) ys.
Proof.
  induction xs as [|c xs IH]; intros kept ys; simpl; [reflexivity|].
  destruct (str_eqb c [] || str_eqb c curdir); [apply IH|].
  destruct (str_eqb c pardir).
  - destruct kept as [|top kept']; [destruct rooted; apply IH|].
    destruct (str_eqb top pardir); apply IH.
  - apply IH.
Qed.

Lemma dot_segment_false n :
  dot_segment n = false -> str_eqb n curdir = false /\ str_eqb n pardir = false.
Proof. unfold dot_segment. intro D. now apply orb_false_iff in D. Qed.

Lemma collapse_dots_keep rooted kept n :
  n <> [] -> dot_segment n = false ->
  collapse_dots rooted kept [n] = n :: kept.
Proof.
  intros NE D. destruct (dot_segment_false n D) as [D1 D2]. simpl.
  apply str_eqb_neq in NE. now rewrite NE, D1, D2.
Qed.

Lemma collapse_dots_keep_all rooted names : forall kept,
  Forall (fun n => n <> [] /\ dot_segment n = false) names ->
  collapse_dots rooted kept names = rev names ++ kept.
Proof.
  induction names as [|n names IH]; intros kept F; [reflexivity|].
  inversion F as [|? ? [NE D] F']; subst.
  change (n :: names) with ([n] ++ names).
  rewrite collapse_dots_app, collapse_dots_keep by assumption.
  rewrite IH by assumption. simpl. now rewrite <- app_assoc.
Qed.

Lemma collapse_dots_skip_empty rooted kept :
  collapse_dots rooted kept [[]] = kept.
Proof. reflexivity. Qed.

Lemma collapse_split_lstrip rooted c s : forall kept,
  collapse_dots rooted kept (split c (lstrip c s))
  = collapse_dots rooted kept (split c s).
Proof.
  induction s as [|x s IH]; intro kept; [reflexivity|].
  simpl. destruct (chr_eqb x c) eqn:E; [|simpl; now rewrite E].
  rewrite IH. reflexivity.
Qed.

Lemma collapse_dots_nonempty rooted comps : forall kept,
  (forall x, In x kept -> x <> []) ->
  forall x, In x (collapse_dots rooted kept comps) -> x <> [].
Proof.
  induction comps as [|c comps IH]; intros kept K x H; simpl in H.
  - now apply K.
  - destruct (str_eqb c [] || str_eqb c curdir) eqn:E0; [now apply (IH kept)|].
    apply orb_false_iff in E0. destruct E0 as [E0 _]. apply str_eqb_neq in E0.
    assert (K' : forall x, In x (c :: kept) -> x <> [])
      by (intros y [<-|I]; [assumption|now apply K]).
    destruct (str_eqb c pardir).
    + destruct kept as [|top kept'].
      * destruct rooted; [now apply (IH [])|now apply (IH [c])].
      * destruct (str_eqb top pardir); [now apply (IH (c :: top :: kept'))|].
        apply (IH kept'); [|assumption]. intros y I. apply K. now right.
    + now apply (IH (c :: kept)).
Qed.

(** The components of a drive-absolute path are plain names. *)
Lemma nt_comps_plain a x :
  In x (nt_comps a) ->
  x <> [] /\ dot_segment x = false /\ ~ In backslash x /\ ~ In slash x.
Proof.
  unfold nt_comps. intro I. apply in_rev in I. repeat split.
  - eapply collapse_dots_nonempty; [|exact I]. intros y [].
  - eapply collapse_dots_rooted_clean; [|exact I]. intros y [].
  - eapply collapse_dots_no_sep; [| |exact I]; [intros y []|apply split_no_sep].
  - eapply collapse_dots_no_sep; [| |exact I]; [intros y []|].
    intros y Iy S. apply (replace_chr_removes slash backslash (skipn 2 a));
      [discriminate|].
    rewrite <- (join_split backslash (replace_chr slash backslash (skipn 2 a))).
    clear I. revert y Iy S. generalize (split backslash (replace_chr slash backslash (skipn 2 a))).
    induction l as [|p l IH]; intros y Iy S; [destruct Iy|].
    destruct l as [|q l]; simpl in *.
    + destruct Iy as [<-|[]]. assumption.
    + apply in_or_app. destruct Iy as [<-|Iy]; [now left|].
      right. right. eapply IH; eauto.
Qed.

Lemma drive_absolute_replace_shape c s rest :
  is_sep Windows s = true -> is_sep Windows c = false ->
  replace_chr slash backslash (c :: colon :: s :: rest)
  = c :: colon :: backslash :: replace_chr slash backslash rest.
Proof.
  intros Hs Hc. simpl in Hc. apply orb_false_iff in Hc. destruct Hc as [_ Hc].
  cbn [replace_chr map]. rewrite Hc.
  change (chr_eqb colon slash) with false. cbv iota.
  simpl in Hs. destruct (chr_eqb s slash) eqn:E; [reflexivity|].
  rewrite orb_false_r in Hs. apply chr_eqb_eq in Hs. now subst.
Qed.

Lemma nt_normpath_drive_absolute a :
  drive_absolute a = true ->
  ntpath.normpath a = firstn 2 a ++ backslash :: join_with backslash (nt_comps a).
Proof.
  intro D. pose proof (drive_absolute_not_special a D) as SP.
  destruct (drive_absolute_inv a D) as (c & s & rest & -> & Hs & Hc).
  unfold ntpath.normpath. rewrite SP.
  rewrite (drive_absolute_replace_shape c s rest Hs Hc).
  unfold nt_comps.
  change (skipn 2 (c :: colon :: s :: rest)) with (s :: rest).
  assert (Rs : replace_chr slash backslash (s :: rest)
               = backslash :: replace_chr slash backslash rest).
  { cbn [replace_chr map]. simpl in Hs.
    destruct (chr_eqb s slash) eqn:E; [reflexivity|].
    rewrite orb_false_r in Hs. apply chr_eqb_eq in Hs. now subst. }
  rewrite Rs.
  cbn [ntpath.splitdrive]. rewrite chr_eqb_refl.
  change (startswith [backslash] (backslash :: replace_chr slash backslash rest))
    with true. cbv iota.
  change (endswith_if (chr_eqb backslash) ([c; colon] ++ [backslash])) with true.
  rewrite collapse_split_lstrip.
  change (split backslash (backslash :: replace_chr slash backslash rest))
    with ([] :: split backslash (replace_chr slash backslash rest)).
  change (collapse_dots true [] ([] :: split backslash (replace_chr slash backslash rest)))
    with (collapse_dots true [] (split backslash (replace_chr slash backslash rest))).
  reflexivity.
Qed.

Lemma filter_nonempty_id (l : list pystr) :
  (forall x, In x l -> x <> []) -> filter nonempty l = l.
Proof.
  induction l as [|x l IH]; intro H; [reflexivity|]. simpl.
  destruct x as [|c x]; [exfalso; apply (H []); [now left|reflexivity]|].
  simpl. rewrite IH; [reflexivity|]. intros y I. apply H. now right.
Qed.

Lemma locate_drive_absolute (h : host) a :
  plat h = Windows -> drive_absolute a = true ->
  locate h a = firstn 2 a :: nt_comps a.
Proof.
  intros W D. unfold locate, os_path.abspath. rewrite W.
  rewrite nt_abspath_drive_absolute, nt_normpath_drive_absolute by assumption.
  destruct (drive_absolute_inv a D) as (c & s & rest & E & Hs & Hc).
  simpl os_sep.
  assert (NB : ~ In backslash (firstn 2 a)).
  { rewrite E. simpl. intros [F|[F|[]]]; [|discriminate F].
    subst c. discriminate Hc. }
  rewrite split_app by assumption. cbn [filter].
  assert (NE : nonempty (firstn 2 a) = true) by (rewrite E; reflexivity).
  rewrite NE. f_equal.
  destruct (nt_comps a) as [|k ks] eqn:K; [reflexivity|].
  rewrite split_join; [|discriminate|].
  - apply filter_nonempty_id. intros x I. rewrite <- K in I.
    now apply nt_comps_plain in I.
  - intros x I. rewrite <- K in I. now apply nt_comps_plain in I.
Qed.

(** Appending a name, with or without a separator in between. *)
Lemma nt_comps_snoc a (n : pystr) :
  2 <= length a -> legal_windows n ->
  nt_comps (a ++ backslash :: n) = nt_comps a ++ [n].
Proof.
  intros Len L. unfold nt_comps.
  rewrite skipn_app. replace (2 - length a) with 0 by lia. simpl skipn at 2.
  rewrite replace_chr_app.
  change (replace_chr slash backslash (backslash :: n))
    with (backslash :: replace_chr slash backslash n).
  rewrite (replace_chr_absent slash backslash n) by apply L.
  rewrite split_snoc by apply L.
  rewrite collapse_dots_app, collapse_dots_keep by apply L.
  reflexivity.
Qed.

Lemma nt_comps_trailing_sep a (s : ascii) :
  2 <= length a -> is_sep Windows s = true ->
  nt_comps (a ++ [s]) = nt_comps a.
Proof.
  intros Len Hs. unfold nt_comps.
  rewrite skipn_app. replace (2 - length a) with 0 by lia. simpl skipn at 2.
  rewrite replace_chr_app.
  assert (E : replace_chr slash backslash [s] = [backslash]).
  { simpl. simpl in Hs. destruct (chr_eqb s slash); [reflexivity|].
    rewrite orb_false_r in Hs. apply chr_eqb_eq in Hs. now subst. }
  rewrite E, split_snoc by (intros []).
  rewrite collapse_dots_app. reflexivity.
Qed.

Lemma nt_comps_after_sep a (s : ascii) (n : pystr) :
  2 <= length a -> is_sep Windows s = true -> legal_windows n ->
  nt_comps ((a ++ [s]) ++ n) = nt_comps (a ++ [s]) ++ [n].
Proof.
  intros Len Hs L. rewrite nt_comps_trailing_sep by assumption.
  rewrite <- nt_comps_snoc by assumption.
  unfold nt_comps. f_equal. f_equal. f_equal.
  rewrite <- !app_assoc. rewrite !skipn_app.
  replace (2 - length a) with 0 by lia. simpl skipn.
  rewrite !replace_chr_app. f_equal. simpl.
  simpl in Hs. destruct (chr_eqb s slash); [reflexivity|].
  rewrite orb_false_r in Hs. apply chr_eqb_eq in Hs. now subst.
Qed.

Lemma endswith_if_app f (l n : pystr) :
  n <> [] -> endswith_if f (l ++ n) = endswith_if f n.
Proof.
  intro NE. unfold endswith_if. rewrite rev_app_distr.
  destruct (rev n) as [|x r] eqn:E; [|reflexivity].
  exfalso. apply NE. apply (f_equal (@rev ascii)) in E.
  now rewrite rev_involutive in E.
Qed.

Lemma endswith_if_inv f (a : pystr) :
  endswith_if f a = true -> exists a0 s, a = a0 ++ [s] /\ f s = true.
Proof.
  unfold endswith_if. destruct (rev a) as [|x r] eqn:E; [discriminate|].
  intro F. exists (rev r), x. split; [|assumption].
  apply (f_equal (@rev ascii)) in E. now rewrite rev_involutive in E.
Qed.

Lemma both_seps_legal n x :
  legal_windows n -> In x n -> ntpath.both_seps x = false.
Proof.
  intros L I. unfold ntpath.both_seps, is_sep.
  destruct (chr_eqb x backslash) eqn:B.
  - apply chr_eqb_eq in B. subst. exfalso. now apply (lw_no_backslash _ L).
  - destruct (chr_eqb x slash) eqn:Sl; [|reflexivity].
    apply chr_eqb_eq in Sl. subst. exfalso. now apply (lw_no_slash _ L).
Qed.

Lemma endswith_if_legal n :
  legal_windows n -> endswith_if ntpath.both_seps n = false.
Proof.
  intros L. unfold endswith_if. destruct (rev n) as [|x r] eqn:E; [reflexivity|].
  apply (both_seps_legal n x L). apply in_rev. rewrite E. now left.
Qed.

Lemma splitdrive_no_colon n : ~ In colon n -> ntpath.splitdrive n = ([], n).
Proof.
  intro N. destruct n as [|x [|y r]]; try reflexivity.
  unfold ntpath.splitdrive. destruct (chr_eqb y colon) eqn:E; [|reflexivity].
  apply chr_eqb_eq in E. subst. exfalso. apply N. right. now left.
Qed.

Lemma head_is_sep_legal n : legal_windows n -> ntpath.head_is_sep n = false.
Proof.
  intro L. destruct n as [|x r]; [reflexivity|].
  apply (both_seps_legal (x :: r) x L). now left.
Qed.

(** One round of [ntpath.join] with a plain name. *)
Lemma join_step_legal (d rp n : pystr) :
  legal_windows n -> rp <> [] ->
  ntpath.join_step (d, rp) n
  = (d, if endswith_if ntpath.both_seps rp then rp ++ n
        else rp ++ backslash :: n).
Proof.
  intros L NE. unfold ntpath.join_step.
  rewrite (splitdrive_no_colon n (lw_no_colon _ L)).
  rewrite (head_is_sep_legal n L).
  destruct rp as [|x rp]; [congruence|]. reflexivity.
Qed.

Lemma nt_join_one a n :
  drive_absolute a = true -> legal_windows n ->
  ntpath.join a [n]
  = if endswith_if ntpath.both_seps a then a ++ n else a ++ backslash :: n.
Proof.
  intros D L. destruct (drive_absolute_inv a D) as (c & s & rest & -> & Hs & Hc).
  unfold ntpath.join. cbn [fold_left ntpath.splitdrive]. rewrite chr_eqb_refl.
  rewrite join_step_legal by (assumption || discriminate).
  change (c :: colon :: s :: rest) with ([c; colon] ++ s :: rest).
  rewrite (endswith_if_app ntpath.both_seps [c; colon] (s :: rest)) by discriminate.
  destruct (endswith_if ntpath.both_seps (s :: rest)); now rewrite <- app_assoc.
Qed.

Lemma nt_join_cons a n ns :
  drive_absolute a = true -> legal_windows n ->
  ntpath.join a (n :: ns) = ntpath.join (ntpath.join a [n]) ns.
Proof.
  intros D L. destruct (drive_absolute_inv a D) as (c & s & rest & -> & Hs & Hc).
  unfold ntpath.join. cbn [fold_left ntpath.splitdrive]. rewrite chr_eqb_refl.
  rewrite join_step_legal by (assumption || discriminate).
  set (rp := if endswith_if ntpath.both_seps (s :: rest) then (s :: rest) ++ n
             else (s :: rest) ++ backslash :: n).
  cbn [app ntpath.splitdrive]. rewrite chr_eqb_refl. reflexivity.
Qed.

Lemma drive_absolute_app a x :
  drive_absolute a = true -> drive_absolute (a ++ x) = true.
Proof.
  intro D. destruct (drive_absolute_inv a D) as (c & s & rest & -> & _ & _).
  exact D.
Qed.

Lemma drive_absolute_length a : drive_absolute a = true -> 3 <= length a.
Proof.
  intro D. destruct (drive_absolute_inv a D) as (c & s & rest & -> & _ & _).
  simpl. lia.
Qed.

Lemma firstn_2_app (a x : pystr) :
  2 <= length a -> firstn 2 (a ++ x) = firstn 2 a.
Proof.
  intro Len. rewrite firstn_app. replace (2 - length a) with 0 by lia.
  simpl. now rewrite app_nil_r.
Qed.

(** Joining a plain name to a drive-absolute path. *)
Lemma nt_join_facts a n :
  drive_absolute a = true -> legal_windows n ->
  drive_absolute (ntpath.join a [n]) = true /\
  endswith_if ntpath.both_seps (ntpath.join a [n]) = false /\
  firstn 2 (ntpath.join a [n]) = firstn 2 a /\
  nt_comps (ntpath.join a [n]) = nt_comps a ++ [n].
Proof.
  intros D L. rewrite nt_join_one by assumption.
  pose proof (drive_absolute_length a D) as Len.
  destruct (endswith_if ntpath.both_seps a) eqn:E.
  - repeat split.
    + now apply drive_absolute_app.
    + rewrite endswith_if_app by apply L. now apply endswith_if_legal.
    + apply firstn_2_app. lia.
    + destruct (endswith_if_inv _ _ E) as (a0 & s & -> & Hs).
      rewrite length_app in Len. simpl in Len.
      apply nt_comps_after_sep; [lia|assumption|assumption].
  - repeat split.
    + now apply drive_absolute_app.
    + change (a ++ backslash :: n) with (a ++ [backslash] ++ n).
      rewrite app_assoc, endswith_if_app by apply L. now apply endswith_if_legal.
    + apply firstn_2_app. lia.
    + apply nt_comps_snoc; [lia|assumption].
Qed.

Lemma locate_join (h : host) a n :
  plat h = Windows -> drive_absolute a = true -> legal_windows n ->
  locate h (os_path.join h a [n]) = locate h a ++ [n].
Proof.
  intros W D L. unfold os_path.join. rewrite W.
  destruct (nt_join_facts a n D L) as (D' & _ & F & C).
  rewrite !locate_drive_absolute by assumption. now rewrite F, C.
Qed.

(** *** [custom_relpath] below the resources directory *)

Lemma In_join_with c (l : list pystr) x :
  In x (join_with c l) -> x = c \/ exists p, In p l /\ In x p.
Proof.
  induction l as [|p l IH]; intro I; [destruct I|].
  destruct l as [|q l].
  - right. exists p. split; [now left|assumption].
  - rewrite join_with_cons in I by discriminate.
    apply in_app_or in I. destruct I as [I|[<-|I]].
    + right. exists p. split; [now left|assumption].
    + now left.
    + destruct (IH I) as [->|(p' & Ip & Ix)]; [now left|].
      right. exists p'. split; [now right|assumption].
Qed.

Lemma join_with_app c (k ds : list pystr) :
  k <> [] ->
  join_with c (k ++ ds)
  = join_with c k ++ match ds with [] => [] | _ => c :: join_with c ds end.
Proof.
  induction k as [|p k IH]; intro NE; [congruence|].
  destruct k as [|q k].
  - destruct ds as [|d ds]; simpl; [now rewrite app_nil_r|reflexivity].
  - change ((p :: q :: k) ++ ds) with (p :: ((q :: k) ++ ds)).
    rewrite !join_with_cons by discriminate.
    rewrite IH by discriminate. now rewrite <- app_assoc.
Qed.

Lemma join_with_snoc c (ds : list pystr) (n : pystr) :
  ds <> [] -> join_with c (ds ++ [n]) = join_with c ds ++ c :: n.
Proof. intro NE. now rewrite join_with_app. Qed.

Lemma startswith_app (s t : pystr) : startswith s (s ++ t) = true.
Proof. induction s as [|x s IH]; simpl; [reflexivity|]. now rewrite chr_eqb_refl. Qed.

Lemma contains_prefix (sub s : pystr) :
  startswith sub s = true -> contains sub s = true.
Proof. intro P. destruct s; simpl; now rewrite P. Qed.

Lemma common_bytes_app (s t : pystr) : common_bytes (s ++ t) s = s.
Proof.
  induction s as [|x s IH]; simpl; [now destruct t|].
  now rewrite chr_eqb_refl, IH.
Qed.

Lemma skipn_length_app (s t : pystr) : skipn (length s) (s ++ t) = t.
Proof. induction s; simpl; auto. Qed.

(** The common prefix of a string and of what continues it with a new
    character is the string. *)
Lemma commonprefix_app (s t : pystr) :
  starts_inside t = false -> commonprefix (s ++ t) s = s.
Proof.
  intro T. unfold commonprefix. rewrite common_bytes_app, skipn_length_app.
  now rewrite skipn_all, T.
Qed.

(** The same for a string that ends in an ASCII character, whatever
    follows. *)
Lemma commonprefix_app_ascii (s t : pystr) c :
  is_lead c = false -> is_continuation c = false ->
  commonprefix ((s ++ [c]) ++ t) (s ++ [c]) = s ++ [c].
Proof.
  intros L C. unfold commonprefix. rewrite common_bytes_app.
  destruct (_ || _); [|reflexivity].
  unfold whole_characters. rewrite rev_app_distr. cbn [rev app lstrip_if].
  now rewrite C, L.
Qed.

Lemma lstrip_stop c x (s : pystr) : x <> c -> lstrip c (x :: s) = x :: s.
Proof. intro NE. simpl. apply chr_eqb_neq in NE. now rewrite NE. Qed.

Lemma relpath_loop_keep_all parts : forall rel,
  Forall (fun n => dot_segment n = false) parts ->
  relpath_loop rel parts = rev parts ++ rel.
Proof.
  induction parts as [|p parts IH]; intros rel F; [reflexivity|].
  inversion F as [|? ? D F']; subst.
  rewrite relpath_loop_keep by assumption. rewrite IH by assumption.
  simpl. now rewrite <- app_assoc.
Qed.

Lemma join_legal_head (ds : list pystr) d :
  Forall legal_windows (d :: ds) ->
  exists x s, join_with backslash (d :: ds) = x :: s /\ x <> backslash.
Proof.
  intro F. inversion F as [|? ? L F']; subst.
  destruct d as [|x d]; [exfalso; now apply (lw_nonempty _ L)|].
  exists x. destruct ds as [|e ds]; simpl; eexists; (split; [reflexivity|]);
    intros ->; apply (lw_no_backslash _ L); now left.
Qed.

Lemma nt_comps_normal (c : ascii) (k : list pystr) :
  (forall x, In x k -> x <> [] /\ dot_segment x = false /\
                       ~ In backslash x /\ ~ In slash x) ->
  nt_comps (c :: colon :: backslash :: join_with backslash k) = k.
Proof.
  intro P. unfold nt_comps.
  change (skipn 2 (c :: colon :: backslash :: join_with backslash k))
    with (backslash :: join_with backslash k).
  rewrite replace_chr_absent.
  2:{ intros [F|I]; [discriminate F|]. apply In_join_with in I.
      destruct I as [F|(p & Ip & Ix)]; [discriminate F|].
      now apply (P p Ip). }
  change (split backslash (backslash :: join_with backslash k))
    with ([] :: split backslash (join_with backslash k)).
  change (collapse_dots true [] ([] :: split backslash (join_with backslash k)))
    with (collapse_dots true [] (split backslash (join_with backslash k))).
  destruct k as [|p k]; [reflexivity|].
  rewrite split_join; [|discriminate|intros x I; now apply (P x I)].
  rewrite collapse_dots_keep_all.
  - now rewrite app_nil_r, rev_involutive.
  - apply Forall_forall. intros x I. split; now apply (P x I).
Qed.

(** [abspath(normpath(r))] of a drive-absolute path. *)
Lemma nt_abspath_normpath cwd r :
  drive_absolute r = true ->
  ntpath.abspath cwd (ntpath.normpath r)
  = firstn 2 r ++ backslash :: join_with backslash (nt_comps r).
Proof.
  intro D. rewrite (nt_normpath_drive_absolute r D).
  destruct (drive_absolute_inv r D) as (c & s & rest & E & Hs & Hc).
  assert (F : firstn 2 r = [c; colon]) by (rewrite E; reflexivity).
  rewrite F. cbn [app].
  assert (D' : drive_absolute (c :: colon :: backslash :: join_with backslash (nt_comps r)) = true).
  { cbn [drive_absolute]. rewrite chr_eqb_refl, Hc. reflexivity. }
  rewrite nt_abspath_drive_absolute, nt_normpath_drive_absolute by assumption.
  rewrite nt_comps_normal; [reflexivity|]. intros x I. now apply nt_comps_plain in I.
Qed.

Lemma legal_windows_plain n :
  legal_windows n -> n <> [] /\ dot_segment n = false.
Proof. intro L. split; apply L. Qed.

Lemma custom_relpath_under (h : host) (r a : pystr) (ds : list pystr) :
  plat h = Windows ->
  drive_absolute r = true -> drive_absolute a = true ->
  firstn 2 r = firstn 2 a ->
  nt_comps a <> [] ->
  nt_comps r = nt_comps a ++ ds ->
  Forall legal_windows ds ->
  custom_relpath h r a = join_with backslash ds.
Proof.
  intros W Dr Da F NE C L. unfold custom_relpath, os_path.abspath, os_path.normpath.
  rewrite W. cbn [os_sep].
  rewrite !nt_abspath_normpath by assumption. rewrite C, F.
  rewrite join_with_app by assumption.
  set (start := firstn 2 a ++ backslash :: join_with backslash (nt_comps a)).
  set (tail := match ds with [] => [] | _ :: _ => backslash :: join_with backslash ds end).
  replace (firstn 2 a ++ backslash :: join_with backslash (nt_comps a) ++ tail)
    with (start ++ tail) by (unfold start; now rewrite <- app_assoc).
  rewrite (contains_prefix start (start ++ tail) (startswith_app start tail)).
  cbn [negb].
  rewrite commonprefix_app, skipn_length_app by (unfold tail; now destruct ds).
  destruct ds as [|d ds]; [reflexivity|].
  unfold tail. cbn [lstrip]. rewrite chr_eqb_refl.
  destruct (join_legal_head ds d L) as (x & s & E & NB).
  rewrite E, lstrip_stop by assumption. rewrite <- E.
  rewrite split_join; [|discriminate|].
  2:{ intros seg I. rewrite Forall_forall in L. apply (L seg I). }
  rewrite relpath_loop_keep_all.
  2:{ apply Forall_forall. intros seg I. rewrite Forall_forall in L.
      apply (L seg I). }
  now rewrite app_nil_r, rev_involutive.
Qed.

Lemma replace_join_with a b (l : list pystr) :
  Forall (fun p => ~ In a p) l ->
  replace_chr a b (join_with a l) = join_with b l.
Proof.
  induction l as [|p l IH]; intro F; [reflexivity|].
  inversion F as [|? ? Np F']; subst. destruct l as [|q l].
  - simpl. now apply replace_chr_absent.
  - rewrite (join_with_cons a), (join_with_cons b) by discriminate.
    rewrite replace_chr_app, (replace_chr_absent a b p Np).
    change (replace_chr a b (a :: join_with a (q :: l)))
      with ((if chr_eqb a a then b else a) :: replace_chr a b (join_with a (q :: l))).
    rewrite chr_eqb_refl, IH by assumption. reflexivity.
Qed.

(** The member name of a file [file] in the directory [ds] below the
    resources directory. *)
Lemma zip_arcname_under (h : host) (ds : list pystr) (file : pystr) :
  plat h = Windows -> Forall legal_windows ds -> legal_windows file ->
  zip_arcname h (os_path.join h (join_with backslash ds) [file])
  = join_with slash (ds ++ [file]).
Proof.
  intros W L Lf.
  assert (LA : Forall legal_windows (ds ++ [file])).
  { apply Forall_app. split; [assumption|now constructor]. }
  assert (NC : forall l, Forall legal_windows l -> ~ In colon (join_with backslash l)).
  { intros l Fl I. apply In_join_with in I. destruct I as [F|(p & Ip & Ix)];
      [discriminate F|]. rewrite Forall_forall in Fl.
    now apply (lw_no_colon _ (Fl p Ip)). }
  assert (J : os_path.join h (join_with backslash ds) [file]
              = join_with backslash (ds ++ [file])).
  { unfold os_path.join. rewrite W. unfold ntpath.join. cbn [fold_left].
    rewrite (splitdrive_no_colon _ (NC ds L)).
    destruct ds as [|d ds].
    - cbn [join_with app]. unfold ntpath.join_step.
      rewrite (splitdrive_no_colon file (lw_no_colon _ Lf)).
      now rewrite (head_is_sep_legal file Lf).
    - rewrite join_step_legal; [|assumption|].
      2:{ destruct (join_legal_head ds d L) as (x & s & E & _). rewrite E.
          discriminate. }
      rewrite join_with_snoc by discriminate.
      assert (E : endswith_if ntpath.both_seps (join_with backslash (d :: ds)) = false).
      { assert (exists k lst, d :: ds = k ++ [lst]) as (k & lst & Ek).
        { exists (removelast (d :: ds)), (last (d :: ds) []).
          apply app_removelast_last. discriminate. }
        rewrite Ek in L |- *. apply Forall_app in L. destruct L as [Lk Ll].
        inversion Ll as [|? ? Llst _]; subst.
        destruct k as [|k0 k].
        - simpl. now apply endswith_if_legal.
        - rewrite join_with_snoc by discriminate.
          change (backslash :: lst) with ([backslash] ++ lst).
          rewrite app_assoc, endswith_if_app by apply Llst.
          now apply endswith_if_legal. }
      now rewrite E. }
  rewrite J. unfold zip_arcname. rewrite W.
  rewrite (splitdrive_no_colon _ (NC _ LA)). cbn [snd].
  unfold os_path.normpath. rewrite W.
  destruct (ds ++ [file]) as [|p l] eqn:El; [destruct ds; discriminate El|].
  destruct (join_legal_head l p LA) as (x & s & E & NB).
  assert (NS : ~ In slash (join_with backslash (p :: l))).
  { intro I. apply In_join_with in I. destruct I as [F|(q & Iq & Ix)];
      [discriminate F|]. rewrite Forall_forall in LA.
    now apply (lw_no_slash _ (LA q Iq)). }
  unfold ntpath.normpath.
  assert (SP : ntpath.special_prefix (join_with backslash (p :: l)) = false).
  { rewrite E. unfold ntpath.special_prefix.
    cbn [str list_ascii_of_string startswith]. change "\"%char with backslash.
    rewrite chr_eqb_sym. apply chr_eqb_neq in NB. now rewrite NB. }
  rewrite SP, (replace_chr_absent slash backslash _ NS).
  rewrite (splitdrive_no_colon _ (NC _ LA)).
  assert (SW : startswith [backslash] (join_with backslash (p :: l)) = false).
  { rewrite E. cbn [startswith]. rewrite chr_eqb_sym.
    apply chr_eqb_neq in NB. now rewrite NB. }
  rewrite SW.
  change (endswith_if (chr_eqb backslash) []) with false.
  rewrite split_join; [|discriminate|].
  2:{ intros seg I. rewrite Forall_forall in LA. apply (LA seg I). }
  rewrite collapse_dots_keep_all.
  2:{ apply Forall_forall. intros seg I. rewrite Forall_forall in LA.
      apply legal_windows_plain, (LA seg I). }
  rewrite app_nil_r, rev_involutive. cbn [app].
  rewrite E. cbn [lstrip_if].
  assert (SX : is_sep Windows x = false).
  { apply (both_seps_legal p x).
    - rewrite Forall_forall in LA. apply LA. now left.
    - destruct l; simpl in E.
      + rewrite E. now left.
      + apply (f_equal (fun s => match s with y :: _ => [y] | [] => [] end)) in E.
        destruct p as [|y p]; [exfalso; rewrite Forall_forall in LA;
          apply (lw_nonempty _ (LA [] (or_introl eq_refl))); reflexivity|].
        simpl in E. injection E as ->. now left. }
  rewrite SX. rewrite <- E. cbn [os_sep].
  apply replace_join_with. apply Forall_forall. intros seg I.
  rewrite Forall_forall in LA. apply (lw_no_backslash _ (LA seg I)).
Qed.

(** ** Directory trees *)

Lemma node_induction (P : node -> Prop) :
  (forall c, P (File c)) ->
  (forall es, Forall (fun e => P (snd e)) es -> P (Dir es)) ->
  forall t, P t.
Proof.
  intros HF HD. fix IH 1. intros [c|es]; [apply HF|apply HD].
  induction es as [|[n c] es IHes]; constructor; [apply IH|assumption].
Qed.

Lemma files_under_Dir es :
  files_under (Dir es)
  = files_here es ++ flat_map (fun e => map (under (fst e)) (files_under (snd e))) es.
Proof.
  cbn [files_under]. f_equal.
  induction es as [|[n c] es IH]; [reflexivity|]. cbn [flat_map fst snd].
  now rewrite IH.
Qed.

Lemma legal_tree_Dir p es :
  legal_tree p (Dir es) = true <->
  names_distinct (map fst es) = true /\
  Forall (fun e => legal_name p (fst e) = true /\ legal_tree p (snd e) = true) es.
Proof.
  cbn [legal_tree]. rewrite andb_true_iff.
  apply and_iff_compat_l.
  induction es as [|[n c] es IH]; [split; [constructor|reflexivity]|].
  rewrite !andb_true_iff, IH. cbn [fst snd]. split.
  - intros [[A B] C]. constructor; auto.
  - intro F. inversion F as [|? ? [A B] C]; subst. auto.
Qed.

Lemma walk_node_Dir (h : host) topdown top es :
  walk_node h topdown top (Dir es)
  = let here := (top, FS.dir_names es, FS.file_names es) in
    let below := flat_map (fun e => walk_node h topdown
                                      (os_path.join h top [fst e]) (snd e)) es in
    if topdown then here :: below else below ++ [here].
Proof.
  cbn [walk_node]. cbv zeta.
  assert (E : (fix descend (l : list (pystr * node)) :
                 list (pystr * list pystr * list pystr) :=
                 match l with
                 | [] => []
                 | (n, c) :: rest =>
                     walk_node h topdown (os_path.join h top [n]) c ++ descend rest
                 end) es
              = flat_map (fun e => walk_node h topdown
                                     (os_path.join h top [fst e]) (snd e)) es).
  { induction es as [|[n c] es IH]; [reflexivity|]. cbn [flat_map fst snd].
    now rewrite IH. }
  now rewrite E.
Qed.

Lemma get_In_distinct {A} (es : list (pystr * A)) n v :
  names_distinct (map fst es) = true -> In (n, v) es -> FS.get n es = Some v.
Proof.
  induction es as [|[m x] es IH]; intros ND I; [destruct I|].
  cbn [map fst names_distinct] in ND. apply andb_true_iff in ND.
  destruct ND as [NI ND]. simpl. destruct I as [E|I].
  - injection E as -> ->. now rewrite str_eqb_refl.
  - destruct (str_eqb m n) eqn:E; [|auto].
    apply str_eqb_eq in E. subst m. exfalso.
    apply negb_true_iff in NI.
    assert (T : existsb (str_eqb n) (map fst es) = true).
    { apply existsb_exists. exists n. split; [|apply str_eqb_refl].
      apply in_map_iff. exists (n, v). auto. }
    congruence.
Qed.

Lemma get_In {A} (es : list (pystr * A)) n v :
  FS.get n es = Some v -> In (n, v) es.
Proof.
  induction es as [|[m x] es IH]; [discriminate|]. simpl.
  destruct (str_eqb m n) eqn:E.
  - intro H. injection H as ->. apply str_eqb_eq in E. subst. now left.
  - intro H. right. auto.
Qed.

Lemma legal_tree_lookup p loc : forall t t',
  legal_tree p t = true -> FS.lookup t loc = Some t' -> legal_tree p t' = true.
Proof.
  unfold FS.lookup.
  induction loc as [|n loc IH]; intros t t' L H; simpl in H.
  - now injection H as <-.
  - destruct t as [c|es]; [discriminate|].
    destruct (FS.get n es) as [c|] eqn:G; [|now rewrite lookup_opt_None in H].
    apply legal_tree_Dir in L. destruct L as [_ F].
    rewrite Forall_forall in F. apply get_In in G.
    apply (IH c t'); [|assumption]. apply (F (n, c) G).
Qed.

Lemma file_names_In es n :
  In n (FS.file_names es) <-> exists c, In (n, File c) es.
Proof.
  unfold FS.file_names. rewrite in_map_iff. split.
  - intros ([m [c|es']] & E & I); apply filter_In in I; destruct I as [I F];
      simpl in *; [|discriminate]. subst. eauto.
  - intros (c & I). exists (n, File c). split; [reflexivity|].
    apply filter_In. auto.
Qed.

Lemma dir_names_In es n :
  In n (FS.dir_names es) <-> exists es', In (n, Dir es') es.
Proof.
  unfold FS.dir_names. rewrite in_map_iff. split.
  - intros ([m [c|es']] & E & I); apply filter_In in I; destruct I as [I F];
      simpl in *; [discriminate|]. subst. eauto.
  - intros (es' & I). exists (n, Dir es'). split; [reflexivity|].
    apply filter_In. auto.
Qed.

(** [files_under] lists exactly the regular files below the directory. *)
Lemma files_under_lookup t : forall rel c,
  legal_tree Windows t = true ->
  (In (rel, c) (files_under t) <->
   rel <> [] /\ FS.lookup t rel = Some (File c)).
Proof.
  induction t as [c0|es IH] using node_induction; intros rel c L.
  - simpl. split; [intros []|]. intros [NE H].
    unfold FS.lookup in H. now rewrite lookup_opt_File in H.
  - apply legal_tree_Dir in L. destruct L as [ND F].
    rewrite files_under_Dir, in_app_iff. unfold files_here.
    rewrite !in_flat_map. split.
    + intros [([n x] & I & H)|([n x] & I & H)]; cbn [fst snd] in H.
      * destruct x as [c1|es1]; [|destruct H]. destruct H as [E|[]].
        injection E as <- <-. split; [discriminate|].
        unfold FS.lookup. simpl. now rewrite (get_In_distinct es n (File c1) ND I).
      * apply in_map_iff in H. destruct H as ([rel' c'] & E & H).
        unfold under in E. cbn [fst snd] in E. injection E as <- <-.
        split; [discriminate|].
        rewrite Forall_forall in IH, F.
        apply (IH (n, x) I) in H; [|apply (F (n, x) I)].
        unfold FS.lookup. simpl. rewrite (get_In_distinct es n x ND I).
        apply H.
    + intros [NE H]. destruct rel as [|n rel]; [congruence|].
      unfold FS.lookup in H. simpl in H.
      destruct (FS.get n es) as [x|] eqn:G; [|now rewrite lookup_opt_None in H].
      apply get_In in G. destruct rel as [|m rel].
      * simpl in H. injection H as ->. left. exists (n, File c). split; [assumption|].
        now left.
      * right. exists (n, x). split; [assumption|]. cbn [fst snd].
        apply in_map_iff. exists (m :: rel, c). split; [reflexivity|].
        rewrite Forall_forall in IH, F.
        apply (IH (n, x) G); [apply (F (n, x) G)|]. split; [discriminate|exact H].
Qed.

(** ** Stage 3 on a Windows host *)

Lemma for_each_app {S A} (l1 l2 : list A) (body : A -> M S unit) (w w1 : world S) :
  for_each l1 body w = (Return tt, w1) ->
  for_each (l1 ++ l2) body w = for_each l2 body w1.
Proof.
  revert w. induction l1 as [|x l1 IH]; intros w H.
  - simpl in H. unfold ret in H. now injection H as <-.
  - simpl in *. unfold bind in *. destruct (body x w) as [[[]|e] w'];
      [auto|discriminate].
Qed.

Lemma put_opt_existing loc : forall o v x,
  FS.lookup_opt o loc = Some x -> exists t', FS.put_opt o loc v = Some t'.
Proof.
  induction loc as [|n loc IH]; intros o v x L; simpl; [eauto|].
  simpl in L. destruct o as [[c|es]|]; try discriminate.
  destruct (IH _ v _ L) as [c P]. rewrite P. eauto.
Qed.

Lemma file_names_entries es : FS.file_names es = map fst (file_entries es).
Proof.
  unfold FS.file_names, file_entries.
  induction es as [|[n t] es IH]; [reflexivity|].
  cbn [filter flat_map snd fst FS.is_file].
  destruct t; cbn [map app fst]; [now f_equal|assumption].
Qed.

Lemma files_here_entries es :
  files_here es = map (fun f => ([fst f], snd f)) (file_entries es).
Proof.
  unfold files_here, file_entries.
  induction es as [|[n t] es IH]; [reflexivity|].
  cbn [flat_map snd fst].
  destruct t; cbn [map app fst snd]; [now f_equal|assumption].
Qed.

Lemma file_entries_In es n c : In (n, c) (file_entries es) -> In (n, File c) es.
Proof.
  unfold file_entries. rewrite in_flat_map.
  intros ([m [c'|es']] & I & H); simpl in H; [|destruct H].
  destruct H as [E|[]]. now injection E as <- <-.
Qed.

Section Repack.

Variable h : host.
Hypothesis W : plat h = Windows.

(** The archive being written and the resources directory it is filled
    from. *)
Variable target : pystr.
Variable a : pystr.
Hypothesis Da : drive_absolute a = true.
Hypothesis Ka : nt_comps a <> [].
Hypothesis Dv : diverge (locate h target) (locate h a).

(** The file system when the archive was opened. *)
Variable X0 : node.

Lemma locate_below (r : pystr) (ds : list pystr) :
  drive_absolute r = true -> firstn 2 r = firstn 2 a ->
  nt_comps r = nt_comps a ++ ds ->
  locate h r = locate h a ++ ds.
Proof.
  intros Dr F C. rewrite !locate_drive_absolute by assumption.
  now rewrite F, C.
Qed.

Lemma write_file_step ms X r ds file c ev so :
  archive_holds h target X0 ms X ->
  drive_absolute r = true -> firstn 2 r = firstn 2 a ->
  nt_comps r = nt_comps a ++ ds ->
  Forall legal_windows ds -> legal_windows file ->
  FS.lookup X0 (locate h a ++ ds ++ [file]) = Some (File c) ->
  exists X',
    lift (zip_write (tree_os h) target (os_path.join h r [file])
            (os_path.join h (custom_relpath h r a) [file])) (World X ev so)
    = (Return tt, World X' ev so) /\
    archive_holds h target X0 (ms ++ [member ds ([file], c)]) X'.
Proof.
  intros [HT HF] Dr F C L Lf Src.
  assert (Ls : locate h (os_path.join h r [file]) = locate h a ++ ds ++ [file]).
  { rewrite locate_join by assumption.
    rewrite (locate_below r ds) by assumption. now rewrite <- app_assoc. }
  assert (Dsrc : diverge (locate h target) (locate h a ++ ds ++ [file])).
  { rewrite <- (app_nil_r (locate h target)). now apply diverge_app_r. }
  rewrite (custom_relpath_under h r a ds) by assumption.
  unfold lift. cbn [fs events stdout zip_write tree_os]. unfold write.
  rewrite (zip_arcname_under h ds file) by assumption.
  rewrite HT, Ls, (HF _ Dsrc), Src.
  destruct (put_opt_existing (locate h target) (Some X)
              (File (Archive (ms ++ [(join_with slash (ds ++ [file]), c)])))
              _ HT) as [X' P].
  rewrite P. exists X'. split; [reflexivity|]. split.
  - apply (lookup_put_same _ _ _ _ P).
  - intros l D. rewrite <- (HF l D). apply (lookup_put_frame _ _ _ _ _ P D).
Qed.

Lemma write_files_run r ds (fl : list (pystr * content)) : forall ms X ev so,
  archive_holds h target X0 ms X ->
  drive_absolute r = true -> firstn 2 r = firstn 2 a ->
  nt_comps r = nt_comps a ++ ds ->
  Forall legal_windows ds ->
  (forall n c, In (n, c) fl ->
     legal_windows n /\
     FS.lookup X0 (locate h a ++ ds ++ [n]) = Some (File c)) ->
  exists X',
    write_files h target a r (map fst fl) (World X ev so) = (Return tt, World X' ev so) /\
    archive_holds h target X0 (ms ++ map (fun f => member ds ([fst f], snd f)) fl) X'.
Proof.
  induction fl as [|[n c] fl IH]; intros ms X ev so H Dr F C L P.
  - exists X. split; [reflexivity|]. simpl. now rewrite app_nil_r.
  - destruct (P n c (or_introl eq_refl)) as [Ln Src].
    destruct (write_file_step ms X r ds n c ev so H Dr F C L Ln Src)
      as (X1 & E1 & H1).
    destruct (IH _ X1 ev so H1 Dr F C L) as (X' & E' & H').
    { intros m c' I. apply P. now right. }
    exists X'. split.
    + unfold write_files in *. cbn [map fst for_each]. unfold bind at 1.
      rewrite E1. exact E'.
    + cbn [map fst snd]. rewrite <- app_assoc in H'. exact H'.
Qed.

Lemma repack_loop_walk t : forall r ds ms X ev so,
  legal_tree Windows t = true ->
  drive_absolute r = true -> firstn 2 r = firstn 2 a ->
  nt_comps r = nt_comps a ++ ds ->
  Forall legal_windows ds ->
  (forall rel, FS.lookup X0 (locate h a ++ ds ++ rel) = FS.lookup t rel) ->
  archive_holds h target X0 ms X ->
  exists X',
    repack_loop h target a (walk_node h true r t) (World X ev so)
    = (Return tt, World X' ev so) /\
    archive_holds h target X0 (ms ++ map (member ds) (files_under t)) X'.
Proof.
  induction t as [c0|es IH] using node_induction;
    intros r ds ms X ev so L Dr F C Lds Sub H.
  - exists X. split; [reflexivity|]. simpl. now rewrite app_nil_r.
  - apply legal_tree_Dir in L. destruct L as [ND Les].
    rewrite walk_node_Dir. cbv zeta. unfold repack_loop.
    cbn [for_each]. unfold bind at 1.
    (* the files of this directory *)
    destruct (write_files_run r ds (file_entries es) ms X ev so H Dr F C Lds)
      as (X1 & E1 & H1).
    { intros n c I. apply file_entries_In in I. split.
      - rewrite Forall_forall in Les. apply legal_name_windows.
        apply (Les (n, File c) I).
      - rewrite Sub. unfold FS.lookup. simpl.
        now rewrite (get_In_distinct es n (File c) ND I). }
    rewrite file_names_entries, E1.
    rewrite files_under_Dir, map_app, app_assoc.
    rewrite files_here_entries, map_map.
    assert (M1 : map (fun x => member ds ([fst x], snd x)) (file_entries es)
                 = map (fun f => member ds ([fst f], snd f)) (file_entries es))
      by reflexivity.
    set (ms1 := ms ++ map (fun x => member ds ([fst x], snd x)) (file_entries es)) in *.
    clear E1 H M1.
    (* the directories below it, one after the other *)
    assert (G : forall sub, incl sub es ->
              forall ms X, archive_holds h target X0 ms X ->
              exists X',
                for_each (flat_map (fun e => walk_node h true
                                      (os_path.join h r [fst e]) (snd e)) sub)
                  (fun '(root, dirs, files) => write_files h target a root files)
                  (World X ev so)
                = (Return tt, World X' ev so) /\
                archive_holds h target X0
                  (ms ++ map (member ds)
                     (flat_map (fun e => map (under (fst e)) (files_under (snd e))) sub))
                  X').
    { induction sub as [|[n c] sub IHsub]; intros I ms' X' H'.
      - exists X'. split; [reflexivity|]. simpl. now rewrite app_nil_r.
      - assert (In_es : In (n, c) es) by (apply I; now left).
        rewrite Forall_forall in IH, Les.
        destruct (Les (n, c) In_es) as [Ln Lc]. cbn [fst snd] in Ln, Lc.
        apply legal_name_windows in Ln.
        destruct (nt_join_facts r n Dr Ln) as (Dj & _ & Fj & Cj).
        destruct (IH (n, c) In_es (os_path.join h r [n]) (ds ++ [n]) ms' X' ev so)
          as (X2 & E2 & H2); try assumption.
        + unfold os_path.join. now rewrite W.
        + unfold os_path.join. rewrite W. congruence.
        + unfold os_path.join. rewrite W, Cj, C. now rewrite <- app_assoc.
        + apply Forall_app. split; [assumption|now constructor].
        + intro rel. rewrite <- app_assoc. cbn [app]. rewrite Sub.
          unfold FS.lookup. simpl.
          now rewrite (get_In_distinct es n c ND In_es).
        + destruct (IHsub (fun x Hx => I x (or_intror Hx)) _ X2 H2)
            as (X3 & E3 & H3).
          exists X3. split.
          * cbn [flat_map fst snd].
            unfold repack_loop in E2. rewrite (for_each_app _ _ _ _ _ E2).
            exact E3.
          * cbn [flat_map fst snd]. rewrite map_app, app_assoc.
            replace (map (member ds) (map (under n) (files_under c)))
              with (map (member (ds ++ [n])) (files_under c)); [exact H3|].
            rewrite map_map. apply map_ext. intros [rel c']. unfold member, under.
            cbn [fst snd]. now rewrite <- app_assoc. }
    destruct (G es (incl_refl es) ms1 X1 H1) as (X' & E' & H').
    exists X'. split; assumption.
Qed.

End Repack.

(** ** What a computation leaves alone *)

Lemma keeps_ret {A} T (a : A) : keeps T (ret (S:=node) a).
Proof. intro w. reflexivity. Qed.

Lemma print_fs {S} (h : host) line (w : world S) :
  fs (snd (print h line w)) = fs w.
Proof.
  unfold print. destruct (sys_stdout h) as [write|]; [|reflexivity].
  destruct (write line); reflexivity.
Qed.

Lemma keeps_print (h : host) T line : keeps T (print (S:=node) h line).
Proof. intro w. now rewrite print_fs. Qed.

Lemma keeps_bind {A B} T (m : M node A) (k : A -> M node B) :
  keeps T m -> (forall a, keeps T (k a)) -> keeps T (bind m k).
Proof.
  intros Km Kk w. unfold bind. specialize (Km w).
  destruct (m w) as [[x|e] w']; simpl in *; [|assumption].
  now rewrite Kk.
Qed.

Lemma keeps_for_each {A} T (l : list A) (body : A -> M node unit) :
  (forall x, In x l -> keeps T (body x)) -> keeps T (for_each l body).
Proof.
  induction l as [|x l IH]; intro K; simpl; [apply keeps_ret|].
  apply keeps_bind; [apply K; now left|]. intros _. apply IH.
  intros y I. apply K. now right.
Qed.

Lemma keeps_try_except {A} T catches (body : M node A) handler :
  keeps T body -> (forall e, keeps T (handler e)) ->
  keeps T (try_except catches body handler).
Proof.
  intros Kb Kh w. unfold try_except. specialize (Kb w).
  destruct (body w) as [[x|e] w']; simpl in *; [assumption|].
  destruct (catches e); [|assumption]. now rewrite Kh.
Qed.

Lemma keeps_remove (h : host) T p :
  diverge (locate h p) T -> keeps T (lift (os_remove (tree_os h) p)).
Proof.
  intros D w. unfold lift. cbn [os_remove tree_os]. unfold remove.
  destruct (FS.lookup (fs w) (locate h p)) as [[c|es]|]; try reflexivity.
  destruct (FS.del_at (fs w) (locate h p)) as [X|] eqn:E; [|reflexivity].
  cbn [snd fs]. eapply lookup_del_frame; eauto.
Qed.

Lemma keeps_rmdir (h : host) T p :
  diverge (locate h p) T -> keeps T (lift (os_rmdir (tree_os h) p)).
Proof.
  intros D w. unfold lift. cbn [os_rmdir tree_os]. unfold rmdir.
  destruct (FS.lookup (fs w) (locate h p)) as [[c|[|e es]]|]; try reflexivity.
  destruct (FS.del_at (fs w) (locate h p)) as [X|] eqn:E; [|reflexivity].
  cbn [snd fs]. eapply lookup_del_frame; eauto.
Qed.

Section WalkWindows.

Variable h : host.
Hypothesis W : plat h = Windows.

(** Every directory a walk reports lies below the top, and the names it
    reports are legal. *)
Lemma walk_node_below t : forall r topdown root dirs files,
  legal_tree Windows t = true -> drive_absolute r = true ->
  In (root, dirs, files) (walk_node h topdown r t) ->
  drive_absolute root = true /\
  (exists ds, locate h root = locate h r ++ ds) /\
  Forall legal_windows dirs /\ Forall legal_windows files.
Proof.
  induction t as [c0|es IH] using node_induction;
    intros r topdown root dirs files L Dr I; [destruct I|].
  apply legal_tree_Dir in L. destruct L as [ND Les].
  rewrite walk_node_Dir in I. cbv zeta in I.
  assert (Here : In (root, dirs, files) [(r, FS.dir_names es, FS.file_names es)] \/
                 In (root, dirs, files)
                    (flat_map (fun e => walk_node h topdown
                                 (os_path.join h r [fst e]) (snd e)) es)).
  { destruct topdown.
    - destruct I as [I|I]; [left; now left|now right].
    - apply in_app_or in I. tauto. }
  clear I. destruct Here as [[E|[]]|I].
  - injection E as <- <- <-. split; [assumption|]. split.
    + exists []. now rewrite app_nil_r.
    + rewrite Forall_forall in Les. split; apply Forall_forall; intros n I.
      * apply dir_names_In in I. destruct I as (es' & I).
        apply legal_name_windows, (Les _ I).
      * apply file_names_In in I. destruct I as (c & I).
        apply legal_name_windows, (Les _ I).
  - apply in_flat_map in I. destruct I as ([n c] & In_es & I). cbn [fst snd] in I.
    rewrite Forall_forall in IH, Les.
    destruct (Les (n, c) In_es) as [Ln Lc]. cbn [fst snd] in Ln, Lc.
    apply legal_name_windows in Ln.
    assert (Dj : drive_absolute (os_path.join h r [n]) = true).
    { unfold os_path.join. rewrite W. apply (nt_join_facts r n Dr Ln). }
    destruct (IH (n, c) In_es _ _ _ _ _ Lc Dj I) as (D' & (ds & Loc) & Fd & Ff).
    split; [assumption|]. split; [|now split].
    exists (n :: ds). rewrite Loc, locate_join by assumption.
    now rewrite <- app_assoc.
Qed.

(** Stage 4 touches nothing outside the workspace. *)
Lemma cleanup_keeps (temp_dir : pystr) (T : list pystr) (w : world node) :
  drive_absolute temp_dir = true ->
  diverge (locate h temp_dir) T ->
  (forall t, FS.lookup (fs w) (locate h temp_dir) = Some t ->
             legal_tree Windows t = true) ->
  FS.lookup (fs (snd (_cleanup_temp_dir h (tree_os h) temp_dir w))) T
  = FS.lookup (fs w) T.
Proof.
  intros D Dv L. unfold _cleanup_temp_dir.
  set (triples := walk h false temp_dir (fs w)).
  assert (K : keeps T
    (bind
       (for_each triples (fun '(root, dirs, files) =>
          bind (for_each files (fun name =>
                  lift (os_remove (tree_os h) (os_path.join h root [name]))))
               (fun _ => for_each dirs (fun name =>
                  lift (os_rmdir (tree_os h) (os_path.join h root [name]))))))
       (fun _ => lift (os_rmdir (tree_os h) temp_dir)))).
  2:{ unfold try_except, bind at 1, query. cbn [os_walk tree_os].
      fold triples. specialize (K w).
      match goal with
      | |- context [match ?m w with _ => _ end] =>
          change (FS.lookup (fs (snd (m w))) T = FS.lookup (fs w) T) in K;
          destruct (m w) as [[x|e] w']
      end; cbn [snd] in *; [assumption|].
      rewrite isinstance_Exception_true. now rewrite print_fs. }
  apply keeps_bind; [|intros _; now apply keeps_rmdir].
  apply keeps_for_each. intros [[root dirs] files] I.
  assert (B : drive_absolute root = true /\
              (exists ds, locate h root = locate h temp_dir ++ ds) /\
              Forall legal_windows dirs /\ Forall legal_windows files).
  { unfold triples, walk in I.
    destruct (FS.lookup (fs w) (locate h temp_dir)) as [t|] eqn:E; [|destruct I].
    eapply walk_node_below; eauto. }
  destruct B as (Dr & (ds & Loc) & Fd & Ff).
  assert (Dn : forall n, legal_windows n ->
                 diverge (locate h (os_path.join h root [n])) T).
  { intros n Ln. rewrite locate_join, Loc by assumption.
    rewrite <- (app_nil_r T), <- app_assoc. now apply diverge_app_r. }
  rewrite Forall_forall in Fd, Ff.
  apply keeps_bind; [|intros _]; apply keeps_for_each; intros n In_n.
  - apply keeps_remove. auto.
  - apply keeps_rmdir. auto.
Qed.

End WalkWindows.

(** ** The paths the converter computes, on a Windows host *)

Lemma legal_workspace_name : legal_windows workspace_name.
Proof. apply legal_name_windows. reflexivity. Qed.

Lemma legal_resources_path : Forall legal_windows resources_path.
Proof. repeat constructor; apply legal_name_windows; reflexivity. Qed.

Lemma sb3_name_not_workspace (h : host) zip_file_name :
  sb3_name h zip_file_name <> workspace_name.
Proof.
  unfold sb3_name, workspace_name. intro E.
  apply (f_equal (@rev ascii)) in E. rewrite rev_app_distr in E.
  discriminate E.
Qed.

Lemma nt_comps_replace a :
  nt_comps (replace_chr slash backslash a) = nt_comps a.
Proof.
  unfold nt_comps. unfold replace_chr at 2. rewrite skipn_map.
  fold (replace_chr slash backslash (skipn 2 a)). now rewrite replace_chr_idem.
Qed.

Lemma firstn_2_replace a :
  drive_absolute a = true -> firstn 2 (replace_chr slash backslash a) = firstn 2 a.
Proof.
  intro D. destruct (drive_absolute_inv a D) as (c & s & rest & -> & Hs & Hc).
  now rewrite drive_absolute_replace_shape.
Qed.

Section ConverterPaths.

Variable h : host.
Hypothesis W : plat h = Windows.
Variable output_dir : pystr.
Hypothesis Do : drive_absolute output_dir = true.

Let temp_dir := os_path.join h output_dir [workspace_name].
Let temp_dir' := normalize_separators temp_dir.
Let app_dir := app_dir_of h output_dir.

Lemma temp_dir_facts :
  drive_absolute temp_dir = true /\
  firstn 2 temp_dir = firstn 2 output_dir /\
  nt_comps temp_dir = nt_comps output_dir ++ [workspace_name] /\
  locate h temp_dir = locate h output_dir ++ [workspace_name].
Proof.
  unfold temp_dir, os_path.join. rewrite W.
  destruct (nt_join_facts output_dir workspace_name Do legal_workspace_name)
    as (D & _ & F & C).
  repeat split; try assumption.
  rewrite !locate_drive_absolute by assumption. now rewrite F, C.
Qed.

Lemma temp_dir'_facts :
  drive_absolute temp_dir' = true /\
  firstn 2 temp_dir' = firstn 2 output_dir /\
  nt_comps temp_dir' = nt_comps output_dir ++ [workspace_name] /\
  locate h temp_dir' = locate h temp_dir.
Proof.
  destruct temp_dir_facts as (D & F & C & L).
  unfold temp_dir'. rewrite normalize_separators_replace.
  assert (D' : drive_absolute (replace_chr slash backslash temp_dir) = true)
    by now apply drive_absolute_replace.
  assert (F' : firstn 2 (replace_chr slash backslash temp_dir) = firstn 2 output_dir)
    by (rewrite firstn_2_replace; assumption).
  assert (C' : nt_comps (replace_chr slash backslash temp_dir)
               = nt_comps output_dir ++ [workspace_name])
    by now rewrite nt_comps_replace.
  repeat split; try assumption.
  rewrite !locate_drive_absolute by assumption. now rewrite F', C', F, C.
Qed.

Lemma app_dir_facts :
  drive_absolute app_dir = true /\
  firstn 2 app_dir = firstn 2 output_dir /\
  nt_comps app_dir = nt_comps output_dir ++ workspace_name :: resources_path /\
  locate h app_dir = locate h temp_dir ++ resources_path.
Proof.
  destruct temp_dir_facts as (D & F & C & L).
  destruct temp_dir'_facts as (D' & F' & C' & L').
  assert (L1 : legal_windows (str "packaged-project"))
    by (apply legal_name_windows; reflexivity).
  assert (L2 : legal_windows (str "resources"))
    by (apply legal_name_windows; reflexivity).
  assert (L3 : legal_windows (str "app"))
    by (apply legal_name_windows; reflexivity).
  destruct (nt_join_facts _ _ D' L1) as (D1 & _ & F1 & C1).
  destruct (nt_join_facts _ _ D1 L2) as (D2 & _ & F2 & C2).
  destruct (nt_join_facts _ _ D2 L3) as (D3 & _ & F3 & C3).
  set (app0 := ntpath.join _ [str "app"]) in *.
  assert (E : app_dir = app0 ++ [backslash]).
  { unfold app_dir, app_dir_of. fold temp_dir. fold temp_dir'.
    unfold os_path.join at 1. rewrite W.
    rewrite nt_join_cons by assumption. rewrite nt_join_cons by assumption.
    reflexivity. }
  rewrite E.
  pose proof (drive_absolute_length app0 D3) as Len.
  assert (Da : drive_absolute (app0 ++ [backslash]) = true)
    by now apply drive_absolute_app.
  assert (Fa : firstn 2 (app0 ++ [backslash]) = firstn 2 output_dir).
  { rewrite firstn_2_app by lia. congruence. }
  assert (Ca : nt_comps (app0 ++ [backslash])
               = nt_comps output_dir ++ workspace_name :: resources_path).
  { rewrite nt_comps_trailing_sep by (lia || reflexivity).
    rewrite C3, C2, C1, C'. unfold resources_path.
    now rewrite <- !app_assoc. }
  repeat split; try assumption.
  rewrite !locate_drive_absolute by assumption. rewrite Fa, Ca, F, C.
  cbn [app]. now rewrite <- app_assoc.
Qed.

Lemma target_facts zip_file_name :
  legal_name Windows (sb3_name h zip_file_name) = true ->
  locate h (target_zip_name_of h zip_file_name output_dir)
  = locate h output_dir ++ [sb3_name h zip_file_name] /\
  diverge (locate h (target_zip_name_of h zip_file_name output_dir))
          (locate h temp_dir).
Proof.
  intro L. apply legal_name_windows in L.
  change (target_zip_name_of h zip_file_name output_dir)
    with (os_path.join h output_dir [sb3_name h zip_file_name]).
  rewrite locate_join by assumption. split; [reflexivity|].
  destruct temp_dir_facts as (_ & _ & _ & ->).
  apply diverge_last. apply sb3_name_not_workspace.
Qed.

End ConverterPaths.

(** ** The conversion of a well-formed archive, on a Windows host *)

Lemma lookup_prefix_dir o (a b : list pystr) v :
  b <> [] -> FS.lookup_opt o (a ++ b) = Some v ->
  exists es, FS.lookup_opt o a = Some (Dir es).
Proof.
  intros NE H. rewrite lookup_opt_app in H.
  destruct (FS.lookup_opt o a) as [[c|es]|].
  - now rewrite lookup_opt_File in H.
  - eauto.
  - now rewrite lookup_opt_None in H.
Qed.

Lemma repack_unfold (h : host) target a (w : world node) :
  repack h (tree_os h) target a w
  = match lift (open_w h target) w with
    | (Return _, w0) =>
        match repack_loop h target a (walk h true a (fs w0)) w0 with
        | (Return tt, w1) => lift (close target) w1
        | (Raise e, w1) =>
            match lift (close target) w1 with
            | (Return _, w2) => (Raise e, w2)
            | (Raise e2, w2) => (Raise e2, w2)
            end
        end
    | (Raise e, w0) => (Raise e, w0)
    end.
Proof. reflexivity. Qed.

Section WellFormedArchive.

Variable h : host.
Hypothesis W : plat h = Windows.
Variables zip_file_name output_dir : pystr.
Hypothesis Do : drive_absolute output_dir = true.
Hypothesis Ln : legal_name Windows (sb3_name h zip_file_name) = true.

Let temp_dir := os_path.join h output_dir [workspace_name].
Let target := locate h output_dir ++ [sb3_name h zip_file_name].

(** The file system after stage 1: the workspace [ws], with the resources
    directory [es] in it. *)
Variable root2 : node.
Variable ws : node.
Variable es : list (pystr * node).
Hypothesis Ws : FS.lookup root2 (locate h temp_dir) = Some ws.
Hypothesis Lt : legal_tree Windows ws = true.
Hypothesis Res : FS.lookup ws resources_path = Some (Dir es).
Hypothesis Tnd : FS.is_dir (FS.lookup root2 target) = false.

Lemma resources_found :
  FS.lookup root2 (locate h temp_dir ++ resources_path) = Some (Dir es).
Proof.
  unfold FS.lookup in *. now rewrite lookup_opt_app, Ws.
Qed.

Lemma repack_fills_archive ev so :
  exists X',
    repack h (tree_os h) (target_zip_name_of h zip_file_name output_dir)
      (app_dir_of h output_dir) (World root2 ev so)
    = (Return tt, World X' ev so) /\
    FS.lookup X' target
    = Some (File (Archive (map (fun f => (join_with slash (fst f), snd f))
                             (files_under (Dir es))))) /\
    forall l, diverge target l -> FS.lookup X' l = FS.lookup root2 l.
Proof.
  pose proof resources_found as App.
  destruct (temp_dir_facts h W output_dir Do) as (Dt & Ft & Ct & Lct).
  destruct (app_dir_facts h W output_dir Do) as (Da & Fa & Ca & La).
  destruct (target_facts h W output_dir Do zip_file_name Ln) as (LT & DvT).
  fold temp_dir in Dt, Ft, Ct, Lct, La, DvT. fold target in LT.
  set (tname := target_zip_name_of h zip_file_name output_dir) in *.
  set (a := app_dir_of h output_dir) in *.
  assert (Dva : diverge (locate h tname) (locate h a)).
  { rewrite La, <- (app_nil_r (locate h tname)). now apply diverge_app_r. }
  (* the archive is created *)
  assert (Open : exists X0,
            open_w h tname root2 = (Return tt, X0) /\
            FS.lookup X0 target = Some (File (Archive [])) /\
            forall l, diverge target l -> FS.lookup X0 l = FS.lookup root2 l).
  { unfold open_w.
    destruct (locate h tname) as [|x l] eqn:E.
    { exfalso. unfold target in LT. now destruct (locate h output_dir). }
    rewrite LT, Tnd.
    destruct (lookup_prefix_dir (Some root2) (locate h output_dir)
                (workspace_name :: resources_path) (Dir es)) as [eo Po];
      [discriminate| |].
    { rewrite <- App, Lct, <- app_assoc. reflexivity. }
    destruct (put_opt_over target (Some root2) (File (Archive [])) eo) as [X0 P].
    { unfold target. now destruct (locate h output_dir). }
    { unfold target. now rewrite removelast_last. }
    rewrite P. exists X0. split; [reflexivity|]. split.
    - apply (lookup_put_same _ _ _ _ P).
    - intros l' D. apply (lookup_put_frame _ _ _ _ _ P D). }
  destruct Open as (X0 & Op & HT & HF).
  assert (Ka : nt_comps a <> []).
  { rewrite Ca. now destruct (nt_comps output_dir). }
  assert (AtA : forall rel,
            FS.lookup X0 (locate h a ++ rel) = FS.lookup (Dir es) rel).
  { intro rel. rewrite HF.
    - unfold FS.lookup. rewrite lookup_opt_app. rewrite La.
      unfold FS.lookup in App. now rewrite App.
    - rewrite <- LT, <- (app_nil_r (locate h tname)). now apply diverge_app_r. }
  destruct (repack_loop_walk h W tname a Da Ka Dva X0 (Dir es) a [] [] X0 ev so)
    as (X' & Run & [HT' HF']); try assumption; try reflexivity.
  - apply (legal_tree_lookup Windows _ ws (Dir es) Lt Res).
  - now rewrite app_nil_r.
  - constructor.
  - split; [now rewrite LT|reflexivity].
  - exists X'. rewrite repack_unfold. unfold lift at 1. cbn [fs events stdout].
    rewrite Op. unfold walk. cbn [fs].
    rewrite <- (app_nil_r (locate h a)), AtA.
    unfold FS.lookup. cbn [FS.lookup_opt]. rewrite Run.
    split; [reflexivity|]. split.
    + rewrite LT in HT'. exact HT'.
    + intros l D. change (FS.lookup X' l = FS.lookup root2 l).
      rewrite <- HF by assumption. apply HF'. now rewrite LT.
Qed.

End WellFormedArchive.

(** ** Stage 2: an archive without the expected layout *)

Lemma extract_member_frame (h : host) dest m X r X' l :
  extract_member h dest m X = (r, X') -> diverge dest l ->
  FS.lookup X' l = FS.lookup X l.
Proof.
  intros E D. unfold extract_member in E.
  set (target := dest ++ member_parts h (fst m)) in *.
  assert (NP : forall r, target <> l ++ r).
  { intro r0. now apply diverge_app_not_prefix. }
  destruct (member_is_dir (fst m)).
  - destruct (FS.mkdirs_opt (Some X) target) as [X1|] eqn:M;
      injection E as <- <-; [|reflexivity].
    apply (lookup_mkdirs_frame _ _ _ _ M NP).
  - destruct (FS.mkdirs_opt (Some X) (removelast target)) as [X1|] eqn:M.
    2:{ now injection E as <- <-. }
    assert (F1 : FS.lookup X1 l = FS.lookup X l).
    { apply (lookup_mkdirs_frame _ _ _ _ M). intros r0 E0.
      destruct (removelast_prefix target) as [r1 E1].
      apply (NP (r0 ++ r1)). rewrite E1 at 1. rewrite E0.
      now rewrite <- app_assoc. }
    destruct (FS.is_dir (FS.lookup X1 target)).
    { now injection E as <- <-. }
    destruct (FS.put_opt (Some X1) target (File (snd m))) as [X2|] eqn:P;
      injection E as <- <-; [|assumption].
    rewrite <- F1. apply (lookup_put_frame _ _ _ _ _ P).
    rewrite <- (app_nil_r l). now apply diverge_app_r.
Qed.

Lemma extract_members_frame (h : host) dest ms : forall X r X' l,
  extract_members h dest ms X = (r, X') -> diverge dest l ->
  FS.lookup X' l = FS.lookup X l.
Proof.
  induction ms as [|m ms IH]; intros X r X' l E D; simpl in E.
  - now injection E as <- <-.
  - destruct (extract_member h dest m X) as [[[]|e] X1] eqn:E1.
    + rewrite (IH _ _ _ _ E D). eapply extract_member_frame; eauto.
    + injection E as <- <-. eapply extract_member_frame; eauto.
Qed.

Lemma extract_damaged_frame (h : host) dest name written error X r X' l :
  extract_damaged h dest name written error X = (r, X') -> diverge dest l ->
  FS.lookup X' l = FS.lookup X l.
Proof.
  intros E D. unfold extract_damaged in E.
  set (target := dest ++ member_parts h name) in *.
  assert (NP : forall r, target <> l ++ r).
  { intro r0. now apply diverge_app_not_prefix. }
  destruct (FS.mkdirs_opt (Some X) (removelast target)) as [X1|] eqn:M.
  2:{ now injection E as <- <-. }
  assert (F1 : FS.lookup X1 l = FS.lookup X l).
  { apply (lookup_mkdirs_frame _ _ _ _ M). intros r0 E0.
    destruct (removelast_prefix target) as [r1 E1].
    apply (NP (r0 ++ r1)). rewrite E1 at 1. rewrite E0.
    now rewrite <- app_assoc. }
  destruct written as [c|]; [|now injection E as <- <-].
  destruct (FS.is_dir (FS.lookup X1 target)).
  { now injection E as <- <-. }
  destruct (FS.put_opt (Some X1) target (File c)) as [X2|] eqn:P;
    injection E as <- <-; [|assumption].
  rewrite <- F1. apply (lookup_put_frame _ _ _ _ _ P).
  rewrite <- (app_nil_r l). now apply diverge_app_r.
Qed.

Lemma extract_damaged_raises (h : host) dest name written error X X' :
  extract_damaged h dest name written error X <> (Return tt, X').
Proof.
  unfold extract_damaged. intro E.
  destruct (FS.mkdirs_opt (Some X) _); [|discriminate E].
  destruct written; [|discriminate E].
  destruct (FS.is_dir _); [discriminate E|].
  destruct (FS.put_opt _ _ _); discriminate E.
Qed.

(** What an extraction that returns has extracted. *)
Lemma extractall_returns (h : host) src dest X X' :
  extractall h src dest X = (Return tt, X') ->
  exists ms, extract_members h (locate h dest) ms X = (Return tt, X').
Proof.
  unfold extractall. intro E.
  destruct (FS.lookup X (locate h src)) as [[[data|ms|ms name wr er]|es]|];
    try discriminate E.
  - now exists ms.
  - destruct (member_is_dir name); [eexists; exact E|].
    destruct (extract_members h (locate h dest) ms X) as [[[]|e] X1];
      [|discriminate E].
    now apply extract_damaged_raises in E.
Qed.

Lemma extractall_frame (h : host) src dest X r X' l :
  extractall h src dest X = (r, X') -> diverge (locate h dest) l ->
  FS.lookup X' l = FS.lookup X l.
Proof.
  unfold extractall. intros E D.
  destruct (FS.lookup X (locate h src)) as [[[data|ms|ms name wr er]|es]|];
    try (now injection E as <- <-).
  - eapply extract_members_frame; eauto.
  - destruct (member_is_dir name).
    + eapply extract_members_frame; eauto.
    + destruct (extract_members h (locate h dest) ms X) as [[[]|e] X1] eqn:E1.
      * rewrite (extract_damaged_frame h _ _ _ _ _ _ _ l E D).
        eapply extract_members_frame; eauto.
      * injection E as <- <-. eapply extract_members_frame; eauto.
Qed.

Lemma makedirs_frame (h : host) p X X' l :
  makedirs_exist_ok h p X = (Return tt, X') -> diverge (locate h p) l ->
  FS.lookup X' l = FS.lookup X l.
Proof.
  unfold makedirs_exist_ok. intros E D.
  destruct (FS.mkdirs_opt (Some X) (locate h p)) as [X1|] eqn:M; [|discriminate E].
  injection E as <-. apply (lookup_mkdirs_frame _ _ _ _ M).
  intro r. now apply diverge_not_prefix.
Qed.

(** The resources directory the layout check looks for, spelled out. *)
Lemma app_dir_spelled_out (h : host) output_dir :
  plat h = Windows -> drive_absolute output_dir = true ->
  app_dir_of h output_dir
  = normalize_separators (os_path.join h output_dir [workspace_name])
    ++ str "\packaged-project\resources\app\".
Proof.
  intros W Do.
  destruct (temp_dir'_facts h W output_dir Do) as (D' & _ & _ & _).
  assert (E' : endswith_if ntpath.both_seps
                 (normalize_separators (os_path.join h output_dir [workspace_name]))
               = false).
  { rewrite normalize_separators_replace. unfold os_path.join. rewrite W.
    rewrite nt_join_one by (assumption || apply legal_workspace_name).
    destruct (endswith_if ntpath.both_seps output_dir);
      rewrite replace_chr_app;
      [|change (backslash :: workspace_name) with ([backslash] ++ workspace_name);
        rewrite replace_chr_app, app_assoc];
      now rewrite endswith_if_app by discriminate. }
  set (t' := normalize_separators (os_path.join h output_dir [workspace_name])) in *.
  assert (L1 : legal_windows (str "packaged-project"))
    by (apply legal_name_windows; reflexivity).
  assert (L2 : legal_windows (str "resources"))
    by (apply legal_name_windows; reflexivity).
  assert (L3 : legal_windows (str "app"))
    by (apply legal_name_windows; reflexivity).
  destruct (nt_join_facts _ _ D' L1) as (D1 & E1 & _ & _).
  destruct (nt_join_facts _ _ D1 L2) as (D2 & E2 & _ & _).
  unfold app_dir_of. fold workspace_name. fold t'.
  unfold os_path.join at 1. rewrite W.
  rewrite nt_join_cons, nt_join_cons by assumption.
  rewrite (nt_join_one _ _ D2 L3), E2.
  rewrite (nt_join_one _ _ D1 L2), E1.
  rewrite (nt_join_one _ _ D' L1), E'.
  rewrite <- !app_assoc. reflexivity.
Qed.

(** C5: on a Windows host, for an output directory given with a drive
    letter and a root, an output name that is one legal name and a callback
    that raises nothing but [RuntimeError]: when the workspace could be
    created, the archive has been extracted, and the workspace then holds
    no directory [packaged-project/resources/app], neither from the archive
    nor from an earlier call (the workspace is not emptied before the
    extraction), the conversion returns [False], the callback is told [10]
    and then [0] with the message that names the missing directory,
    nothing is written after the extraction, and what is found at the
    place of the output archive is what was there before the call. *)
Theorem missing_resources_rejected (h : host) (zip_file_name output_dir : pystr)
    (cbo : option callback) (root root1 root2 : node) :
  plat h = Windows ->
  drive_absolute output_dir = true ->
  legal_name Windows (sb3_name h zip_file_name) = true ->
  raises_only_RuntimeError cbo ->
  makedirs_exist_ok h (os_path.join h output_dir [workspace_name]) root
  = (Return tt, root1) ->
  extractall h zip_file_name (os_path.join h output_dir [workspace_name]) root1
  = (Return tt, root2) ->
  FS.is_dir (FS.lookup root2
               (locate h (os_path.join h output_dir [workspace_name])
                ++ resources_path)) = false ->
  let run := convert h zip_file_name output_dir cbo root in
  let app_dir :=
    normalize_separators (os_path.join h output_dir [workspace_name])
    ++ str "\packaged-project\resources\app\" in
  fst run = Return false /\
  events (snd run)
  = events_if cbo [(10%Z, msg_extracting); (0%Z, msg_missing_dir app_dir)] /\
  fs (snd run) = root2 /\
  FS.lookup root2 (locate h output_dir ++ [sb3_name h zip_file_name])
  = FS.lookup root (locate h output_dir ++ [sb3_name h zip_file_name]).
Proof.
  intros W Do Ln R Mk Ex Miss run app_dir.
  destruct (app_dir_facts h W output_dir Do) as (Da & Fa & Ca & La).
  destruct (target_facts h W output_dir Do zip_file_name Ln) as (LT & DvT).
  pose proof (app_dir_spelled_out h output_dir W Do) as Sp. fold app_dir in Sp.
  assert (E : run = (Return false,
                     World root2
                       (events_if cbo [(10%Z, msg_extracting);
                                       (0%Z, msg_missing_dir app_dir)]) [])).
  { subst run. unfold convert. rewrite convert_stages by assumption.
    unfold stages. cbv zeta. rewrite Sp.
    unfold lift at 1. cbn [fs events stdout os_makedirs_exist_ok tree_os].
    fold workspace_name. rewrite Mk.
    assert (P : path_exists h app_dir root2 = false).
    { unfold path_exists. rewrite <- Sp, La.
      destruct (FS.lookup root2 _) as [[c|es]|]; try reflexivity; [|discriminate Miss].
      rewrite Sp. unfold app_dir. rewrite W.
      now rewrite endswith_if_app by discriminate. }
    unfold lift, logged, log, with_events.
    destruct cbo as [cb|];
      cbn [fs events stdout zip_extractall os_path_exists tree_os];
      rewrite Ex; cbn [fs events stdout]; rewrite P; reflexivity. }
  rewrite E. cbn [fst snd fs events]. repeat split.
  rewrite <- LT.
  rewrite (extractall_frame h _ _ _ _ _ _ Ex (diverge_sym _ _ DvT)).
  apply (makedirs_frame h _ _ _ _ Mk (diverge_sym _ _ DvT)).
Qed.

(** ** The theorem above on a concrete archive *)

Lemma missing_resources_rejected_witness :
  let run := convert windows_host (str "C:/dl/other.zip") (str "C:/out")
               (Some quiet) bare_root in
  let app_dir :=
    normalize_separators (os_path.join windows_host (str "C:/out") [workspace_name])
    ++ str "\packaged-project\resources\app\" in
  fst run = Return false /\
  events (snd run)
  = events_if (Some quiet) [(10%Z, msg_extracting); (0%Z, msg_missing_dir app_dir)] /\
  fs (snd run) = bare_root_extracted /\
  FS.lookup bare_root_extracted
    (locate windows_host (str "C:/out")
     ++ [sb3_name windows_host (str "C:/dl/other.zip")])
  = FS.lookup bare_root
      (locate windows_host (str "C:/out")
       ++ [sb3_name windows_host (str "C:/dl/other.zip")]).
Proof.
  apply (missing_resources_rejected windows_host (str "C:/dl/other.zip")
           (str "C:/out") (Some quiet) bare_root bare_root_made
           bare_root_extracted eq_refl eq_refl eq_refl quiet_raises_nothing).
  - vm_compute. reflexivity.
  - vm_compute. reflexivity.
  - vm_compute. reflexivity.
Defined.

(** ** The segments of the relative path *)

(** The loop of lines 40 to 46 does what the claim says of it: with its
    stack read from the bottom, it computes [kept_segments]. *)
Lemma relpath_loop_kept_segments parts : forall rel,
  rev (relpath_loop rel parts) = kept_segments (rev rel) parts.
Proof.
  induction parts as [|part parts IH]; intro rel; [reflexivity|].
  cbn [relpath_loop kept_segments].
  destruct (str_eqb part pardir) eqn:E1.
  - apply str_eqb_eq in E1. subst part.
    change (str_eqb pardir curdir) with false. cbv iota.
    destruct rel as [|top rel'].
    + apply (IH []).
    + rewrite IH. cbn [rev]. now rewrite removelast_last.
  - destruct (str_eqb part curdir); cbn [negb]; [apply IH|].
    rewrite IH. reflexivity.
Qed.

Lemma nt_abspath_normpath_clean (h : host) (r : pystr) :
  plat h = Windows -> drive_absolute r = true ->
  no_dot_segments h (os_path.abspath h (os_path.normpath h r)).
Proof.
  intros W D. unfold no_dot_segments, os_path.abspath, os_path.normpath.
  rewrite W. cbn [os_sep]. rewrite nt_abspath_normpath by assumption.
  destruct (drive_absolute_inv r D) as (c & s & rest & E & Hs & Hc).
  assert (F : firstn 2 r = [c; colon]) by (rewrite E; reflexivity).
  rewrite F.
  assert (NB : ~ In backslash [c; colon]).
  { cbn [is_sep] in Hc. apply orb_false_iff in Hc. destruct Hc as [Hc _].
    apply chr_eqb_neq in Hc. intros [I|[I|[]]]; [congruence|discriminate I]. }
  rewrite split_app by assumption. cbn [forallb].
  apply andb_true_iff. split.
  - unfold dot_segment, curdir, pardir, str. cbn [list_ascii_of_string str_eqb].
    rewrite andb_false_r. cbn [orb].
    change (chr_eqb colon "."%char) with false.
    now rewrite andb_false_r.
  - apply forallb_split_join; [reflexivity| |].
    + intros seg I. now apply nt_comps_plain in I.
    + intros seg I. apply nt_comps_plain in I. destruct I as (_ & Dd & _).
      now rewrite Dd.
Qed.

(** C10: when line 31 lets the call through, the relative path is the
    segments left of the remainder of [path], joined with [os.sep]: a [.]
    segment is dropped, a [..] segment removes the segment kept before it,
    and a [..] with no segment kept is dropped without an error; no segment
    of the result is [.] or [..], for every pair of inputs and on either
    host.  When line 31 returns early, the result is no relative path but
    [abspath(normpath(path))], which has no such segment on a POSIX host
    (with an absolute current directory) and, on a Windows host, for a
    [path] with a drive letter and a root. *)
Theorem custom_relpath_resolves_dot_segments (h : host) (path start : pystr) :
  let path' := os_path.abspath h (os_path.normpath h path) in
  let start' := os_path.abspath h (os_path.normpath h start) in
  let rel_path :=
    lstrip (os_sep (plat h))
      (skipn (length (commonprefix path' start')) path') in
  if contains start' path'
  then custom_relpath h path start
       = join_with (os_sep (plat h))
           (kept_segments [] (split (os_sep (plat h)) rel_path)) /\
       no_dot_segments h (custom_relpath h path start)
  else custom_relpath h path start = path' /\
       (plat h = Posix -> posixpath.isabs (getcwd h) = true ->
        no_dot_segments h (custom_relpath h path start)) /\
       (plat h = Windows -> drive_absolute path = true ->
        no_dot_segments h (custom_relpath h path start)).
Proof.
  cbv zeta. unfold custom_relpath.
  destruct (contains _ _); cbn [negb].
  - split; [|apply relpath_join_no_dot_segments].
    now rewrite (relpath_loop_kept_segments _ []).
  - split; [reflexivity|]. split.
    + intros P A. now apply posix_abspath_no_dot_segments.
    + intros W D. now apply nt_abspath_normpath_clean.
Qed.

(** The loop on parts of every kind: the second [..] finds nothing to
    remove. *)
Example kept_segments_sample :
  kept_segments []
    [str "a"; str ".."; str ".."; str "b"; str "."; str "c"; str ".."; str "d"]
  = [str "b"; str "d"].
Proof. reflexivity. Qed.

Example custom_relpath_nested :
  custom_relpath posix_host (str "/srv/app/./a/../b/c") (str "/srv/app")
  = str "b/c" /\
  custom_relpath windows_host (str "C:/out/x/assets/a.png") (str "C:\out\x\")
  = str "assets\a.png".
Proof. split; vm_compute; reflexivity. Qed.

(** ** [custom_relpath] on a directory and its descendants *)

Lemma commonprefix_self (s : pystr) : commonprefix s s = s.
Proof.
  pose proof (commonprefix_app s [] eq_refl) as E. now rewrite app_nil_r in E.
Qed.

Lemma startswith_self (s : pystr) : startswith s s = true.
Proof. induction s as [|x s IH]; simpl; [reflexivity|]. now rewrite chr_eqb_refl. Qed.

(** X1: when [path] and [start] have the same normalised absolute form,
    that is when they name the same directory, [custom_relpath path start]
    is the empty string. *)
Theorem custom_relpath_same_directory (h : host) (path start : pystr) :
  os_path.abspath h (os_path.normpath h path)
  = os_path.abspath h (os_path.normpath h start) ->
  custom_relpath h path start = [].
Proof.
  intro E. unfold custom_relpath. rewrite E.
  set (a := os_path.abspath h (os_path.normpath h start)).
  rewrite (contains_prefix a a (startswith_self a)). cbn [negb].
  rewrite commonprefix_self, skipn_all. reflexivity.
Qed.

Lemma custom_relpath_same_directory_witness :
  custom_relpath posix_host (str "/srv/app/") (str "/srv/./x/../app") = [].
Proof. apply custom_relpath_same_directory. reflexivity. Defined.

Lemma splitdrive_app (a : pystr) :
  fst (ntpath.splitdrive a) ++ snd (ntpath.splitdrive a) = a.
Proof.
  destruct a as [|c [|d rest]]; try reflexivity.
  unfold ntpath.splitdrive. destruct (chr_eqb d colon); reflexivity.
Qed.

Lemma nt_join_nil a : ntpath.join a [] = a.
Proof.
  unfold ntpath.join. cbn [fold_left].
  pose proof (splitdrive_app a) as E. destruct (ntpath.splitdrive a). exact E.
Qed.

Lemma nt_join_list_facts ds : forall a,
  drive_absolute a = true -> Forall legal_windows ds ->
  drive_absolute (ntpath.join a ds) = true /\
  firstn 2 (ntpath.join a ds) = firstn 2 a /\
  nt_comps (ntpath.join a ds) = nt_comps a ++ ds.
Proof.
  induction ds as [|n ds IH]; intros a D F.
  - rewrite nt_join_nil, app_nil_r. auto.
  - inversion F as [|? ? Ln F']; subst.
    rewrite nt_join_cons by assumption.
    destruct (nt_join_facts a n D Ln) as (D1 & _ & F1 & C1).
    destruct (IH _ D1 F') as (D2 & F2 & C2).
    split; [assumption|]. split; [congruence|].
    rewrite C2, C1, <- app_assoc. reflexivity.
Qed.

Lemma custom_relpath_under_root (h : host) (r a : pystr) (ds : list pystr) :
  plat h = Windows ->
  drive_absolute r = true -> drive_absolute a = true ->
  firstn 2 r = firstn 2 a ->
  nt_comps a = [] ->
  nt_comps r = ds ->
  Forall legal_windows ds ->
  custom_relpath h r a = join_with backslash ds.
Proof.
  intros W Dr Da F NE C L. unfold custom_relpath, os_path.abspath, os_path.normpath.
  rewrite W. cbn [os_sep].
  rewrite !nt_abspath_normpath by assumption. rewrite C, F, NE.
  cbn [join_with].
  set (start := firstn 2 a ++ [backslash]).
  replace (firstn 2 a ++ backslash :: join_with backslash ds)
    with (start ++ join_with backslash ds)
    by (unfold start; now rewrite <- app_assoc).
  rewrite (contains_prefix start _ (startswith_app start _)).
  cbn [negb]. unfold start at 1 2.
  rewrite commonprefix_app_ascii by reflexivity. fold start.
  rewrite skipn_length_app.
  destruct ds as [|d ds]; [reflexivity|].
  destruct (join_legal_head ds d L) as (x & s & E & NB).
  rewrite E, lstrip_stop by assumption. rewrite <- E.
  rewrite split_join; [|discriminate|].
  2:{ intros seg I. rewrite Forall_forall in L. apply (L seg I). }
  rewrite relpath_loop_keep_all.
  2:{ apply Forall_forall. intros seg I. rewrite Forall_forall in L.
      apply (L seg I). }
  now rewrite app_nil_r, rev_involutive.
Qed.

Lemma Forall_legal_windows ds :
  Forall (fun n => legal_name Windows n = true) ds -> Forall legal_windows ds.
Proof. intro F. eapply Forall_impl; [|exact F]. intros n. apply legal_name_windows. Qed.

Lemma legal_name_posix n : legal_name Posix n = true -> legal_posix n.
Proof.
  unfold legal_name. rewrite andb_true_r, !andb_true_iff, !negb_true_iff.
  intros [[NE S] D]. split.
  - now destruct n.
  - intro I. assert (T : existsb (is_sep Posix) n = true).
    { apply existsb_exists. exists slash. split; [assumption|reflexivity]. }
    congruence.
  - assumption.
Qed.

Lemma posix_comps_plain p x :
  In x (posix_comps p) -> x <> [] /\ ~ In slash x /\ dot_segment x = false.
Proof.
  unfold posix_comps. intro I. apply In_rev in I. repeat split.
  - revert x I. apply collapse_dots_nonempty. intros ? [].
  - revert x I. apply collapse_dots_no_sep; [intros ? []|apply split_no_sep].
  - revert x I. apply collapse_dots_rooted_clean. intros ? [].
Qed.

Lemma single_slash_inv p :
  startswith [slash] p && negb (startswith [slash; slash] p) = true ->
  exists t, p = slash :: t /\ startswith [slash] t = false.
Proof.
  destruct p as [|c t]; [discriminate|]. cbn [startswith].
  rewrite !andb_true_r. intro E. apply andb_true_iff in E. destruct E as [C N].
  apply chr_eqb_eq in C. subst c. exists t. split; [reflexivity|].
  rewrite chr_eqb_refl in N. cbn [andb] in N. apply negb_true_iff in N.
  destruct t as [|d t]; [reflexivity|]. cbn [startswith] in *.
  now rewrite andb_true_r in *.
Qed.

Lemma posix_normpath_single p :
  startswith [slash] p && negb (startswith [slash; slash] p) = true ->
  posixpath.normpath p = slash :: join_with slash (posix_comps p).
Proof.
  intro A. destruct (single_slash_inv p A) as (t & -> & St).
  unfold posixpath.normpath, posixpath.initial_slashes.
  apply andb_true_iff in A. destruct A as [A1 A2]. rewrite A1.
  assert (E : startswith [slash; slash] (slash :: t)
              && negb (startswith [slash; slash; slash] (slash :: t)) = false).
  { apply negb_true_iff in A2. now rewrite A2. }
  rewrite E. reflexivity.
Qed.

Lemma posix_comps_normal (k : list pystr) :
  (forall x, In x k -> x <> [] /\ ~ In slash x /\ dot_segment x = false) ->
  posix_comps (slash :: join_with slash k) = k.
Proof.
  intro P. unfold posix_comps.
  change (split slash (slash :: join_with slash k))
    with ([] :: split slash (join_with slash k)).
  change (collapse_dots true [] ([] :: split slash (join_with slash k)))
    with (collapse_dots true [] (split slash (join_with slash k))).
  destruct k as [|p k]; [reflexivity|].
  rewrite split_join; [|discriminate|intros x I; now apply (P x I)].
  rewrite collapse_dots_keep_all.
  - now rewrite app_nil_r, rev_involutive.
  - apply Forall_forall. intros x I. split; now apply (P x I).
Qed.

Lemma single_slash_normal (k : list pystr) :
  (forall x, In x k -> x <> [] /\ ~ In slash x /\ dot_segment x = false) ->
  startswith [slash] (slash :: join_with slash k)
  && negb (startswith [slash; slash] (slash :: join_with slash k)) = true.
Proof.
  intro P. cbn [startswith]. rewrite chr_eqb_refl. cbn [andb].
  destruct k as [|p k]; [reflexivity|].
  destruct (P p (or_introl eq_refl)) as (NE & NS & _).
  destruct p as [|c p]; [contradiction|].
  assert (C : chr_eqb slash c = false).
  { apply chr_eqb_neq. intros <-. apply NS. now left. }
  destruct k; cbn [join_with app startswith]; now rewrite C.
Qed.

(** [abspath(normpath(p))] of such a path. *)
Lemma posix_abspath_normpath cwd p :
  startswith [slash] p && negb (startswith [slash; slash] p) = true ->
  posixpath.abspath cwd (posixpath.normpath p)
  = slash :: join_with slash (posix_comps p).
Proof.
  intro A. rewrite (posix_normpath_single p A).
  unfold posixpath.abspath, posixpath.isabs. cbn [startswith].
  rewrite chr_eqb_refl. cbn [andb].
  rewrite posix_normpath_single by (apply single_slash_normal, posix_comps_plain).
  now rewrite posix_comps_normal by apply posix_comps_plain.
Qed.

Lemma posix_comps_snoc a (n : pystr) :
  legal_posix n -> posix_comps (a ++ slash :: n) = posix_comps a ++ [n].
Proof.
  intros [NE NS ND]. unfold posix_comps.
  rewrite split_snoc by assumption.
  rewrite collapse_dots_app, collapse_dots_keep by assumption. reflexivity.
Qed.

Lemma posix_comps_trailing a : posix_comps (a ++ [slash]) = posix_comps a.
Proof.
  unfold posix_comps. rewrite (split_snoc slash a []) by (intros []).
  now rewrite collapse_dots_app, collapse_dots_skip_empty.
Qed.

Lemma posix_join_one a n :
  a <> [] -> legal_posix n ->
  posixpath.join a [n]
  = if endswith_if (chr_eqb slash) a then a ++ n else a ++ slash :: n.
Proof.
  intros NEa [NE NS ND]. unfold posixpath.join. cbn [fold_left].
  unfold posixpath.join2.
  assert (S0 : startswith [slash] n = false).
  { destruct n as [|c n]; [contradiction|]. cbn [startswith]. rewrite andb_true_r.
    apply chr_eqb_neq. intros <-. apply NS. now left. }
  rewrite S0. destruct a; [contradiction|reflexivity].
Qed.

Lemma single_slash_app a x :
  startswith [slash] a && negb (startswith [slash; slash] a) = true ->
  startswith [slash] x = false ->
  startswith [slash] (a ++ x) && negb (startswith [slash; slash] (a ++ x)) = true.
Proof.
  intros A Sx. destruct (single_slash_inv a A) as (t & -> & St).
  cbn [app startswith]. rewrite chr_eqb_refl. cbn [andb].
  destruct t as [|d t]; cbn [app].
  - destruct x as [|c x]; [reflexivity|]. cbn [startswith] in *.
    rewrite andb_true_r in *. now rewrite Sx.
  - cbn [startswith] in *. rewrite andb_true_r in *. now rewrite St.
Qed.

Lemma single_slash_app_inner a x :
  startswith [slash] a && negb (startswith [slash; slash] a) = true ->
  endswith_if (chr_eqb slash) a = false ->
  startswith [slash] (a ++ x) && negb (startswith [slash; slash] (a ++ x)) = true.
Proof.
  intros A E. destruct (single_slash_inv a A) as (t & -> & St).
  destruct t as [|d t]; [discriminate E|].
  cbn [app startswith] in *. rewrite chr_eqb_refl. rewrite andb_true_r in St.
  now rewrite St.
Qed.

Lemma posix_join_facts a n :
  startswith [slash] a && negb (startswith [slash; slash] a) = true ->
  legal_posix n ->
  startswith [slash] (posixpath.join a [n])
  && negb (startswith [slash; slash] (posixpath.join a [n])) = true /\
  posix_comps (posixpath.join a [n]) = posix_comps a ++ [n].
Proof.
  intros A L. pose proof L as [NE NS ND].
  assert (NEa : a <> []) by (intros ->; discriminate A).
  assert (S0 : startswith [slash] n = false).
  { destruct n as [|c n]; [contradiction|]. cbn [startswith]. rewrite andb_true_r.
    apply chr_eqb_neq. intros <-. apply NS. now left. }
  rewrite posix_join_one by assumption.
  destruct (endswith_if (chr_eqb slash) a) eqn:E.
  - split; [now apply single_slash_app|].
    apply endswith_if_inv in E. destruct E as (a0 & s & -> & Es).
    apply chr_eqb_eq in Es. subst s.
    rewrite posix_comps_trailing, <- app_assoc. cbn [app].
    now apply posix_comps_snoc.
  - split; [now apply single_slash_app_inner|]. now apply posix_comps_snoc.
Qed.

Lemma posix_join_cons a n ns :
  posixpath.join a (n :: ns) = posixpath.join (posixpath.join a [n]) ns.
Proof. reflexivity. Qed.

Lemma posix_join_list_facts ds : forall a,
  startswith [slash] a && negb (startswith [slash; slash] a) = true ->
  Forall legal_posix ds ->
  startswith [slash] (posixpath.join a ds)
  && negb (startswith [slash; slash] (posixpath.join a ds)) = true /\
  posix_comps (posixpath.join a ds) = posix_comps a ++ ds.
Proof.
  induction ds as [|n ds IH]; intros a A F.
  - cbn. rewrite app_nil_r. auto.
  - inversion F as [|? ? Ln F']; subst. rewrite posix_join_cons.
    destruct (posix_join_facts a n A Ln) as (A1 & C1).
    destruct (IH _ A1 F') as (A2 & C2). split; [assumption|].
    now rewrite C2, C1, <- app_assoc.
Qed.

Lemma join_plain_head (ds : list pystr) d :
  Forall legal_posix (d :: ds) ->
  exists x s, join_with slash (d :: ds) = x :: s /\ x <> slash.
Proof.
  intro F. inversion F as [|? ? L F']; subst.
  destruct d as [|x d]; [exfalso; now apply (lp_nonempty _ L)|].
  exists x. destruct ds as [|e ds]; simpl; eexists; (split; [reflexivity|]);
    intros ->; apply (lp_no_slash _ L); now left.
Qed.

Lemma custom_relpath_under_posix (h : host) (r a : pystr) (ds : list pystr) :
  plat h = Posix ->
  startswith [slash] r && negb (startswith [slash; slash] r) = true ->
  startswith [slash] a && negb (startswith [slash; slash] a) = true ->
  posix_comps r = posix_comps a ++ ds ->
  Forall legal_posix ds ->
  custom_relpath h r a = join_with slash ds.
Proof.
  intros P Ar Aa C L. unfold custom_relpath, os_path.abspath, os_path.normpath.
  rewrite P. cbn [os_sep].
  rewrite !posix_abspath_normpath by assumption. rewrite C.
  set (tail := match posix_comps a, ds with
               | _, [] => []
               | [], _ => join_with slash ds
               | _ :: _, _ => slash :: join_with slash ds
               end).
  assert (E : slash :: join_with slash (posix_comps a ++ ds)
              = (slash :: join_with slash (posix_comps a)) ++ tail).
  { unfold tail. destruct (posix_comps a) as [|k ks].
    - cbn [app join_with]. now destruct ds.
    - rewrite join_with_app by discriminate. destruct ds; reflexivity. }
  rewrite E. set (start := slash :: join_with slash (posix_comps a)).
  rewrite (contains_prefix start (start ++ tail) (startswith_app start tail)).
  cbn [negb].
  assert (Cp : commonprefix (start ++ tail) start = start).
  { unfold start, tail. destruct (posix_comps a) as [|k ks].
    - apply (commonprefix_app_ascii [] _ slash); reflexivity.
    - apply commonprefix_app. now destruct ds. }
  rewrite Cp, skipn_length_app.
  destruct ds as [|d ds]; [unfold tail; now destruct (posix_comps a)|].
  destruct (join_plain_head ds d L) as (x & s & Ej & NB).
  assert (Ls : lstrip slash tail = join_with slash (d :: ds)).
  { unfold tail. destruct (posix_comps a).
    - rewrite Ej. now apply lstrip_stop.
    - cbn [lstrip]. rewrite chr_eqb_refl, Ej. now apply lstrip_stop. }
  rewrite Ls. rewrite split_join; [|discriminate|].
  2:{ intros seg I. rewrite Forall_forall in L. apply (L seg I). }
  rewrite relpath_loop_keep_all.
  2:{ apply Forall_forall. intros seg I. rewrite Forall_forall in L.
      apply (L seg I). }
  now rewrite app_nil_r, rev_involutive.
Qed.

(** X2: [custom_relpath] inverts [join] below an absolute directory, on
    either host: for an absolute [start] and names [ds] that are legal on the
    host (not empty, without a separator, not [.] or [..], without a colon on
    Windows), the path of [join(start, *ds)] relative to [start] is the
    names joined with [os.sep], however [start] is written ([.] and [..]
    segments, repeated or trailing separators, either separator on
    Windows).  ([abspath] is the library's own normalisation: what Windows
    itself rewrites in a name, trailing dots or spaces and device names, is
    outside this model.) *)
Theorem custom_relpath_descendant (h : host) (start : pystr) (ds : list pystr) :
  absolute_path h start = true ->
  Forall (fun n => legal_name (plat h) n = true) ds ->
  custom_relpath h (os_path.join h start ds) start
  = join_with (os_sep (plat h)) ds.
Proof.
  unfold absolute_path, os_path.join. destruct (plat h) eqn:P; intros A F.
  - assert (F' : Forall legal_posix ds).
    { eapply Forall_impl; [|exact F]. intro n. apply legal_name_posix. }
    destruct (posix_join_list_facts ds start A F') as (Aj & Cj).
    cbn [os_sep]. now apply custom_relpath_under_posix.
  - apply Forall_legal_windows in F.
    destruct (nt_join_list_facts ds start A F) as (Dj & Fj & Cj).
    cbn [os_sep]. destruct (nt_comps start) as [|k ks] eqn:K.
    + apply custom_relpath_under_root; try assumption.
    + apply custom_relpath_under; try assumption.
      * rewrite K. discriminate.
      * now rewrite K in *.
Qed.

Lemma custom_relpath_descendant_witness :
  custom_relpath posix_host
    (os_path.join posix_host (str "/srv/./app/") [str "assets"; str "a.png"])
    (str "/srv/./app/")
  = join_with (os_sep (plat posix_host)) [str "assets"; str "a.png"].
Proof.
  apply custom_relpath_descendant; [reflexivity|].
  repeat constructor.
Defined.

(** ** Stage 1: an input that [zipfile] rejects *)






(** What the two kinds of rejected input leave behind: a file without an
    archive leaves the empty workspace, a damaged member leaves what was
    extracted before it and its own file, here empty. *)
Example rejected_on_opening :
  let run := convert windows_host (str "C:/dl/notes.zip") (str "C:/out")
               (Some quiet) win_root in
  fst run = Return false /\
  events (snd run) = [(10%Z, msg_extracting); (0%Z, msg_invalid_zip)] /\
  FS.lookup (fs (snd run)) [str "C:"; str "out"]
  = Some (Dir [(str "temp_extract", Dir [])]).
Proof. vm_compute. repeat split; reflexivity. Qed.

Example rejected_while_extracting :
  let run := convert windows_host (str "C:/dl/game.zip") (str "C:/out")
               (Some quiet) damaged_root in
  fst run = Return false /\
  events (snd run) = [(10%Z, msg_extracting); (0%Z, msg_invalid_zip)] /\
  FS.lookup (fs (snd run)) [str "C:"; str "out"]
  = Some (Dir [(str "temp_extract",
                Dir [(str "packaged-project",
                      Dir [(str "readme.txt", File (Bytes (str "hi")));
                           (str "resources",
                            Dir [(str "app",
                                  Dir [(str "project.json",
                                        File (Bytes []))])])])])]).
Proof. vm_compute. repeat split; reflexivity. Qed.


(** ** The name of the output archive *)

Lemma after_last_none f (s : pystr) : existsb f s = false -> after_last f s = s.
Proof.
  destruct s as [|x s]; [reflexivity|]. cbn [existsb after_last]. intro E.
  apply orb_false_iff in E. destruct E as [-> ->]. reflexivity.
Qed.

Lemma existsb_endswith f (d : pystr) : endswith_if f d = true -> existsb f d = true.
Proof.
  intro E. apply endswith_if_inv in E. destruct E as (d0 & s & -> & Fs).
  rewrite existsb_app. cbn [existsb]. rewrite Fs. now rewrite orb_true_r.
Qed.

Lemma after_last_app f (d n : pystr) :
  d = [] \/ endswith_if f d = true -> existsb f n = false ->
  after_last f (d ++ n) = n.
Proof.
  intros [->|E] N; [now apply after_last_none|].
  apply endswith_if_inv in E. destruct E as (d0 & s & -> & Fs).
  induction d0 as [|x d0 IH]; cbn [app after_last].
  - now rewrite N, Fs.
  - rewrite <- app_assoc, existsb_app. cbn [app existsb]. rewrite Fs, orb_true_r.
    rewrite <- app_assoc in IH. exact IH.
Qed.

Lemma dir_prefix_cases p d :
  dir_prefix p d = true -> d = [] \/ endswith_if (is_sep p) d = true.
Proof. destruct d; [now left|now right]. Qed.

Lemma upto_last_app f (a b : pystr) (c : ascii) :
  f c = true -> existsb f b = false -> upto_last f (a ++ c :: b) = a ++ [c].
Proof.
  intros Fc N. induction a as [|x a IH]; cbn [app upto_last].
  - now rewrite N, Fc.
  - rewrite existsb_app. cbn [existsb]. rewrite Fc, orb_true_r. now rewrite IH.
Qed.

Lemma segment_chars_inv p n :
  segment_chars p n = true ->
  existsb (is_sep p) n = false /\
  (p = Windows -> existsb (chr_eqb colon) n = false).
Proof.
  unfold segment_chars. intro E. apply andb_true_iff in E. destruct E as [A B].
  apply negb_true_iff in A. split; [assumption|]. intros ->.
  now apply negb_true_iff in B.
Qed.

Lemma has_non_dot_nonempty n : has_non_dot n = true -> n <> [].
Proof. intros E ->. discriminate E. Qed.

(** The drive that [splitdrive] removes lies in the directory prefix. *)
Lemma nt_basename_app (d n : pystr) :
  dir_prefix Windows d = true ->
  existsb (is_sep Windows) n = false ->
  existsb (chr_eqb colon) (firstn 2 n) = false ->
  ntpath.basename (d ++ n) = n.
Proof.
  intros P NS NC. unfold ntpath.basename.
  assert (R : exists d', snd (ntpath.splitdrive (d ++ n)) = d' ++ n /\
                         (d' = [] \/ endswith_if ntpath.both_seps d' = true)).
  { destruct d as [|x [|y d]].
    - exists []. split; [|now left]. cbn [app].
      destruct n as [|c [|c2 n]]; try reflexivity.
      cbn [firstn existsb] in NC. rewrite orb_false_r in NC.
      apply orb_false_iff in NC. destruct NC as [_ NC].
      unfold ntpath.splitdrive. rewrite chr_eqb_sym, NC. reflexivity.
    - exists [x]. split; [|now right]. cbn [app].
      destruct n as [|c n]; [reflexivity|].
      cbn [firstn existsb] in NC. apply orb_false_iff in NC. destruct NC as [NC _].
      unfold ntpath.splitdrive. rewrite chr_eqb_sym, NC. reflexivity.
    - cbn [app]. unfold ntpath.splitdrive.
      destruct (chr_eqb y colon) eqn:Y.
      + exists d. split; [reflexivity|]. right.
        apply chr_eqb_eq in Y. subst y.
        destruct d as [|z d]; [discriminate P|].
        change (x :: colon :: z :: d) with ([x; colon] ++ z :: d) in P.
        cbn [dir_prefix app] in P.
        change (x :: colon :: z :: d) with ([x; colon] ++ z :: d) in P.
        rewrite endswith_if_app in P by discriminate. exact P.
      + exists (x :: y :: d). split; [reflexivity|]. now right. }
  destruct R as (d' & -> & E). now apply after_last_app.
Qed.

Lemma splitext_stem (h : host) (stem ext : pystr) :
  existsb (is_sep (plat h)) stem = false ->
  existsb (is_sep (plat h)) ext = false ->
  is_sep (plat h) dot = false ->
  existsb (chr_eqb dot) ext = false ->
  has_non_dot stem = true ->
  fst (os_path.splitext h (stem ++ dot :: ext)) = stem.
Proof.
  intros Ss Se Sd De Nd. unfold os_path.splitext.
  assert (N : existsb (is_sep (plat h)) (stem ++ dot :: ext) = false).
  { rewrite existsb_app. cbn [existsb]. now rewrite Ss, Sd, Se. }
  rewrite (after_last_none _ _ N). rewrite Nat.sub_diag.
  assert (D : existsb (chr_eqb dot) (stem ++ dot :: ext) = true).
  { rewrite existsb_app. cbn [existsb]. rewrite chr_eqb_refl. now rewrite orb_true_r. }
  rewrite D. rewrite upto_last_app by (assumption || apply chr_eqb_refl).
  rewrite removelast_last. unfold has_non_dot in Nd. rewrite Nd.
  cbn [fst Nat.add]. now rewrite firstn_app, Nat.sub_diag, firstn_all, app_nil_r.
Qed.

Lemma is_sep_dot p : is_sep p dot = false.
Proof. destruct p; reflexivity. Qed.

Lemma basename_app (h : host) (d n : pystr) :
  dir_prefix (plat h) d = true ->
  segment_chars (plat h) n = true ->
  os_path.basename h (d ++ n) = n.
Proof.
  intros P C. apply segment_chars_inv in C. destruct C as [NS NC].
  unfold os_path.basename. destruct (plat h) eqn:W.
  - unfold posixpath.basename. apply after_last_app; [|assumption].
    now apply dir_prefix_cases in P.
  - apply nt_basename_app; try assumption.
    specialize (NC eq_refl).
    destruct n as [|a [|b n]]; cbn [firstn existsb] in *; try assumption.
    + apply orb_false_iff in NC. destruct NC as [-> NC].
      apply orb_false_iff in NC. destruct NC as [-> _]. reflexivity.
Qed.

(** X3: the name of the output archive (line 63) is the base name of the
    input with its extension replaced by [.sb3].  For an input
    [d ++ stem ++ "." ++ ext] whose directory part [d] is empty or ends in
    a separator, whose base name holds no separator (and no colon on
    Windows), whose stem is not made of dots only and whose extension holds
    no dot, the name is [stem ++ ".sb3"]: only the last extension is
    replaced. *)
Theorem sb3_name_replaces_extension (h : host) (d stem ext : pystr) :
  dir_prefix (plat h) d = true ->
  segment_chars (plat h) (stem ++ dot :: ext) = true ->
  has_non_dot stem = true ->
  existsb (chr_eqb dot) ext = false ->
  sb3_name h (d ++ stem ++ dot :: ext) = stem ++ str ".sb3".
Proof.
  intros P C Nd De. unfold sb3_name. rewrite basename_app by assumption.
  apply segment_chars_inv in C. destruct C as [NS _].
  rewrite existsb_app in NS. cbn [existsb] in NS.
  apply orb_false_iff in NS. destruct NS as [Ss NS].
  apply orb_false_iff in NS. destruct NS as [_ Se].
  rewrite splitext_stem; auto using is_sep_dot.
Qed.

Lemma sb3_name_replaces_extension_witness :
  sb3_name windows_host (str "C:\Users\me/" ++ str "my.game" ++ dot :: str "zip")
  = str "my.game" ++ str ".sb3".
Proof. apply sb3_name_replaces_extension; reflexivity. Defined.

(** X4: a base name whose only dots are leading ones has no extension for
    [splitext] to remove: [.sb3] is appended to the whole name, so the
    input [.zip] gives the archive [.zip.sb3]. *)
Theorem sb3_name_without_extension (h : host) (d dots name : pystr) :
  dir_prefix (plat h) d = true ->
  segment_chars (plat h) (dots ++ name) = true ->
  forallb (chr_eqb dot) dots = true ->
  existsb (chr_eqb dot) name = false ->
  sb3_name h (d ++ dots ++ name) = dots ++ name ++ str ".sb3".
Proof.
  intros P C Ds Nd. unfold sb3_name. rewrite basename_app by assumption.
  apply segment_chars_inv in C. destruct C as [NS _].
  unfold os_path.splitext. rewrite (after_last_none _ _ NS).
  destruct (existsb (chr_eqb dot) (dots ++ name)) eqn:E;
    [|cbn [fst]; now rewrite <- app_assoc].
  assert (R : forall s, forallb (chr_eqb dot) s = true -> s <> [] ->
                        removelast (upto_last (chr_eqb dot) (s ++ name))
                        = removelast s).
  { intros s Fs NE. destruct (exists_last NE) as (s0 & c & ->).
    rewrite forallb_app in Fs. apply andb_true_iff in Fs. destruct Fs as [F0 Fc].
    cbn [forallb] in Fc. rewrite andb_true_r in Fc.
    rewrite <- app_assoc. cbn [app].
    rewrite upto_last_app by assumption. now rewrite !removelast_last. }
  destruct dots as [|x dots].
  - cbn [app] in E. congruence.
  - rewrite R by (assumption || discriminate).
    assert (A : existsb (fun c => negb (chr_eqb c dot)) (removelast (x :: dots)) = false).
    { assert (G : forall s, forallb (chr_eqb dot) s = true ->
                            existsb (fun c => negb (chr_eqb c dot)) s = false).
      { induction s as [|y s IH]; [reflexivity|]. cbn [forallb existsb]. intro F.
        apply andb_true_iff in F. destruct F as [Fy Fs].
        rewrite chr_eqb_sym, Fy. now apply IH. }
      apply G. destruct (exists_last (l:=x :: dots)) as (s0 & c & Es); [discriminate|].
      rewrite Es, removelast_last. rewrite Es, forallb_app in Ds.
      now apply andb_true_iff in Ds. }
    rewrite A. cbn [fst]. now rewrite <- app_assoc.
Qed.

Lemma sb3_name_without_extension_witness :
  sb3_name posix_host (str "/dl/" ++ str "." ++ str "zip") = str "." ++ str "zip" ++ str ".sb3".
Proof. apply sb3_name_without_extension; reflexivity. Defined.

(** ** Stage 4 raises what [print] raises *)

Section CleanupOutcome.

Variable S : Type.
Variable h : host.
Variable os : OS S.

(** X5: [_cleanup_temp_dir] raises nothing of its own, whatever the
    operations of the file system do, and invokes no callback.  It returns
    [None] with nothing printed (the directory is removed, or there is no
    standard output), or it returns [None] with the one line of line 144
    printed, which carries the text of the exception that stopped it, or it
    raises the exception that [print] has raised on this line, which is then
    not printed. *)
Theorem cleanup_raises_only_from_print (temp_dir : pystr) (w : world S) :
  let run := _cleanup_temp_dir h os temp_dir w in
  events (snd run) = events w /\
  ((fst run = Return tt /\ stdout (snd run) = stdout w) \/
   (exists e write,
      sys_stdout h = Some write /\ write (msg_cleanup_failed e) = None /\
      fst run = Return tt /\
      stdout (snd run) = stdout w ++ [msg_cleanup_failed e]) \/
   (exists e e' write,
      sys_stdout h = Some write /\ write (msg_cleanup_failed e) = Some e' /\
      fst run = Raise e' /\ stdout (snd run) = stdout w)).
Proof.
  cbv zeta. split; [apply cleanup_events|].
  destruct (cleanup_cases S h os temp_dir w)
    as [(w1 & -> & _ & So)|(e & w1 & _ & So & ->)].
  - left. now split.
  - destruct (print_cases S h (msg_cleanup_failed e) w1)
      as [[_ ->]|[(write & Sw & Wr & ->)|(write & e' & Sw & Wr & ->)]];
      cbn [fst snd stdout].
    + left. now split.
    + right; left. exists e, write. rewrite So. auto.
    + right; right. exists e, e', write. auto.
Qed.

End CleanupOutcome.

(** X6: when no directory stands at [temp_dir] (nothing, or a regular
    file), the walk yields nothing and [os.rmdir] raises: the outcome of
    [_cleanup_temp_dir] is the outcome of [print] on the line with the text
    of this exception, and the file system is as it was. *)
Theorem cleanup_of_missing_directory (h : host) (temp_dir : pystr) (w : world node) :
  FS.is_dir (FS.lookup (fs w) (locate h temp_dir)) = false ->
  let e := if FS.is_file (FS.lookup (fs w) (locate h temp_dir))
           then oserror "NotADirectoryError"
           else oserror "FileNotFoundError" in
  let run := _cleanup_temp_dir h (tree_os h) temp_dir w in
  run = print h (msg_cleanup_failed e) w /\
  fs (snd run) = fs w.
Proof.
  intro N. cbv zeta.
  assert (E : _cleanup_temp_dir h (tree_os h) temp_dir w
              = print h (msg_cleanup_failed
                           (if FS.is_file (FS.lookup (fs w) (locate h temp_dir))
                            then oserror "NotADirectoryError"
                            else oserror "FileNotFoundError")) w).
  { unfold _cleanup_temp_dir, try_except, bind, query, lift.
    cbn [os_walk os_rmdir tree_os]. unfold walk, rmdir.
    destruct w as [X ev so]. cbn [fs events stdout] in *.
    destruct (FS.lookup X (locate h temp_dir)) as [[c|es]|] eqn:E;
      [| discriminate N |];
      cbn [walk_node for_each ret fs]; rewrite E; reflexivity. }
  rewrite E. split; [reflexivity|]. apply print_fs.
Qed.

Lemma cleanup_of_missing_directory_witness :
  let w := World posix_root [] [] in
  let e := if FS.is_file (FS.lookup (fs w)
                            (locate posix_host (str "/out/temp_extract")))
           then oserror "NotADirectoryError"
           else oserror "FileNotFoundError" in
  let run := _cleanup_temp_dir posix_host (tree_os posix_host)
               (str "/out/temp_extract") w in
  run = print posix_host (msg_cleanup_failed e) w /\
  fs (snd run) = fs w.
Proof.
  apply (cleanup_of_missing_directory posix_host (str "/out/temp_extract")
           (World posix_root [] [])).
  reflexivity.
Defined.

(** The same call under a standard output that takes the line, and under
    one that cannot encode it. *)
Example cleanup_of_missing_directory_printed :
  _cleanup_temp_dir posix_host (tree_os posix_host) (str "/out/temp_extract")
    (World posix_root [] [])
  = (Return tt,
     World posix_root []
       [msg_cleanup_failed (oserror "FileNotFoundError")]).
Proof. vm_compute. reflexivity. Qed.

Example cleanup_of_missing_directory_raises :
  _cleanup_temp_dir redirected_host (tree_os redirected_host)
    (str "C:/out/temp_extract") (World win_root [] [])
  = (Raise (Exn OtherException (str "UnicodeEncodeError")),
     World win_root [] []).
Proof. vm_compute. reflexivity. Qed.

(** ** A callback that raises another exception than [RuntimeError] *)

Section CallbackErrors.

Variable S : Type.
Variable h : host.
Variable os : OS S.

Lemma update_progress_quiet k m (w : world S) :
  _update_progress (Some quiet) k m w = (Return tt, log (k, m) w).
Proof. reflexivity. Qed.

Lemma update_progress_raising_at v e k m (w : world S) :
  isinstance_RuntimeError e = false ->
  _update_progress (Some (raising_at v e)) k m w
  = if (k =? v)%Z then (Raise e, log (k, m) w) else (Return tt, log (k, m) w).
Proof.
  intro NR. unfold _update_progress, try_except, invoke, raising_at.
  destruct (k =? v)%Z; [|reflexivity]. now rewrite NR.
Qed.

Lemma repack_world target app_dir s ev so :
  exists r s' so',
    repack h os target app_dir (World s ev so) = (r, World s' ev so').
Proof.
  destruct (repack h os target app_dir (World s ev so)) as [r [s' ev' so']] eqn:E.
  apply repack_events in E. cbn [events] in E. subst ev'. eauto.
Qed.

Lemma cleanup_world temp_dir s ev so :
  exists r s' so',
    _cleanup_temp_dir h os temp_dir (World s ev so) = (r, World s' ev so').
Proof.
  pose proof (cleanup_events S h os temp_dir (World s ev so)) as Ev.
  destruct (_cleanup_temp_dir h os temp_dir (World s ev so)) as [r [s' ev' so']].
  cbn [fst snd events] in *. subst. eauto.
Qed.

Ltac expose :=
  unfold logged, log, with_events, lift, query; cbn [fs events stdout app fst snd].

Ltac settle_percent v :=
  repeat match goal with
         | |- context [(v =? ?k)%Z] =>
             destruct (Z.eqb_spec v k); [congruence|]
         | |- context [(?k =? v)%Z] =>
             destruct (Z.eqb_spec k v); [congruence|]
         end.

Ltac leaf v :=
  cbn [map existsb fst snd events]; settle_percent v; cbn [orb]; reflexivity.

(** X7: a callback that raises an exception other than [RuntimeError] when
    it is invoked with the percentage [v], not 0, (and returns at every
    other invocation) stops the conversion at that milestone.  Compared with the
    conversion under a callback that always returns: when that one reports
    [v], the invocations are the same up to the first one with [v], one
    more follows at 0 with the unexpected-error message that carries the
    text of the exception, and the result is [False]; when it never reports
    [v], the two conversions are the same. *)
Theorem callback_error_reported zip_file_name output_dir (v : Z) (e : exn)
    (w : world S) :
  isinstance_RuntimeError e = false ->
  v <> 0%Z ->
  events w = [] ->
  let ref := convert_exe_to_sb3 h os zip_file_name output_dir (Some quiet) w in
  let run := convert_exe_to_sb3 h os zip_file_name output_dir
               (Some (raising_at v e)) w in
  if existsb (Z.eqb v) (map fst (events (snd ref)))
  then fst run = Return false /\
       events (snd run) = through v (events (snd ref)) ++ [(0%Z, msg_unexpected e)]
  else run = ref.
Proof.
  intros NR V0 E0. cbv zeta.
  rewrite (convert_stages S h os zip_file_name output_dir (Some quiet) w
             quiet_raises_nothing).
  destruct w as [s ev so]. cbn [events] in E0. subst ev.
  unfold stages, convert_exe_to_sb3, try_except, bind, ret. cbv zeta. expose.
  destruct (os_makedirs_exist_ok os _ s) as [[[]|e1] s1].
  2:{ rewrite isinstance_Exception_true, update_progress_raising_at by assumption.
      expose. leaf v. }
  rewrite update_progress_raising_at by assumption. expose.
  destruct (Z.eqb_spec 10 v) as [<-|V10]; expose.
  { rewrite isinstance_Exception_true, update_progress_raising_at by assumption.
      expose. cbn [Z.eqb].
      destruct (zip_extractall os _ _ s1) as [[[]|e2] s2]; expose;
        [|cbn; split; reflexivity].
      destruct (negb (os_path_exists os _ s2)); expose; [cbn; split; reflexivity|].
      match goal with
      | |- context [repack h os ?t ?a (World ?x ?ev ?so)] =>
          destruct (repack_world t a x ev so) as (r3 & s3 & so3 & E3); rewrite E3
      end.
      destruct r3 as [[]|e3]; expose; [|cbn; split; reflexivity].
      match goal with
      | |- context [_cleanup_temp_dir h os ?t (World ?x ?ev ?so)] =>
          destruct (cleanup_world t x ev so) as (r4 & s4 & so4 & E4); rewrite E4
      end.
      destruct r4 as [[]|e4]; expose; cbn; split; reflexivity. }
  destruct (zip_extractall os _ _ s1) as [[[]|e2] s2]; expose.
  2:{ destruct (isinstance_BadZipFile e2).
      - rewrite update_progress_raising_at by assumption. expose.
        leaf v.
      - rewrite isinstance_Exception_true, update_progress_raising_at by assumption.
        expose. leaf v. }
  destruct (negb (os_path_exists os _ s2)); expose.
  { rewrite update_progress_raising_at by assumption. expose.
    leaf v. }
  rewrite update_progress_raising_at by assumption. expose.
  destruct (Z.eqb_spec 50 v) as [<-|V50]; expose.
  { rewrite isinstance_Exception_true, update_progress_raising_at by assumption.
    expose. cbn [Z.eqb].
    match goal with
    | |- context [repack h os ?t ?a (World ?x ?ev ?so)] =>
        destruct (repack_world t a x ev so) as (r3 & s3 & so3 & E3); rewrite E3
    end.
    destruct r3 as [[]|e3]; expose; [|cbn; split; reflexivity].
    match goal with
    | |- context [_cleanup_temp_dir h os ?t (World ?x ?ev ?so)] =>
        destruct (cleanup_world t x ev so) as (r4 & s4 & so4 & E4); rewrite E4
    end.
    destruct r4 as [[]|e4]; expose; cbn; split; reflexivity. }
  match goal with
  | |- context [repack h os ?t ?a (World ?x ?ev ?so)] =>
      destruct (repack_world t a x ev so) as (r3 & s3 & so3 & E3); rewrite E3
  end.
  destruct r3 as [[]|e3]; expose.
  2:{ rewrite isinstance_Exception_true, update_progress_raising_at by assumption.
      expose. leaf v. }
  rewrite update_progress_raising_at by assumption. expose.
  destruct (Z.eqb_spec 80 v) as [<-|V80]; expose.
  { rewrite isinstance_Exception_true, update_progress_raising_at by assumption.
    expose. cbn [Z.eqb].
    match goal with
    | |- context [_cleanup_temp_dir h os ?t (World ?x ?ev ?so)] =>
        destruct (cleanup_world t x ev so) as (r4 & s4 & so4 & E4); rewrite E4
    end.
    destruct r4 as [[]|e4]; expose; cbn; split; reflexivity. }
  match goal with
  | |- context [_cleanup_temp_dir h os ?t (World ?x ?ev ?so)] =>
      destruct (cleanup_world t x ev so) as (r4 & s4 & so4 & E4); rewrite E4
  end.
  destruct r4 as [[]|e4]; expose.
  2:{ rewrite isinstance_Exception_true, update_progress_raising_at by assumption.
      expose. leaf v. }
  rewrite update_progress_raising_at by assumption. expose.
  destruct (Z.eqb_spec 100 v) as [<-|V100]; expose.
  { rewrite isinstance_Exception_true, update_progress_raising_at by assumption.
    expose. cbn. split; reflexivity. }
  leaf v.
Qed.

(** X8: when the callback raises such an exception at the 100% event of a
    conversion that succeeds otherwise, the result is [False] and a 0%
    event with the text of the exception follows the 100% event, although
    the work is done: the file system (archive written, workspace removed)
    and the console output are those of the successful conversion. *)
Theorem failure_reported_after_completion zip_file_name output_dir (e : exn)
    (w : world S) :
  isinstance_RuntimeError e = false ->
  let ref := convert_exe_to_sb3 h os zip_file_name output_dir (Some quiet) w in
  let run := convert_exe_to_sb3 h os zip_file_name output_dir
               (Some (raising_at 100 e)) w in
  fst ref = Return true ->
  fst run = Return false /\
  fs (snd run) = fs (snd ref) /\
  stdout (snd run) = stdout (snd ref) /\
  events (snd run) = events (snd ref) ++ [(0%Z, msg_unexpected e)].
Proof.
  intros NR. cbv zeta.
  rewrite (convert_stages S h os zip_file_name output_dir (Some quiet) w
             quiet_raises_nothing).
  destruct w as [s ev so].
  unfold stages, convert_exe_to_sb3, try_except, bind, ret. cbv zeta. expose.
  destruct (os_makedirs_exist_ok os _ s) as [[[]|e1] s1]; [|discriminate].
  rewrite update_progress_raising_at by assumption. cbn [Z.eqb Pos.eqb]. expose.
  destruct (zip_extractall os _ _ s1) as [[[]|e2] s2]; expose; [|discriminate].
  destruct (negb (os_path_exists os _ s2)); expose; [discriminate|].
  rewrite update_progress_raising_at by assumption. cbn [Z.eqb Pos.eqb]. expose.
  match goal with
  | |- context [repack h os ?t ?a (World ?x ?ev ?so)] =>
      destruct (repack_world t a x ev so) as (r3 & s3 & so3 & E3); rewrite E3
  end.
  destruct r3 as [[]|e3]; expose; [|discriminate].
  rewrite update_progress_raising_at by assumption. cbn [Z.eqb Pos.eqb]. expose.
  match goal with
  | |- context [_cleanup_temp_dir h os ?t (World ?x ?ev ?so)] =>
      destruct (cleanup_world t x ev so) as (r4 & s4 & so4 & E4); rewrite E4
  end.
  destruct r4 as [[]|e4]; expose; [|discriminate].
  rewrite update_progress_raising_at by assumption. cbn [Z.eqb Pos.eqb]. expose.
  rewrite isinstance_Exception_true, update_progress_raising_at by assumption.
  cbn [Z.eqb Pos.eqb]. expose. intros _. repeat split.
Qed.

End CallbackErrors.

Lemma callback_error_reported_witness :
  let e := Exn OtherException (str "ValueError") in
  let w := World win_root [] [] in
  isinstance_RuntimeError e = false /\ 50%Z <> 0%Z /\ events w = [] /\
  let ref := convert_exe_to_sb3 windows_host (tree_os windows_host)
               (str "C:/dl/game.zip") (str "C:/out") (Some quiet) w in
  let run := convert_exe_to_sb3 windows_host (tree_os windows_host)
               (str "C:/dl/game.zip") (str "C:/out") (Some (raising_at 50 e)) w in
  if existsb (Z.eqb 50) (map fst (events (snd ref)))
  then fst run = Return false /\
       events (snd run) = through 50 (events (snd ref)) ++ [(0%Z, msg_unexpected e)]
  else run = ref.
Proof.
  cbv zeta. split; [reflexivity|]. split; [discriminate|]. split; [reflexivity|].
  apply (callback_error_reported node windows_host (tree_os windows_host)
           (str "C:/dl/game.zip") (str "C:/out") 50
           (Exn OtherException (str "ValueError")) (World win_root [] []));
    [reflexivity|discriminate|reflexivity].
Defined.

Lemma failure_reported_after_completion_witness :
  let e := Exn OtherException (str "ValueError") in
  let w := World win_root [] [] in
  let ref := convert_exe_to_sb3 windows_host (tree_os windows_host)
               (str "C:/dl/game.zip") (str "C:/out") (Some quiet) w in
  let run := convert_exe_to_sb3 windows_host (tree_os windows_host)
               (str "C:/dl/game.zip") (str "C:/out") (Some (raising_at 100 e)) w in
  fst ref = Return true /\
  fst run = Return false /\
  fs (snd run) = fs (snd ref) /\
  stdout (snd run) = stdout (snd ref) /\
  events (snd run) = events (snd ref) ++ [(0%Z, msg_unexpected e)].
Proof.
  cbv zeta.
  assert (T : fst (convert_exe_to_sb3 windows_host (tree_os windows_host)
                     (str "C:/dl/game.zip") (str "C:/out") (Some quiet)
                     (World win_root [] [])) = Return true)
    by (vm_compute; reflexivity).
  split; [exact T|].
  apply (failure_reported_after_completion node windows_host (tree_os windows_host)
           (str "C:/dl/game.zip") (str "C:/out")
           (Exn OtherException (str "ValueError")) (World win_root [] [])
           eq_refl T).
Defined.

(** ** Stages that fail on the tree file system *)

Lemma mkdirs_file_in_way a : forall o b c,
  FS.lookup_opt o a = Some (File c) -> FS.mkdirs_opt o (a ++ b) = None.
Proof.
  induction a as [|n a IH]; intros o b c L.
  - cbn [FS.lookup_opt] in L. subst o. destruct b; reflexivity.
  - cbn [FS.lookup_opt] in L. destruct o as [[c0|es]|]; try discriminate L.
    cbn [app FS.mkdirs_opt]. now rewrite (IH _ b c L).
Qed.

(** X9: when a regular file stands at the path of the workspace or at one
    of the directories above it (the output directory, for one),
    [makedirs] fails although [exist_ok] is set: the conversion returns
    [False], leaves the file system as it is, and reports an unexpected
    error at 0% with no 10% event before it. *)
Theorem workspace_blocked_by_file (h : host) (zip_file_name output_dir : pystr)
    (cbo : option callback) (root : node) (a b : list pystr) (c : content) :
  raises_only_RuntimeError cbo ->
  locate h (os_path.join h output_dir [workspace_name]) = a ++ b ->
  FS.lookup root a = Some (File c) ->
  let run := convert h zip_file_name output_dir cbo root in
  fst run = Return false /\
  fs (snd run) = root /\
  exists e, events (snd run) = events_if cbo [(0%Z, msg_unexpected e)].
Proof.
  intros R E L. cbv zeta. unfold convert.
  rewrite convert_stages by assumption. unfold stages. cbv zeta.
  change (str "temp_extract") with workspace_name.
  assert (Mk : lift (os_makedirs_exist_ok (tree_os h)
                       (os_path.join h output_dir [workspace_name]))
                 (World root [] [])
               = (Raise (oserror "FileExistsError"), World root [] [])).
  { unfold lift. cbn [os_makedirs_exist_ok tree_os fs]. unfold makedirs_exist_ok.
    now rewrite E, (mkdirs_file_in_way a (Some root) b c L). }
  rewrite Mk.
  split; [reflexivity|]. split; [destruct cbo; reflexivity|].
  eexists. destruct cbo; reflexivity.
Qed.

Lemma workspace_blocked_by_file_witness :
  let run := convert windows_host (str "C:/dl/game.zip") (str "C:/dl/notes.zip")
               (Some quiet) win_root in
  fst run = Return false /\
  fs (snd run) = win_root /\
  exists e, events (snd run) = events_if (Some quiet) [(0%Z, msg_unexpected e)].
Proof.
  apply (workspace_blocked_by_file windows_host (str "C:/dl/game.zip")
           (str "C:/dl/notes.zip") (Some quiet) win_root
           [str "C:"; str "dl"; str "notes.zip"] [workspace_name]
           (Bytes (str "plain text")) quiet_raises_nothing);
    vm_compute; reflexivity.
Defined.

(** X10: when no regular file stands at [zip_file_name] (nothing, or a
    directory), the failure is reported as an unexpected error and not as
    an invalid archive: the result is [False], the events are 10% and then
    0% with the unexpected-error message of an exception that is no
    [BadZipFile], and the workspace that line 67 has created stays in
    place. *)
Theorem input_not_a_file_reported (h : host) (zip_file_name output_dir : pystr)
    (cbo : option callback) (root root1 : node) :
  raises_only_RuntimeError cbo ->
  makedirs_exist_ok h (os_path.join h output_dir [workspace_name]) root
  = (Return tt, root1) ->
  FS.is_file (FS.lookup root (locate h zip_file_name)) = false ->
  let run := convert h zip_file_name output_dir cbo root in
  fst run = Return false /\
  fs (snd run) = root1 /\
  exists e,
    isinstance_BadZipFile e = false /\
    events (snd run)
    = events_if cbo [(10%Z, msg_extracting); (0%Z, msg_unexpected e)].
Proof.
  intros R Mk NF. cbv zeta. unfold convert.
  rewrite convert_stages by assumption. unfold stages. cbv zeta.
  change (str "temp_extract") with workspace_name.
  assert (Mk' : lift (os_makedirs_exist_ok (tree_os h)
                        (os_path.join h output_dir [workspace_name]))
                  (World root [] [])
                = (Return tt, World root1 [] [])).
  { unfold lift. cbn [os_makedirs_exist_ok tree_os fs]. now rewrite Mk. }
  rewrite Mk'.
  assert (NF1 : FS.is_file (FS.lookup root1 (locate h zip_file_name)) = false).
  { unfold makedirs_exist_ok in Mk.
    destruct (FS.mkdirs_opt (Some root) _) as [t|] eqn:E; [|discriminate Mk].
    injection Mk as <-.
    destruct (FS.lookup t (locate h zip_file_name)) as [[c|es]|] eqn:L; try reflexivity.
    unfold FS.lookup in L, NF. apply (lookup_mkdirs_files _ _ _ _ _ E) in L.
    now rewrite L in NF. }
  unfold lift. cbn [zip_extractall tree_os]. unfold extractall.
  cbn [fs logged log with_events].
  assert (FsL : forall e (w : world node), fs (logged cbo e w) = fs w)
    by (destruct cbo; reflexivity).
  rewrite FsL. cbn [fs].
  destruct (FS.lookup root1 (locate h zip_file_name)) as [[c|es]|];
    [discriminate NF1| |].
  - split; [reflexivity|]. split; [destruct cbo; reflexivity|].
    exists (oserror "PermissionError"). split; [reflexivity|].
    destruct cbo; reflexivity.
  - split; [reflexivity|]. split; [destruct cbo; reflexivity|].
    exists (oserror "FileNotFoundError"). split; [reflexivity|].
    destruct cbo; reflexivity.
Qed.

Lemma input_not_a_file_reported_witness :
  let run := convert posix_host (str "/dl/missing.zip") (str "/out")
               (Some quiet) posix_root in
  fst run = Return false /\
  fs (snd run)
  = snd (makedirs_exist_ok posix_host
           (os_path.join posix_host (str "/out") [workspace_name]) posix_root) /\
  exists e,
    isinstance_BadZipFile e = false /\
    events (snd run)
    = events_if (Some quiet) [(10%Z, msg_extracting); (0%Z, msg_unexpected e)].
Proof.
  apply (input_not_a_file_reported posix_host (str "/dl/missing.zip") (str "/out")
           (Some quiet) posix_root _ quiet_raises_nothing);
    vm_compute; reflexivity.
Defined.

(** ** The layout check on a POSIX host *)

Lemma endswith_if_absent f (s : pystr) :
  (forall x, In x s -> f x = false) -> endswith_if f s = false.
Proof.
  intro A. destruct (endswith_if f s) eqn:E; [|reflexivity].
  apply endswith_if_inv in E. destruct E as (s0 & x & -> & Fx).
  rewrite A in Fx; [discriminate|]. apply in_or_app. right. now left.
Qed.

Lemma posix_join2_plain (a b : pystr) :
  a <> [] -> endswith_if (chr_eqb slash) a = false ->
  startswith [slash] b = false ->
  posixpath.join2 a b = a ++ slash :: b.
Proof.
  intros NE E S. unfold posixpath.join2. rewrite S, E. now destruct a.
Qed.

Lemma posix_join2_nonempty (a b : pystr) : b <> [] -> posixpath.join2 a b <> [].
Proof.
  intros NE E. unfold posixpath.join2 in E.
  destruct (startswith [slash] b); [contradiction|].
  destruct a as [|c a]; [contradiction|].
  destruct (endswith_if (chr_eqb slash) (c :: a)); discriminate E.
Qed.

(** On a POSIX host the path of the layout check is one segment that holds
    the whole workspace path with backslashes, then the three directory
    names, the last one with a backslash at its end. *)
Lemma posix_app_dir (h : host) (output_dir : pystr) :
  plat h = Posix ->
  exists x t,
    normalize_separators (os_path.join h output_dir [workspace_name]) = x :: t /\
    x <> slash /\
    app_dir_of h output_dir = (x :: t) ++ app_suffix.
Proof.
  intro P. unfold app_dir_of, os_path.join. rewrite P.
  change (str "temp_extract") with workspace_name.
  set (T := normalize_separators (posixpath.join output_dir [workspace_name])).
  assert (NS : ~ In slash T).
  { unfold T. rewrite normalize_separators_replace.
    apply replace_chr_removes. discriminate. }
  assert (NE : T <> []).
  { unfold T. rewrite normalize_separators_replace. unfold replace_chr.
    intro E. apply map_eq_nil in E. revert E.
    unfold posixpath.join. cbn [fold_left].
    apply posix_join2_nonempty. discriminate. }
  destruct T as [|x t] eqn:ET; [contradiction|].
  exists x, t. split; [reflexivity|]. split.
  { intros ->. apply NS. now left. }
  assert (E0 : endswith_if (chr_eqb slash) (x :: t) = false).
  { apply endswith_if_absent. intros y I. apply chr_eqb_neq. intros <-. now apply NS. }
  unfold posixpath.join. cbn [fold_left].
  rewrite (posix_join2_plain (x :: t) (str "packaged-project"));
    [|discriminate|assumption|reflexivity].
  rewrite (posix_join2_plain (_ ++ slash :: str "packaged-project") (str "resources"));
    [|cbn [app]; discriminate| |reflexivity].
  2:{ change (slash :: str "packaged-project")
        with ([slash] ++ str "packaged-project").
      rewrite app_assoc, endswith_if_app by discriminate. reflexivity. }
  rewrite posix_join2_plain; [|cbn [app]; discriminate| |reflexivity].
  2:{ change (slash :: str "resources") with ([slash] ++ str "resources").
      rewrite app_assoc, endswith_if_app by discriminate. reflexivity. }
  unfold app_suffix. cbn [app str list_ascii_of_string].
  rewrite <- !app_assoc. reflexivity.
Qed.

Lemma join_with_snoc_nonempty c (l : list pystr) (seg : pystr) :
  seg <> [] -> join_with c (l ++ [seg]) <> [].
Proof.
  intros NE E. destruct l as [|p l]; [now apply NE|].
  change ((p :: l) ++ [seg]) with (p :: (l ++ [seg])) in E.
  rewrite join_with_cons in E by (destruct l; discriminate).
  apply app_eq_nil in E. destruct E as [_ E]. discriminate E.
Qed.

(** The last segment of a path survives normalisation when it is an
    ordinary name. *)
Lemma posix_normpath_last (q seg : pystr) :
  seg <> [] -> ~ In slash seg -> dot_segment seg = false ->
  In seg (filter nonempty (split slash (posixpath.normpath (q ++ slash :: seg)))).
Proof.
  intros NE NS ND. unfold posixpath.normpath.
  destruct (q ++ slash :: seg) as [|j0 j] eqn:EJ; [now destruct q|].
  rewrite <- EJ. clear EJ j0 j.
  set (n := posixpath.initial_slashes (q ++ slash :: seg)).
  set (b := negb (Nat.eqb n 0)).
  rewrite split_snoc by assumption.
  rewrite collapse_dots_app, collapse_dots_keep by assumption.
  set (K := collapse_dots b [] (split slash q)).
  cbn [rev].
  assert (NK : forall x, In x (rev K ++ [seg]) -> ~ In slash x).
  { intros x I. apply in_app_or in I. destruct I as [I|[<-|[]]]; [|assumption].
    apply In_rev in I. revert x I. apply collapse_dots_no_sep.
    - intros x [].
    - apply split_no_sep. }
  assert (R : match repeat slash n ++ join_with slash (rev K ++ [seg]) with
              | [] => curdir
              | r => r
              end = repeat slash n ++ join_with slash (rev K ++ [seg])).
  { destruct (repeat slash n ++ join_with slash (rev K ++ [seg])) eqn:E;
      [|reflexivity].
    apply app_eq_nil in E. destruct E as [_ E].
    now apply join_with_snoc_nonempty in E. }
  rewrite R, split_leading, split_join;
    [|destruct (rev K); discriminate|assumption].
  rewrite filter_app. apply in_or_app. right. apply filter_In. split.
  - apply in_or_app. right. now left.
  - now destruct seg.
Qed.

Lemma posix_locate_last (h : host) (x : ascii) (q seg : pystr) :
  plat h = Posix -> x <> slash ->
  seg <> [] -> ~ In slash seg -> dot_segment seg = false ->
  In seg (locate h ((x :: q) ++ slash :: seg)).
Proof.
  intros P X NE NS ND. unfold locate, os_path.abspath. rewrite P. cbn [os_sep].
  unfold posixpath.abspath, posixpath.isabs.
  assert (S0 : startswith [slash] ((x :: q) ++ slash :: seg) = false).
  { cbn [app startswith]. rewrite chr_eqb_sym.
    apply chr_eqb_neq in X. now rewrite X. }
  rewrite S0. unfold posixpath.join. cbn [fold_left]. unfold posixpath.join2.
  rewrite S0.
  destruct (getcwd h) as [|c0 cwd].
  - cbn [app]. apply (posix_normpath_last (x :: q)); assumption.
  - destruct (endswith_if (chr_eqb slash) (c0 :: cwd)).
    + rewrite app_assoc. now apply posix_normpath_last.
    + change ((c0 :: cwd) ++ slash :: (x :: q) ++ slash :: seg)
        with ((c0 :: cwd) ++ [slash] ++ (x :: q) ++ slash :: seg).
      rewrite !app_assoc. now apply posix_normpath_last.
Qed.

Lemma backslash_free_Dir es :
  backslash_free (Dir es) = true <->
  Forall (fun e => existsb (chr_eqb backslash) (fst e) = false /\
                   backslash_free (snd e) = true) es.
Proof.
  cbn [backslash_free]. induction es as [|[n c] es IH].
  - split; [constructor|reflexivity].
  - rewrite !andb_true_iff, IH, negb_true_iff. cbn [fst snd]. split.
    + intros [[A B] C]. now constructor.
    + intro F. inversion F as [|? ? [A B] C]; subst. auto.
Qed.

Lemma lookup_backslash_free loc : forall t seg,
  backslash_free t = true -> In seg loc -> In backslash seg ->
  FS.lookup t loc = None.
Proof.
  induction loc as [|n loc IH]; intros t seg B I Ib; [destruct I|].
  unfold FS.lookup. cbn [FS.lookup_opt].
  destruct t as [c|es]; [reflexivity|].
  destruct (FS.get n es) as [child|] eqn:G; [|apply lookup_opt_None].
  apply get_In in G. apply backslash_free_Dir in B.
  rewrite Forall_forall in B. destruct (B _ G) as [Bn Bc]. cbn [fst snd] in Bn, Bc.
  destruct I as [->|I].
  - exfalso. now apply (existsb_chr_false backslash seg Bn).
  - apply (IH child seg Bc I Ib).
Qed.

(** X11: on a POSIX host the layout check of lines 92 to 94 fails whenever
    no entry of the file system has a backslash in its name, whatever the
    archive holds: the path it tests ends in a segment with a backslash.
    After a successful extraction the conversion returns [False] with the
    events 10% and 0%, the latter with the message that names this path,
    and leaves the extracted workspace in place. *)
Theorem posix_layout_check_fails (h : host) (zip_file_name output_dir : pystr)
    (cbo : option callback) (root root1 root2 : node) :
  plat h = Posix ->
  raises_only_RuntimeError cbo ->
  makedirs_exist_ok h (os_path.join h output_dir [workspace_name]) root
  = (Return tt, root1) ->
  extractall h zip_file_name (os_path.join h output_dir [workspace_name]) root1
  = (Return tt, root2) ->
  backslash_free root2 = true ->
  let run := convert h zip_file_name output_dir cbo root in
  let app_dir :=
    normalize_separators (os_path.join h output_dir [workspace_name])
    ++ str "/packaged-project/resources/app\" in
  fst run = Return false /\
  fs (snd run) = root2 /\
  events (snd run)
  = events_if cbo [(10%Z, msg_extracting); (0%Z, msg_missing_dir app_dir)].
Proof.
  intros P R Mk Ex B. cbv zeta.
  destruct (posix_app_dir h output_dir P) as (x & t & ET & X & EA).
  fold app_suffix. rewrite ET, <- EA.
  assert (PE : path_exists h (app_dir_of h output_dir) root2 = false).
  { unfold path_exists.
    rewrite (lookup_backslash_free (locate h (app_dir_of h output_dir)) root2
               (str "app\")); [reflexivity|assumption| |].
    - rewrite EA.
      change app_suffix
        with (str "/packaged-project/resources" ++ slash :: str "app\").
      rewrite app_assoc.
      change ((x :: t) ++ str "/packaged-project/resources")
        with (x :: (t ++ str "/packaged-project/resources")).
      apply posix_locate_last; try assumption; try discriminate.
      + intros I. repeat (destruct I as [I|I]; [discriminate I|]). destruct I.
      + reflexivity.
    - cbn. auto. }
  unfold convert. rewrite convert_stages by assumption.
  assert (St : stages node h (tree_os h) zip_file_name output_dir cbo
                 (World root [] [])
               = (Return false,
                  logged cbo (0%Z, msg_missing_dir (app_dir_of h output_dir))
                    (World root2 (events_if cbo [(10%Z, msg_extracting)]) []))).
  { unfold stages. cbv zeta. change (str "temp_extract") with workspace_name.
    unfold lift at 1. cbn [os_makedirs_exist_ok tree_os fs]. rewrite Mk.
    unfold lift. cbn [zip_extractall tree_os].
    assert (FsL : forall e (w : world node), fs (logged cbo e w) = fs w)
      by (destruct cbo; reflexivity).
    rewrite FsL. cbn [fs]. rewrite Ex.
    cbn [os_path_exists tree_os fs]. rewrite PE. cbn [negb].
    destruct cbo; reflexivity. }
  rewrite St. destruct cbo; repeat split; reflexivity.
Qed.

Lemma posix_layout_check_fails_witness :
  let run := convert posix_host (str "/dl/game.zip") (str "out") None posix_root in
  let app_dir :=
    normalize_separators (os_path.join posix_host (str "out") [workspace_name])
    ++ str "/packaged-project/resources/app\" in
  fst run = Return false /\
  fs (snd run)
  = snd (extractall posix_host (str "/dl/game.zip")
           (os_path.join posix_host (str "out") [workspace_name])
           (snd (makedirs_exist_ok posix_host
                   (os_path.join posix_host (str "out") [workspace_name])
                   posix_root))) /\
  events (snd run)
  = events_if None [(10%Z, msg_extracting); (0%Z, msg_missing_dir app_dir)].
Proof.
  apply (posix_layout_check_fails posix_host (str "/dl/game.zip") (str "out")
           None posix_root
           (snd (makedirs_exist_ok posix_host
                   (os_path.join posix_host (str "out") [workspace_name])
                   posix_root))
           _ eq_refl no_callback_raises_nothing);
    vm_compute; reflexivity.
Defined.

(** ** Association lists, and writing at a location *)

Lemma names_distinct_NoDup (l : list pystr) : names_distinct l = true <-> NoDup l.
Proof.
  induction l as [|x l IH]; cbn [names_distinct].
  - split; [constructor|reflexivity].
  - rewrite andb_true_iff, negb_true_iff, IH. split.
    + intros [E N]. constructor; [|assumption]. intro I.
      assert (T : existsb (str_eqb x) l = true).
      { apply existsb_exists. exists x. split; [assumption|apply str_eqb_refl]. }
      congruence.
    + intro N. inversion N as [|? ? NI N']; subst. split; [|assumption].
      destruct (existsb (str_eqb x) l) eqn:E; [|reflexivity].
      apply existsb_exists in E. destruct E as (y & I & E).
      apply str_eqb_eq in E. subst y. contradiction.
Qed.

Lemma get_None {A} (n : pystr) (l : list (pystr * A)) :
  ~ In n (map fst l) -> FS.get n l = None.
Proof.
  induction l as [|[m v] l IH]; intro N; [reflexivity|]. cbn [FS.get].
  destruct (str_eqb m n) eqn:E.
  - apply str_eqb_eq in E. subst m. exfalso. apply N. now left.
  - apply IH. intro I. apply N. now right.
Qed.

Lemma get_Some_name {A} (n : pystr) (l : list (pystr * A)) v :
  FS.get n l = Some v -> In n (map fst l).
Proof. intro G. apply get_In in G. now apply (in_map fst) in G. Qed.

Lemma set_set {A} (n : pystr) (v1 v2 : A) l :
  FS.set n v2 (FS.set n v1 l) = FS.set n v2 l.
Proof.
  induction l as [|[m x] l IH]; cbn [FS.set].
  - now rewrite str_eqb_refl.
  - destruct (str_eqb m n) eqn:E; cbn [FS.set]; rewrite E; [reflexivity|].
    now rewrite IH.
Qed.

Lemma set_get_same {A} (n : pystr) (v : A) l :
  FS.get n l = Some v -> FS.set n v l = l.
Proof.
  induction l as [|[m x] l IH]; cbn [FS.get FS.set]; [discriminate|].
  destruct (str_eqb m n); [now intros [= ->]|]. intro G. now rewrite IH.
Qed.

Lemma set_names {A} (n : pystr) (v : A) l :
  In n (map fst l) -> map fst (FS.set n v l) = map fst l.
Proof.
  induction l as [|[m x] l IH]; cbn [FS.set map fst]; [intros []|].
  destruct (str_eqb m n) eqn:E; [reflexivity|]. intros [->|I].
  - now rewrite str_eqb_refl in E.
  - cbn [map fst]. now rewrite IH.
Qed.

Lemma set_names_new {A} (n : pystr) (v : A) l :
  ~ In n (map fst l) -> map fst (FS.set n v l) = map fst l ++ [n].
Proof.
  induction l as [|[m x] l IH]; cbn [FS.set map fst]; [reflexivity|]. intro N.
  destruct (str_eqb m n) eqn:E.
  - apply str_eqb_eq in E. subst m. exfalso. apply N. now left.
  - cbn [map fst app]. rewrite IH; [reflexivity|]. intro I. apply N. now right.
Qed.

Lemma set_distinct {A} (n : pystr) (v : A) l :
  NoDup (map fst l) -> NoDup (map fst (FS.set n v l)).
Proof.
  intro N. destruct (in_dec (list_eq_dec ascii_dec) n (map fst l)) as [I|NI].
  - now rewrite set_names.
  - rewrite set_names_new by assumption.
    apply NoDup_app; [assumption|repeat constructor; intros []|].
    intros x Ix [<-|[]]. contradiction.
Qed.

Lemma set_In {A} (n : pystr) (v : A) l e :
  In e (FS.set n v l) -> e = (n, v) \/ In e l.
Proof.
  induction l as [|[m x] l IH]; cbn [FS.set].
  - intros [<-|[]]. now left.
  - destruct (str_eqb m n) eqn:E.
    + apply str_eqb_eq in E. subst m. intros [<-|I]; [now left|right; now right].
    + intros [<-|I]; [right; now left|]. destruct (IH I); [now left|right; now right].
Qed.

Lemma set_app_here {A} (n : pystr) (v c : A) l1 l2 :
  ~ In n (map fst l1) ->
  FS.set n v (l1 ++ (n, c) :: l2) = l1 ++ (n, v) :: l2.
Proof.
  induction l1 as [|[m x] l1 IH]; intro N; cbn [app FS.set].
  - now rewrite str_eqb_refl.
  - destruct (str_eqb m n) eqn:E.
    + apply str_eqb_eq in E. subst m. exfalso. apply N. now left.
    + rewrite IH; [reflexivity|]. intro I. apply N. now right.
Qed.

Lemma get_app_here {A} (n : pystr) (c : A) l1 l2 :
  ~ In n (map fst l1) -> FS.get n (l1 ++ (n, c) :: l2) = Some c.
Proof.
  induction l1 as [|[m x] l1 IH]; intro N; cbn [app FS.get].
  - now rewrite str_eqb_refl.
  - destruct (str_eqb m n) eqn:E.
    + apply str_eqb_eq in E. subst m. exfalso. apply N. now left.
    + apply IH. intro I. apply N. now right.
Qed.

Lemma del_filter {A} (n : pystr) (l : list (pystr * A)) :
  NoDup (map fst l) ->
  FS.del n l = filter (fun e => negb (str_eqb (fst e) n)) l.
Proof.
  induction l as [|[m x] l IH]; intro N; [reflexivity|].
  cbn [map fst] in N. inversion N as [|? ? NI N']; subst.
  cbn [FS.del filter fst]. destruct (str_eqb m n) eqn:E; cbn [negb].
  - apply str_eqb_eq in E. subst m. symmetry. apply forallb_filter_id.
    apply forallb_forall. intros [k y] I. cbn [fst].
    destruct (str_eqb k n) eqn:E; [|reflexivity].
    apply str_eqb_eq in E. subst k. exfalso. apply NI.
    now apply (in_map fst) in I.
  - now rewrite IH.
Qed.

Lemma filter_names_NoDup {A} (f : pystr * A -> bool) (l : list (pystr * A)) :
  NoDup (map fst l) -> NoDup (map fst (filter f l)).
Proof.
  induction l as [|e l IH]; intro N; [constructor|].
  cbn [map] in N. inversion N as [|? ? NI N']; subst. cbn [filter].
  destruct (f e); [|now apply IH]. cbn [map]. constructor; [|now apply IH].
  intro I. apply NI. apply in_map_iff in I. destruct I as (e' & E & I).
  apply filter_In in I. apply in_map_iff. exists e'. tauto.
Qed.

Lemma del_all_filter (ns : list pystr) : forall (l : list (pystr * node)),
  NoDup (map fst l) ->
  del_all ns l = filter (fun e => negb (existsb (str_eqb (fst e)) ns)) l.
Proof.
  unfold del_all. induction ns as [|n ns IH]; intros l N; cbn [fold_left existsb].
  - symmetry. apply forallb_filter_id. apply forallb_forall. reflexivity.
  - rewrite del_filter by assumption. rewrite IH by now apply filter_names_NoDup.
    induction l as [|e l IHl]; [reflexivity|]. cbn [filter].
    destruct (str_eqb (fst e) n) eqn:E; cbn [negb orb filter].
    + cbn [map] in N. inversion N; subst. now apply IHl.
    + cbn [map] in N. inversion N; subst.
      destruct (negb (existsb (str_eqb (fst e)) ns)); [f_equal|]; now apply IHl.
Qed.

Lemma get_del_all_other (ns : list pystr) : forall (l : list (pystr * node)) d,
  ~ In d ns -> FS.get d (del_all ns l) = FS.get d l.
Proof.
  unfold del_all. induction ns as [|n ns IH]; intros l d N; [reflexivity|].
  cbn [fold_left]. rewrite IH by (intro I; apply N; now right).
  apply get_del_other. intros ->. apply N. now left.
Qed.

Lemma get_del_same {A} (n : pystr) (l : list (pystr * A)) :
  NoDup (map fst l) -> FS.get n (FS.del n l) = None.
Proof.
  intro N. rewrite del_filter by assumption. apply get_None.
  intro I. apply in_map_iff in I. destruct I as (e & E & I).
  apply filter_In in I. destruct I as [_ F]. subst n.
  now rewrite str_eqb_refl in F.
Qed.

Lemma put_opt_snoc loc : forall o n v es,
  FS.lookup_opt o loc = Some (Dir es) ->
  FS.put_opt o (loc ++ [n]) v = FS.put_opt o loc (Dir (FS.set n v es)).
Proof.
  induction loc as [|m loc IH]; intros o n v es L.
  - cbn [FS.lookup_opt] in L. subst o. reflexivity.
  - cbn [FS.lookup_opt] in L. destruct o as [[c|es0]|]; try discriminate L.
    cbn [app FS.put_opt]. now rewrite (IH _ n v es L).
Qed.

Lemma put_opt_put loc : forall o v t v',
  FS.put_opt o loc v = Some t ->
  FS.put_opt (Some t) loc v' = FS.put_opt o loc v'.
Proof.
  induction loc as [|m loc IH]; intros o v t v' P; [reflexivity|].
  cbn [FS.put_opt] in P. destruct o as [[c|es0]|]; try discriminate P.
  destruct (FS.put_opt (FS.get m es0) loc v) as [c|] eqn:E; [|discriminate P].
  injection P as <-. cbn [FS.put_opt]. rewrite get_set_same.
  rewrite (IH _ _ _ v' E).
  destruct (FS.put_opt (FS.get m es0) loc v'); [|reflexivity].
  now rewrite set_set.
Qed.

Lemma put_opt_any loc : forall o v t v',
  FS.put_opt o loc v = Some t -> exists t', FS.put_opt o loc v' = Some t'.
Proof.
  induction loc as [|m loc IH]; intros o v t v' P; [eexists; reflexivity|].
  cbn [FS.put_opt] in P |- *. destruct o as [[c|es0]|]; try discriminate P.
  destruct (FS.put_opt (FS.get m es0) loc v) as [c|] eqn:E; [|discriminate P].
  destruct (IH _ _ _ v' E) as (c' & ->). eexists; reflexivity.
Qed.

Lemma put_opt_same loc : forall o v,
  FS.lookup_opt o loc = Some v -> FS.put_opt o loc v = o.
Proof.
  induction loc as [|m loc IH]; intros o v L.
  - cbn in L |- *. now subst.
  - cbn [FS.lookup_opt] in L. destruct o as [[c|es0]|]; try discriminate L.
    cbn [FS.put_opt]. rewrite (IH _ _ L).
    destruct (FS.get m es0) as [c|] eqn:G.
    + now rewrite set_get_same.
    + now rewrite lookup_opt_None in L.
Qed.

Lemma del_at_cons es0 m (l : list pystr) :
  l <> [] ->
  FS.del_at (Dir es0) (m :: l)
  = match FS.get m es0 with
    | Some c => match FS.del_at c l with
                | Some c' => Some (Dir (FS.set m c' es0))
                | None => None
                end
    | None => None
    end.
Proof. destruct l; [contradiction|reflexivity]. Qed.

Lemma del_at_snoc loc : forall t n es,
  FS.lookup t loc = Some (Dir es) ->
  FS.del_at t (loc ++ [n]) = FS.put_opt (Some t) loc (Dir (FS.del n es)).
Proof.
  induction loc as [|m loc IH]; intros t n es L.
  - unfold FS.lookup in L. cbn [FS.lookup_opt] in L. injection L as ->. reflexivity.
  - unfold FS.lookup in L. cbn [FS.lookup_opt] in L.
    destruct t as [c|es0]; [discriminate L|].
    destruct (FS.get m es0) as [c|] eqn:G;
      [|now rewrite lookup_opt_None in L].
    specialize (IH c n es L).
    cbn [app FS.put_opt]. rewrite G.
    rewrite del_at_cons by (destruct loc; discriminate).
    rewrite G, IH. reflexivity.
Qed.

(** ** The bottom-up removal of a directory, on a Windows host *)

Lemma emptied_names es : map fst (emptied es) = map fst es.
Proof. unfold emptied. rewrite map_map. reflexivity. Qed.

Lemma emptied_app l1 l2 : emptied (l1 ++ l2) = emptied l1 ++ emptied l2.
Proof. apply map_app. Qed.

Lemma lookup_one es (n : pystr) :
  FS.lookup_opt (Some (Dir es)) [n] = FS.get n es.
Proof. reflexivity. Qed.

Lemma file_names_NoDup es :
  NoDup (map fst es) -> NoDup (FS.file_names es).
Proof. apply filter_names_NoDup. Qed.

Lemma dir_names_NoDup es :
  NoDup (map fst es) -> NoDup (FS.dir_names es).
Proof. apply filter_names_NoDup. Qed.

Section CleanupWindows.

Variable h : host.
Hypothesis W : plat h = Windows.

Lemma remove_at (r : pystr) Y n v :
  drive_absolute r = true -> legal_windows n ->
  FS.lookup Y (locate h r ++ [n]) = Some v -> is_file_node v = true ->
  remove h (os_path.join h r [n]) Y
  = match FS.del_at Y (locate h r ++ [n]) with
    | Some Y' => (Return tt, Y')
    | None => (Raise (oserror "PermissionError"), Y)
    end.
Proof.
  intros D L E F. unfold remove. rewrite locate_join, E by assumption.
  destruct v; [reflexivity|discriminate F].
Qed.

Lemma rmdir_at (r : pystr) Y n v :
  drive_absolute r = true -> legal_windows n ->
  FS.lookup Y (locate h r ++ [n]) = Some v -> is_empty_dir v = true ->
  rmdir h (os_path.join h r [n]) Y
  = match FS.del_at Y (locate h r ++ [n]) with
    | Some Y' => (Return tt, Y')
    | None => (Raise (oserror "PermissionError"), Y)
    end.
Proof.
  intros D L E F. unfold rmdir. rewrite locate_join, E by assumption.
  destruct v as [c|[|e es]]; try discriminate F. reflexivity.
Qed.

Lemma delete_run (op : pystr -> node -> outcome unit * node) (ok : node -> bool)
    (r : pystr) (X : node) ev so :
  (forall Y n v, legal_windows n ->
     FS.lookup Y (locate h r ++ [n]) = Some v -> ok v = true ->
     op (os_path.join h r [n]) Y
     = match FS.del_at Y (locate h r ++ [n]) with
       | Some Y' => (Return tt, Y')
       | None => (Raise (oserror "PermissionError"), Y)
       end) ->
  forall ns cur X1,
    FS.put_opt (Some X) (locate h r) (Dir cur) = Some X1 ->
    NoDup ns -> Forall legal_windows ns ->
    (forall n, In n ns -> exists v, FS.get n cur = Some v /\ ok v = true) ->
    exists X2,
      for_each ns (fun name => lift (op (os_path.join h r [name]))) (World X1 ev so)
      = (Return tt, World X2 ev so) /\
      FS.put_opt (Some X) (locate h r) (Dir (del_all ns cur)) = Some X2.
Proof.
  intros Op. induction ns as [|n ns IH]; intros cur X1 P N L G.
  - exists X1. split; [reflexivity|assumption].
  - inversion N as [|? ? NI N']; subst. inversion L as [|? ? Ln L']; subst.
    destruct (G n (or_introl eq_refl)) as (v & Gv & Ok).
    assert (Lk : FS.lookup X1 (locate h r) = Some (Dir cur))
      by (eapply lookup_put_same; eassumption).
    assert (Lv : FS.lookup X1 (locate h r ++ [n]) = Some v).
    { unfold FS.lookup in *. now rewrite lookup_opt_app, Lk, lookup_one. }
    destruct (put_opt_any _ _ _ _ (Dir (FS.del n cur)) P) as (X1' & P').
    assert (D : FS.del_at X1 (locate h r ++ [n]) = Some X1').
    { rewrite (del_at_snoc _ _ _ _ Lk). now rewrite (put_opt_put _ _ _ _ _ P). }
    destruct (IH (FS.del n cur) X1' P' N' L') as (X2 & Run & P2).
    { intros m I. destruct (G m (or_intror I)) as (u & Gu & Oku).
      exists u. split; [|assumption]. rewrite get_del_other; [assumption|].
      intros ->. contradiction. }
    exists X2. split; [|exact P2].
    cbn [for_each]. unfold bind, lift at 1. cbn [fs events stdout].
    rewrite (Op X1 n v Ln Lv Ok), D. exact Run.
Qed.

Lemma cleanup_loop_app a b (w w1 : world node) :
  cleanup_loop h a w = (Return tt, w1) ->
  cleanup_loop h (a ++ b) w = cleanup_loop h b w1.
Proof. apply for_each_app. Qed.

Lemma entries_gone es :
  NoDup (map fst es) ->
  del_all (FS.dir_names es) (del_all (FS.file_names es) (emptied es)) = [].
Proof.
  intro N.
  assert (N1 : NoDup (map fst (emptied es))) by now rewrite emptied_names.
  rewrite (del_all_filter (FS.file_names es)) by assumption.
  rewrite del_all_filter by now apply filter_names_NoDup.
  set (f1 := fun e : pystr * node => negb (existsb (str_eqb (fst e)) (FS.file_names es))).
  set (f2 := fun e : pystr * node => negb (existsb (str_eqb (fst e)) (FS.dir_names es))).
  destruct (filter f2 (filter f1 (emptied es))) as [|e l] eqn:E; [reflexivity|].
  exfalso.
  assert (I : In e (filter f2 (filter f1 (emptied es)))) by (rewrite E; now left).
  apply filter_In in I. destruct I as [I F2]. apply filter_In in I.
  destruct I as [I F1]. unfold emptied in I. apply in_map_iff in I.
  destruct I as ([n c] & <- & I). cbn [fst snd] in *.
  unfold f1, f2 in *. cbn [fst] in *.
  apply negb_true_iff in F1, F2.
  destruct c as [c|es'].
  - assert (T : existsb (str_eqb n) (FS.file_names es) = true).
    { apply existsb_exists. exists n. split; [|apply str_eqb_refl].
      apply file_names_In. eauto. }
    congruence.
  - assert (T : existsb (str_eqb n) (FS.dir_names es) = true).
    { apply existsb_exists. exists n. split; [|apply str_eqb_refl].
      apply dir_names_In. eauto. }
    congruence.
Qed.

(** The removal of the entries a directory lists, once its subdirectories
    are empty. *)
Lemma remove_entries_run (r : pystr) (X X1 : node) es ev so :
  drive_absolute r = true ->
  legal_tree Windows (Dir es) = true ->
  FS.put_opt (Some X) (locate h r) (Dir (emptied es)) = Some X1 ->
  exists X2,
    remove_entries h r (FS.dir_names es) (FS.file_names es) (World X1 ev so)
    = (Return tt, World X2 ev so) /\
    FS.put_opt (Some X) (locate h r) (Dir []) = Some X2.
Proof.
  intros D L P. apply legal_tree_Dir in L. destruct L as [ND Les].
  assert (N : NoDup (map fst es)) by now apply names_distinct_NoDup.
  assert (NDe : names_distinct (map fst (emptied es)) = true)
    by now rewrite emptied_names.
  rewrite Forall_forall in Les.
  assert (Lf : Forall legal_windows (FS.file_names es)).
  { apply Forall_forall. intros n I. apply file_names_In in I.
    destruct I as (c & I). apply legal_name_windows, (Les _ I). }
  assert (Ld : Forall legal_windows (FS.dir_names es)).
  { apply Forall_forall. intros n I. apply dir_names_In in I.
    destruct I as (c & I). apply legal_name_windows, (Les _ I). }
  destruct (delete_run (remove h) is_file_node r X ev so
              (fun Y n v Ln => remove_at r Y n v D Ln)
              (FS.file_names es) (emptied es) X1 P
              (file_names_NoDup es N) Lf) as (X2 & Run2 & P2).
  { intros n I. apply file_names_In in I. destruct I as (c & I).
    exists (File c). split; [|reflexivity].
    apply get_In_distinct; [assumption|].
    unfold emptied. apply in_map_iff. exists (n, File c). now split. }
  destruct (delete_run (rmdir h) is_empty_dir r X ev so
              (fun Y n v Ln => rmdir_at r Y n v D Ln)
              (FS.dir_names es) (del_all (FS.file_names es) (emptied es)) X2 P2
              (dir_names_NoDup es N) Ld) as (X3 & Run3 & P3).
  { intros n I. apply dir_names_In in I. destruct I as (es' & I).
    exists (Dir []). split; [|reflexivity].
    rewrite get_del_all_other.
    - apply get_In_distinct; [assumption|].
      unfold emptied. apply in_map_iff. exists (n, Dir es'). now split.
    - intro If. apply file_names_In in If. destruct If as (c & If).
      pose proof (get_In_distinct es n _ ND I) as G1.
      pose proof (get_In_distinct es n _ ND If) as G2. congruence. }
  exists X3. split.
  - unfold remove_entries, bind. cbn [os_remove os_rmdir tree_os].
    rewrite Run2. exact Run3.
  - now rewrite entries_gone in P3.
Qed.

(** The loop of lines 137-141 over the bottom-up walk of a directory leaves
    the directory empty. *)
Lemma cleanup_loop_empties t : forall (r : pystr) (X : node) ev so,
  legal_tree Windows t = true -> drive_absolute r = true ->
  FS.lookup X (locate h r) = Some t ->
  exists X',
    cleanup_loop h (walk_node h false r t) (World X ev so)
    = (Return tt, World X' ev so) /\
    FS.put_opt (Some X) (locate h r) (emptied_node t) = Some X'.
Proof.
  induction t as [c|es IH] using node_induction; intros r X ev so L D Lk.
  - exists X. split; [reflexivity|]. cbn [emptied_node].
    now apply put_opt_same.
  - rewrite walk_node_Dir. cbv zeta. cbn [emptied_node].
    pose proof L as L0. apply legal_tree_Dir in L. destruct L as [ND Les].
    assert (N : NoDup (map fst es)) by now apply names_distinct_NoDup.
    set (f := fun e : pystr * node =>
                walk_node h false (os_path.join h r [fst e]) (snd e)).
    assert (Children : forall l2 l1 X1,
              es = l1 ++ l2 ->
              FS.put_opt (Some X) (locate h r) (Dir (emptied l1 ++ l2)) = Some X1 ->
              exists X2,
                cleanup_loop h (flat_map f l2) (World X1 ev so)
                = (Return tt, World X2 ev so) /\
                FS.put_opt (Some X) (locate h r) (Dir (emptied es)) = Some X2).
    { induction l2 as [|[n c] l2 IHl]; intros l1 X1 E P.
      - exists X1. split; [reflexivity|]. rewrite app_nil_r in E, P. now subst.
      - assert (In_es : In (n, c) es) by (rewrite E; apply in_elt).
        rewrite Forall_forall in IH, Les.
        destruct (Les _ In_es) as [Ln Lc]. cbn [fst snd] in Ln, Lc.
        apply legal_name_windows in Ln.
        assert (NI : ~ In n (map fst (emptied l1))).
        { rewrite emptied_names. rewrite E, map_app in N. cbn [map fst] in N.
          apply NoDup_remove_2 in N. intro I. apply N. apply in_or_app. now left. }
        assert (Lk1 : FS.lookup X1 (locate h r)
                      = Some (Dir (emptied l1 ++ (n, c) :: l2)))
          by (eapply lookup_put_same; eassumption).
        assert (Dj : drive_absolute (os_path.join h r [n]) = true).
        { unfold os_path.join. rewrite W. apply (nt_join_facts r n D Ln). }
        assert (Lc1 : FS.lookup X1 (locate h (os_path.join h r [n])) = Some c).
        { rewrite locate_join by assumption. unfold FS.lookup in *.
          rewrite lookup_opt_app, Lk1, lookup_one. now apply get_app_here. }
        destruct (IH _ In_es (os_path.join h r [n]) X1 ev so Lc Dj Lc1)
          as (X1' & Run & P').
        rewrite locate_join in P' by assumption.
        rewrite (put_opt_snoc _ _ _ _ _ Lk1) in P'.
        rewrite (put_opt_put _ _ _ _ _ P) in P'.
        rewrite set_app_here in P' by assumption.
        destruct (IHl (l1 ++ [(n, c)]) X1') as (X2 & Run2 & P2).
        + rewrite E, <- app_assoc. reflexivity.
        + rewrite emptied_app, <- app_assoc. exact P'.
        + exists X2. split; [|exact P2].
          cbn [flat_map]. unfold f at 1. cbn [fst snd].
          rewrite (cleanup_loop_app _ _ _ _ Run). exact Run2. }
    destruct (Children es [] X eq_refl) as (X2 & Run2 & P2).
    { cbn [emptied map app]. now apply put_opt_same. }
    destruct (remove_entries_run r X X2 es ev so D L0 P2) as (X3 & Run3 & P3).
    exists X3. split; [|exact P3].
    rewrite (cleanup_loop_app _ _ _ _ Run2).
    unfold cleanup_loop. cbn [for_each]. unfold bind at 1.
    fold (remove_entries h r (FS.dir_names es) (FS.file_names es)).
    rewrite Run3. reflexivity.
Qed.

End CleanupWindows.

Lemma preserves_ret P {A} (a : A) : preserves P (ret (S:=node) a).
Proof. intros w H. exact H. Qed.

Lemma preserves_query P {A} (q : node -> A) : preserves P (query q).
Proof. intros w H. exact H. Qed.

Lemma preserves_print (h : host) P line :
  preserves P (print (S:=node) h line).
Proof. intros w H. now rewrite print_fs. Qed.

Lemma preserves_lift P {A} (op : node -> outcome A * node) :
  (forall X, P X -> P (snd (op X))) -> preserves P (lift op).
Proof.
  intros Op w H. unfold lift. specialize (Op (fs w) H).
  destruct (op (fs w)) as [r X']. exact Op.
Qed.

Lemma preserves_bind P {A B} (m : M node A) (k : A -> M node B) :
  preserves P m -> (forall a, preserves P (k a)) -> preserves P (bind m k).
Proof.
  intros Pm Pk w H. unfold bind. specialize (Pm w H).
  destruct (m w) as [[a|e] w']; cbn [snd] in *; [|assumption].
  now apply Pk.
Qed.

Lemma preserves_for_each P {A} (l : list A) (body : A -> M node unit) :
  (forall x, preserves P (body x)) -> preserves P (for_each l body).
Proof.
  intro Pb. induction l as [|x l IH]; cbn [for_each]; [apply preserves_ret|].
  apply preserves_bind; auto.
Qed.

Lemma preserves_try_except P {A} catches (body : M node A) handler :
  preserves P body -> (forall e, preserves P (handler e)) ->
  preserves P (try_except catches body handler).
Proof.
  intros Pb Ph w H. unfold try_except. specialize (Pb w H).
  destruct (body w) as [[a|e] w']; cbn [snd] in *; [assumption|].
  destruct (catches e); [now apply Ph|assumption].
Qed.

Lemma preserves_with_ZipFile_w P (os : OS node) target (body : M node unit) :
  preserves P (lift (zip_open_w os target)) ->
  preserves P (lift (zip_close os target)) ->
  preserves P body ->
  preserves P (with_ZipFile_w os target body).
Proof.
  intros Po Pc Pb. unfold with_ZipFile_w. apply preserves_bind; [assumption|].
  intros _ w H. specialize (Pb w H).
  destruct (body w) as [[[]|e] w1]; cbn [snd] in Pb.
  - now apply Pc.
  - specialize (Pc w1 Pb).
    destruct (lift (zip_close os target) w1) as [[a|e2] w2]; exact Pc.
Qed.

Lemma distinct_tree_Dir es :
  distinct_tree (Dir es) = true <->
  NoDup (map fst es) /\ Forall (fun e => distinct_tree (snd e) = true) es.
Proof.
  cbn [distinct_tree]. rewrite andb_true_iff, names_distinct_NoDup.
  apply and_iff_compat_l. induction es as [|[n c] es IH].
  - split; [constructor|reflexivity].
  - rewrite andb_true_iff, IH. cbn [snd]. split.
    + intros [A B]. now constructor.
    + intro F. inversion F; subst. auto.
Qed.

Lemma distinct_tree_lookup loc : forall t es,
  distinct_tree t = true -> FS.lookup t loc = Some (Dir es) ->
  NoDup (map fst es).
Proof.
  induction loc as [|n loc IH]; intros t es D L; unfold FS.lookup in L.
  - cbn [FS.lookup_opt] in L. injection L as ->. now apply distinct_tree_Dir in D.
  - cbn [FS.lookup_opt] in L. destruct t as [c|es0]; [discriminate L|].
    destruct (FS.get n es0) as [c|] eqn:G; [|now rewrite lookup_opt_None in L].
    apply distinct_tree_Dir in D. destruct D as [_ F].
    rewrite Forall_forall in F. apply get_In in G.
    apply (IH c es (F _ G) L).
Qed.

Lemma distinct_put_file loc : forall o c t',
  match o with Some t => distinct_tree t = true | None => True end ->
  FS.put_opt o loc (File c) = Some t' -> distinct_tree t' = true.
Proof.
  induction loc as [|m loc IH]; intros o c t' D P.
  - cbn [FS.put_opt] in P. now injection P as <-.
  - cbn [FS.put_opt] in P. destruct o as [[c0|es0]|]; try discriminate P.
    destruct (FS.put_opt (FS.get m es0) loc (File c)) as [c'|] eqn:E;
      [|discriminate P].
    injection P as <-. apply distinct_tree_Dir in D. destruct D as [N F].
    apply distinct_tree_Dir. split; [now apply set_distinct|].
    rewrite Forall_forall in F |- *. intros e I.
    apply set_In in I. destruct I as [->|I]; [|now apply F].
    cbn [snd]. apply (IH (FS.get m es0) c c'); [|assumption].
    destruct (FS.get m es0) as [child|] eqn:G; [|exact I].
    apply get_In in G. apply (F _ G).
Qed.

Lemma distinct_open_w (h : host) target X :
  distinct_tree X = true -> distinct_tree (snd (open_w h target X)) = true.
Proof.
  intro D. unfold open_w. destruct (locate h target) as [|x l]; [exact D|].
  destruct (FS.is_dir (FS.lookup X (x :: l))); [exact D|].
  destruct (FS.put_opt (Some X) (x :: l) (File (Archive []))) as [X'|] eqn:P;
    [|exact D].
  apply (distinct_put_file _ (Some X) _ _ D P).
Qed.

Lemma distinct_write (h : host) target src arcname X :
  distinct_tree X = true ->
  distinct_tree (snd (write h target src arcname X)) = true.
Proof.
  intro D. unfold write.
  destruct (FS.lookup X (locate h target)) as [[[d|ms|ms0 nm wr er]|es]|]; try exact D.
  destruct (FS.lookup X (locate h src)) as [[c|es]|]; [| |exact D];
    match goal with
    | |- context [FS.put_opt ?o ?l ?v] =>
        destruct (FS.put_opt o l v) as [X'|] eqn:P; [|exact D];
        apply (distinct_put_file _ (Some X) _ _ D P)
    end.
Qed.

Lemma distinct_repack (h : host) target a :
  preserves (fun X => distinct_tree X = true) (repack h (tree_os h) target a).
Proof.
  unfold repack. apply preserves_with_ZipFile_w.
  - apply preserves_lift. intros X D. now apply distinct_open_w.
  - apply preserves_lift. intros X D. exact D.
  - apply preserves_bind; [apply preserves_query|]. intro triples.
    apply preserves_for_each. intros [[root dirs] files].
    apply preserves_for_each. intro file. apply preserves_lift.
    intros X D. now apply distinct_write.
Qed.

Lemma del_set {A} (n : pystr) (v : A) l : FS.del n (FS.set n v l) = FS.del n l.
Proof.
  induction l as [|[m x] l IH]; cbn [FS.set FS.del].
  - now rewrite str_eqb_refl.
  - destruct (str_eqb m n) eqn:E; cbn [FS.del]; rewrite E; [reflexivity|].
    now rewrite IH.
Qed.

Lemma cleanup_unfold (h : host) temp_dir (w : world node) :
  _cleanup_temp_dir h (tree_os h) temp_dir w
  = match bind (cleanup_loop h (walk h false temp_dir (fs w)))
            (fun _ => lift (rmdir h temp_dir)) w with
    | (Raise e, w') => print h (msg_cleanup_failed e) w'
    | r => r
    end.
Proof.
  unfold _cleanup_temp_dir, try_except, bind at 1, query.
  cbn [os_walk os_rmdir tree_os].
  match goal with
  | |- match ?m w with _ => _ end = match ?m' w with _ => _ end =>
      change (m w) with (m' w); destruct (m' w) as [[[]|e] w']
  end; [reflexivity|].
  now rewrite isinstance_Exception_true.
Qed.

(** The run of stage 4 on a directory of legal names. *)
Lemma cleanup_run (h : host) (temp_dir : pystr)
    (es : list (pystr * node)) (w : world node) :
  plat h = Windows ->
  drive_absolute temp_dir = true ->
  FS.lookup (fs w) (locate h temp_dir) = Some (Dir es) ->
  legal_tree Windows (Dir es) = true ->
  exists X,
    _cleanup_temp_dir h (tree_os h) temp_dir w
    = (Return tt, World X (events w) (stdout w)) /\
    FS.del_at (fs w) (locate h temp_dir) = Some X /\
    (distinct_tree (fs w) = true -> FS.lookup X (locate h temp_dir) = None).
Proof.
  intros W D Lk L. destruct w as [X ev so]. cbn [fs events stdout] in *.
  rewrite cleanup_unfold. cbn [fs]. unfold walk. rewrite Lk.
  destruct (cleanup_loop_empties h W (Dir es) temp_dir X ev so L D Lk)
    as (X' & Run & P'). cbn [emptied_node] in P'.
  unfold bind. rewrite Run.
  destruct (exists_last (l:=locate h temp_dir)) as (P & n & EL).
  { rewrite locate_drive_absolute by assumption. discriminate. }
  rewrite EL in *.
  destruct (lookup_prefix_dir (Some X) P [n] (Dir es)) as (ep & Lp);
    [discriminate|exact Lk|].
  rewrite (put_opt_snoc _ _ _ _ _ Lp) in P'.
  assert (Lp' : FS.lookup X' P = Some (Dir (FS.set n (Dir []) ep)))
    by (eapply lookup_put_same; eassumption).
  assert (Lk' : FS.lookup X' (P ++ [n]) = Some (Dir [])).
  { unfold FS.lookup in *. rewrite lookup_opt_app, Lp', lookup_one.
    apply get_set_same. }
  destruct (put_opt_any _ _ _ _ (Dir (FS.del n ep)) P') as (X'' & P'').
  assert (Del' : FS.del_at X' (P ++ [n]) = Some X'').
  { rewrite (del_at_snoc _ _ _ _ Lp'), del_set.
    now rewrite (put_opt_put _ _ _ _ _ P'). }
  assert (Del : FS.del_at X (P ++ [n]) = Some X'').
  { now rewrite (del_at_snoc _ _ _ _ Lp). }
  exists X''. unfold lift. cbn [fs events stdout]. unfold rmdir.
  rewrite EL, Lk', Del'. split; [reflexivity|]. split; [assumption|].
  intro Dt. unfold FS.lookup. rewrite lookup_opt_app.
  rewrite (lookup_put_same _ _ _ _ P''), lookup_one.
  apply get_del_same. apply (distinct_tree_lookup P X ep Dt Lp).
Qed.

(** X12: on a Windows host, when a directory whose entries have distinct
    legal names stands at [temp_dir] (a path with a drive letter and a root
    that is not the root of the drive, in a file system without duplicate
    names), [_cleanup_temp_dir] removes it with everything below it and
    prints nothing: the file system it leaves is the one before the call
    with this one entry deleted. *)
Theorem cleanup_removes_directory (h : host) (temp_dir : pystr)
    (es : list (pystr * node)) (w : world node) :
  plat h = Windows ->
  drive_absolute temp_dir = true ->
  nt_comps temp_dir <> [] ->
  distinct_tree (fs w) = true ->
  FS.lookup (fs w) (locate h temp_dir) = Some (Dir es) ->
  legal_tree Windows (Dir es) = true ->
  let run := _cleanup_temp_dir h (tree_os h) temp_dir w in
  fst run = Return tt /\
  events (snd run) = events w /\
  stdout (snd run) = stdout w /\
  FS.del_at (fs w) (locate h temp_dir) = Some (fs (snd run)) /\
  path_exists h temp_dir (fs (snd run)) = false.
Proof.
  intros W D _ Dt Lk L. cbv zeta.
  destruct (cleanup_run h temp_dir es w W D Lk L) as (X & -> & Del & Gone).
  cbn [fst snd fs events stdout]. repeat split; try assumption.
  unfold path_exists. now rewrite (Gone Dt).
Qed.

Lemma cleanup_removes_directory_witness :
  let w := World win_root_extracted [] [] in
  let run := _cleanup_temp_dir windows_host (tree_os windows_host)
               (str "C:\out\temp_extract") w in
  fst run = Return tt /\
  events (snd run) = events w /\
  stdout (snd run) = stdout w /\
  FS.del_at (fs w) (locate windows_host (str "C:\out\temp_extract"))
  = Some (fs (snd run)) /\
  path_exists windows_host (str "C:\out\temp_extract") (fs (snd run)) = false.
Proof.
  assert (L : exists es,
            FS.lookup win_root_extracted
              (locate windows_host (str "C:\out\temp_extract")) = Some (Dir es) /\
            legal_tree Windows (Dir es) = true).
  { eexists. split; vm_compute; reflexivity. }
  destruct L as (es & Lk & Lt).
  apply (cleanup_removes_directory windows_host (str "C:\out\temp_extract") es
           (World win_root_extracted [] []) eq_refl eq_refl);
    [discriminate|reflexivity|exact Lk|exact Lt].
Defined.

(** ** Files survive the extraction *)

Lemma put_file_keeps_files loc : forall o t' c l c0,
  FS.put_opt o loc (File c) = Some t' ->
  FS.is_dir (FS.lookup_opt o loc) = false ->
  FS.lookup_opt o l = Some (File c0) ->
  exists c1, FS.lookup_opt (Some t') l = Some (File c1).
Proof.
  induction loc as [|m loc IH]; intros o t' c l c0 P ND L.
  - cbn [FS.put_opt] in P. injection P as <-. cbn [FS.lookup_opt] in ND.
    destruct l as [|n l]; [eexists; reflexivity|].
    cbn [FS.lookup_opt] in L. destruct o as [[x|es]|]; discriminate.
  - cbn [FS.put_opt] in P. destruct o as [[x|es0]|]; try discriminate P.
    destruct (FS.put_opt (FS.get m es0) loc (File c)) as [c'|] eqn:E;
      [|discriminate P].
    injection P as <-. destruct l as [|n l]; [discriminate L|].
    cbn [FS.lookup_opt] in L, ND |- *.
    destruct (str_eqb m n) eqn:Emn.
    + apply str_eqb_eq in Emn. subst n. rewrite get_set_same.
      apply (IH _ _ _ _ _ E ND L).
    + apply str_eqb_neq in Emn. rewrite get_set_other by assumption. eauto.
Qed.

Lemma extract_member_keeps_files (h : host) dest m X X' l c0 :
  extract_member h dest m X = (Return tt, X') ->
  FS.lookup X l = Some (File c0) ->
  exists c1, FS.lookup X' l = Some (File c1).
Proof.
  unfold extract_member. intros E L.
  destruct (member_is_dir (fst m)).
  - destruct (FS.mkdirs_opt (Some X) _) as [t|] eqn:Mk; [|discriminate E].
    injection E as <-. exists c0. unfold FS.lookup in *.
    now apply (lookup_mkdirs_files _ _ _ l c0 Mk).
  - destruct (FS.mkdirs_opt (Some X) _) as [t|] eqn:Mk; [|discriminate E].
    destruct (FS.is_dir (FS.lookup t _)) eqn:ND; [discriminate E|].
    destruct (FS.put_opt (Some t) _ _) as [t2|] eqn:P; [|discriminate E].
    injection E as <-. unfold FS.lookup in *.
    apply (lookup_mkdirs_files _ _ _ l c0 Mk) in L.
    apply (put_file_keeps_files _ _ _ _ _ _ P ND L).
Qed.

Lemma extract_members_keep_files (h : host) dest ms : forall X X' l c0,
  extract_members h dest ms X = (Return tt, X') ->
  FS.lookup X l = Some (File c0) ->
  exists c1, FS.lookup X' l = Some (File c1).
Proof.
  induction ms as [|m ms IH]; intros X X' l c0 E L.
  - cbn [extract_members] in E. injection E as <-. eauto.
  - cbn [extract_members] in E.
    destruct (extract_member h dest m X) as [[[]|e] X1] eqn:E1; [|discriminate E].
    destruct (extract_member_keeps_files h dest m X X1 l c0 E1 L) as (c1 & L1).
    apply (IH _ _ _ _ E L1).
Qed.

Lemma extractall_keeps_files (h : host) src dest X X' l c0 :
  extractall h src dest X = (Return tt, X') ->
  FS.lookup X l = Some (File c0) ->
  exists c1, FS.lookup X' l = Some (File c1).
Proof.
  intros E L. destruct (extractall_returns h _ _ _ _ E) as (ms & Em).
  apply (extract_members_keep_files h _ ms X X' l c0 Em L).
Qed.

Lemma makedirs_keeps_files (h : host) p X X' l c0 :
  makedirs_exist_ok h p X = (Return tt, X') ->
  FS.lookup X l = Some (File c0) -> FS.lookup X' l = Some (File c0).
Proof.
  unfold makedirs_exist_ok. intros E L.
  destruct (FS.mkdirs_opt (Some X) _) as [t|] eqn:Mk; [|discriminate E].
  injection E as <-. unfold FS.lookup in *.
  now apply (lookup_mkdirs_files _ _ _ l c0 Mk).
Qed.

(** ** A successful conversion, on a Windows host *)

Section SuccessfulConversion.

Variable h : host.
Hypothesis W : plat h = Windows.
Variables zip_file_name output_dir : pystr.
Hypothesis Do : drive_absolute output_dir = true.
Hypothesis Ln : legal_name Windows (sb3_name h zip_file_name) = true.

Let temp_dir := os_path.join h output_dir [workspace_name].
Let target := locate h output_dir ++ [sb3_name h zip_file_name].

Variable root2 : node.
Variable ws : node.
Variable es : list (pystr * node).
Hypothesis Ws : FS.lookup root2 (locate h temp_dir) = Some ws.
Hypothesis Lt : legal_tree Windows ws = true.
Hypothesis Res : FS.lookup ws resources_path = Some (Dir es).
Hypothesis Tnd : FS.is_dir (FS.lookup root2 target) = false.

Lemma workspace_is_directory : exists ews, ws = Dir ews.
Proof.
  destruct ws as [c|ews]; [|eauto].
  unfold FS.lookup in Res. rewrite lookup_opt_File in Res; discriminate.
Qed.

(** The run of a conversion that succeeds: what stage 3 leaves, and what
    stage 4 leaves of it. *)
Lemma conversion_succeeds (cbo : option callback) (root root1 : node) :
  raises_only_RuntimeError cbo ->
  makedirs_exist_ok h temp_dir root = (Return tt, root1) ->
  extractall h zip_file_name temp_dir root1 = (Return tt, root2) ->
  exists X' X'',
    repack h (tree_os h) (target_zip_name_of h zip_file_name output_dir)
      (app_dir_of h output_dir) (World root2 [] [])
    = (Return tt, World X' [] []) /\
    FS.lookup X' target
    = Some (File (Archive (map (fun f => (join_with slash (fst f), snd f))
                             (files_under (Dir es))))) /\
    (forall l, diverge target l -> FS.lookup X' l = FS.lookup root2 l) /\
    FS.del_at X' (locate h temp_dir) = Some X'' /\
    (distinct_tree X' = true -> FS.lookup X'' (locate h temp_dir) = None) /\
    let run := convert h zip_file_name output_dir cbo root in
    fst run = Return true /\
    fs (snd run) = X'' /\
    stdout (snd run) = [].
Proof.
  intros R Mk Ex.
  pose proof (resources_found h _ _ _ _ Ws Res) as App.
  destruct (temp_dir'_facts h W output_dir Do) as (Dt' & Ft' & Ct' & Lct').
  destruct (app_dir_facts h W output_dir Do) as (Da & Fa & Ca & La).
  destruct (target_facts h W output_dir Do zip_file_name Ln) as (LT & DvT).
  fold temp_dir in La, App, Dt', Ft', Ct', Lct', DvT. fold target in LT.
  rewrite LT in DvT.
  destruct (repack_fills_archive h W zip_file_name output_dir Do Ln root2 ws es
              Ws Lt Res Tnd [] []) as (X' & Rp & HT & HF).
  destruct workspace_is_directory as (ews & Ews).
  destruct (cleanup_run h (normalize_separators temp_dir) ews
              (World X' [] []) W Dt') as (X'' & Run & Del & Gone); cbn [fs].
  { rewrite Lct', HF by assumption. now rewrite Ws, Ews. }
  { now rewrite <- Ews. }
  cbn [fs events stdout] in Run, Del, Gone. rewrite Lct' in Del, Gone.
  exists X', X''. split; [exact Rp|]. split; [exact HT|]. split; [exact HF|].
  split; [exact Del|]. split; [exact Gone|].
  cbv zeta. unfold convert. rewrite convert_stages by assumption.
  destruct (stages_same_state node h (tree_os h) zip_file_name output_dir cbo None
              (World root [] [])) as [E [Sf So]].
  rewrite E, Sf, So. clear E Sf So.
  assert (St : stages node h (tree_os h) zip_file_name output_dir None
                 (World root [] [])
               = (Return true, World X'' [] [])).
  { unfold stages. cbv zeta. cbn [logged].
    unfold lift at 1. cbn [fs events stdout os_makedirs_exist_ok tree_os].
    fold workspace_name. fold temp_dir. rewrite Mk.
    unfold lift at 1. cbn [fs events stdout zip_extractall tree_os]. rewrite Ex.
    cbn [fs os_path_exists tree_os]. unfold path_exists.
    rewrite La, App. cbn [negb]. rewrite Rp, Run. reflexivity. }
  rewrite St. repeat split.
Qed.

(** X13: on a Windows host a successful conversion leaves no workspace.
    When the extraction has succeeded and has left, in a file system
    without duplicate names, a workspace of legal names that holds the
    resources directory, and no directory stands at the place of the
    output archive, the conversion returns [True], nothing exists at
    [temp_dir] when it returns, and nothing has been printed. *)
Theorem conversion_removes_workspace (cbo : option callback) (root root1 : node) :
  raises_only_RuntimeError cbo ->
  makedirs_exist_ok h temp_dir root = (Return tt, root1) ->
  extractall h zip_file_name temp_dir root1 = (Return tt, root2) ->
  distinct_tree root2 = true ->
  let run := convert h zip_file_name output_dir cbo root in
  fst run = Return true /\
  path_exists h temp_dir (fs (snd run)) = false /\
  stdout (snd run) = [].
Proof.
  intros R Mk Ex Dt. cbv zeta.
  destruct (conversion_succeeds cbo root root1 R Mk Ex)
    as (X' & X'' & Rp & HT & HF & Del & Gone & Rt & Rf & Ro).
  assert (DX : distinct_tree X' = true).
  { pose proof (distinct_repack h (target_zip_name_of h zip_file_name output_dir)
                  (app_dir_of h output_dir) (World root2 [] []) Dt) as Pr.
    now rewrite Rp in Pr. }
  split; [exact Rt|]. rewrite Rf, Ro. split; [|reflexivity].
  unfold path_exists. now rewrite (Gone DX).
Qed.

(** X14: the workspace is not emptied before the extraction (line 67
    accepts an existing directory): a regular file that stands below
    [packaged-project/resources/app] of the workspace when the conversion
    starts is still a regular file after the extraction, and a successful
    conversion packs it into the output archive under its path relative to
    that directory, with the content it has after the extraction. *)
Theorem leftovers_are_packed (cbo : option callback) (root root1 : node)
    (rel : list pystr) (c0 : content) :
  raises_only_RuntimeError cbo ->
  makedirs_exist_ok h temp_dir root = (Return tt, root1) ->
  extractall h zip_file_name temp_dir root1 = (Return tt, root2) ->
  rel <> [] ->
  FS.lookup root (locate h temp_dir ++ resources_path ++ rel) = Some (File c0) ->
  let run := convert h zip_file_name output_dir cbo root in
  fst run = Return true /\
  exists c ms,
    FS.lookup root2 (locate h temp_dir ++ resources_path ++ rel) = Some (File c) /\
    FS.lookup (fs (snd run)) target = Some (File (Archive ms)) /\
    In (join_with slash rel, c) ms.
Proof.
  intros R Mk Ex NE L0. cbv zeta.
  destruct (conversion_succeeds cbo root root1 R Mk Ex)
    as (X' & X'' & Rp & HT & HF & Del & Gone & Rt & Rf & Ro).
  destruct (target_facts h W output_dir Do zip_file_name Ln) as (LT & DvT).
  fold temp_dir in DvT. fold target in LT. rewrite LT in DvT.
  split; [exact Rt|].
  apply (makedirs_keeps_files h _ _ _ _ _ Mk) in L0.
  destruct (extractall_keeps_files h _ _ _ _ _ _ Ex L0) as (c & L2).
  exists c. eexists. split; [exact L2|]. split.
  - rewrite Rf.
    rewrite (lookup_del_frame _ _ _ _ Del (diverge_sym _ _ DvT)). exact HT.
  - apply (in_map (fun f => (join_with slash (fst f), snd f)) _ (rel, c)).
    apply files_under_lookup.
    + apply (legal_tree_lookup Windows _ ws (Dir es) Lt Res).
    + split; [assumption|].
      pose proof (resources_found h _ _ _ _ Ws Res)
        as App.
      fold temp_dir in App. unfold FS.lookup in *.
      rewrite app_assoc, lookup_opt_app, App in L2. exact L2.
Qed.

End SuccessfulConversion.

Lemma conversion_removes_workspace_witness :
  let run := convert windows_host (str "C:/dl/game.zip") (str "C:/out")
               (Some quiet) win_root in
  fst run = Return true /\
  path_exists windows_host
    (os_path.join windows_host (str "C:/out") [workspace_name]) (fs (snd run))
  = false /\
  stdout (snd run) = [].
Proof.
  apply (conversion_removes_workspace windows_host eq_refl
           (str "C:/dl/game.zip") (str "C:/out") eq_refl eq_refl
           win_root_extracted (workspace_of win_root_extracted)
           (resources_of win_root_extracted))
    with (root1 := win_root_made).
  - vm_compute. reflexivity.
  - vm_compute. reflexivity.
  - vm_compute. reflexivity.
  - vm_compute. reflexivity.
  - exact quiet_raises_nothing.
  - vm_compute. reflexivity.
  - vm_compute. reflexivity.
  - vm_compute. reflexivity.
Defined.

Lemma leftovers_are_packed_witness :
  let run := convert windows_host (str "C:/dl/game.zip") (str "C:/out")
               (Some quiet) stale_root in
  fst run = Return true /\
  exists c ms,
    FS.lookup stale_root_extracted
      (locate windows_host
         (os_path.join windows_host (str "C:/out") [workspace_name])
       ++ resources_path ++ [str "old.txt"])
    = Some (File c) /\
    FS.lookup (fs (snd run))
      (locate windows_host (str "C:/out")
       ++ [sb3_name windows_host (str "C:/dl/game.zip")])
    = Some (File (Archive ms)) /\
    In (join_with slash [str "old.txt"], c) ms.
Proof.
  apply (leftovers_are_packed windows_host eq_refl
           (str "C:/dl/game.zip") (str "C:/out") eq_refl eq_refl
           stale_root_extracted (workspace_of stale_root_extracted)
           (resources_of stale_root_extracted))
    with (root1 := stale_root_made) (c0 := Bytes (str "old")).
  - vm_compute. reflexivity.
  - vm_compute. reflexivity.
  - vm_compute. reflexivity.
  - vm_compute. reflexivity.
  - exact quiet_raises_nothing.
  - vm_compute. reflexivity.
  - vm_compute. reflexivity.
  - discriminate.
  - vm_compute. reflexivity.
Defined.

(** ** What the conversion leaves alone *)

Lemma lstrip_In c (s : pystr) a : In a (lstrip c s) -> In a s.
Proof.
  induction s as [|x s IH]; cbn [lstrip]; [auto|].
  destruct (chr_eqb x c); [right; auto|auto].
Qed.

Lemma rstrip_In c (s : pystr) a : In a (rstrip c s) -> In a s.
Proof.
  unfold rstrip. intro I. apply In_rev in I. apply lstrip_In in I.
  now apply In_rev in I.
Qed.

Lemma lstrip_head c (s : pystr) x t : lstrip c s = x :: t -> x <> c.
Proof.
  induction s as [|y s IH]; cbn [lstrip]; [discriminate|].
  destruct (chr_eqb y c) eqn:E; [assumption|].
  intros [= -> _]. now apply chr_eqb_neq.
Qed.

Lemma rstrip_not_dots (s : pystr) :
  rstrip dot s <> [] -> dot_segment (rstrip dot s) = false.
Proof.
  unfold rstrip. intro NE.
  destruct (lstrip dot (rev s)) as [|x t] eqn:E; [contradiction|].
  apply lstrip_head in E. cbn [rev].
  unfold dot_segment. apply orb_false_iff. split; apply str_eqb_neq; intro F.
  - apply (f_equal (@rev ascii)) in F. rewrite rev_app_distr, rev_involutive in F.
    cbn in F. now injection F as ->.
  - apply (f_equal (@rev ascii)) in F. rewrite rev_app_distr, rev_involutive in F.
    cbn in F. now injection F as ->.
Qed.

Lemma split_In_chars c (s : pystr) : forall seg a,
  In seg (split c s) -> In a seg -> In a s.
Proof.
  induction s as [|x s IH]; intros seg a Is Ia; cbn [split] in Is.
  - destruct Is as [<-|[]]. destruct Ia.
  - destruct (chr_eqb x c).
    + destruct Is as [<-|Is]; [destruct Ia|]. right. eapply IH; eassumption.
    + destruct (split c s) as [|hd tl] eqn:E.
      * destruct Is as [<-|[]]. destruct Ia as [<-|[]]. now left.
      * destruct Is as [<-|Is].
        -- destruct Ia as [<-|Ia]; [now left|]. right.
           apply (IH hd a); [now left|assumption].
        -- right. apply (IH seg a); [now right|assumption].
Qed.

Lemma splitdrive_In (s : pystr) a : In a (snd (ntpath.splitdrive s)) -> In a s.
Proof.
  destruct s as [|c [|d rest]]; try (cbn; tauto).
  unfold ntpath.splitdrive. destruct (chr_eqb d colon); cbn [snd]; [|tauto].
  intro I. right. now right.
Qed.

Lemma member_parts_legal (h : host) (name : pystr) :
  plat h = Windows ->
  Forall (fun n => legal_name Windows n = true) (member_parts h name).
Proof.
  intro W. unfold member_parts. rewrite W. apply Forall_forall. intros y I.
  apply filter_In in I. destruct I as [I NE]. apply in_map_iff in I.
  destruct I as (x & <- & I). apply filter_In in I. destruct I as [I _].
  set (z := map (fun c => if windows_illegal c then "_"%char else c) x) in *.
  assert (Zc : forall a, In a z -> windows_illegal a = false).
  { intros a Ia. unfold z in Ia. apply in_map_iff in Ia.
    destruct Ia as (b & <- & _). destruct (windows_illegal b) eqn:E; [reflexivity|exact E]. }
  assert (Zs : forall a, In a z -> is_sep Windows a = false).
  { intros a Ia. unfold z in Ia. apply in_map_iff in Ia.
    destruct Ia as (b & <- & Ib). destruct (windows_illegal b); [reflexivity|].
    cbn [is_sep]. apply orb_false_iff. split; apply chr_eqb_neq; intros ->.
    - apply (split_no_sep _ _ _ I Ib).
    - pose proof (split_In_chars _ _ _ _ I Ib) as Ia. apply splitdrive_In in Ia.
      revert Ia. apply replace_chr_removes. discriminate. }
  unfold legal_name. rewrite NE. cbn [andb].
  assert (A : existsb (is_sep Windows) (rstrip dot z) = false).
  { destruct (existsb (is_sep Windows) (rstrip dot z)) eqn:E; [|reflexivity].
    apply existsb_exists in E. destruct E as (a & Ia & Sa).
    apply rstrip_In in Ia. now rewrite Zs in Sa. }
  assert (B : existsb (chr_eqb colon) (rstrip dot z) = false).
  { destruct (existsb (chr_eqb colon) (rstrip dot z)) eqn:E; [|reflexivity].
    apply existsb_exists in E. destruct E as (a & Ia & Sa).
    apply rstrip_In in Ia. apply chr_eqb_eq in Sa. subst a.
    specialize (Zc _ Ia). discriminate Zc. }
  rewrite A, B, rstrip_not_dots; [reflexivity|].
  now destruct (rstrip dot z).
Qed.

Lemma legal_set p (n : pystr) (c : node) es :
  legal_tree p (Dir es) = true -> legal_name p n = true -> legal_tree p c = true ->
  legal_tree p (Dir (FS.set n c es)) = true.
Proof.
  intros L Ln Lc. apply legal_tree_Dir in L. destruct L as [ND F].
  apply legal_tree_Dir. split.
  - apply names_distinct_NoDup, set_distinct. now apply names_distinct_NoDup.
  - rewrite Forall_forall in F |- *. intros e I. apply set_In in I.
    destruct I as [->|I]; [now split|now apply F].
Qed.

Lemma legal_get p (n : pystr) es :
  legal_tree p (Dir es) = true ->
  match FS.get n es with Some t => legal_tree p t = true | None => True end.
Proof.
  intro L. destruct (FS.get n es) as [t|] eqn:G; [|exact I].
  apply get_In in G. apply legal_tree_Dir in L. destruct L as [_ F].
  rewrite Forall_forall in F. apply (F _ G).
Qed.

Lemma legal_mkdirs names : forall o t,
  legal_opt o -> Forall (fun n => legal_name Windows n = true) names ->
  FS.mkdirs_opt o names = Some t -> legal_tree Windows t = true.
Proof.
  induction names as [|n names IH]; intros o t L F Mk.
  - destruct o as [[c|es]|]; cbn in Mk; try discriminate Mk;
      injection Mk as <-; [exact L|reflexivity].
  - inversion F as [|? ? Ln F']; subst.
    assert (E : exists es, legal_tree Windows (Dir es) = true /\
                           match FS.mkdirs_opt (FS.get n es) names with
                           | Some c => Some (Dir (FS.set n c es))
                           | None => None
                           end = Some t).
    { destruct o as [[c|es]|]; cbn in Mk; try discriminate Mk.
      - exists es. split; assumption.
      - exists []. split; [reflexivity|assumption]. }
    destruct E as (es & Les & E).
    destruct (FS.mkdirs_opt (FS.get n es) names) as [c|] eqn:Mc; [|discriminate E].
    injection E as <-. apply legal_set; try assumption.
    apply (IH (FS.get n es) c); try assumption. now apply legal_get.
Qed.

Lemma legal_put names : forall o v t,
  legal_opt o -> Forall (fun n => legal_name Windows n = true) names ->
  legal_tree Windows v = true ->
  FS.put_opt o names v = Some t -> legal_tree Windows t = true.
Proof.
  induction names as [|n names IH]; intros o v t L F Lv P.
  - cbn in P. now injection P as <-.
  - inversion F as [|? ? Ln F']; subst. cbn [FS.put_opt] in P.
    destruct o as [[c|es]|]; try discriminate P.
    destruct (FS.put_opt (FS.get n es) names v) as [c|] eqn:Pc; [|discriminate P].
    injection P as <-. apply legal_set; try assumption.
    apply (IH (FS.get n es) v c); try assumption. now apply legal_get.
Qed.

Lemma sub_mkdirs a : forall o b t,
  FS.mkdirs_opt o (a ++ b) = Some t ->
  exists s, FS.lookup_opt (Some t) a = Some s /\
            FS.mkdirs_opt (FS.lookup_opt o a) b = Some s.
Proof.
  induction a as [|m a IH]; intros o b t Mk.
  - exists t. split; [reflexivity|exact Mk].
  - cbn [app] in Mk.
    assert (E : exists es,
              FS.lookup_opt o (m :: a) = FS.lookup_opt (FS.get m es) a /\
              match FS.mkdirs_opt (FS.get m es) (a ++ b) with
              | Some c => Some (Dir (FS.set m c es))
              | None => None
              end = Some t).
    { destruct o as [[c|es]|]; cbn in Mk; try discriminate Mk.
      - exists es. split; [reflexivity|assumption].
      - exists []. split; [|assumption]. cbn. now rewrite lookup_opt_None. }
    destruct E as (es & El & E).
    destruct (FS.mkdirs_opt (FS.get m es) (a ++ b)) as [c|] eqn:Mc; [|discriminate E].
    injection E as <-. destruct (IH _ _ _ Mc) as (s & Ls & Ms).
    exists s. split.
    + cbn [FS.lookup_opt]. now rewrite get_set_same.
    + now rewrite El.
Qed.

Lemma sub_put a : forall o b v t,
  FS.put_opt o (a ++ b) v = Some t ->
  exists s, FS.lookup_opt (Some t) a = Some s /\
            FS.put_opt (FS.lookup_opt o a) b v = Some s.
Proof.
  induction a as [|m a IH]; intros o b v t P.
  - exists t. split; [reflexivity|exact P].
  - cbn [app FS.put_opt] in P. destruct o as [[c|es]|]; try discriminate P.
    destruct (FS.put_opt (FS.get m es) (a ++ b) v) as [c|] eqn:Pc; [|discriminate P].
    injection P as <-. destruct (IH _ _ _ _ Pc) as (s & Ls & Ps).
    exists s. split; [|exact Ps].
    cbn [FS.lookup_opt]. now rewrite get_set_same.
Qed.

Lemma legal_below_opt L X : legal_below L X <-> legal_opt (FS.lookup X L).
Proof.
  unfold legal_below, legal_opt. destruct (FS.lookup X L) as [t|].
  - split; [intro H; now apply H|intros H t' [= <-]; exact H].
  - split; [trivial|discriminate].
Qed.

Lemma Forall_removelast {A} (P : A -> Prop) (l : list A) :
  Forall P l -> Forall P (removelast l).
Proof.
  intro F. destruct l as [|x l]; [constructor|].
  destruct (exists_last (l:=x :: l)) as (l' & y & E); [discriminate|].
  rewrite E, removelast_last. rewrite E in F. now apply Forall_app in F.
Qed.

Lemma extract_member_legal (h : host) L m X X' :
  plat h = Windows -> legal_below L X ->
  extract_member h L m X = (Return tt, X') -> legal_below L X'.
Proof.
  intros W LX E. apply legal_below_opt in LX. apply legal_below_opt.
  pose proof (member_parts_legal h (fst m) W) as Fp.
  unfold extract_member in E. destruct (member_is_dir (fst m)).
  - destruct (FS.mkdirs_opt (Some X) _) as [t|] eqn:Mk; [|discriminate E].
    injection E as <-. destruct (sub_mkdirs _ _ _ _ Mk) as (s & Ls & Ms).
    unfold FS.lookup. rewrite Ls. apply (legal_mkdirs _ _ _ LX Fp Ms).
  - destruct (FS.mkdirs_opt (Some X) _) as [t|] eqn:Mk; [|discriminate E].
    destruct (FS.is_dir (FS.lookup t _)) eqn:ND; [discriminate E|].
    destruct (FS.put_opt (Some t) _ _) as [t2|] eqn:P; [|discriminate E].
    injection E as <-.
    destruct (member_parts h (fst m)) as [|p ps] eqn:Ep.
    + rewrite app_nil_r in P. unfold FS.lookup.
      now rewrite (lookup_put_same _ _ _ _ P).
    + rewrite removelast_app in Mk by discriminate.
      destruct (sub_mkdirs _ _ _ _ Mk) as (s & Ls & Ms).
      destruct (sub_put _ _ _ _ _ P) as (s2 & Ls2 & Ps2).
      unfold FS.lookup. rewrite Ls2. rewrite Ls in Ps2.
      pose proof (legal_mkdirs _ _ _ LX (Forall_removelast _ _ Fp) Ms) as Lsl.
      apply (legal_put (p :: ps) (Some s) (File (snd m)) s2 Lsl Fp eq_refl Ps2).
Qed.

Lemma extract_members_legal (h : host) L ms : forall X X',
  plat h = Windows -> legal_below L X ->
  extract_members h L ms X = (Return tt, X') -> legal_below L X'.
Proof.
  induction ms as [|m ms IH]; intros X X' W LX E.
  - cbn [extract_members] in E. now injection E as <-.
  - cbn [extract_members] in E.
    destruct (extract_member h L m X) as [[[]|e] X1] eqn:E1; [|discriminate E].
    apply (IH X1 X' W); [|assumption].
    apply (extract_member_legal h L m X X1 W LX E1).
Qed.

Lemma extractall_legal (h : host) src dest X X' :
  plat h = Windows -> legal_below (locate h dest) X ->
  extractall h src dest X = (Return tt, X') -> legal_below (locate h dest) X'.
Proof.
  intros W LX E. destruct (extractall_returns h _ _ _ _ E) as (ms & Em).
  apply (extract_members_legal h _ ms X X' W LX Em).
Qed.

Lemma lookup_mkdirs_same loc : forall o t,
  FS.mkdirs_opt o loc = Some t ->
  FS.lookup_opt (Some t) loc
  = Some (Dir (match FS.lookup_opt o loc with Some (Dir es) => es | _ => [] end)).
Proof.
  intros o t Mk. rewrite <- (app_nil_r loc) in Mk.
  destruct (sub_mkdirs _ _ _ _ Mk) as (s & Ls & Ms). rewrite Ls.
  destruct (FS.lookup_opt o loc) as [[c|es]|]; cbn in Ms; try discriminate Ms;
    now injection Ms as <-.
Qed.

Lemma makedirs_legal (h : host) p X X' :
  legal_below (locate h p) X ->
  makedirs_exist_ok h p X = (Return tt, X') -> legal_below (locate h p) X'.
Proof.
  intros LX E. unfold makedirs_exist_ok in E.
  destruct (FS.mkdirs_opt (Some X) (locate h p)) as [t|] eqn:Mk; [|discriminate E].
  injection E as <-. intros t' Lt. unfold FS.lookup in Lt.
  rewrite (lookup_mkdirs_same _ _ _ Mk) in Lt. injection Lt as <-.
  destruct (FS.lookup_opt (Some X) (locate h p)) as [[c|es]|] eqn:Lk; try reflexivity.
  now apply LX.
Qed.

Lemma keeps_lift T {A} (op : node -> outcome A * node) :
  (forall X, FS.lookup (snd (op X)) T = FS.lookup X T) -> keeps T (lift op).
Proof.
  intros Op w. unfold lift. specialize (Op (fs w)).
  destruct (op (fs w)) as [r X']. exact Op.
Qed.

Lemma keeps_query T {A} (q : node -> A) : keeps T (query q).
Proof. intro w. reflexivity. Qed.

Lemma keeps_open_w (h : host) target T :
  diverge (locate h target) T -> keeps T (lift (open_w h target)).
Proof.
  intro D. apply keeps_lift. intro X. unfold open_w.
  destruct (locate h target) as [|x l] eqn:E; [reflexivity|].
  destruct (FS.is_dir (FS.lookup X (x :: l))); [reflexivity|].
  destruct (FS.put_opt (Some X) (x :: l) (File (Archive []))) as [X'|] eqn:P;
    [|reflexivity].
  apply (lookup_put_frame _ _ _ _ _ P D).
Qed.

Lemma keeps_write (h : host) target src arcname T :
  diverge (locate h target) T -> keeps T (lift (write h target src arcname)).
Proof.
  intro D. apply keeps_lift. intro X. unfold write.
  destruct (FS.lookup X (locate h target)) as [[[d|ms|ms0 nm wr er]|es]|]; try reflexivity.
  destruct (FS.lookup X (locate h src)) as [[c|es]|]; [| |reflexivity];
    match goal with
    | |- context [FS.put_opt ?o ?l ?v] =>
        destruct (FS.put_opt o l v) as [X'|] eqn:P; [|reflexivity];
        apply (lookup_put_frame _ _ _ _ _ P D)
    end.
Qed.

Lemma keeps_repack (h : host) target a T :
  diverge (locate h target) T -> keeps T (repack h (tree_os h) target a).
Proof.
  intro D. unfold repack, with_ZipFile_w.
  apply keeps_bind; [now apply keeps_open_w|]. intros _ w.
  assert (Kb : keeps T
            (bind (query (os_walk (tree_os h) true a))
               (fun triples => for_each triples (fun '(root, dirs, files) =>
                  for_each files (fun file =>
                    lift (zip_write (tree_os h) target (os_path.join h root [file])
                            (os_path.join h (custom_relpath h root a) [file]))))))).
  { apply keeps_bind; [apply keeps_query|]. intro triples.
    apply keeps_for_each. intros [[root dirs] files] _.
    apply keeps_for_each. intros file _. now apply keeps_write. }
  specialize (Kb w).
  match goal with
  | |- context [match ?b w with _ => _ end] =>
      change (FS.lookup (fs (snd (b w))) T = FS.lookup (fs w) T) in Kb;
      destruct (b w) as [[[]|e] w1]
  end; cbn [snd] in Kb.
  - unfold lift. cbn [zip_close tree_os close snd fs]. exact Kb.
  - unfold lift. cbn [zip_close tree_os close snd fs]. exact Kb.
Qed.

(** X15: on a Windows host the conversion, whatever its outcome and
    whatever the input archive holds (member names with [..] segments or a
    drive included), changes nothing outside the workspace and the output
    archive: what stands at a location that lies neither at, below nor
    above one of these two paths is the same after the call.  (What stands
    at the workspace before the call, if anything, is a tree of distinct
    legal names.) *)
Theorem conversion_touches_only_its_paths (h : host)
    (zip_file_name output_dir : pystr) (cbo : option callback) (root : node)
    (T : list pystr) :
  plat h = Windows ->
  drive_absolute output_dir = true ->
  legal_name Windows (sb3_name h zip_file_name) = true ->
  raises_only_RuntimeError cbo ->
  legal_at (locate h output_dir ++ [workspace_name]) root = true ->
  diverge (locate h output_dir ++ [workspace_name]) T ->
  diverge (locate h output_dir ++ [sb3_name h zip_file_name]) T ->
  FS.lookup (fs (snd (convert h zip_file_name output_dir cbo root))) T
  = FS.lookup root T.
Proof.
  intros W Do Ln R LR0 DvW DvA.
  assert (LR : legal_below (locate h output_dir ++ [workspace_name]) root).
  { intros t Ht. unfold legal_at in LR0. now rewrite Ht in LR0. }
  clear LR0.
  destruct (temp_dir_facts h W output_dir Do) as (Dt & Ft & Ct & Lct).
  destruct (temp_dir'_facts h W output_dir Do) as (Dt' & Ft' & Ct' & Lct').
  destruct (target_facts h W output_dir Do zip_file_name Ln) as (LT & DvT).
  rewrite <- Lct in LR, DvW. rewrite <- LT in DvA.
  unfold convert. rewrite convert_stages by assumption.
  assert (FsL : forall e (w : world node), fs (logged cbo e w) = fs w)
    by (destruct cbo; reflexivity).
  unfold stages. cbv zeta. change (str "temp_extract") with workspace_name.
  set (temp_dir := os_path.join h output_dir [workspace_name]) in *.
  unfold lift at 1. cbn [os_makedirs_exist_ok tree_os fs].
  destruct (makedirs_exist_ok h temp_dir root) as [[[]|e1] root1] eqn:Mk.
  2:{ cbn [snd]. rewrite FsL. cbn [fs]. unfold makedirs_exist_ok in Mk.
      destruct (FS.mkdirs_opt _ _); [discriminate Mk|]. now injection Mk as _ <-. }
  pose proof (makedirs_frame h _ _ _ _ Mk DvW) as F1.
  pose proof (makedirs_legal h _ _ _ LR Mk) as L1.
  unfold lift at 1. cbn [zip_extractall tree_os]. rewrite FsL. cbn [fs].
  destruct (extractall h zip_file_name temp_dir root1) as [r2 root2] eqn:Ex.
  pose proof (extractall_frame h _ _ _ _ _ _ Ex DvW) as F2.
  destruct r2 as [[]|e2].
  2:{ cbn [snd]. rewrite FsL. cbn [fs]. congruence. }
  pose proof (extractall_legal h _ _ _ _ W L1 Ex) as L2.
  cbn [fs]. destruct (negb (os_path_exists (tree_os h) _ root2)).
  { cbn [snd]. rewrite FsL. cbn [fs]. congruence. }
  set (w2 := logged cbo (50%Z, msg_packing) _).
  assert (Fw2 : fs w2 = root2) by (unfold w2; now rewrite FsL).
  pose proof (keeps_repack h (target_zip_name_of h zip_file_name output_dir)
                (app_dir_of h output_dir) T DvA w2) as K3.
  pose proof (keeps_repack h (target_zip_name_of h zip_file_name output_dir)
                (app_dir_of h output_dir) (locate h temp_dir) DvT w2) as K3'.
  destruct (repack h (tree_os h) _ _ w2) as [[[]|e3] w3]; cbn [snd] in K3, K3'.
  2:{ cbn [snd]. rewrite FsL. congruence. }
  assert (K4 : FS.lookup
                 (fs (snd (_cleanup_temp_dir h (tree_os h)
                             (normalize_separators temp_dir)
                             (logged cbo (80%Z, msg_cleaning) w3)))) T
               = FS.lookup (fs w3) T).
  { rewrite (cleanup_keeps h W); try assumption.
    - now rewrite FsL.
    - now rewrite Lct'.
    - intros t Ht. rewrite FsL, Lct', K3', Fw2 in Ht. now apply L2. }
  destruct (_cleanup_temp_dir h (tree_os h) _ _) as [[[]|e4] w4];
    cbn [snd] in K4 |- *; rewrite FsL; congruence.
Qed.

Lemma conversion_touches_only_its_paths_witness :
  FS.lookup (fs (snd (convert windows_host (str "C:/dl/game.zip") (str "C:/out")
                        (Some quiet) stale_root)))
    [str "C:"; str "dl"; str "game.zip"]
  = FS.lookup stale_root [str "C:"; str "dl"; str "game.zip"].
Proof.
  apply (conversion_touches_only_its_paths windows_host (str "C:/dl/game.zip")
           (str "C:/out") (Some quiet) stale_root
           [str "C:"; str "dl"; str "game.zip"] eq_refl eq_refl eq_refl
           quiet_raises_nothing).
  - vm_compute. reflexivity.
  - apply diverge_later, diverge_here. discriminate.
  - apply diverge_later, diverge_here. discriminate.
Defined.

(** ** The archive that a conversion produces *)

(** C6: on a Windows host, for an output directory given with a drive
    letter and a root, an output name that is one legal name and a callback
    that raises nothing but [RuntimeError]: when what stands at the
    workspace before the call, if anything, is a tree of distinct legal
    names, no directory stands at the place of the output archive, the
    workspace can be created, the extraction returns, and the workspace
    then holds the directory [packaged-project/resources/app], the
    conversion returns [True] and leaves at
    [<output_dir>/<base name without extension>.sb3] an archive whose
    members are the regular files found below that directory of the
    workspace after the extraction, each with its data and under its path
    relative to the directory, joined with [/].  These are the files that
    the extraction has put there and those that an earlier call has left
    there: the members are read from the workspace, not from the input
    archive. *)
Theorem convert_repacks_resources (h : host) (zip_file_name output_dir : pystr)
    (cbo : option callback) (root root1 root2 : node)
    (es : list (pystr * node)) :
  plat h = Windows ->
  drive_absolute output_dir = true ->
  legal_name Windows (sb3_name h zip_file_name) = true ->
  raises_only_RuntimeError cbo ->
  legal_at (locate h output_dir ++ [workspace_name]) root = true ->
  FS.is_dir (FS.lookup root (locate h output_dir ++ [sb3_name h zip_file_name]))
  = false ->
  makedirs_exist_ok h (os_path.join h output_dir [workspace_name]) root
  = (Return tt, root1) ->
  extractall h zip_file_name (os_path.join h output_dir [workspace_name]) root1
  = (Return tt, root2) ->
  FS.lookup root2 (locate h output_dir ++ workspace_name :: resources_path)
  = Some (Dir es) ->
  let run := convert h zip_file_name output_dir cbo root in
  fst run = Return true /\
  FS.lookup (fs (snd run)) (locate h output_dir ++ [sb3_name h zip_file_name])
  = Some (File (Archive (map (fun f => (join_with slash (fst f), snd f))
                           (files_under (Dir es))))) /\
  forall rel c,
    In (rel, c) (files_under (Dir es)) <->
    rel <> [] /\
    FS.lookup root2
      (locate h output_dir ++ workspace_name :: resources_path ++ rel)
    = Some (File c).
Proof.
  intros W Do Ln R LR0 Tnd0 Mk Ex Res. cbv zeta.
  destruct (temp_dir_facts h W output_dir Do) as (Dt & Ft & Ct & Lct).
  destruct (target_facts h W output_dir Do zip_file_name Ln) as (LT & DvT).
  rewrite LT in DvT.
  set (temp_dir := os_path.join h output_dir [workspace_name]) in *.
  set (target := locate h output_dir ++ [sb3_name h zip_file_name]) in *.
  change (locate h output_dir ++ workspace_name :: resources_path)
    with (locate h output_dir ++ [workspace_name] ++ resources_path) in Res.
  rewrite app_assoc, <- Lct in Res.
  (* the workspace after the extraction *)
  assert (LR : legal_below (locate h temp_dir) root).
  { intros t Ht. unfold legal_at in LR0. rewrite <- Lct in LR0.
    now rewrite Ht in LR0. }
  pose proof (extractall_legal h _ _ _ _ W (makedirs_legal h _ _ _ LR Mk) Ex) as L2.
  destruct (lookup_prefix_dir (Some root2) (locate h temp_dir) resources_path
              (Dir es)) as (ews & Ws); [discriminate|exact Res|].
  assert (Lt : legal_tree Windows (Dir ews) = true) by now apply L2.
  assert (Res' : FS.lookup (Dir ews) resources_path = Some (Dir es)).
  { unfold FS.lookup in *. now rewrite lookup_opt_app, Ws in Res. }
  assert (Tnd : FS.is_dir (FS.lookup root2 target) = false).
  { rewrite (extractall_frame h _ _ _ _ _ target Ex (diverge_sym _ _ DvT)).
    now rewrite (makedirs_frame h _ _ _ _ Mk (diverge_sym _ _ DvT)). }
  destruct (conversion_succeeds h W zip_file_name output_dir Do Ln root2 (Dir ews) es
              Ws Lt Res' Tnd cbo root root1 R Mk Ex)
    as (X' & X'' & Rp & HT & HF & Del & Gone & Rt & Rf & Ro).
  split; [exact Rt|]. split.
  - rewrite Rf.
    rewrite (lookup_del_frame _ _ _ _ Del (diverge_sym _ _ DvT)). exact HT.
  - intros rel c.
    rewrite (files_under_lookup (Dir es) rel c
               (legal_tree_lookup Windows _ (Dir ews) (Dir es) Lt Res')).
    change (locate h output_dir ++ workspace_name :: resources_path ++ rel)
      with (locate h output_dir ++ [workspace_name] ++ resources_path ++ rel).
    rewrite app_assoc, <- Lct, app_assoc.
    unfold FS.lookup in *. rewrite lookup_opt_app, Res. reflexivity.
Qed.

Lemma convert_repacks_resources_witness :
  let run := convert windows_host (str "C:/dl/game.zip") (str "C:/out")
               (Some quiet) win_root in
  fst run = Return true /\
  FS.lookup (fs (snd run))
    (locate windows_host (str "C:/out")
     ++ [sb3_name windows_host (str "C:/dl/game.zip")])
  = Some (File (Archive (map (fun f => (join_with slash (fst f), snd f))
                           (files_under (Dir sample_resources))))) /\
  forall rel c,
    In (rel, c) (files_under (Dir sample_resources)) <->
    rel <> [] /\
    FS.lookup win_root_extracted
      (locate windows_host (str "C:/out")
       ++ workspace_name :: resources_path ++ rel)
    = Some (File c).
Proof.
  apply (convert_repacks_resources windows_host (str "C:/dl/game.zip")
           (str "C:/out") (Some quiet) win_root win_root_made
           win_root_extracted sample_resources eq_refl eq_refl eq_refl
           quiet_raises_nothing).
  - vm_compute. reflexivity.
  - vm_compute. reflexivity.
  - vm_compute. reflexivity.
  - vm_compute. reflexivity.
  - vm_compute. reflexivity.
Defined.

(** The members of that archive, spelled out. *)
Example sample_archive_members :
  map (fun f => (join_with slash (fst f), snd f)) (files_under (Dir sample_resources))
  = [ (str "project.json", Bytes (str "{}"));
      (str "assets/a.png", Bytes (str "PNG")) ].
Proof. reflexivity. Qed.

(** The claim of C5 that a valid archive without the layout is rejected
    fails after a conversion that has left its workspace behind.  The first
    call extracts an archive with the layout and fails to write its output,
    whose place a directory has taken; the second call, for an archive that
    holds a single file outside [packaged-project], finds the directory of
    the first in the workspace, returns [True] and packs the files of the
    first archive. *)
Lemma stale_workspace_passes_layout_check :
  let first := convert windows_host (str "C:/dl/game.zip") (str "C:/out")
                 (Some quiet) shared_root in
  let second := convert windows_host (str "C:/dl/other.zip") (str "C:/out")
                  (Some quiet) (fs (snd first)) in
  fst first = Return false /\
  fst second = Return true /\
  events (snd second)
  = [(10%Z, msg_extracting); (50%Z, msg_packing);
     (80%Z, msg_cleaning); (100%Z, msg_done)] /\
  FS.lookup (fs (snd second)) [str "C:"; str "out"; str "other.sb3"]
  = Some (File (Archive [(str "project.json", Bytes (str "{}"));
                         (str "assets/a.png", Bytes (str "PNG"))])).
Proof. vm_compute. repeat split; reflexivity. Qed.

(** ** An output path taken by a directory *)

(** X16: on a Windows host, when a directory stands at the path of the
    output archive, stage 3 fails as it opens the archive for writing.
    After a successful extraction that has left the resources directory,
    the result is [False], the events are 10%, 50% and then 0% with the
    write-error message of the exception, and the file system is the one
    the extraction left, with the extracted workspace in place. *)
Theorem output_blocked_by_directory (h : host) (zip_file_name output_dir : pystr)
    (cbo : option callback) (root root1 root2 : node) :
  plat h = Windows ->
  drive_absolute output_dir = true ->
  legal_name Windows (sb3_name h zip_file_name) = true ->
  raises_only_RuntimeError cbo ->
  makedirs_exist_ok h (os_path.join h output_dir [workspace_name]) root
  = (Return tt, root1) ->
  extractall h zip_file_name (os_path.join h output_dir [workspace_name]) root1
  = (Return tt, root2) ->
  FS.is_dir (FS.lookup root2
               (locate h (os_path.join h output_dir [workspace_name])
                ++ resources_path)) = true ->
  FS.is_dir (FS.lookup root2 (locate h output_dir ++ [sb3_name h zip_file_name]))
  = true ->
  let run := convert h zip_file_name output_dir cbo root in
  fst run = Return false /\
  fs (snd run) = root2 /\
  exists e,
    events (snd run)
    = events_if cbo [(10%Z, msg_extracting); (50%Z, msg_packing);
                     (0%Z, msg_write_error e)].
Proof.
  intros W Do Ln R Mk Ex Hres Hdir. cbv zeta.
  destruct (app_dir_facts h W output_dir Do) as (Da & Fa & Ca & La).
  destruct (target_facts h W output_dir Do zip_file_name Ln) as (LT & DvT).
  assert (FsL : forall e (w : world node), fs (logged cbo e w) = fs w)
    by (destruct cbo; reflexivity).
  assert (PE : path_exists h (app_dir_of h output_dir) root2 = true).
  { unfold path_exists. rewrite La.
    destruct (FS.lookup root2 _) as [[c|d]|]; try discriminate Hres. reflexivity. }
  assert (Op : forall w : world node, fs w = root2 ->
            repack h (tree_os h) (target_zip_name_of h zip_file_name output_dir)
              (app_dir_of h output_dir) w
            = (Raise (oserror "PermissionError"), w)).
  { intros w Fw. rewrite repack_unfold. unfold lift at 1. unfold open_w.
    rewrite LT, Fw.
    destruct (locate h output_dir ++ [sb3_name h zip_file_name]) as [|x l] eqn:E;
      [now destruct (locate h output_dir)|].
    rewrite Hdir. destruct w as [s ev so]. cbn in Fw. now subst. }
  unfold convert. rewrite convert_stages by assumption.
  assert (St : exists ev,
            stages node h (tree_os h) zip_file_name output_dir cbo (World root [] [])
            = (Return false, World root2 ev []) /\
            ev = events_if cbo [(10%Z, msg_extracting); (50%Z, msg_packing);
                                (0%Z, msg_write_error (oserror "PermissionError"))]).
  { unfold stages. cbv zeta. change (str "temp_extract") with workspace_name.
    unfold lift at 1. cbn [os_makedirs_exist_ok tree_os fs]. rewrite Mk.
    unfold lift at 1. cbn [zip_extractall tree_os]. rewrite FsL. cbn [fs]. rewrite Ex.
    cbn [fs os_path_exists tree_os]. rewrite PE. cbn [negb].
    rewrite Op by (now rewrite FsL).
    eexists. split; [|reflexivity]. destruct cbo; reflexivity. }
  destruct St as (ev & -> & ->).
  split; [reflexivity|]. split; [reflexivity|]. eexists. reflexivity.
Qed.

Lemma output_blocked_by_directory_witness :
  let run := convert windows_host (str "C:/dl/game.zip") (str "C:/out")
               (Some quiet) blocked_root in
  let root2 :=
    snd (extractall windows_host (str "C:/dl/game.zip")
           (os_path.join windows_host (str "C:/out") [workspace_name])
           (snd (makedirs_exist_ok windows_host
                   (os_path.join windows_host (str "C:/out") [workspace_name])
                   blocked_root))) in
  fst run = Return false /\
  fs (snd run) = root2 /\
  exists e,
    events (snd run)
    = events_if (Some quiet) [(10%Z, msg_extracting); (50%Z, msg_packing);
                              (0%Z, msg_write_error e)].
Proof.
  apply (output_blocked_by_directory windows_host (str "C:/dl/game.zip")
           (str "C:/out") (Some quiet) blocked_root
           (snd (makedirs_exist_ok windows_host
                   (os_path.join windows_host (str "C:/out") [workspace_name])
                   blocked_root))
           _ eq_refl eq_refl eq_refl quiet_raises_nothing);
    vm_compute; reflexivity.
Defined.

(** ** Converting the same archive again *)

Lemma same_entry_refl o : same_entry o o.
Proof. destruct o as [[c|es]|]; cbn; auto. Qed.

Lemma location_cases (Q : list pystr) : forall L,
  (exists r, L = Q ++ r) \/ (exists r, r <> [] /\ Q = L ++ r) \/ diverge Q L.
Proof.
  induction Q as [|x Q IH]; intro L.
  - left. now exists L.
  - destruct L as [|y L].
    + right; left. exists (x :: Q). split; [discriminate|reflexivity].
    + destruct (list_eq_dec ascii_dec x y) as [<-|N].
      * destruct (IH L) as [(r & ->)|[(r & NE & ->)|D]].
        -- left. now exists r.
        -- right; left. now exists r.
        -- right; right. now constructor.
      * right; right. now constructor.
Qed.

Lemma lookup_below_none o (a b : list pystr) :
  FS.lookup_opt o a = None -> FS.lookup_opt o (a ++ b) = None.
Proof. intro N. now rewrite lookup_opt_app, N, lookup_opt_None. Qed.

Lemma lookup_below_file o (a b : list pystr) c :
  FS.lookup_opt o a = Some (File c) -> b <> [] -> FS.lookup_opt o (a ++ b) = None.
Proof.
  intros F NE. rewrite lookup_opt_app, F. destruct b; [contradiction|reflexivity].
Qed.

Lemma mkdirs_new P : forall o e (n : pystr),
  FS.lookup_opt o P = Some (Dir e) -> FS.is_file (FS.get n e) = false ->
  exists t, FS.mkdirs_opt o (P ++ [n]) = Some t.
Proof.
  induction P as [|m P IH]; intros o e n L NF.
  - cbn [FS.lookup_opt] in L. subst o. cbn [app FS.mkdirs_opt].
    destruct (FS.get n e) as [[c|es]|]; [discriminate NF| |]; eexists; reflexivity.
  - cbn [FS.lookup_opt] in L. destruct o as [[c|es0]|]; try discriminate L.
    destruct (IH _ _ n L NF) as (t & Mk). cbn [app FS.mkdirs_opt]. rewrite Mk.
    eexists; reflexivity.
Qed.

Lemma mkdirs_transfer a : forall o o' b t,
  FS.lookup_opt o a = FS.lookup_opt o' a -> FS.lookup_opt o' a <> None ->
  FS.mkdirs_opt o (a ++ b) = Some t ->
  exists t', FS.mkdirs_opt o' (a ++ b) = Some t' /\
             FS.lookup_opt (Some t') a = FS.lookup_opt (Some t) a.
Proof.
  induction a as [|m a IH]; intros o o' b t E NN Mk.
  - cbn [FS.lookup_opt] in E. subst o'. now exists t.
  - cbn [FS.lookup_opt] in E, NN.
    destruct o' as [[c'|es']|]; try (now contradiction NN).
    destruct o as [[c|es]|]; try (now rewrite <- E in NN; contradiction NN).
    cbn [app FS.mkdirs_opt] in Mk |- *.
    destruct (FS.mkdirs_opt (FS.get m es) (a ++ b)) as [c|] eqn:Mc; [|discriminate Mk].
    injection Mk as <-.
    destruct (IH _ _ _ _ E NN Mc) as (c' & Mc' & Lc'). rewrite Mc'.
    eexists. split; [reflexivity|]. cbn [FS.lookup_opt]. now rewrite !get_set_same.
Qed.

Lemma put_transfer a : forall o o' b v t,
  FS.lookup_opt o a = FS.lookup_opt o' a -> FS.lookup_opt o' a <> None ->
  FS.put_opt o (a ++ b) v = Some t ->
  exists t', FS.put_opt o' (a ++ b) v = Some t' /\
             FS.lookup_opt (Some t') a = FS.lookup_opt (Some t) a.
Proof.
  induction a as [|m a IH]; intros o o' b v t E NN P.
  - cbn [FS.lookup_opt] in E. subst o'. now exists t.
  - cbn [FS.lookup_opt] in E, NN.
    destruct o' as [[c'|es']|]; try (now contradiction NN).
    destruct o as [[c|es]|]; try (now rewrite <- E in NN; contradiction NN).
    cbn [app FS.put_opt] in P |- *.
    destruct (FS.put_opt (FS.get m es) (a ++ b) v) as [c|] eqn:Pc; [|discriminate P].
    injection P as <-.
    destruct (IH _ _ _ _ _ E NN Pc) as (c' & Pc' & Lc'). rewrite Pc'.
    eexists. split; [reflexivity|]. cbn [FS.lookup_opt]. now rewrite !get_set_same.
Qed.

(** A directory stays one when directories are made or a file is put
    below it. *)
Lemma mkdirs_is_dir o loc t : FS.mkdirs_opt o loc = Some t -> exists es, t = Dir es.
Proof.
  destruct loc as [|n loc]; destruct o as [[c|es]|]; cbn [FS.mkdirs_opt]; intro E;
    try discriminate E;
    repeat match type of E with
           | match ?x with _ => _ end = _ => destruct x; [|discriminate E]
           end;
    injection E as <-; eauto.
Qed.

Lemma lookup_after_mkdirs a : forall o b t,
  FS.mkdirs_opt o (a ++ b) = Some t -> FS.is_dir (FS.lookup_opt (Some t) a) = true.
Proof.
  intros o b t Mk. destruct (sub_mkdirs _ _ _ _ Mk) as (s & Ls & Ms). rewrite Ls.
  destruct (mkdirs_is_dir _ _ _ Ms) as (es & ->). reflexivity.
Qed.

Lemma lookup_after_put a : forall o b v t,
  b <> [] -> FS.put_opt o (a ++ b) v = Some t ->
  FS.is_dir (FS.lookup_opt (Some t) a) = true.
Proof.
  intros o b v t NE P. destruct (sub_put _ _ _ _ _ P) as (s & Ls & Ps). rewrite Ls.
  destruct b as [|n b]; [contradiction|]. cbn [FS.put_opt] in Ps.
  destruct (FS.lookup_opt o a) as [[c|es]|]; try discriminate Ps.
  destruct (FS.put_opt (FS.get n es) b v); [|discriminate Ps].
  now injection Ps as <-.
Qed.

Lemma extract_member_transfer (h : host) dest m X Y X' :
  FS.lookup X dest = FS.lookup Y dest -> FS.is_dir (FS.lookup Y dest) = true ->
  extract_member h dest m X = (Return tt, X') ->
  exists Y', extract_member h dest m Y = (Return tt, Y') /\
             FS.lookup X' dest = FS.lookup Y' dest /\
             FS.is_dir (FS.lookup Y' dest) = true.
Proof.
  unfold extract_member, FS.lookup. intros E D Ex.
  assert (NN : FS.lookup_opt (Some Y) dest <> None)
    by (intro N; rewrite N in D; discriminate D).
  destruct (member_is_dir (fst m)).
  - destruct (FS.mkdirs_opt (Some X) _) as [t|] eqn:Mk; [|discriminate Ex].
    injection Ex as <-.
    destruct (mkdirs_transfer _ _ _ _ _ E NN Mk) as (t' & Mk' & L').
    rewrite Mk'. exists t'. split; [reflexivity|]. split; [now symmetry|].
    apply (lookup_after_mkdirs _ _ _ _ Mk').
  - destruct (member_parts h (fst m)) as [|p ps] eqn:Ep.
    + (* the member names the destination itself, which is a directory *)
      exfalso. rewrite app_nil_r in Ex.
      destruct (FS.mkdirs_opt (Some X) (removelast dest)) as [t|] eqn:Mk;
        [|discriminate Ex].
      assert (Dt : FS.is_dir (FS.lookup_opt (Some t) dest) = true).
      { destruct dest as [|d dest].
        - cbn [removelast] in Mk. cbn [FS.lookup_opt].
          destruct (mkdirs_is_dir _ _ _ Mk) as (es & ->). reflexivity.
        - rewrite (lookup_mkdirs_frame _ _ _ (d :: dest) Mk).
          + now rewrite E.
          + intros r Er. apply (f_equal (@length pystr)) in Er.
            rewrite length_app in Er.
            assert (length (removelast (d :: dest)) < length (d :: dest)).
            { destruct (exists_last (l:=d :: dest)) as (l0 & x & ->); [discriminate|].
              rewrite removelast_last, length_app. cbn. lia. }
            lia. }
      unfold FS.lookup in Ex. rewrite Dt in Ex. discriminate Ex.
    + rewrite removelast_app in Ex |- * by discriminate.
      destruct (FS.mkdirs_opt (Some X) _) as [t|] eqn:Mk; [|discriminate Ex].
      destruct (mkdirs_transfer _ _ _ _ _ E NN Mk) as (t' & Mk' & L').
      rewrite Mk'.
      assert (Dt' : FS.is_dir (FS.lookup_opt (Some t') dest) = true)
        by apply (lookup_after_mkdirs _ _ _ _ Mk').
      assert (NN' : FS.lookup_opt (Some t') dest <> None)
        by (intro N; rewrite N in Dt'; discriminate Dt').
      assert (Eq : FS.lookup_opt (Some t') (dest ++ p :: ps)
                   = FS.lookup_opt (Some t) (dest ++ p :: ps))
        by (now rewrite !lookup_opt_app, L').
      unfold FS.lookup in Ex |- *. rewrite Eq.
      destruct (FS.is_dir (FS.lookup_opt (Some t) (dest ++ p :: ps)));
        [discriminate Ex|].
      destruct (FS.put_opt (Some t) _ _) as [t2|] eqn:P; [|discriminate Ex].
      injection Ex as <-.
      destruct (put_transfer _ _ _ _ _ _ (eq_sym L') NN' P) as (t2' & P' & L2').
      rewrite P'. exists t2'. split; [reflexivity|]. split; [now symmetry|].
      assert (NEp : p :: ps <> []) by discriminate.
      apply (lookup_after_put _ _ _ _ _ NEp P').
Qed.

Lemma extract_members_transfer (h : host) dest ms : forall X Y X',
  FS.lookup X dest = FS.lookup Y dest -> FS.is_dir (FS.lookup Y dest) = true ->
  extract_members h dest ms X = (Return tt, X') ->
  exists Y', extract_members h dest ms Y = (Return tt, Y') /\
             FS.lookup X' dest = FS.lookup Y' dest.
Proof.
  induction ms as [|m ms IH]; intros X Y X' E D Ex.
  - cbn [extract_members] in Ex |- *. injection Ex as <-. now exists Y.
  - cbn [extract_members] in Ex |- *.
    destruct (extract_member h dest m X) as [[[]|e] X1] eqn:E1; [|discriminate Ex].
    destruct (extract_member_transfer h dest m X Y X1 E D E1) as (Y1 & E1' & L1 & D1).
    rewrite E1'. apply (IH X1 Y1 X' L1 D1 Ex).
Qed.

Lemma extractall_transfer (h : host) src dest X Y X' :
  FS.lookup X (locate h src) = FS.lookup Y (locate h src) ->
  FS.lookup X (locate h dest) = FS.lookup Y (locate h dest) ->
  FS.is_dir (FS.lookup Y (locate h dest)) = true ->
  extractall h src dest X = (Return tt, X') ->
  exists Y', extractall h src dest Y = (Return tt, Y') /\
             FS.lookup X' (locate h dest) = FS.lookup Y' (locate h dest).
Proof.
  unfold extractall. intros Es Ed D Ex. rewrite <- Es.
  destruct (FS.lookup X (locate h src)) as [[[d|ms|ms0 nm wr er]|es]|]; try discriminate Ex.
  - apply (extract_members_transfer h _ ms X Y X' Ed D Ex).
  - destruct (member_is_dir nm).
    + apply (extract_members_transfer h _ _ X Y X' Ed D Ex).
    + exfalso.
      destruct (extract_members h (locate h dest) ms0 X) as [[[]|e] X1];
        [|discriminate Ex].
      now apply extract_damaged_raises in Ex.
Qed.

Lemma distinct_opt_get (n : pystr) es :
  distinct_tree (Dir es) = true ->
  match FS.get n es with Some t => distinct_tree t = true | None => True end.
Proof.
  intro D. destruct (FS.get n es) as [t|] eqn:G; [|exact I].
  apply get_In in G. apply distinct_tree_Dir in D. destruct D as [_ F].
  rewrite Forall_forall in F. apply (F _ G).
Qed.

Lemma distinct_set (n : pystr) (c : node) es :
  distinct_tree (Dir es) = true -> distinct_tree c = true ->
  distinct_tree (Dir (FS.set n c es)) = true.
Proof.
  intros D Dc. apply distinct_tree_Dir in D. destruct D as [N F].
  apply distinct_tree_Dir. split; [now apply set_distinct|].
  rewrite Forall_forall in F |- *. intros e I. apply set_In in I.
  destruct I as [->|I]; [exact Dc|now apply F].
Qed.

Lemma distinct_mkdirs loc : forall o t,
  match o with Some t0 => distinct_tree t0 = true | None => True end ->
  FS.mkdirs_opt o loc = Some t -> distinct_tree t = true.
Proof.
  induction loc as [|n loc IH]; intros o t D Mk.
  - destruct o as [[c|es]|]; cbn in Mk; try discriminate Mk;
      injection Mk as <-; [exact D|reflexivity].
  - assert (E : exists es, distinct_tree (Dir es) = true /\
                           match FS.mkdirs_opt (FS.get n es) loc with
                           | Some c => Some (Dir (FS.set n c es))
                           | None => None
                           end = Some t).
    { destruct o as [[c|es]|]; cbn in Mk; try discriminate Mk.
      - exists es. split; assumption.
      - exists []. split; [reflexivity|assumption]. }
    destruct E as (es & Des & E).
    destruct (FS.mkdirs_opt (FS.get n es) loc) as [c|] eqn:Mc; [|discriminate E].
    injection E as <-. apply distinct_set; [assumption|].
    apply (IH (FS.get n es) c); [|assumption]. now apply distinct_opt_get.
Qed.

Lemma distinct_makedirs (h : host) p X X' :
  distinct_tree X = true -> makedirs_exist_ok h p X = (Return tt, X') ->
  distinct_tree X' = true.
Proof.
  unfold makedirs_exist_ok. intros D E.
  destruct (FS.mkdirs_opt (Some X) (locate h p)) as [t|] eqn:Mk; [|discriminate E].
  injection E as <-. apply (distinct_mkdirs _ (Some X) _ D Mk).
Qed.

Lemma distinct_extract_member (h : host) dest m X X' :
  distinct_tree X = true -> extract_member h dest m X = (Return tt, X') ->
  distinct_tree X' = true.
Proof.
  unfold extract_member. intros D E. destruct (member_is_dir (fst m)).
  - destruct (FS.mkdirs_opt (Some X) _) as [t|] eqn:Mk; [|discriminate E].
    injection E as <-. apply (distinct_mkdirs _ (Some X) _ D Mk).
  - destruct (FS.mkdirs_opt (Some X) _) as [t|] eqn:Mk; [|discriminate E].
    destruct (FS.is_dir (FS.lookup t _)); [discriminate E|].
    destruct (FS.put_opt (Some t) _ _) as [t2|] eqn:P; [|discriminate E].
    injection E as <-.
    apply (distinct_put_file _ (Some t) _ _ (distinct_mkdirs _ (Some X) _ D Mk) P).
Qed.

Lemma distinct_extract_members (h : host) dest ms : forall X X',
  distinct_tree X = true -> extract_members h dest ms X = (Return tt, X') ->
  distinct_tree X' = true.
Proof.
  induction ms as [|m ms IH]; intros X X' D E; cbn [extract_members] in E.
  - now injection E as <-.
  - destruct (extract_member h dest m X) as [[[]|e] X1] eqn:E1; [|discriminate E].
    apply (IH X1 X' (distinct_extract_member h dest m X X1 D E1) E).
Qed.

Lemma distinct_extractall (h : host) src dest X X' :
  distinct_tree X = true -> extractall h src dest X = (Return tt, X') ->
  distinct_tree X' = true.
Proof.
  intros D E. destruct (extractall_returns h _ _ _ _ E) as (ms & Em).
  apply (distinct_extract_members h _ ms X X' D Em).
Qed.

Lemma del_In {A} (n : pystr) (l : list (pystr * A)) e : In e (FS.del n l) -> In e l.
Proof.
  induction l as [|[m x] l IH]; cbn [FS.del]; [auto|].
  destruct (str_eqb m n); [now right|]. intros [<-|I]; [now left|right; auto].
Qed.

Lemma distinct_del (n : pystr) es :
  distinct_tree (Dir es) = true -> distinct_tree (Dir (FS.del n es)) = true.
Proof.
  intro D. apply distinct_tree_Dir in D. destruct D as [N F].
  apply distinct_tree_Dir. split.
  - rewrite del_filter by assumption. now apply filter_names_NoDup.
  - rewrite Forall_forall in F |- *. intros e I. apply del_In in I. now apply F.
Qed.

Lemma distinct_del_at loc : forall t t',
  distinct_tree t = true -> FS.del_at t loc = Some t' -> distinct_tree t' = true.
Proof.
  induction loc as [|n loc IH]; intros t t' D E; [discriminate E|].
  destruct loc as [|n2 loc].
  - cbn [FS.del_at] in E. destruct t as [c|es]; [discriminate E|].
    injection E as <-. now apply distinct_del.
  - destruct t as [c|es]; [discriminate E|].
    rewrite del_at_cons in E by discriminate.
    destruct (FS.get n es) as [c|] eqn:G; [|discriminate E].
    destruct (FS.del_at c (n2 :: loc)) as [c'|] eqn:Dc; [|discriminate E].
    injection E as <-. apply distinct_set; [assumption|].
    apply (IH c c'); [|assumption].
    pose proof (distinct_opt_get n es D) as Dg. now rewrite G in Dg.
Qed.

(** What a successful conversion leaves: the file system after stage 3
    with the workspace deleted. *)
Lemma conversion_outcome (h : host) (zip_file_name output_dir : pystr)
    (cbo : option callback) (root root1 root2 ws : node)
    (es : list (pystr * node)) :
  plat h = Windows ->
  drive_absolute output_dir = true ->
  legal_name Windows (sb3_name h zip_file_name) = true ->
  raises_only_RuntimeError cbo ->
  makedirs_exist_ok h (os_path.join h output_dir [workspace_name]) root
  = (Return tt, root1) ->
  extractall h zip_file_name (os_path.join h output_dir [workspace_name]) root1
  = (Return tt, root2) ->
  distinct_tree root2 = true ->
  FS.lookup root2 (locate h output_dir ++ [workspace_name]) = Some ws ->
  legal_tree Windows ws = true ->
  FS.lookup ws resources_path = Some (Dir es) ->
  FS.is_dir (FS.lookup root2 (locate h output_dir ++ [sb3_name h zip_file_name]))
  = false ->
  exists X' F,
    fst (convert h zip_file_name output_dir cbo root) = Return true /\
    fs (snd (convert h zip_file_name output_dir cbo root)) = F /\
    FS.lookup X' (locate h output_dir ++ [sb3_name h zip_file_name])
    = Some (File (Archive (map (fun f => (join_with slash (fst f), snd f))
                             (files_under (Dir es))))) /\
    (forall l, diverge (locate h output_dir ++ [sb3_name h zip_file_name]) l ->
               FS.lookup X' l = FS.lookup root2 l) /\
    FS.del_at X' (locate h output_dir ++ [workspace_name]) = Some F /\
    FS.lookup F (locate h output_dir ++ [workspace_name]) = None /\
    distinct_tree F = true.
Proof.
  intros W Do Ln R Mk Ex Dt Ws Lt Res Tnd.
  destruct (temp_dir_facts h W output_dir Do) as (Dtd & Ft & Ct & Lct).
  rewrite <- Lct in Ws.
  destruct (conversion_succeeds h W zip_file_name output_dir Do Ln root2 ws es
              Ws Lt Res Tnd cbo root root1 R Mk Ex)
    as (X' & F & Rp & HT & HF & Del & Gone & Rt & Rf & Ro).
  assert (DX : distinct_tree X' = true).
  { pose proof (distinct_repack h (target_zip_name_of h zip_file_name output_dir)
                  (app_dir_of h output_dir) (World root2 [] []) Dt) as Pr.
    now rewrite Rp in Pr. }
  rewrite Lct in Del, Gone.
  exists X', F. split; [exact Rt|]. split; [exact Rf|]. split; [exact HT|].
  split; [exact HF|]. split; [exact Del|]. split; [exact (Gone DX)|].
  apply (distinct_del_at _ _ _ DX Del).
Qed.

(** X17: converting the same archive into the same directory again gives
    the same members.  On a Windows host, after a successful conversion
    that started without a workspace, of an input that lies outside the
    workspace and is not the output archive itself, a second conversion
    with the same arguments succeeds as well, and every location of the
    file system shows the same after it as before it: the same
    directories, no workspace, the same regular files, and an output
    archive with the same members, in the same order and with the same
    data.  The time stamps of the members, which are those of the files
    of the second extraction, are not part of [content] and are not
    compared: the bytes of the two archives can differ in them. *)
Theorem repeated_conversion_same_members (h : host) (zip_file_name output_dir : pystr)
    (cbo cbo' : option callback) (root root1 root2 ws : node)
    (es : list (pystr * node)) :
  plat h = Windows ->
  drive_absolute output_dir = true ->
  legal_name Windows (sb3_name h zip_file_name) = true ->
  raises_only_RuntimeError cbo -> raises_only_RuntimeError cbo' ->
  FS.lookup root (locate h output_dir ++ [workspace_name]) = None ->
  diverge (locate h output_dir ++ [workspace_name]) (locate h zip_file_name) ->
  diverge (locate h output_dir ++ [sb3_name h zip_file_name])
          (locate h zip_file_name) ->
  makedirs_exist_ok h (os_path.join h output_dir [workspace_name]) root
  = (Return tt, root1) ->
  extractall h zip_file_name (os_path.join h output_dir [workspace_name]) root1
  = (Return tt, root2) ->
  distinct_tree root2 = true ->
  FS.lookup root2 (locate h output_dir ++ [workspace_name]) = Some ws ->
  legal_tree Windows ws = true ->
  FS.lookup ws resources_path = Some (Dir es) ->
  FS.is_dir (FS.lookup root2 (locate h output_dir ++ [sb3_name h zip_file_name]))
  = false ->
  let run1 := convert h zip_file_name output_dir cbo root in
  let run2 := convert h zip_file_name output_dir cbo' (fs (snd run1)) in
  fst run1 = Return true /\
  fst run2 = Return true /\
  forall L, same_entry (FS.lookup (fs (snd run2)) L) (FS.lookup (fs (snd run1)) L).
Proof.
  intros W Do Ln R R' NoWs DvS1 DvS2 Mk Ex Dt Ws Lt Res Tnd. cbv zeta.
  destruct (conversion_outcome h zip_file_name output_dir cbo root root1 root2 ws es
              W Do Ln R Mk Ex Dt Ws Lt Res Tnd)
    as (X' & F & R1 & Fs1 & HT & HF & Del & Gone & DF).
  rewrite Fs1.
  destruct (temp_dir_facts h W output_dir Do) as (_ & _ & _ & Lct).
  destruct (target_facts h W output_dir Do zip_file_name Ln) as (LT & DvT).
  rewrite LT, Lct in DvT.
  set (P := locate h output_dir) in *.
  set (Q1 := P ++ [workspace_name]) in *.
  set (Q2 := P ++ [sb3_name h zip_file_name]) in *.
  set (temp_dir := os_path.join h output_dir [workspace_name]) in *.
  set (A := Archive (map (fun f => (join_with slash (fst f), snd f))
                       (files_under (Dir es)))) in *.
  assert (FrF : forall l, diverge Q1 l -> FS.lookup F l = FS.lookup X' l)
    by (intros l Dl; apply (lookup_del_frame _ _ _ _ Del Dl)).
  assert (LFt : FS.lookup F Q2 = Some (File A))
    by (rewrite FrF by (now apply diverge_sym); exact HT).
  destruct (lookup_prefix_dir (Some F) P [sb3_name h zip_file_name] (File A))
    as (eP & LFP); [discriminate|exact LFt|].
  assert (Gw : FS.get workspace_name eP = None).
  { unfold FS.lookup, Q1 in Gone. rewrite lookup_opt_app, LFP in Gone. exact Gone. }
  (* the second run: the workspace is made again *)
  destruct (mkdirs_new P (Some F) eP workspace_name LFP) as (F1 & Mk1);
    [now rewrite Gw|].
  assert (Mk2 : makedirs_exist_ok h temp_dir F = (Return tt, F1)).
  { unfold makedirs_exist_ok. rewrite Lct. fold P. fold Q1. unfold Q1.
    now rewrite Mk1. }
  assert (L1 : FS.lookup F1 Q1 = Some (Dir [])).
  { unfold FS.lookup, Q1. rewrite (lookup_mkdirs_same _ _ _ Mk1).
    unfold FS.lookup, Q1 in Gone. now rewrite Gone. }
  assert (Fr1 : forall l, diverge Q1 l -> FS.lookup F1 l = FS.lookup F l).
  { intros l Dl. apply (makedirs_frame h temp_dir F F1 l Mk2). now rewrite Lct. }
  (* the first run started from an empty workspace as well *)
  assert (L1' : FS.lookup root1 Q1 = Some (Dir [])).
  { unfold makedirs_exist_ok in Mk. rewrite Lct in Mk. fold P in Mk. fold Q1 in Mk.
    destruct (FS.mkdirs_opt (Some root) Q1) as [t|] eqn:Mk0; [|discriminate Mk].
    injection Mk as <-. unfold FS.lookup. rewrite (lookup_mkdirs_same _ _ _ Mk0).
    unfold FS.lookup in NoWs. fold P in NoWs. fold Q1 in NoWs. now rewrite NoWs. }
  assert (Fr0 : forall l, diverge Q1 l -> FS.lookup root2 l = FS.lookup root1 l).
  { intros l Dl. apply (extractall_frame h _ _ _ _ _ l Ex). now rewrite Lct. }
  assert (Src : FS.lookup root1 (locate h zip_file_name)
                = FS.lookup F1 (locate h zip_file_name)).
  { rewrite Fr1, FrF, HF, Fr0 by assumption. reflexivity. }
  destruct (extractall_transfer h zip_file_name temp_dir root1 F1 root2) as (F2 & Ex2 & L2).
  { exact Src. }
  { rewrite Lct. fold P. fold Q1. now rewrite L1, L1'. }
  { rewrite Lct. fold P. fold Q1. now rewrite L1. }
  { exact Ex. }
  rewrite Lct in L2. fold P in L2. fold Q1 in L2.
  assert (Fr2 : forall l, diverge Q1 l -> FS.lookup F2 l = FS.lookup F1 l).
  { intros l Dl. apply (extractall_frame h _ _ _ _ _ l Ex2). now rewrite Lct. }
  assert (Ws2 : FS.lookup F2 Q1 = Some ws) by (now rewrite <- L2).
  assert (Tnd2 : FS.is_dir (FS.lookup F2 Q2) = false).
  { rewrite Fr2, Fr1, LFt by (now apply diverge_sym). reflexivity. }
  assert (D2 : distinct_tree F2 = true).
  { apply (distinct_extractall h _ _ _ _ (distinct_makedirs h _ _ _ DF Mk2) Ex2). }
  destruct (conversion_outcome h zip_file_name output_dir cbo' F F1 F2 ws es
              W Do Ln R' Mk2 Ex2 D2 Ws2 Lt Res Tnd2)
    as (X2 & F' & R2 & Fs2 & HT2 & HF2 & Del2 & Gone2 & _).
  fold P in HT2, HF2, Del2, Gone2. fold Q1 in Del2, Gone2. fold Q2 in HT2, HF2.
  fold A in HT2.
  rewrite Fs2. split; [exact R1|]. split; [exact R2|].
  assert (FrF' : forall l, diverge Q1 l -> FS.lookup F' l = FS.lookup X2 l)
    by (intros l Dl; apply (lookup_del_frame _ _ _ _ Del2 Dl)).
  assert (LFt' : FS.lookup F' Q2 = Some (File A))
    by (rewrite FrF' by (now apply diverge_sym); exact HT2).
  assert (Above : forall L r, r <> [] -> Q2 = L ++ r ->
            same_entry (FS.lookup F' L) (FS.lookup F L)).
  { intros L r NE EQ. unfold FS.lookup.
    destruct (lookup_prefix_dir (Some F) L r (File A) NE) as (e1 & E1);
      [rewrite <- EQ; exact LFt|].
    destruct (lookup_prefix_dir (Some F') L r (File A) NE) as (e2 & E2);
      [rewrite <- EQ; exact LFt'|].
    rewrite E1, E2. exact I. }
  intro L. destruct (location_cases Q1 L) as [(r & ->)|[(r & NE & EQ)|Dv1]].
  - unfold FS.lookup.
    rewrite (lookup_below_none _ Q1 r Gone2), (lookup_below_none _ Q1 r Gone).
    exact I.
  - destruct (exists_last NE) as (r0 & x & ->).
    unfold Q1 in EQ. rewrite app_assoc in EQ. apply app_inj_tail in EQ.
    destruct EQ as [EP _].
    apply (Above L (r0 ++ [sb3_name h zip_file_name])).
    + destruct r0; discriminate.
    + unfold Q2. now rewrite EP, app_assoc.
  - destruct (location_cases Q2 L) as [(r & ->)|[(r & NE & EQ)|Dv2]].
    + rewrite FrF', FrF by assumption. unfold FS.lookup in *.
      rewrite !lookup_opt_app, HT, HT2. apply same_entry_refl.
    + now apply (Above L r).
    + rewrite FrF', HF2, Fr2, Fr1 by assumption. apply same_entry_refl.
Qed.

Lemma repeated_conversion_same_members_witness :
  let run1 := convert windows_host (str "C:/dl/game.zip") (str "C:/out")
                (Some quiet) win_root in
  let run2 := convert windows_host (str "C:/dl/game.zip") (str "C:/out")
                None (fs (snd run1)) in
  fst run1 = Return true /\
  fst run2 = Return true /\
  forall L, same_entry (FS.lookup (fs (snd run2)) L) (FS.lookup (fs (snd run1)) L).
Proof.
  apply (repeated_conversion_same_members windows_host (str "C:/dl/game.zip") (str "C:/out")
           (Some quiet) None win_root win_root_made win_root_extracted
           (workspace_of win_root_extracted) (resources_of win_root_extracted)
           eq_refl eq_refl eq_refl quiet_raises_nothing no_callback_raises_nothing).
  - vm_compute. reflexivity.
  - apply diverge_later, diverge_here. discriminate.
  - apply diverge_later, diverge_here. discriminate.
  - vm_compute. reflexivity.
  - vm_compute. reflexivity.
  - vm_compute. reflexivity.
  - vm_compute. reflexivity.
  - vm_compute. reflexivity.
  - vm_compute. reflexivity.
  - vm_compute. reflexivity.
Defined.

(** ** The conversion button *)

Section ConversionButton.

Variable S : Type.
Variable h : host.
Variable os : OS S.
Variable os_access : pystr -> access_mode -> S -> bool.

Ltac expose :=
  unfold logged, log, with_events, lift, query; cbn [fs events stdout app fst snd].

(** The invocations a conversion makes end with the 100% event when it
    succeeds and with a 0% event when it fails. *)
Lemma conversion_last_event zip_file_name output_dir (w : world S) :
  let run := convert_exe_to_sb3 h os zip_file_name output_dir
               (Some progress_callback) w in
  exists earlier last,
    events (snd run) = events w ++ earlier ++ [last] /\
    ((fst run = Return true /\ last = (100%Z, msg_done)) \/
     (fst run = Return false /\ fst last = 0%Z /\
      failure_message h output_dir (snd last))).
Proof.
  cbv zeta.
  rewrite (convert_stages S h os zip_file_name output_dir (Some progress_callback) w
             quiet_raises_nothing).
  destruct w as [s ev so]. unfold stages. cbv zeta. expose.
  destruct (os_makedirs_exist_ok os _ s) as [[[]|e1] s1]; expose.
  2:{ exists [], (0%Z, msg_unexpected e1). split; [reflexivity|]. right.
      repeat split. right; right; right. now exists e1. }
  destruct (zip_extractall os _ _ s1) as [[[]|e2] s2]; expose.
  2:{ eexists [_], (0%Z, _). split; [now rewrite <- app_assoc|]. right.
      repeat split. cbn [snd].
      destruct (isinstance_BadZipFile e2); [now left|].
      right; right; right. now exists e2. }
  destruct (negb (os_path_exists os _ s2)); expose.
  { eexists [_], (0%Z, _). split; [now rewrite <- app_assoc|]. right.
    repeat split. right. now left. }
  match goal with
  | |- context [repack h os ?t ?a (World ?x ?ev ?so)] =>
      destruct (repack_world S h os t a x ev so) as (r3 & s3 & so3 & E3); rewrite E3
  end.
  destruct r3 as [[]|e3]; expose.
  2:{ eexists [_; _], (0%Z, _). split; [now rewrite <- !app_assoc|]. right.
      repeat split. right; right; left. now exists e3. }
  match goal with
  | |- context [_cleanup_temp_dir h os ?t (World ?x ?ev ?so)] =>
      destruct (cleanup_world S h os t x ev so) as (r4 & s4 & so4 & E4); rewrite E4
  end.
  destruct r4 as [[]|e4]; expose.
  - eexists [_; _; _], _. split; [now rewrite <- !app_assoc|]. left.
    split; reflexivity.
  - eexists [_; _; _], (0%Z, _). split; [now rewrite <- !app_assoc|]. right.
    repeat split. right; right; right. now exists e4.
Qed.

Lemma skipn_length_app_list {A} (l t : list A) : skipn (length l) (l ++ t) = t.
Proof. induction l; [reflexivity|assumption]. Qed.

Lemma display_last (l : list progress_event) : forall (g : window) e,
  fold_left display (l ++ [e]) g = display g e.
Proof.
  induction l as [|x l IH]; intros g e; [reflexivity|].
  cbn [app fold_left]. now rewrite IH.
Qed.

(** With both paths assigned, the outcome of the validation. *)
Lemma validate_inputs_assigned (g : window) (s : S) input output :
  input_file_path g = Some input -> output_dir_path g = Some output ->
  if inputs_valid os_access input output s
  then _validate_inputs os_access s g = (Return true, g)
  else exists b,
         _validate_inputs os_access s g = (Return false, show b g) /\
         In b [box_select_first; box_not_zip; box_unreadable; box_not_writable].
Proof.
  intros Ei Eo. unfold inputs_valid, _validate_inputs, _validate_zip.
  rewrite Ei, Eo.
  destruct (nonempty input && nonempty output); cbn [negb andb].
  2:{ eexists. split; [reflexivity|]. cbn. auto. }
  destruct (endswith (str ".zip") (lower input)); cbn [negb andb].
  2:{ eexists. split; [reflexivity|]. cbn. auto. }
  destruct (os_access input R_OK s); cbn [negb andb].
  2:{ eexists. split; [reflexivity|]. cbn. auto. }
  destruct (os_access output W_OK s); cbn [negb andb]; [reflexivity|].
  eexists. split; [reflexivity|]. cbn. auto.
Qed.

(** X18: [__init__] does not assign [input_file_path] and
    [output_dir_path]; a selection or drop handler does, or [_load_history]
    for a stored path that still exists.  When the conversion button is
    pressed while one of them is not assigned, [_perform_conversion] raises
    [AttributeError] from the first line of [_validate_inputs]: no message
    box is shown, the window and the file system are as they were, and the
    converter does not run. *)
Theorem perform_conversion_unassigned (g : window) (w : world S) :
  input_file_path g = None \/ output_dir_path g = None ->
  exists name,
    _perform_conversion h os os_access g w
    = (Raise (AttributeError name), (g, w)).
Proof.
  intro U. unfold _perform_conversion, _validate_inputs.
  destruct (input_file_path g) as [input|]; [|eexists; reflexivity].
  destruct (output_dir_path g) as [output|]; [|eexists; reflexivity].
  destruct U; discriminate.
Qed.

(** X19: with both paths assigned, [_perform_conversion] runs the
    converter on validated inputs only.  When a path is empty, the input
    does not end in [.zip] (in any letter case), the input cannot be read
    or the output directory cannot be written, it shows exactly one
    message box, one of the four of the validation, and returns: the file
    system, the console, the progress bar and the status bar are as they
    were. *)
Theorem perform_conversion_validates (g : window) (w : world S) input output :
  input_file_path g = Some input -> output_dir_path g = Some output ->
  inputs_valid os_access input output (fs w) = false ->
  exists b,
    _perform_conversion h os os_access g w = (Return tt, (show b g, w)) /\
    In b [box_select_first; box_not_zip; box_unreadable; box_not_writable].
Proof.
  intros Ei Eo V.
  pose proof (validate_inputs_assigned g (fs w) input output Ei Eo) as Va.
  rewrite V in Va. destruct Va as (b & Ev & Ib).
  exists b. split; [|exact Ib]. unfold _perform_conversion. now rewrite Ev.
Qed.

(** X20: on inputs that pass the validation [_perform_conversion] runs the
    converter on the two paths, does not raise, and shows exactly one
    message box, which agrees with what the progress bar displays at the
    end: the completion box with the bar at 100 and the completion message
    after a success, the failure box with the bar at 0 and a failure
    message in the status bar after a failure. *)
Theorem perform_conversion_reports (g : window) (w : world S) input output :
  input_file_path g = Some input -> output_dir_path g = Some output ->
  inputs_valid os_access input output (fs w) = true ->
  let conv := convert_exe_to_sb3 h os input output (Some progress_callback) w in
  exists g',
    _perform_conversion h os os_access g w = (Return tt, (g', snd conv)) /\
    input_file_path g' = Some input /\ output_dir_path g' = Some output /\
    settings g' = settings g /\
    ((fst conv = Return true /\
      boxes g' = boxes g ++ [box_done] /\
      progress_bar g' = 100%Z /\ status_bar g' = msg_done) \/
     (fst conv = Return false /\
      boxes g' = boxes g ++ [box_failed] /\
      progress_bar g' = 0%Z /\ failure_message h output (status_bar g'))).
Proof.
  intros Ei Eo V. cbv zeta.
  pose proof (validate_inputs_assigned g (fs w) input output Ei Eo) as Va.
  rewrite V in Va. unfold _perform_conversion. rewrite Va.
  cbn [display input_file_path output_dir_path]. rewrite Ei, Eo.
  destruct (conversion_last_event input output w) as (earlier & last & Ev & Out).
  destruct (convert_exe_to_sb3 h os input output (Some progress_callback) w)
    as [r w'] eqn:Run.
  cbn [fst snd] in *. rewrite Ev, skipn_length_app_list, display_last.
  destruct Out as [[-> ->]|(-> & F0 & Fm)].
  - eexists. split; [reflexivity|]. cbn. rewrite Ei, Eo. split; [reflexivity|].
    split; [reflexivity|]. split; [reflexivity|]. left. repeat split.
  - eexists. split; [reflexivity|]. cbn. rewrite Ei, Eo. split; [reflexivity|].
    split; [reflexivity|]. split; [reflexivity|]. right. repeat split; assumption.
Qed.

End ConversionButton.

(** ** The handlers that take a path *)

Section Selections.

Variable S : Type.
Variable h : host.
Variable os : OS S.
Variable os_access : pystr -> access_mode -> S -> bool.
Variable json_dumps : pystr -> pystr -> pystr.

Lemma drop_finds urls : forall g,
  dropEvent h json_dumps urls g
  = match find is_zip_name urls with
    | Some p => _save_history json_dumps (set_input_file p (os_path.basename h p) g)
    | None => (Return tt, g)
    end.
Proof.
  induction urls as [|p urls IH]; intro g; [reflexivity|].
  cbn [dropEvent find]. unfold is_zip_name at 1.
  destruct (endswith (str ".zip") (lower p)); [reflexivity|apply IH].
Qed.

(** What [_save_history] does once a handler has assigned its path. *)
Lemma save_history_outcome (g : window) :
  let run := _save_history json_dumps g in
  match input_file_path g, output_dir_path g with
  | Some i, Some o =>
      run = (Return tt, setValue_history (json_dumps i o) g)
  | None, _ => run = (Raise (AttributeError "input_file_path"), g)
  | _, None => run = (Raise (AttributeError "output_dir_path"), g)
  end.
Proof.
  cbv zeta. unfold _save_history.
  destruct (input_file_path g); [|reflexivity].
  destruct (output_dir_path g); reflexivity.
Qed.

(** X21: each handler through which the user gives a path ([dropEvent],
    [_select_input_file], [_select_output_dir]) stores the history when
    both paths are assigned once it has assigned the path it takes, and
    only then.  In that case it returns and the stored history is
    [json.dumps] of the two current paths; when the other path is not
    assigned yet, it raises [AttributeError] from [_save_history] after it
    has assigned its own path, and the stored history is as before; when it
    takes no path (no dropped name ends in [.zip], the dialog was
    cancelled, the chosen file failed the validation), it returns with the
    paths and the settings as they were. *)
Theorem selection_saves_history (a : user_action) (s : S) (g : window) :
  let run := handle S h os_access json_dumps a s g in
  match taken S os_access a s with
  | None =>
      fst run = Return tt /\
      input_file_path (snd run) = input_file_path g /\
      output_dir_path (snd run) = output_dir_path g /\
      settings (snd run) = settings g
  | Some p =>
      input_file_path (snd run) = input_after a p g /\
      output_dir_path (snd run) = output_after a p g /\
      match input_after a p g, output_after a p g with
      | Some i, Some o =>
          fst run = Return tt /\
          history (settings (snd run)) = Some (json_dumps i o)
      | None, _ =>
          fst run = Raise (AttributeError "input_file_path") /\
          history (settings (snd run)) = history (settings g)
      | _, None =>
          fst run = Raise (AttributeError "output_dir_path") /\
          history (settings (snd run)) = history (settings g)
      end
  end.
Proof.
  cbv zeta. destruct a as [urls|chosen|chosen]; cbn [handle taken].
  - rewrite drop_finds. destruct (find is_zip_name urls) as [p|]; [|auto].
    cbn [input_after output_after].
    pose proof (save_history_outcome
                  (set_input_file p (os_path.basename h p) g)) as Sv.
    cbv zeta in Sv. cbn [set_input_file input_file_path output_dir_path] in Sv.
    destruct (output_dir_path g) as [o|] eqn:Eo; rewrite Sv; cbn; rewrite ?Eo;
      repeat split; reflexivity.
  - unfold _select_input_file, _validate_zip, is_zip_name.
    destruct (nonempty chosen); cbn [andb]; [|auto].
    destruct (endswith (str ".zip") (lower chosen)); cbn [negb andb]; [|cbn; auto].
    destruct (os_access chosen R_OK s); cbn [negb]; [|cbn; auto].
    cbn [input_after output_after].
    match goal with
    | |- context [_save_history json_dumps ?g1] =>
        pose proof (save_history_outcome g1) as Sv
    end.
    cbv zeta in Sv.
    cbn [setValue_last_input_dir set_settings set_input_file input_file_path
         output_dir_path] in Sv.
    destruct (output_dir_path g) as [o|] eqn:Eo; rewrite Sv; cbn; rewrite ?Eo;
      repeat split; reflexivity.
  - unfold _select_output_dir.
    destruct (nonempty chosen); [|auto].
    cbn [input_after output_after].
    match goal with
    | |- context [_save_history json_dumps ?g1] =>
        pose proof (save_history_outcome g1) as Sv
    end.
    cbv zeta in Sv.
    cbn [setValue_last_output_dir set_settings set_output_dir input_file_path
         output_dir_path] in Sv.
    destruct (input_file_path g) as [i|] eqn:Ei; rewrite Sv; cbn; rewrite ?Ei;
      repeat split; reflexivity.
Qed.

Lemma find_is_zip urls p : find is_zip_name urls = Some p -> is_zip_name p = true.
Proof. intro F. now apply find_some in F. Qed.

Lemma endswith_nonempty (suffix s : pystr) :
  suffix <> [] -> endswith suffix s = true -> nonempty s = true.
Proof.
  intros NE E. destruct s as [|c s]; [|reflexivity].
  unfold endswith in E. cbn [rev] in E.
  destruct (rev suffix) as [|x r] eqn:R; [|discriminate E].
  apply (f_equal (@rev ascii)) in R. rewrite rev_involutive in R. now subst.
Qed.

(** X22: [dropEvent] takes the first dropped path that ends in [.zip] (in
    any letter case) without a look at the file system.  With an output
    directory assigned it returns with this path as the input and the
    history stored; when the file cannot be read, the conversion button
    then shows the unreadable-file box and does not run the converter. *)
Theorem dropped_file_checked_at_conversion (urls : list pystr) (p output : pystr)
    (g : window) (w : world S) :
  find is_zip_name urls = Some p ->
  output_dir_path g = Some output -> nonempty output = true ->
  os_access p R_OK (fs w) = false ->
  let g1 := setValue_history (json_dumps p output)
              (set_input_file p (os_path.basename h p) g) in
  dropEvent h json_dumps urls g = (Return tt, g1) /\
  _perform_conversion h os os_access g1 w
  = (Return tt, (show box_unreadable g1, w)).
Proof.
  intros F Eo NO NA. cbv zeta. split.
  - rewrite drop_finds, F. unfold _save_history.
    cbn [set_input_file input_file_path output_dir_path]. now rewrite Eo.
  - pose proof (find_is_zip urls p F) as Z. unfold is_zip_name in Z.
    assert (NP : nonempty p = true).
    { apply (endswith_nonempty (str ".zip") (lower p)) in Z; [|discriminate].
      destruct p; [discriminate Z|reflexivity]. }
    unfold _perform_conversion, _validate_inputs, _validate_zip.
    cbn [setValue_history set_settings set_input_file input_file_path
         output_dir_path].
    rewrite Eo, NP, NO, Z, NA. reflexivity.
Qed.

End Selections.

Lemma perform_conversion_unassigned_witness :
  exists name,
    _perform_conversion windows_host (tree_os windows_host)
      (exists_access windows_host)
      (set_output_dir (str "C:/out") new_window) (World win_root [] [])
    = (Raise (AttributeError name),
       (set_output_dir (str "C:/out") new_window, World win_root [] [])).
Proof.
  apply perform_conversion_unassigned. left. reflexivity.
Defined.

Lemma perform_conversion_validates_witness :
  let g := set_output_dir (str "C:/out")
             (set_input_file (str "C:/dl/game.exe") (str "game.exe") new_window) in
  exists b,
    _perform_conversion windows_host (tree_os windows_host)
      (exists_access windows_host) g (World win_root [] [])
    = (Return tt, (show b g, World win_root [] [])) /\
    In b [box_select_first; box_not_zip; box_unreadable; box_not_writable].
Proof.
  apply (perform_conversion_validates node windows_host (tree_os windows_host)
           (exists_access windows_host) _ _ (str "C:/dl/game.exe") (str "C:/out"));
    reflexivity.
Defined.

Lemma perform_conversion_reports_witness :
  let g := set_output_dir (str "C:/out")
             (set_input_file (str "C:/dl/game.zip") (str "game.zip") new_window) in
  let conv := convert_exe_to_sb3 windows_host (tree_os windows_host)
                (str "C:/dl/game.zip") (str "C:/out") (Some progress_callback)
                (World win_root [] []) in
  exists g',
    _perform_conversion windows_host (tree_os windows_host)
      (exists_access windows_host) g (World win_root [] [])
    = (Return tt, (g', snd conv)) /\
    input_file_path g' = Some (str "C:/dl/game.zip") /\
    output_dir_path g' = Some (str "C:/out") /\
    settings g' = settings g /\
    ((fst conv = Return true /\
      boxes g' = boxes g ++ [box_done] /\
      progress_bar g' = 100%Z /\ status_bar g' = msg_done) \/
     (fst conv = Return false /\
      boxes g' = boxes g ++ [box_failed] /\
      progress_bar g' = 0%Z /\
      failure_message windows_host (str "C:/out") (status_bar g'))).
Proof.
  apply (perform_conversion_reports node windows_host (tree_os windows_host)
           (exists_access windows_host)
           (set_output_dir (str "C:/out")
              (set_input_file (str "C:/dl/game.zip") (str "game.zip") new_window))
           (World win_root [] []) (str "C:/dl/game.zip") (str "C:/out")
           eq_refl eq_refl).
  vm_compute. reflexivity.
Defined.

Lemma dropped_file_checked_at_conversion_witness :
  let urls := [str "C:/dl/notes.txt"; str "C:/dl/gone.ZIP"; str "C:/dl/game.zip"] in
  let g := set_output_dir (str "C:/out") new_window in
  let w := World win_root [] [] in
  let g1 := setValue_history (plain_dumps (str "C:/dl/gone.ZIP") (str "C:/out"))
              (set_input_file (str "C:/dl/gone.ZIP")
                 (os_path.basename windows_host (str "C:/dl/gone.ZIP")) g) in
  dropEvent windows_host plain_dumps urls g = (Return tt, g1) /\
  _perform_conversion windows_host (tree_os windows_host)
    (exists_access windows_host) g1 w
  = (Return tt, (show box_unreadable g1, w)).
Proof.
  apply (dropped_file_checked_at_conversion node windows_host
           (tree_os windows_host) (exists_access windows_host) plain_dumps
           [str "C:/dl/notes.txt"; str "C:/dl/gone.ZIP"; str "C:/dl/game.zip"]
           (str "C:/dl/gone.ZIP") (str "C:/out")
           (set_output_dir (str "C:/out") new_window) (World win_root [] []));
    reflexivity.
Defined.
